(** * Deep Search: research orchestrator, client progress reducer and recovery

    A shallow embedding of the Deep Search subsystem of Deuz-Chat:

    - the server route [POST] of the deep-search API (planning, five web
      searches, five analyses, report streaming, persistence of the
      plan-links snapshot), with its helpers [createResearchPlan],
      [executeWebSearch], [analyzeResults], [updateMessageInDatabase] and
      [categorizeSource];
    - the client hook [useDeepSearch]: [addUpdate], [updateProgress],
      [handleServerEvent] and [recoverFromDatabase].

    JavaScript numbers that are counts, step numbers or rounded percentages
    are integers ([Z]); priorities and relevances are rationals ([Q]).  The
    percentages are computed on exact rationals: for the step counts of a
    plan the doubles of the source differ from them by less than 1e-13 and
    are never near a tie of [Math.round].  The external services (language
    model, web search, message store, clock, URL parser) are the fields of
    a [World]. *)

From Stdlib Require Import ZArith QArith Qround Qminmax String List Bool Lia DecimalString Sorted.
Import ListNotations.

Local Open Scope Z_scope.

(** ** JavaScript primitives used by the code *)

Module Js.

(** [s || d] on strings: the empty string is falsy. *)
Definition orStr (s d : string) : string :=
  if String.eqb s EmptyString then d else s.

(** Truthiness of a string. *)
Definition truthy (s : string) : bool := negb (String.eqb s EmptyString).

(** [x || d] on numbers: zero is falsy. *)
Definition orNum (x d : Q) : Q :=
  if Qeq_bool x 0 then d else x.

(** [x || d] on an optional number: [undefined] and zero are falsy. *)
Definition orOptNum (x : option Q) (d : Q) : Q :=
  match x with
  | Some q => orNum q d
  | None => d
  end.

(** [Math.round]: the nearest integer, ties towards plus infinity. *)
Definition Math_round (x : Q) : Z := Qfloor (x + (1 # 2)).

(** [l.length]. *)
Definition len {A : Type} (l : list A) : Z := Z.of_nat (length l).

(** The double-quote character, as a string. *)
Definition dquote : string := String (Ascii.ascii_of_nat 34) EmptyString.

(** *** Template-literal rendering of a number with an integer value

    [`${x}`] is [Number::toString(x)]: the shortest decimal that reads back
    as the same Number, written with all its digits below [10^21] and in
    exponent form from there. *)

(** The decimal digits of a natural number. *)
Definition digitsOf (n : Z) : string := NilZero.string_of_int (Z.to_int n).

(** The Number a non-negative integer denotes: itself below [2^53]; above,
    the nearest integer with a significand of 53 bits, a tie going to the
    even significand. *)
Definition toNumber (m : Z) : Z :=
  let b := Z.log2 m in
  if b <? 53 then m
  else
    let shift := b - 52 in
    let q := Z.shiftr m shift in
    let r := m - Z.shiftl q shift in
    let half := Z.shiftl 1 (shift - 1) in
    let q' := if (half <? r) || ((r =? half) && Z.odd q) then q + 1 else q in
    Z.shiftl q' shift.

(** The decimals [s * 10^e] that read back as the Number [v]: for each
    exponent [e], the nearest one below [v] and the nearest one above. *)
Definition decimalsOf (v : Z) : list (Z * Z) :=
  flat_map
    (fun e =>
       let p := 10 ^ Z.of_nat e in
       filter (fun c => (0 <? fst c) && (toNumber (fst c * p) =? v))
         [(v / p, Z.of_nat e); (v / p + 1, Z.of_nat e)])
    (seq 0 (S (String.length (digitsOf v)))).

(** The decimal [c] is to be preferred to [d]: it has fewer digits; or as
    many and is closer to [v]; or is as close and ends in an even digit. *)
Definition preferred (v : Z) (c d : Z * Z) : bool :=
  let k x := Z.of_nat (String.length (digitsOf (fst x))) in
  let far x := Z.abs (fst x * 10 ^ snd x - v) in
  (k c <? k d)
  || ((k c =? k d)
      && ((far c <? far d)
          || ((far c =? far d) && Z.even (fst c) && Z.odd (fst d)))).

Definition shortest (v : Z) : Z * Z :=
  fold_left (fun best c => if preferred v c best then c else best)
    (decimalsOf v) (v, 0).

Fixpoint zeros (n : nat) : string :=
  match n with
  | O => EmptyString
  | S n => ("0" ++ zeros n)%string
  end.

(** The digits [s] and the exponent [e] as [Number::toString] writes them:
    the digits and [e] zeros when the value is below [10^21], otherwise
    the first digit, the others after a point, and the exponent. *)
Definition render (c : Z * Z) : string :=
  let digits := digitsOf (fst c) in
  let n := Z.of_nat (String.length digits) + snd c in
  if n <=? 21 then (digits ++ zeros (Z.to_nat (snd c)))%string
  else
    match digits with
    | String d EmptyString => (String d "e+" ++ digitsOf (n - 1))%string
    | String d rest =>
        (String d ("." ++ rest) ++ "e+" ++ digitsOf (n - 1))%string
    | EmptyString => EmptyString
    end.

Definition showZ (z : Z) : string :=
  if z =? 0 then "0"%string
  else
    let v := toNumber (Z.abs z) in
    let shown :=
      if 2 ^ 1024 <=? v then "Infinity"%string else render (shortest v) in
    if z <? 0 then ("-" ++ shown)%string else shown.

(** [l.slice(0, n)]. *)
Definition slice0 {A : Type} (n : nat) (l : list A) : list A := firstn n l.

(** [s.includes(t)] for a non-empty pattern [t]. *)
Definition includes (s t : string) : bool :=
  match String.index 0 t s with
  | Some _ => true
  | None => false
  end.

(** [[...new Set(l)]]: duplicates removed, first occurrences kept, in
    insertion order. *)
Fixpoint setInsertAll (seen l : list string) : list string :=
  match l with
  | [] => seen
  | x :: rest =>
      if existsb (String.eqb x) seen
      then setInsertAll seen rest
      else setInsertAll (seen ++ [x]) rest
  end.

Definition uniqueSpread (l : list string) : list string := setInsertAll [] l.

(** A thrown value: an [Error] object with its message, or anything else. *)
Inductive Exn : Type :=
| ErrorObj (message : string)
| NonError.

(** [error instanceof Error ? error.message : fallback]. *)
Definition messageOr (x : Exn) (fallback : string) : string :=
  match x with
  | ErrorObj m => m
  | NonError => fallback
  end.

(** The result of awaiting an external call. *)
Inductive Outcome (A : Type) : Type :=
| Returns (a : A)
| Throws (x : Exn).
Arguments Returns {A} a.
Arguments Throws {A} x.

End Js.
Import Js.

(** ** Data model *)

(** Research plan, as constrained by [ResearchPlanSchema]. *)
Record SearchSpec : Type := mkSearchSpec {
  priority : Q;
  query : string;
  search_type : string
}.

Record AnalysisSpec : Type := mkAnalysisSpec {
  analysis_type : string;
  analysis_description : string;
  analysis_priority : Q
}.

Record ResearchPlan : Type := mkResearchPlan {
  searches : list SearchSpec;
  analyses : list AnalysisSpec
}.

(** One result of the web-search service, and its normalised form. *)
Record TavilyResult : Type := mkTavilyResult {
  tv_title : string;
  tv_url : string;
  tv_content : string
}.

Record WebResult : Type := mkWebResult {
  wr_source : string;
  wr_title : string;
  wr_url : string;
  wr_content : string
}.

(** The value returned by [executeWebSearch]. *)
Record SearchResult : Type := mkSearchResult {
  sr_type : string;
  sr_query : string * Q;
  sr_results : list WebResult;
  sr_error : option string
}.

(** The object validated by [AnalysisResultSchema]. *)
Record TitledUrl : Type := mkTitledUrl {
  tu_title : string;
  tu_url : string
}.

Record Finding : Type := mkFinding {
  insight : string;
  evidence : list string;
  confidence : Q;
  source_links : list TitledUrl
}.

Record KeySource : Type := mkKeySource {
  ks_title : string;
  ks_url : string;
  ks_relevance : Q
}.

Record AnalysisResult : Type := mkAnalysisResult {
  findings : list Finding;
  implications : list string;
  limitations : list string;
  key_sources : list KeySource
}.

Record AnalysisEntry : Type := mkAnalysisEntry {
  ae_type : string;
  ae_description : string;
  ae_result : AnalysisResult
}.

(** The plan-links snapshot ([planLinksData], column [research_plan_links]). *)
Record Link : Type := mkLink {
  lk_title : string;
  lk_url : string;
  lk_relevance : Q;
  lk_domain : string;
  lk_found_at : string
}.

Record SearchLinkRecord : Type := mkSearchLinkRecord {
  sl_step : Z;
  sl_query : string;
  sl_priority : Q;
  sl_links : list Link;
  sl_status : string;
  sl_result_count : Z
}.

Record AnalysisLinkRecord : Type := mkAnalysisLinkRecord {
  al_step : Z;
  al_type : string;
  al_description : string;
  al_key_sources : list KeySource;
  al_findings_count : Z;
  al_status : string
}.

Record PlanLinks : Type := mkPlanLinks {
  plan_id : string;
  created_at : string;
  pl_searches : list SearchLinkRecord;
  pl_analyses : list AnalysisLinkRecord;
  total_links : Z;
  unique_domains : list string;
  completion_rate : Z
}.

(** Report sources ([allSources]) and persisted citations. *)
Record Source : Type := mkSource {
  src_title : string;
  src_url : string;
  src_relevance : option Q
}.

Record CitationSource : Type := mkCitationSource {
  cs_id : Z;
  cs_title : string;
  cs_url : string;
  cs_domain : string;
  cs_relevance : Q;
  cs_category : string
}.

(** The [data] payload of a completed step. *)
Inductive StepData : Type :=
| SearchStepData (query : string) (resultCount : Z) (sources : list TitledUrl)
| AnalysisStepData (type : string) (findingsCount : Z)
    (insights : option (list string)) (keyLinks : list KeySource).

(** The events of the stream: [sendUpdate(type, data)], one constructor per
    event type. *)
Module Ev.

Inductive Frame : Type :=
| step_start (step : Z) (title description status : string)
| step_complete (step : Z) (title description status : string)
    (data : option StepData)
| research_plan (plan : ResearchPlan) (totalSteps : Z)
| progress (value : Z)
| status_change (status : string)
| report_chunk (chunk : string)
| report_complete (fullReport : string) (citationCount : Z)
    (sources : list Source)
| error (message : string) (step : string)
| unknown (type : string).

End Ev.

Abbreviation Frame := Ev.Frame.

Record Update : Type := mkUpdate {
  payload : Frame;
  timestamp : string
}.

(** The message row of the store, with the columns Deep Search writes. *)
Record ResearchSteps : Type := mkResearchSteps {
  rs_planning : bool;
  rs_searching : bool;
  rs_analyzing : bool;
  rs_complete : bool
}.

Record Message : Type := mkMessage {
  msg_id : string;
  session_id : string;
  role : string;
  content : string;
  research_plan_col : option ResearchPlan;
  search_results : option (list SearchResult);
  analysis_results : option (list AnalysisEntry);
  research_status : option string;
  research_progress : option Z;
  research_steps : option ResearchSteps;
  research_plan_links : option PlanLinks;
  citation_sources : option (list CitationSource)
}.

(** The argument of [updateMessageInDatabase]: the columns to overwrite. *)
Record Updates : Type := mkUpdates {
  up_content : option string;
  up_search_results : option (list SearchResult);
  up_analysis_results : option (list AnalysisEntry);
  up_research_status : option string;
  up_research_progress : option Z;
  up_research_steps : option ResearchSteps;
  up_research_plan_links : option PlanLinks;
  up_citation_sources : option (list CitationSource)
}.

Definition overwrite {A : Type} (new : option A) (old : option A) : option A :=
  match new with
  | Some a => Some a
  | None => old
  end.

Definition applyUpdates (u : Updates) (m : Message) : Message :=
  {| msg_id := msg_id m;
     session_id := session_id m;
     role := role m;
     content := match up_content u with Some c => c | None => content m end;
     research_plan_col := research_plan_col m;
     search_results := overwrite (up_search_results u) (search_results m);
     analysis_results := overwrite (up_analysis_results u) (analysis_results m);
     research_status := overwrite (up_research_status u) (research_status m);
     research_progress := overwrite (up_research_progress u) (research_progress m);
     research_steps := overwrite (up_research_steps u) (research_steps m);
     research_plan_links :=
       overwrite (up_research_plan_links u) (research_plan_links m);
     citation_sources := overwrite (up_citation_sources u) (citation_sources m) |}.

(** ** The outside world

    Every external collaborator of the route is a field: the clock, the
    identifier generator, the URL parser, the two language-model calls, the
    web-search service and the message store.  Adapter calls are indexed by
    the loop index of the call, so an adapter may answer differently each
    time. *)

Record ReportRequest : Type := mkReportRequest {
  rr_topic : string;
  rr_searchResults : list SearchResult;
  rr_analysisResults : list AnalysisEntry;
  rr_allSources : list Source;
  rr_date : string
}.

(** The text stream of the report: the fragments produced, and the value
    thrown after them when the stream fails. *)
Record ReportStream : Type := mkReportStream {
  chunks : list string;
  failure : option Exn
}.

Record World : Type := mkWorld {
  clock : nat -> string;
  random : nat -> string;
  hostname : string -> option string;
  toLowerCase : string -> string;
  generatePlan : string -> string -> Outcome ResearchPlan;
  schemaMismatch : Exn;
  tavilySearch : nat -> string -> string -> Q -> Outcome (list TavilyResult);
  generateAnalysis :
    nat -> list SearchResult -> string -> string -> Outcome AnalysisResult;
  streamText : ReportRequest -> Outcome ReportStream;
  insertMessage : option string;
  updateOk : nat -> bool
}.

(** Calls made to the adapters, in order. *)
Inductive Call : Type :=
| CallPlan (topic : string)
| CallSearch (index : nat) (query depth : string) (maxResults : Q)
| CallAnalysis (index : nat) (type description : string)
| CallReport.

(** What a run does that can be observed from outside, in order: an event
    enqueued on the stream, or a call to an adapter. *)
Inductive Event : Type :=
| Sent (u : Update)
| Called (c : Call).

(** What a run has done so far: its events, the successive values of the
    message row, the number of clock readings and of store updates, and
    whether the stream is closed. *)
Record Env : Type := mkEnv {
  trace : list Event;
  rows : list Message;
  ticks : nat;
  writes : nat;
  closed : bool
}.

Definition startEnv : Env := mkEnv [] [] 0 0 false.

Definition sentFrame (ev : Event) : list Frame :=
  match ev with
  | Sent u => [payload u]
  | Called _ => []
  end.

Definition madeCall (ev : Event) : list Call :=
  match ev with
  | Sent _ => []
  | Called c => [c]
  end.

(** The frames enqueued, and the adapter calls made, oldest first. *)
Definition frames (e : Env) : list Frame := flat_map sentFrame (trace e).

Definition calls (e : Env) : list Call := flat_map madeCall (trace e).

(** ** Effects: state that survives exceptions *)

Inductive Res (A : Type) : Type :=
| Ok (a : A)
| Threw (x : Exn).
Arguments Ok {A} a.
Arguments Threw {A} x.

Definition M (A : Type) : Type := Env -> Env * Res A.

Definition ret {A : Type} (a : A) : M A := fun e => (e, Ok a).

Definition throw {A : Type} (x : Exn) : M A := fun e => (e, Threw x).

Definition bind {A B : Type} (m : M A) (f : A -> M B) : M B :=
  fun e =>
    match m e with
    | (e1, Ok a) => f a e1
    | (e1, Threw x) => (e1, Threw x)
    end.

Declare Scope run_scope.
Delimit Scope run_scope with run.
Notation "x <- m ;; k" := (bind m (fun x => k))
  (at level 61, m at next level, right associativity) : run_scope.
Notation "m ;;; k" := (bind m (fun _ => k))
  (at level 61, right associativity) : run_scope.
Local Open Scope run_scope.

(** [try { m } catch (x) { h x }]. *)
Definition tryCatch {A : Type} (m : M A) (h : Exn -> M A) : M A :=
  fun e =>
    match m e with
    | (e1, Ok a) => (e1, Ok a)
    | (e1, Threw x) => h x e1
    end.

(** [try { m } finally { f }], for a [finally] block that cannot throw. *)
Definition tryFinally {A : Type} (m : M A) (f : Env -> Env) : M A :=
  fun e => let (e1, r) := m e in (f e1, r).

Definition await {A : Type} (o : Outcome A) : M A :=
  match o with
  | Returns a => ret a
  | Throws x => throw x
  end.

Fixpoint mapM {A B : Type} (f : A -> M B) (l : list A) : M (list B) :=
  match l with
  | [] => ret []
  | a :: rest => b <- f a ;; bs <- mapM f rest ;; ret (b :: bs)
  end.

(** ** The research orchestrator (the deep-search route) *)

Section Orchestrator.

Variable w : World.

(** A reading of the clock ([new Date()], [Date.now()]). *)
Definition tick : M string :=
  fun e =>
    (mkEnv (trace e) (rows e) (S (ticks e)) (writes e) (closed e),
     Ok (clock w (ticks e))).

Definition record (ev : Event) : M unit :=
  fun e =>
    (mkEnv (trace e ++ [ev]) (rows e) (ticks e) (writes e) (closed e), Ok tt).

Definition enqueue (u : Update) : M unit := record (Sent u).

Definition logCall (c : Call) : M unit := record (Called c).

Definition close (e : Env) : Env :=
  mkEnv (trace e) (rows e) (ticks e) (writes e) true.

(** [sendUpdate(type, data)]: stamp the event and enqueue it. *)
Definition sendUpdate (f : Frame) : M unit :=
  ts <- tick ;;
  enqueue (mkUpdate f ts).

(** [new URL(url).hostname]: a [TypeError] on a string that is not a URL. *)
Definition newURLhostname (url : string) : M string :=
  match hostname w url with
  | Some h => ret h
  | None => throw (ErrorObj "Invalid URL")
  end.

(** *** Schemas enforced by [generateObject] *)

Definition inRange (lo hi x : Q) : bool := Qle_bool lo x && Qle_bool x hi.

Definition ResearchPlanSchema (p : ResearchPlan) : bool :=
  forallb (fun s => inRange 1 5 (priority s) && String.eqb (search_type s) "web")
    (searches p)
  && Nat.eqb (length (searches p)) 5
  && forallb (fun a => inRange 1 5 (analysis_priority a)) (analyses p)
  && Nat.eqb (length (analyses p)) 5.

Definition AnalysisResultSchema (r : AnalysisResult) : bool :=
  forallb (fun f => inRange 0 1 (confidence f)) (findings r)
  && forallb (fun k => inRange 0 1 (ks_relevance k)) (key_sources r).

(** [generateObject({schema, prompt})]: the model's answer, rejected when it
    does not match the schema. *)
Definition generateObject {A : Type} (schema : A -> bool) (answer : Outcome A)
  : M A :=
  a <- await answer ;;
  if schema a then ret a else throw (schemaMismatch w).

Definition createResearchPlan (topic currentDate : string) : M ResearchPlan :=
  logCall (CallPlan topic) ;;;
  generateObject ResearchPlanSchema (generatePlan w topic currentDate).

(** [Math.max(4, Math.min(8 - priority, 12))]. *)
Definition maxResults (priority : Q) : Q :=
  Qmax 4 (Qmin (8 - priority) 12).

Definition normalise (r : TavilyResult) : WebResult :=
  mkWebResult "web" (tv_title r) (tv_url r) (tv_content r).

(** [tvly.search(query, {searchDepth, includeAnswer: true, maxResults})]:
    the provider is asked with the arguments of the call, and the call is
    recorded with those same arguments. *)
Definition tvly_search (i : nat) (query searchDepth : string)
    (maxResults : Q) : M (list TavilyResult) :=
  logCall (CallSearch i query searchDepth maxResults) ;;;
  await (tavilySearch w i query searchDepth maxResults).

Definition executeWebSearch (i : nat) (query depth : string) (priority : Q)
  : M SearchResult :=
  tryCatch
    (let searchDepth :=
       if String.eqb depth "advanced" then "advanced"%string
       else "basic"%string in
     searchResults <-
       tvly_search i query searchDepth (maxResults priority) ;;
     ret (mkSearchResult "web" (query, priority)
            (map normalise searchResults) None))
    (fun error =>
       ret (mkSearchResult "web" (query, priority) []
              (Some (messageOr error "Search failed")))).

Definition analyzeResults (i : nat) (searchResults : list SearchResult)
    (analysisType analysisDescription : string) : M AnalysisResult :=
  logCall (CallAnalysis i analysisType analysisDescription) ;;;
  generateObject AnalysisResultSchema
    (generateAnalysis w i searchResults analysisType analysisDescription).

(** [updateMessageInDatabase]: a failure of the store is logged and
    swallowed; the row keeps its previous value. *)
Definition updateMessageInDatabase (messageId : string) (updates : Updates)
  : M unit :=
  fun e =>
    let rows' :=
      match rev (rows e) with
      | current :: _ =>
          if updateOk w (writes e)
          then rows e ++ [applyUpdates updates current]
          else rows e
      | [] => rows e
      end in
    (mkEnv (trace e) rows' (ticks e) (S (writes e)) (closed e), Ok tt).

(** The insertion of the assistant message; [None] when the store reports
    an error or throws. *)
Definition insertAssistantMessage (row : Message) : M (option string) :=
  fun e =>
    match insertMessage w with
    | Some id =>
        (mkEnv (trace e)
           (rows e ++ [mkMessage id (session_id row) (role row) (content row)
                         (research_plan_col row) (search_results row)
                         (analysis_results row) (research_status row)
                         (research_progress row) (research_steps row)
                         (research_plan_links row) (citation_sources row)])
           (ticks e) (writes e) (closed e),
         Ok (Some id))
    | None => (e, Ok None)
    end.

Definition categorizeSource (title url : string) : M string :=
  host <- newURLhostname url ;;
  let domain := toLowerCase w host in
  let titleLower := toLowerCase w title in
  ret (if includes domain "academic" || includes domain "edu"
          || includes domain "research" then "academic"
       else if includes domain "news" || includes domain "bbc"
               || includes domain "reuters" then "news"
       else if includes domain "gov" || includes domain "official"
            then "official"
       else if includes titleLower "study" || includes titleLower "research"
            then "research"
       else if includes titleLower "analysis" || includes titleLower "report"
            then "analysis"
       else "general")%string.

(** *** The mutable locals of a run *)

Record Locals : Type := mkLocals {
  assistantMessageId : option string;
  currentProgress : Z;
  currentStatus : string;
  planLinksData : PlanLinks;
  searchResults : list SearchResult;
  analysisResults : list AnalysisEntry
}.

(** *** Steps 2-6: one iteration of the search loop *)

Definition toLink (r : WebResult) : M Link :=
  domain <- newURLhostname (wr_url r) ;;
  found_at <- tick ;;
  ret (mkLink (wr_title r) (wr_url r) (8 # 10) domain found_at).

Definition searchProgress (stepNumber : Z) (plan : ResearchPlan) : Z :=
  Math_round
    ((inject_Z stepNumber / inject_Z (5 + len (analyses plan))) * 70)%Q.

Definition searchIteration (plan : ResearchPlan) (depth : string)
    (i : nat) (search : SearchSpec) (st : Locals) : M Locals :=
  let stepNumber := Z.of_nat i + 2 in
  let title := ("Web Search " ++ showZ (Z.of_nat i + 1))%string in
  sendUpdate (Ev.step_start stepNumber title
                ("Searching: " ++ dquote ++ query search ++ dquote) "running") ;;;
  result <- executeWebSearch i (query search) depth (priority search) ;;
  let searchResults' := searchResults st ++ [result] in
  links <- mapM toLink (sr_results result) ;;
  let searchLinkData :=
    mkSearchLinkRecord stepNumber (query search) (priority search) links
      "completed" (len (sr_results result)) in
  let pl := planLinksData st in
  newDomains <- mapM (fun r => newURLhostname (wr_url r)) (sr_results result) ;;
  let pl' :=
    mkPlanLinks (plan_id pl) (created_at pl)
      (pl_searches pl ++ [searchLinkData]) (pl_analyses pl)
      (total_links pl + len (sr_results result))
      (uniqueSpread (unique_domains pl ++ newDomains))
      (completion_rate pl) in
  sendUpdate
    (Ev.step_complete stepNumber title
       ("Found " ++ showZ (len (sr_results result)) ++ " sources") "completed"
       (Some (SearchStepData (query search) (len (sr_results result))
                (map (fun r => mkTitledUrl (wr_title r) (wr_url r))
                   (slice0 4 (sr_results result)))))) ;;;
  let currentProgress' := searchProgress stepNumber plan in
  sendUpdate (Ev.progress currentProgress') ;;;
  match assistantMessageId st with
  | Some id =>
      if truthy id
      then
        updateMessageInDatabase id
          (mkUpdates None (Some searchResults') None (Some (currentStatus st))
             (Some currentProgress') None (Some pl') None)
      else ret tt
  | None => ret tt
  end ;;;
  ret (mkLocals (assistantMessageId st) currentProgress' (currentStatus st) pl'
         searchResults' (analysisResults st)).

Fixpoint searchLoop (plan : ResearchPlan) (depth : string) (i : nat)
    (todo : list SearchSpec) (st : Locals) : M Locals :=
  match todo with
  | [] => ret st
  | search :: rest =>
      st' <- searchIteration plan depth i search st ;;
      searchLoop plan depth (S i) rest st'
  end.

(** *** Steps 7-11: one iteration of the analysis loop *)

Definition toKeySource (source : KeySource) : KeySource :=
  mkKeySource (ks_title source) (ks_url source)
    (orNum (ks_relevance source) (7 # 10)).

Definition analysisCompletion (i : nat) (plan : ResearchPlan) : Z :=
  Math_round
    ((inject_Z (Z.of_nat i + 1) / inject_Z (len (analyses plan))) * 100)%Q.

Definition analysisProgress (i : nat) (plan : ResearchPlan) : Z :=
  Math_round
    (70 + (inject_Z (Z.of_nat i + 1) / inject_Z (len (analyses plan))) * 25)%Q.

Definition analysisIteration (plan : ResearchPlan) (i : nat)
    (analysis : AnalysisSpec) (st : Locals) : M Locals :=
  let stepNumber := 7 + Z.of_nat i in
  let title :=
    ("Analysis " ++ showZ (Z.of_nat i + 1) ++ ": " ++ analysis_type analysis)%string in
  sendUpdate (Ev.step_start stepNumber title (analysis_description analysis)
                "running") ;;;
  result <- analyzeResults i (searchResults st) (analysis_type analysis)
              (analysis_description analysis) ;;
  let analysisResults' :=
    analysisResults st
      ++ [mkAnalysisEntry (analysis_type analysis)
            (analysis_description analysis) result] in
  let analysisLinkData :=
    mkAnalysisLinkRecord stepNumber (analysis_type analysis)
      (analysis_description analysis) (map toKeySource (key_sources result))
      (len (findings result)) "completed" in
  let pl := planLinksData st in
  let pl' :=
    mkPlanLinks (plan_id pl) (created_at pl) (pl_searches pl)
      (pl_analyses pl ++ [analysisLinkData]) (total_links pl)
      (unique_domains pl) (analysisCompletion i plan) in
  sendUpdate
    (Ev.step_complete stepNumber title
       ("Analysis completed - " ++ showZ (len (findings result))
          ++ " key findings") "completed"
       (Some (AnalysisStepData (analysis_type analysis) (len (findings result))
                (Some (map insight (slice0 2 (findings result))))
                (slice0 4 (key_sources result))))) ;;;
  let currentProgress' := analysisProgress i plan in
  sendUpdate (Ev.progress currentProgress') ;;;
  match assistantMessageId st with
  | Some id =>
      if truthy id
      then
        updateMessageInDatabase id
          (mkUpdates None None (Some analysisResults') (Some (currentStatus st))
             (Some currentProgress') None (Some pl') None)
      else ret tt
  | None => ret tt
  end ;;;
  ret (mkLocals (assistantMessageId st) currentProgress' (currentStatus st) pl'
         (searchResults st) analysisResults').

Fixpoint analysisLoop (plan : ResearchPlan) (i : nat)
    (todo : list AnalysisSpec) (st : Locals) : M Locals :=
  match todo with
  | [] => ret st
  | analysis :: rest =>
      st' <- analysisIteration plan i analysis st ;;
      analysisLoop plan (S i) rest st'
  end.

(** *** Step 12: sources, report stream, final update *)

(** [sourceMap] (URL to citation number), [citationCounter], [allSources]. *)
Record Citations : Type := mkCitations {
  sourceMap : list (string * Z);
  citationCounter : Z;
  allSources : list Source
}.

Definition sourceMapHas (m : list (string * Z)) (url : string) : bool :=
  existsb (fun kv => String.eqb (fst kv) url) m.

Definition addSource (title url : string) (relevance : Q) (c : Citations)
  : Citations :=
  if truthy url && negb (sourceMapHas (sourceMap c) url)
  then mkCitations (sourceMap c ++ [(url, citationCounter c)])
         (citationCounter c + 1)
         (allSources c ++ [mkSource (orStr title "Untitled") url (Some relevance)])
  else c.

Definition addSearchSources (c : Citations) (searchResult : SearchResult)
  : Citations :=
  fold_left (fun c result => addSource (wr_title result) (wr_url result) (8 # 10) c)
    (sr_results searchResult) c.

Definition addAnalysisSources (c : Citations) (analysis : AnalysisEntry)
  : Citations :=
  fold_left
    (fun c source =>
       addSource (ks_title source) (ks_url source)
         (orNum (ks_relevance source) (7 # 10)) c)
    (key_sources (ae_result analysis)) c.

Definition collectSources (searchResults : list SearchResult)
    (analysisResults : list AnalysisEntry) : Citations :=
  fold_left addAnalysisSources analysisResults
    (fold_left addSearchSources searchResults (mkCitations [] 1 [])).

(** [for await (const chunk of textStream)]: forward every fragment, then
    rethrow the failure of the stream, if any. *)
Fixpoint streamChunks (todo : list string) (failure : option Exn)
    (reportContent : string) : M string :=
  match todo with
  | [] =>
      match failure with
      | Some x => throw x
      | None => ret reportContent
      end
  | chunk :: rest =>
      sendUpdate (Ev.report_chunk chunk) ;;;
      streamChunks rest failure (reportContent ++ chunk)
  end.

Fixpoint toCitations (index : Z) (l : list Source) : M (list CitationSource) :=
  match l with
  | [] => ret []
  | source :: rest =>
      domain <- newURLhostname (src_url source) ;;
      category <- categorizeSource (src_title source) (src_url source) ;;
      cs <- toCitations (index + 1) rest ;;
      ret (mkCitationSource (index + 1) (src_title source) (src_url source)
             domain (orOptNum (src_relevance source) (7 # 10)) category :: cs)
  end.

Definition reportPhase (topic : string) (st : Locals) : M (string * Citations) :=
  sendUpdate (Ev.step_start 12 "Final Report Generation"
                "Generating comprehensive report with citations..." "running") ;;;
  let cites := collectSources (searchResults st) (analysisResults st) in
  date <- tick ;;
  logCall CallReport ;;;
  textStream <-
    await (streamText w
             (mkReportRequest topic (searchResults st) (analysisResults st)
                (allSources cites) date)) ;;
  sendUpdate (Ev.step_complete 12 "Final Report Generation"
                "Report generated successfully" "completed" None) ;;;
  sendUpdate (Ev.progress 95) ;;;
  reportContent <- streamChunks (chunks textStream) (failure textStream)
                     EmptyString ;;
  let finalReport := reportContent in
  sendUpdate (Ev.report_complete finalReport (len (allSources cites))
                (allSources cites)) ;;;
  sendUpdate (Ev.progress 100) ;;;
  sendUpdate (Ev.status_change "complete") ;;;
  ret (finalReport, cites).

(** The final update of the store, with the complete report.  The guard
    is [if (assistantMessageId)]: without an id, and with the empty string
    as id, the citations are not computed and nothing is written. *)
Definition finalUpdate (finalReport : string) (cites : Citations) (st : Locals)
  : M Locals :=
  let pl := planLinksData st in
  let skipped :=
    ret (mkLocals (assistantMessageId st) 100 "complete" pl
           (searchResults st) (analysisResults st)) in
  match assistantMessageId st with
  | Some id =>
      if truthy id
      then
        let pl' :=
          mkPlanLinks (plan_id pl) (created_at pl) (pl_searches pl)
            (pl_analyses pl) (total_links pl) (unique_domains pl) 100 in
        citations <- toCitations 0 (allSources cites) ;;
        updateMessageInDatabase id
          (mkUpdates (Some finalReport) None None (Some "complete"%string)
             (Some 100) (Some (mkResearchSteps true true true true)) (Some pl')
             (Some citations)) ;;;
        ret (mkLocals (assistantMessageId st) 100 "complete" pl'
               (searchResults st) (analysisResults st))
      else skipped
  | None => skipped
  end.

(** *** The body of the stream's [start(controller)] *)

(** From the first event to the last one of the report. *)
Definition investigate (topic sessionId depth : string)
  : M (Locals * (string * Citations)) :=
  currentDate <- tick ;;
  sendUpdate (Ev.step_start 1 "Research Planning"
                "Creating comprehensive research plan..." "running") ;;;
  researchPlan <- createResearchPlan topic currentDate ;;
  now <- tick ;;
  created <- tick ;;
  let planId := ("plan_" ++ now ++ "_" ++ random w 0)%string in
  let links0 := mkPlanLinks planId created [] [] 0 [] 0 in
  sendUpdate (Ev.step_complete 1 "Research Planning"
                "Research plan created successfully" "completed" None) ;;;
  sendUpdate (Ev.research_plan researchPlan (5 + len (analyses researchPlan))) ;;;
  messageId <-
    insertAssistantMessage
      (mkMessage EmptyString sessionId "assistant" EmptyString
         (Some researchPlan) None None (Some "planning"%string) (Some 10) None
         (Some links0) None) ;;
  let st0 := mkLocals messageId 0 "searching" links0 [] [] in
  st1 <- searchLoop researchPlan depth 0 (searches researchPlan) st0 ;;
  let st1' :=
    mkLocals (assistantMessageId st1) (currentProgress st1) "analyzing"
      (planLinksData st1) (searchResults st1) (analysisResults st1) in
  st2 <- analysisLoop researchPlan 0 (analyses researchPlan) st1' ;;
  report <- reportPhase topic st2 ;;
  ret (st2, report).

Definition research (topic sessionId depth : string) : M Locals :=
  found <- investigate topic sessionId depth ;;
  finalUpdate (fst (snd found)) (snd (snd found)) (fst found).

(** [try { ... } catch (error) { sendUpdate('error', ...) } finally
    { controller.close() }]. *)
Definition start (topic sessionId depth : string) : M unit :=
  tryFinally
    (tryCatch
       (research topic sessionId depth ;;; ret tt)
       (fun err =>
          sendUpdate (Ev.error (messageOr err "Unknown error occurred") "Unknown")))
    close.

End Orchestrator.

(** *** The route *)

Record Request : Type := mkRequest {
  topic : option string;
  sessionId : option string;
  depth : option string
}.

Inductive Response : Type :=
| BadRequest (status : Z) (body : string)
| EventStream (run : Env).

Definition falsy (s : option string) : bool :=
  match s with
  | Some s => negb (truthy s)
  | None => true
  end.

Definition POST (w : World) (req : Request) : Response :=
  if falsy (topic req) || falsy (sessionId req)
  then BadRequest 400 "Topic and sessionId are required"
  else
    let depth := match depth req with Some d => d | None => "basic"%string end in
    match topic req, sessionId req with
    | Some topic, Some sessionId =>
        EventStream (fst (start w topic sessionId depth startEnv))
    | _, _ => BadRequest 400 "Topic and sessionId are required"
    end.

(** The frames of a response, in the order they were enqueued. *)
Definition framesOf (r : Response) : list Frame :=
  match r with
  | EventStream e => frames e
  | BadRequest _ _ => []
  end.

(** The adapter calls made while serving a request. *)
Definition callsOf (r : Response) : list Call :=
  match r with
  | EventStream e => calls e
  | BadRequest _ _ => []
  end.

(** The successive values of the message row written while serving it. *)
Definition rowsOf (r : Response) : list Message :=
  match r with
  | EventStream e => rows e
  | BadRequest _ _ => []
  end.

Definition streamClosed (r : Response) : bool :=
  match r with
  | EventStream e => closed e
  | BadRequest _ _ => false
  end.

(** ** The client hook [useDeepSearch] *)

Record ResearchUpdate : Type := mkResearchUpdate {
  ru_id : string;
  ru_step : Z;
  ru_title : string;
  ru_description : string;
  ru_status : string;
  ru_timestamp : string;
  ru_data : option StepData
}.

Record DeepSearchState : Type := mkDeepSearchState {
  isActive : bool;
  progress : Z;
  status : string;
  updates : list ResearchUpdate;
  result : option string;
  error : option string;
  researchPlan : option ResearchPlan;
  finalSources : option (list Source);
  planLinks : option PlanLinks
}.

(** The hook: its React state and the number of readings it has made of the
    browser's clock and random generator (used for update ids). *)
Record Hook : Type := mkHook {
  state : DeepSearchState;
  reads : nat
}.

Record Browser : Type := mkBrowser {
  browserClock : nat -> string;
  browserRandom : nat -> string
}.

Definition initialState : DeepSearchState :=
  mkDeepSearchState false 0 "planning" [] None None None None None.

(** The state set by [startDeepSearch] before it reads the stream. *)
Definition resetState : DeepSearchState :=
  mkDeepSearchState true 0 "planning" [] None None None None None.

Section Client.

Variable b : Browser.

Definition setUpdates (us : list ResearchUpdate) (s : DeepSearchState)
  : DeepSearchState :=
  mkDeepSearchState (isActive s) (progress s) (status s) us (result s)
    (error s) (researchPlan s) (finalSources s) (planLinks s).

Definition setStatus (st : string) (s : DeepSearchState) : DeepSearchState :=
  mkDeepSearchState (isActive s) (progress s) st (updates s) (result s)
    (error s) (researchPlan s) (finalSources s) (planLinks s).

Definition setProgress (p : Z) (s : DeepSearchState) : DeepSearchState :=
  mkDeepSearchState (isActive s) p (status s) (updates s) (result s)
    (error s) (researchPlan s) (finalSources s) (planLinks s).

(** [addUpdate]: append an update with a fresh id and the current time. *)
Definition addUpdate (step : Z) (title description status : string)
    (h : Hook) : Hook :=
  let newUpdate :=
    mkResearchUpdate
      ("update_" ++ browserClock b (reads h) ++ "_" ++ browserRandom b (reads h))
      step title description status (browserClock b (S (reads h))) None in
  mkHook (setUpdates (updates (state h) ++ [newUpdate]) (state h))
    (S (S (reads h))).

(** [updateProgress(progress)]: [Math.min(100, Math.max(0, progress))]. *)
Definition updateProgress (p : Z) (s : DeepSearchState) : DeepSearchState :=
  setProgress (Z.min 100 (Z.max 0 p)) s.

Definition completeUpdate (step : Z) (description : string)
    (data : option StepData) (u : ResearchUpdate) : ResearchUpdate :=
  if Z.eqb (ru_step u) step
  then mkResearchUpdate (ru_id u) (ru_step u) (ru_title u) description
         "completed" (ru_timestamp u) data
  else u.

(** [handleServerEvent]: one case per event type.  The caller's callbacks
    do not touch the hook's state and are left out. *)
Definition handleServerEvent (h : Hook) (eventData : Frame) : Hook :=
  match eventData with
  | Ev.step_start step title description _ =>
      let h1 := addUpdate step title description "running" h in
      if Z.eqb step 1 then mkHook (setStatus "planning" (state h1)) (reads h1)
      else if Z.leb step 6
           then mkHook (setStatus "searching" (state h1)) (reads h1)
           else mkHook (setStatus "analyzing" (state h1)) (reads h1)
  | Ev.step_complete step _ description _ data =>
      mkHook
        (setUpdates (map (completeUpdate step description data)
                       (updates (state h))) (state h))
        (reads h)
  | Ev.research_plan plan _ =>
      let s := state h in
      mkHook
        (mkDeepSearchState (isActive s) (progress s) (status s) (updates s)
           (result s) (error s) (Some plan) (finalSources s) (planLinks s))
        (reads h)
  | Ev.progress p => mkHook (updateProgress p (state h)) (reads h)
  | Ev.status_change st => mkHook (setStatus st (state h)) (reads h)
  | Ev.report_chunk chunk =>
      let s := state h in
      mkHook
        (mkDeepSearchState (isActive s) (progress s) (status s) (updates s)
           (Some (match result s with Some r => r | None => EmptyString end
                  ++ chunk)%string)
           (error s) (researchPlan s) (finalSources s) (planLinks s))
        (reads h)
  | Ev.report_complete fullReport _ sources =>
      let s := state h in
      mkHook
        (mkDeepSearchState false 100 "complete" (updates s) (Some fullReport)
           (error s) (researchPlan s) (Some sources) (planLinks s))
        (reads h)
  | Ev.error message _ =>
      let s := state h in
      mkHook
        (mkDeepSearchState false (progress s) "complete" (updates s) (result s)
           (Some message) (researchPlan s) (finalSources s) (planLinks s))
        (reads h)
  | Ev.unknown _ => h
  end.

(** Folding a frame sequence, oldest frame first. *)
Definition foldFrames (h : Hook) (frames : list Frame) : Hook :=
  fold_left handleServerEvent frames h.

(** The view a client has after [startDeepSearch] read the given frames. *)
Definition liveView (frames : list Frame) : DeepSearchState :=
  state (foldFrames (mkHook resetState 0) frames).

(** *** Recovery after a reload *)

(** A search record has no [found_at] of its own (its links have), so
    [search.found_at || research_plan_links.created_at] is [created_at]. *)
Definition recoveredSearch (created : string) (search : SearchLinkRecord)
  : ResearchUpdate :=
  mkResearchUpdate
    ("recovery_search_" ++ showZ (sl_step search))
    (sl_step search)
    ("Web Search " ++ showZ (sl_step search - 1))
    ("Found " ++ showZ (sl_result_count search) ++ " sources for " ++ dquote
       ++ sl_query search ++ dquote)
    (sl_status search)
    created
    (Some (SearchStepData (sl_query search) (sl_result_count search)
             (map (fun link => mkTitledUrl (lk_title link) (lk_url link))
                (slice0 4 (sl_links search))))).

Definition recoveredAnalysis (created : string) (analysis : AnalysisLinkRecord)
  : ResearchUpdate :=
  mkResearchUpdate
    ("recovery_analysis_" ++ showZ (al_step analysis))
    (al_step analysis)
    ("Analysis " ++ showZ (al_step analysis - 6) ++ ": " ++ al_type analysis)
    ("Analysis completed - " ++ showZ (al_findings_count analysis)
       ++ " key findings")
    (al_status analysis)
    created
    (Some (AnalysisStepData (al_type analysis) (al_findings_count analysis)
             None (slice0 4 (al_key_sources analysis)))).

Definition recoveredSources (citation_sources : option (list CitationSource))
  : option (list Source) :=
  match citation_sources with
  | Some (c :: cs) =>
      Some (map (fun source =>
                   mkSource (cs_title source) (cs_url source)
                     (Some (orNum (cs_relevance source) (7 # 10))))
              (c :: cs))
  | _ => None
  end.

Definition optStr (s : option string) : string :=
  match s with Some s => s | None => EmptyString end.

(** [recoverFromDatabase(messageData)]: the returned flag and the hook after
    the call. *)
Definition recoverFromDatabase (messageData : option Message) (h : Hook)
  : bool * Hook :=
  match messageData with
  | None => (false, h)
  | Some m =>
      match research_plan_links m with
      | None => (false, h)
      | Some links =>
          let isComplete := String.eqb (optStr (research_status m)) "complete" in
          let planning :=
            match research_plan_col m with
            | Some _ =>
                [mkResearchUpdate
                   ("recovery_planning_" ++ browserClock b (reads h))
                   1 "Research Planning" "Research plan created successfully"
                   "completed" (created_at links) None]
            | None => []
            end in
          let reads1 :=
            match research_plan_col m with
            | Some _ => S (reads h)
            | None => reads h
            end in
          let report :=
            if isComplete && truthy (content m)
            then [mkResearchUpdate
                    ("recovery_report_" ++ browserClock b reads1)
                    12 "Final Report Generation"
                    "Report generated successfully" "completed"
                    (created_at links) None]
            else [] in
          let reads2 :=
            if isComplete && truthy (content m) then S reads1 else reads1 in
          let recoveredUpdates :=
            planning
              ++ map (recoveredSearch (created_at links)) (pl_searches links)
              ++ map (recoveredAnalysis (created_at links)) (pl_analyses links)
              ++ report in
          (true,
           mkHook
             (mkDeepSearchState
                (negb isComplete)
                (match research_progress m with Some p => p | None => 0 end)
                (orStr (optStr (research_status m)) "planning")
                recoveredUpdates
                (if truthy (content m) then Some (content m) else None)
                None
                (research_plan_col m)
                (recoveredSources (citation_sources m))
                (Some links))
             reads2)
      end
  end.

End Client.

(** *** The hook reads the stream: [startDeepSearch]

    The route enqueues one chunk per event, [`data: ${JSON.stringify(update)}\n\n`];
    the hook reads the body chunk by chunk, wherever the transport cut it,
    and handles every complete line that starts with "data: ".  Chunks are
    taken after decoding: [TextDecoder.decode(value, {stream: true})] keeps
    an incomplete byte sequence for the next call, so the decoded pieces
    concatenate to the decoded text. *)

Definition newline : string := String (Ascii.ascii_of_nat 10) EmptyString.

(** [s.split('\n')]: the pieces between the newlines; never empty. *)
Fixpoint split (s : string) : list string :=
  match s with
  | EmptyString => [EmptyString]
  | String c rest =>
      if Ascii.eqb c (Ascii.ascii_of_nat 10) then EmptyString :: split rest
      else match split rest with
           | piece :: pieces => String c piece :: pieces
           | [] => [String c EmptyString]
           end
  end.

(** [s.slice(n)]. *)
Fixpoint sliceFrom (n : nat) (s : string) : string :=
  match n, s with
  | O, _ => s
  | S n', String _ rest => sliceFrom n' rest
  | S _, EmptyString => EmptyString
  end.

(** What [fetch] resolves to, as far as the hook tells the cases apart: it
    throws, the response is not ok, it has no body, or it has one, which
    delivers its chunks and then ends or fails. *)
Inductive Fetched : Type :=
| FetchThrows (x : Exn)
| NotOk (statusText : string)
| NoBody
| Body (chunks : list string) (failure : option Exn).

(** The text made of the given pieces, one after the other. *)
Definition joined (pieces : list string) : string :=
  fold_right String.append EmptyString pieces.

(** The server's side of the wire: one event per update. *)
Definition wire (stringify : Update -> string) (us : list Update) : string :=
  joined
    (map (fun u => ("data: " ++ stringify u ++ newline ++ newline)%string) us).

Record Reader : Type := mkReader {
  buffer : string;
  hook : Hook
}.

Section Reading.

Variable b : Browser.

(** [JSON.parse] of the text of a line, read as an event; [None] when the
    parse throws, or [handleServerEvent] does on what was parsed, before it
    sets any state: the [catch] around both only logs. *)
Variable parseEvent : string -> option Frame.

Definition handleLine (h : Hook) (line : string) : Hook :=
  if String.prefix "data: " line
  then match parseEvent (sliceFrom 6 line) with
       | Some eventData => handleServerEvent b h eventData
       | None => h
       end
  else h.

(** One turn of the reading loop, on the chunk [value]. *)
Definition readChunk (r : Reader) (value : string) : Reader :=
  let buffer1 := (buffer r ++ value)%string in
  let lines := split buffer1 in
  mkReader (orStr (last lines EmptyString) EmptyString)
    (fold_left handleLine (removelast lines) (hook r)).

Definition readStream (chunks : list string) (h : Hook) : Reader :=
  fold_left readChunk chunks (mkReader EmptyString h).

(** The [catch] of [startDeepSearch]. *)
Definition failWith (x : Exn) (h : Hook) : Hook :=
  let s := state h in
  mkHook
    (mkDeepSearchState false (progress s) "complete" (updates s) (result s)
       (Some (messageOr x "Unknown error occurred")) (researchPlan s)
       (finalSources s) (planLinks s))
    (reads h).

Definition startDeepSearch (response : Fetched) (h : Hook) : Hook :=
  let h0 := mkHook resetState (reads h) in
  match response with
  | FetchThrows x => failWith x h0
  | NotOk statusText =>
      failWith (ErrorObj ("Deep search failed: " ++ statusText)%string) h0
  | NoBody => failWith (ErrorObj "No response body") h0
  | Body chunks failure =>
      let h1 := hook (readStream chunks h0) in
      match failure with
      | Some x => failWith x h1
      | None => h1
      end
  end.

End Reading.

(** *** The chat page recovers a finished search (Chat.tsx)

    [checkDeepSearchRecovery]: one second after the messages of the session
    changed, the page looks at the last message and hands it to
    [recoverFromDatabase] when it is a completed deep search. *)

Definition lastOf {A : Type} (l : list A) : option A :=
  nth_error l (length l - 1).

Section Chat.

Variable b : Browser.

(** [messages] is [messages[sessionId]], when the session has an entry. *)
Definition checkDeepSearchRecovery (messages : option (list Message))
    (h : Hook) : Hook :=
  let currentMessages :=
    match messages with
    | Some ms => ms
    | None => []
    end in
  match lastOf currentMessages with
  | Some lastMessage =>
      if String.eqb (role lastMessage) "assistant"
         && match research_plan_links lastMessage with
            | Some _ => true
            | None => false
            end
         && match research_status lastMessage with
            | Some st => String.eqb st "complete"
            | None => false
            end
      then snd (recoverFromDatabase b (Some lastMessage) h)
      else h
  | None => h
  end.

End Chat.

(** ** Vocabulary of the properties *)

Definition isErrorFrame (f : Frame) : bool :=
  match f with
  | Ev.error _ _ => true
  | _ => false
  end.

Definition isStepStart (f : Frame) : bool :=
  match f with
  | Ev.step_start _ _ _ _ => true
  | _ => false
  end.

(** A [step_start] frame for step [s] or a later one. *)
Definition startsStepFrom (s : Z) (f : Frame) : bool :=
  match f with
  | Ev.step_start n _ _ _ => Z.leb s n
  | _ => false
  end.

(** A [step_complete] frame for step [s]. *)
Definition completesStep (s : Z) (f : Frame) : bool :=
  match f with
  | Ev.step_complete n _ _ _ _ => Z.eqb n s
  | _ => false
  end.

(** A [step_start] frame for step [s]. *)
Definition startsStep (s : Z) (f : Frame) : bool :=
  match f with
  | Ev.step_start n _ _ _ => Z.eqb n s
  | _ => false
  end.

(** A [step_complete] frame with status "error". *)
Definition completesWithError (f : Frame) : bool :=
  match f with
  | Ev.step_complete _ _ _ st _ => String.eqb st "error"
  | _ => false
  end.

(** Planning fails when the model call throws or its answer does not match
    the plan schema. *)
Definition planningFails (w : World) (topic : string) : Prop :=
  match generatePlan w topic (clock w 0) with
  | Throws _ => True
  | Returns p => ResearchPlanSchema p = false
  end.

(** A request that passes the route's validation. *)
Definition validRequest (topic sessionId : string) (depth : option string)
  : Request :=
  mkRequest (Some topic) (Some sessionId) depth.

(** The search depth handed to the provider. *)
Definition providerDepth (depth : string) : string :=
  if String.eqb depth "advanced" then "advanced"%string else "basic"%string.


(** The last value set by a frame sequence, for a field that frames
    overwrite: [setter f] is the value frame [f] writes, if it writes one. *)
Definition lastSet {F X : Type} (setter : F -> option X) (fs : list F)
  : option X :=
  fold_left (fun acc f => match setter f with Some v => Some v | None => acc end)
    fs None.

Definition orKeep {X : Type} (set : option X) (old : X) : X :=
  match set with
  | Some v => v
  | None => old
  end.

(** What each frame writes to the fields of the client state. *)
Definition setsProgress (f : Frame) : option Z :=
  match f with
  | Ev.progress p => Some (Z.min 100 (Z.max 0 p))
  | Ev.report_complete _ _ _ => Some 100
  | _ => None
  end.

Definition setsStatus (f : Frame) : option string :=
  match f with
  | Ev.step_start s _ _ _ =>
      Some (if Z.eqb s 1 then "planning"
            else if Z.leb s 6 then "searching" else "analyzing")%string
  | Ev.status_change st => Some st
  | Ev.report_complete _ _ _ => Some "complete"%string
  | Ev.error _ _ => Some "complete"%string
  | _ => None
  end.

Definition setsActive (f : Frame) : option bool :=
  match f with
  | Ev.report_complete _ _ _ => Some false
  | Ev.error _ _ => Some false
  | _ => None
  end.

Definition setsError (f : Frame) : option (option string) :=
  match f with
  | Ev.error m _ => Some (Some m)
  | _ => None
  end.

Definition setsPlan (f : Frame) : option (option ResearchPlan) :=
  match f with
  | Ev.research_plan p _ => Some (Some p)
  | _ => None
  end.

Definition setsSources (f : Frame) : option (option (list Source)) :=
  match f with
  | Ev.report_complete _ _ srcs => Some (Some srcs)
  | _ => None
  end.

Definition setsReport (f : Frame) : option string :=
  match f with
  | Ev.report_complete full _ _ => Some full
  | _ => None
  end.

(** Whether a frame sequence leaves report text that a [report_complete]
    has not yet replaced: its last report frame is a [report_chunk]. *)
Definition chunksPending (fs : list Frame) : bool :=
  fold_left
    (fun acc f =>
       match f with
       | Ev.report_chunk _ => true
       | Ev.report_complete _ _ _ => false
       | _ => acc
       end) fs false.

(** What the [step_complete] frames of a sequence do to one update. *)
Definition completeBy (u : ResearchUpdate) (f : Frame) : ResearchUpdate :=
  match f with
  | Ev.step_complete s _ description _ data => completeUpdate s description data u
  | _ => u
  end.

(** The completion a frame sequence gives to the update of step [k]. *)
Definition completionFor (k : Z) (f : Frame)
  : option (string * option StepData) :=
  match f with
  | Ev.step_complete s _ description _ data =>
      if Z.eqb k s then Some (description, data) else None
  | _ => None
  end.

Definition completed (u : ResearchUpdate) (c : string * option StepData)
  : ResearchUpdate :=
  mkResearchUpdate (ru_id u) (ru_step u) (ru_title u) (fst c) "completed"
    (ru_timestamp u) (snd c).

(** Whether [new URL(url)] accepts a string. *)
Definition parses (w : World) (url : string) : bool :=
  match hostname w url with
  | Some _ => true
  | None => false
  end.

Definition allParse (w : World) (rs : list WebResult) : bool :=
  forallb (fun r => parses w (wr_url r)) rs.

(** The value [executeWebSearch] returns: the normalised results, or none
    and the error message when the provider throws. *)
Definition searchOutcome (w : World) (i : nat) (query depth : string)
    (priority : Q) : SearchResult :=
  match tavilySearch w i query (providerDepth depth) (maxResults priority) with
  | Returns rs => mkSearchResult "web" (query, priority) (map normalise rs) None
  | Throws x =>
      mkSearchResult "web" (query, priority) []
        (Some (messageOr x "Search failed"))
  end.

(** The guard [if (assistantMessageId)]: it passes for an id that is a
    non-empty string. *)
Definition updatable (id : option string) : bool :=
  match id with
  | Some s => truthy s
  | None => false
  end.

(** The rows of the store after an update guarded by
    [if (assistantMessageId)]. *)
Definition persisted (w : World) (id : option string) (n : nat)
    (rs : list Message) (u : Updates) : list Message :=
  if updatable id
  then
    match rev rs with
    | current :: _ =>
        if updateOk w n then rs ++ [applyUpdates u current] else rs
    | [] => rs
    end
  else rs.

Definition writesAfter (id : option string) (n : nat) : nat :=
  if updatable id then S n else n.

(** The events of one search iteration. *)
Definition searchStartFrame (i : nat) (search : SearchSpec) : Frame :=
  Ev.step_start (Z.of_nat i + 2) ("Web Search " ++ showZ (Z.of_nat i + 1))
    ("Searching: " ++ dquote ++ query search ++ dquote) "running".

Definition searchCompleteFrame (i : nat) (search : SearchSpec)
    (result : SearchResult) : Frame :=
  Ev.step_complete (Z.of_nat i + 2) ("Web Search " ++ showZ (Z.of_nat i + 1))
    ("Found " ++ showZ (len (sr_results result)) ++ " sources") "completed"
    (Some (SearchStepData (query search) (len (sr_results result))
             (map (fun r => mkTitledUrl (wr_title r) (wr_url r))
                (slice0 4 (sr_results result))))).

Definition searchCall (depth : string) (i : nat) (search : SearchSpec) : Call :=
  CallSearch i (query search) (providerDepth depth)
    (maxResults (priority search)).

(** The snapshot after the record of a search has been appended. *)
Definition pushSearch (pl : PlanLinks) (i : nat) (search : SearchSpec)
    (result : SearchResult) (links : list Link) (domains : list string)
  : PlanLinks :=
  mkPlanLinks (plan_id pl) (created_at pl)
    (pl_searches pl
       ++ [mkSearchLinkRecord (Z.of_nat i + 2) (query search) (priority search)
             links "completed" (len (sr_results result))])
    (pl_analyses pl)
    (total_links pl + len (sr_results result))
    (uniqueSpread (unique_domains pl ++ domains))
    (completion_rate pl).

Definition searchUpdates (plan : ResearchPlan) (i : nat) (st : Locals)
    (result : SearchResult) (pl' : PlanLinks) : Updates :=
  mkUpdates None (Some (searchResults st ++ [result])) None
    (Some (currentStatus st))
    (Some (searchProgress (Z.of_nat i + 2) plan)) None (Some pl') None.

(** The answer of analysis [i], when the model returns one that matches
    the schema. *)
Definition analysisAnswer (w : World) (i : nat)
    (searchResults : list SearchResult) (analysis : AnalysisSpec)
  : option AnalysisResult :=
  match generateAnalysis w i searchResults (analysis_type analysis)
          (analysis_description analysis) with
  | Returns r => if AnalysisResultSchema r then Some r else None
  | Throws _ => None
  end.

(** The events of one analysis iteration. *)
Definition analysisTitle (i : nat) (analysis : AnalysisSpec) : string :=
  "Analysis " ++ showZ (Z.of_nat i + 1) ++ ": " ++ analysis_type analysis.

Definition analysisStartFrame (i : nat) (analysis : AnalysisSpec) : Frame :=
  Ev.step_start (7 + Z.of_nat i) (analysisTitle i analysis)
    (analysis_description analysis) "running".

Definition analysisCompleteFrame (i : nat) (analysis : AnalysisSpec)
    (result : AnalysisResult) : Frame :=
  Ev.step_complete (7 + Z.of_nat i) (analysisTitle i analysis)
    ("Analysis completed - " ++ showZ (len (findings result))
       ++ " key findings") "completed"
    (Some (AnalysisStepData (analysis_type analysis) (len (findings result))
             (Some (map insight (slice0 2 (findings result))))
             (slice0 4 (key_sources result)))).

Definition analysisCall (i : nat) (analysis : AnalysisSpec) : Call :=
  CallAnalysis i (analysis_type analysis) (analysis_description analysis).

(** The snapshot after the record of an analysis has been appended. *)
Definition pushAnalysis (plan : ResearchPlan) (pl : PlanLinks) (i : nat)
    (analysis : AnalysisSpec) (result : AnalysisResult) : PlanLinks :=
  mkPlanLinks (plan_id pl) (created_at pl) (pl_searches pl)
    (pl_analyses pl
       ++ [mkAnalysisLinkRecord (7 + Z.of_nat i) (analysis_type analysis)
             (analysis_description analysis)
             (map toKeySource (key_sources result))
             (len (findings result)) "completed"])
    (total_links pl) (unique_domains pl) (analysisCompletion i plan).

Definition analysisEntries (st : Locals) (analysis : AnalysisSpec)
    (result : AnalysisResult) : list AnalysisEntry :=
  analysisResults st
    ++ [mkAnalysisEntry (analysis_type analysis)
          (analysis_description analysis) result].

Definition analysisUpdates (plan : ResearchPlan) (i : nat) (st : Locals)
    (analysis : AnalysisSpec) (result : AnalysisResult) : Updates :=
  mkUpdates None None (Some (analysisEntries st analysis result))
    (Some (currentStatus st)) (Some (analysisProgress i plan)) None
    (Some (pushAnalysis plan (planLinksData st) i analysis result)) None.

(** *** The shape of a run's trace *)

(** What the properties below look at in an event. *)
Inductive Tag : Type :=
| TStart (step : Z)
| TComplete (step : Z) (status : string) (resultCount : option Z)
| TPlan (totalSteps : Z)
| TProgress (value : Z)
| TStatus (status : string)
| TChunk
| TDone
| TError
| TUnknown
| TCall (c : Call).

Definition frameTag (f : Frame) : Tag :=
  match f with
  | Ev.step_start s _ _ _ => TStart s
  | Ev.step_complete s _ _ st (Some (SearchStepData _ n _)) =>
      TComplete s st (Some n)
  | Ev.step_complete s _ _ st _ => TComplete s st None
  | Ev.research_plan _ n => TPlan n
  | Ev.progress p => TProgress p
  | Ev.status_change st => TStatus st
  | Ev.report_chunk _ => TChunk
  | Ev.report_complete _ _ _ => TDone
  | Ev.error _ _ => TError
  | Ev.unknown _ => TUnknown
  end.

Definition tagOf (ev : Event) : Tag :=
  match ev with
  | Sent u => frameTag (payload u)
  | Called c => TCall c
  end.

(** The plan a run works with, when planning succeeds. *)
Definition plannedBy (w : World) (topic : string) : option ResearchPlan :=
  match generatePlan w topic (clock w 0) with
  | Returns p => if ResearchPlanSchema p then Some p else None
  | Throws _ => None
  end.

(** The number of results search [i] records: none when the provider
    throws. *)
Definition searchCount (w : World) (depth : string) (i : nat)
    (search : SearchSpec) : Z :=
  match tavilySearch w i (query search) (providerDepth depth)
          (maxResults (priority search)) with
  | Returns rs => len rs
  | Throws _ => 0
  end.

Fixpoint searchTags (w : World) (plan : ResearchPlan) (depth : string)
    (i : nat) (todo : list SearchSpec) : list Tag :=
  match todo with
  | [] => []
  | search :: rest =>
      [TStart (Z.of_nat i + 2);
       TCall (CallSearch i (query search) (providerDepth depth)
                (maxResults (priority search)));
       TComplete (Z.of_nat i + 2) "completed"
         (Some (searchCount w depth i search));
       TProgress (searchProgress (Z.of_nat i + 2) plan)]
      ++ searchTags w plan depth (S i) rest
  end.

Fixpoint analysisTags (plan : ResearchPlan) (i : nat)
    (todo : list AnalysisSpec) : list Tag :=
  match todo with
  | [] => []
  | analysis :: rest =>
      [TStart (7 + Z.of_nat i);
       TCall (CallAnalysis i (analysis_type analysis)
                (analysis_description analysis));
       TComplete (7 + Z.of_nat i) "completed" None;
       TProgress (analysisProgress i plan)]
      ++ analysisTags plan (S i) rest
  end.

Definition reportTags (n : nat) : list Tag :=
  [TStart 12; TCall CallReport; TComplete 12 "completed" None; TProgress 95]
  ++ repeat TChunk n
  ++ [TDone; TProgress 100; TStatus "complete"].

Definition planTags (topic : string) (plan : ResearchPlan) : list Tag :=
  [TStart 1; TCall (CallPlan topic); TComplete 1 "completed" None;
   TPlan (5 + len (analyses plan))].

(** The trace of a run in which nothing aborts, with [n] report chunks. *)
Definition fullTags (w : World) (topic depth : string) (plan : ResearchPlan)
    (n : nat) : list Tag :=
  planTags topic plan
  ++ searchTags w plan depth 0 (searches plan)
  ++ analysisTags plan 0 (analyses plan)
  ++ reportTags n.

Definition prefixOf {A : Type} (p l : list A) : Prop :=
  exists rest, l = p ++ rest.

(** [emitsAt H m e L]: run from [e], the computation [m] appends events to
    the trace; when it returns they are tagged exactly [L], when it throws
    they are tagged by a prefix of [L] and the condition [H] fails. *)
Definition emitsAt (H : Prop) {A : Type} (m : M A) (e : Env) (L : list Tag)
  : Prop :=
  exists new,
    trace (fst (m e)) = trace e ++ new
    /\ match snd (m e) with
       | Ok _ => map tagOf new = L
       | Threw _ => prefixOf (map tagOf new) L /\ ~ H
       end.

(** A computation that records nothing and returns. *)
Definition quiet {A : Type} (m : M A) : Prop :=
  forall e, trace (fst (m e)) = trace e /\ exists a, snd (m e) = Ok a.

(** A world whose adapters behave, apart from searches that may throw: the
    planner answers with a valid plan, the search provider returns URLs
    that parse, the analyses answer within their schema and the report
    stream does not fail. *)
Record Healthy (w : World) (topic : string) : Prop := mkHealthy {
  plan_ok : exists plan, plannedBy w topic = Some plan;
  urls_ok :
    forall i q d n rs,
      tavilySearch w i q d n = Returns rs ->
      forallb (fun r => parses w (tv_url r)) rs = true;
  analysis_ok :
    forall i sr t d,
      exists r,
        generateAnalysis w i sr t d = Returns r
        /\ AnalysisResultSchema r = true;
  report_ok :
    forall rq, exists s, streamText w rq = Returns s /\ failure s = None
}.

(** The environment at the end of a run of the stream's [start]. *)
Definition runOf (w : World) (topic sessionId depth : string) : Env :=
  fst (start w topic sessionId depth startEnv).

Definition depthOf (req : Request) : string :=
  match depth req with
  | Some d => d
  | None => "basic"
  end.

(** The shape of the trace of a run, by what planning gave: the full trace,
    the full trace followed by an error (the final update of the store
    failed), or a prefix of it followed by an error. *)
Definition runShape (w : World) (topic depth : string) (t : list Tag) : Prop :=
  match plannedBy w topic with
  | None => t = [TStart 1; TCall (CallPlan topic); TError]
  | Some plan =>
      exists n,
        t = fullTags w topic depth plan n
        \/ t = fullTags w topic depth plan n ++ [TError]
        \/ (exists p,
              prefixOf p (fullTags w topic depth plan n)
              /\ t = p ++ [TError]
              /\ ~ Healthy w topic)
  end.

(** *** Progress along a frame sequence *)

(** The values carried by the [progress] frames of a sequence, in order. *)
Definition emittedProgress (fs : list Frame) : list Z :=
  flat_map (fun f => match f with Ev.progress p => [p] | _ => [] end) fs.

(** The values the client's [progress] field takes along a sequence. *)
Definition progressWrites (fs : list Frame) : list Z :=
  flat_map (fun f => match setsProgress f with Some v => [v] | None => [] end)
    fs.

Definition tagEmits (t : Tag) : list Z :=
  match t with
  | TProgress p => [p]
  | _ => []
  end.

Definition tagWrites (t : Tag) : list Z :=
  match t with
  | TProgress p => [Z.min 100 (Z.max 0 p)]
  | TDone => [100]
  | _ => []
  end.

(** The progress values of a run in which nothing aborts. *)
Definition fullProgress : list Z :=
  [14; 21; 28; 35; 42; 75; 80; 85; 90; 95; 95; 100].

Definition fullWrites : list Z :=
  [14; 21; 28; 35; 42; 75; 80; 85; 90; 95; 95; 100; 100].

(** A plan with five searches and five analyses. *)
Definition fiveAndFive (plan : ResearchPlan) : Prop :=
  length (searches plan) = 5%nat /\ length (analyses plan) = 5%nat.

(** The progress value of the frame that follows the [step_complete] of
    step [s], when that frame is a [progress] frame. *)
Fixpoint progressAfterStep (s : Z) (fs : list Frame) : option Z :=
  match fs with
  | [] => None
  | f :: rest =>
      if completesStep s f
      then match rest with
           | Ev.progress p :: _ => Some p
           | _ => None
           end
      else progressAfterStep s rest
  end.

Fixpoint tagProgressAfter (s : Z) (ts : list Tag) : option Z :=
  match ts with
  | [] => None
  | t :: rest =>
      if match t with TComplete n _ _ => Z.eqb n s | _ => false end
      then match rest with
           | TProgress p :: _ => Some p
           | _ => None
           end
      else tagProgressAfter s rest
  end.

(** The status and result count of the first [step_complete] of step [s]. *)
Fixpoint stepOutcome (s : Z) (fs : list Frame) : option (string * option Z) :=
  match fs with
  | [] => None
  | Ev.step_complete n _ _ st data :: rest =>
      if Z.eqb n s
      then Some (st, match data with
                     | Some (SearchStepData _ c _) => Some c
                     | _ => None
                     end)
      else stepOutcome s rest
  | _ :: rest => stepOutcome s rest
  end.

Fixpoint tagOutcome (s : Z) (ts : list Tag) : option (string * option Z) :=
  match ts with
  | [] => None
  | TComplete n st c :: rest =>
      if Z.eqb n s then Some (st, c) else tagOutcome s rest
  | _ :: rest => tagOutcome s rest
  end.

(** Whether the completion of step 12 comes before every report chunk:
    [seen] tells whether it has been met already. *)
Fixpoint chunksGuarded (seen : bool) (fs : list Frame) : bool :=
  match fs with
  | [] => true
  | Ev.report_chunk _ :: rest => seen && chunksGuarded seen rest
  | Ev.step_complete n _ _ st _ :: rest =>
      chunksGuarded (seen || (Z.eqb n 12 && String.eqb st "completed")) rest
  | _ :: rest => chunksGuarded seen rest
  end.

Fixpoint tagsGuarded (seen : bool) (ts : list Tag) : bool :=
  match ts with
  | [] => true
  | TChunk :: rest => seen && tagsGuarded seen rest
  | TComplete n st _ :: rest =>
      tagsGuarded (seen || (Z.eqb n 12 && String.eqb st "completed")) rest
  | _ :: rest => tagsGuarded seen rest
  end.

(** The completion of the report step, as the client reads it. *)
Definition completesReportStep (f : Frame) : bool :=
  match f with
  | Ev.step_complete n _ _ st _ => Z.eqb n 12 && String.eqb st "completed"
  | _ => false
  end.

Definition isFrameTag (t : Tag) : bool :=
  match t with
  | TCall _ => false
  | _ => true
  end.

(** The four events of a search or analysis step that completes. *)
Definition stepTags (s : Z) (c : Call) (count : option Z) (p : Z) : list Tag :=
  [TStart s; TCall c; TComplete s "completed" count; TProgress p].

(** The trace of a run with five searches and five analyses, up to the
    report step. *)
Definition beforeReport (w : World) (topic depth : string)
    (plan : ResearchPlan) (s0 s1 s2 s3 s4 : SearchSpec)
    (a0 a1 a2 a3 a4 : AnalysisSpec) : list Tag :=
  planTags topic plan
  ++ stepTags 2 (searchCall depth 0 s0) (Some (searchCount w depth 0 s0)) 14
  ++ stepTags 3 (searchCall depth 1 s1) (Some (searchCount w depth 1 s1)) 21
  ++ stepTags 4 (searchCall depth 2 s2) (Some (searchCount w depth 2 s2)) 28
  ++ stepTags 5 (searchCall depth 3 s3) (Some (searchCount w depth 3 s3)) 35
  ++ stepTags 6 (searchCall depth 4 s4) (Some (searchCount w depth 4 s4)) 42
  ++ stepTags 7 (analysisCall 0 a0) None 75
  ++ stepTags 8 (analysisCall 1 a1) None 80
  ++ stepTags 9 (analysisCall 2 a2) None 85
  ++ stepTags 10 (analysisCall 3 a3) None 90
  ++ stepTags 11 (analysisCall 4 a4) None 95.

(** *** A search that fails or finds nothing *)

(** Search [k] of the plan throws, or returns no result. *)
Definition findsNothing (w : World) (depth : string) (k : nat)
    (search : SearchSpec) : Prop :=
  match tavilySearch w k (query search) (providerDepth depth)
          (maxResults (priority search)) with
  | Throws _ => True
  | Returns rs => rs = []
  end.

Fixpoint searchCalls (depth : string) (i : nat) (todo : list SearchSpec)
  : list Call :=
  match todo with
  | [] => []
  | search :: rest => searchCall depth i search :: searchCalls depth (S i) rest
  end.

Fixpoint analysisCalls (i : nat) (todo : list AnalysisSpec) : list Call :=
  match todo with
  | [] => []
  | analysis :: rest => analysisCall i analysis :: analysisCalls (S i) rest
  end.

(** The adapter calls of a run in which nothing aborts. *)
Definition allCalls (topic depth : string) (plan : ResearchPlan) : list Call :=
  CallPlan topic
  :: searchCalls depth 0 (searches plan)
  ++ analysisCalls 0 (analyses plan)
  ++ [CallReport].

Definition tagCall (t : Tag) : list Call :=
  match t with
  | TCall c => [c]
  | _ => []
  end.

Definition tagStatus (t : Tag) : option string :=
  match t with
  | TStart s =>
      Some (if Z.eqb s 1 then "planning"
            else if Z.leb s 6 then "searching" else "analyzing")%string
  | TStatus st => Some st
  | TDone => Some "complete"%string
  | TError => Some "complete"%string
  | _ => None
  end.

(** The statuses the client gives to a step. *)
Definition runningOrCompleted (u : ResearchUpdate) : Prop :=
  ru_status u = "running"%string \/ ru_status u = "completed"%string.

(** *** The snapshot *)

(** The sum of [links.length] over search records. *)
Definition linkTotal (records : list SearchLinkRecord) : Z :=
  fold_right (fun r acc => len (sl_links r) + acc) 0 records.

Definition linksConsistent (pl : PlanLinks) : Prop :=
  total_links pl = linkTotal (pl_searches pl).

Definition rowConsistent (m : Message) : Prop :=
  match research_plan_links m with
  | Some pl => linksConsistent pl
  | None => True
  end.

(** What holds of the store and of the locals between two steps of a run:
    the locals know the id the store gave, the row exists when there is an
    id, and every snapshot written or held has a consistent link total. *)
Definition betweenSteps (w : World) (e : Env) (st : Locals) : Prop :=
  assistantMessageId st = insertMessage w
  /\ (insertMessage w <> None -> rows e <> [])
  /\ Forall rowConsistent (rows e)
  /\ linksConsistent (planLinksData st).

(** The columns of the final update. *)
Definition finalUpdates (content : string) (st : Locals)
    (citations : list CitationSource) : Updates :=
  mkUpdates (Some content) None None (Some "complete"%string) (Some 100)
    (Some (mkResearchSteps true true true true))
    (Some (mkPlanLinks (plan_id (planLinksData st))
             (created_at (planLinksData st)) (pl_searches (planLinksData st))
             (pl_analyses (planLinksData st)) (total_links (planLinksData st))
             (unique_domains (planLinksData st)) 100))
    (Some citations).


(** A run that completed live: it told the client so and sent no error. *)
Definition completedLive (fs : list Frame) : Prop :=
  existsb isErrorFrame fs = false /\ In (Ev.status_change "complete") fs.

(** The number of updates of the row asked of the store while serving a
    request: the calls of [updateMessageInDatabase]. *)
Definition updatesAsked (r : Response) : nat :=
  match r with
  | EventStream e => writes e
  | BadRequest _ _ => O
  end.

(** The store accepted the last update asked of it.  In a run that
    completed with a row id this is the final update, the one that writes
    the report, the status 'complete' and the citations. *)
Definition lastUpdateAccepted (w : World) (r : Response) : Prop :=
  match updatesAsked r with
  | O => False
  | S n => updateOk w n = true
  end.



(** A step entry without the id and the timestamp the browser gave it. *)
Definition unstamped (u : ResearchUpdate)
  : Z * string * string * string * option StepData :=
  (ru_step u, ru_title u, ru_description u, ru_status u, ru_data u).

(** Two client states that differ at most in the ids and timestamps of
    their step entries. *)
Definition sameView (s1 s2 : DeepSearchState) : Prop :=
  isActive s1 = isActive s2
  /\ progress s1 = progress s2
  /\ status s1 = status s2
  /\ map unstamped (updates s1) = map unstamped (updates s2)
  /\ result s1 = result s2
  /\ error s1 = error s2
  /\ researchPlan s1 = researchPlan s2
  /\ finalSources s1 = finalSources s2
  /\ planLinks s1 = planLinks s2.

(** *** Concrete inputs *)

Local Open Scope string_scope.

Definition plan5 : ResearchPlan :=
  mkResearchPlan
    [mkSearchSpec 1 "q1" "web"; mkSearchSpec 2 "q2" "web";
     mkSearchSpec 3 "q3" "web"; mkSearchSpec 4 "q4" "web";
     mkSearchSpec 5 "q5" "web"]
    [mkAnalysisSpec "trend" "d1" 1; mkAnalysisSpec "impact" "d2" 2;
     mkAnalysisSpec "comparative" "d3" 3; mkAnalysisSpec "risk" "d4" 4;
     mkAnalysisSpec "outlook" "d5" 5].

Definition oneResult (q : string) : list TavilyResult :=
  [mkTavilyResult "T" ("http://example.com/" ++ q)%string "c"].

Definition oneAnalysis : AnalysisResult :=
  mkAnalysisResult [mkFinding "ins" [] (1 # 2) []] [] []
    [mkKeySource "K" "http://k.org" (9 # 10)].

(** A world in which every adapter answers. *)
Definition calmWorld : World :=
  mkWorld (fun _ => "t"%string) (fun _ => "r"%string)
    (fun _ => Some "example.com"%string)
    (fun s => s) (fun _ _ => Returns plan5) (ErrorObj "schema")
    (fun _ q _ _ => Returns (oneResult q))
    (fun _ _ _ _ => Returns oneAnalysis)
    (fun _ => Returns (mkReportStream ["a"%string; "b"%string] None))
    (Some "m1") (fun _ => true).

(** The same world, except that the provider returns as many results as
    it is asked for. *)
Definition obligingWorld : World :=
  mkWorld (fun _ => "t"%string) (fun _ => "r"%string)
    (fun _ => Some "example.com"%string)
    (fun s => s) (fun _ _ => Returns plan5) (ErrorObj "schema")
    (fun _ q _ n =>
       Returns
         (repeat (mkTavilyResult "T" ("http://example.com/" ++ q)%string "c")
            (Z.to_nat (Qfloor n))))
    (fun _ _ _ _ => Returns oneAnalysis)
    (fun _ => Returns (mkReportStream ["a"%string; "b"%string] None))
    (Some "m1") (fun _ => true).


(** The same world, except that the third search throws. *)
Definition thirdSearchThrows : World :=
  mkWorld (fun _ => "t"%string) (fun _ => "r"%string)
    (fun _ => Some "example.com"%string)
    (fun s => s) (fun _ _ => Returns plan5) (ErrorObj "schema")
    (fun i q _ _ =>
       if Nat.eqb i 2 then Throws (ErrorObj "boom") else Returns (oneResult q))
    (fun _ _ _ _ => Returns oneAnalysis)
    (fun _ => Returns (mkReportStream ["a"%string; "b"%string] None))
    (Some "m1") (fun _ => true).

(** A world whose planner throws. *)
Definition plannerThrows : World :=
  mkWorld (fun _ => "t"%string) (fun _ => "r"%string)
    (fun _ => Some "example.com"%string)
    (fun s => s) (fun _ _ => Throws (ErrorObj "model down")) (ErrorObj "schema")
    (fun _ q _ _ => Returns (oneResult q))
    (fun _ _ _ _ => Returns oneAnalysis)
    (fun _ => Returns (mkReportStream ["a"%string; "b"%string] None))
    (Some "m1") (fun _ => true).


Definition someRequest : Request := validRequest "topic" "session" None.

Definition someBrowser : Browser := mkBrowser (fun _ => "now"%string) (fun _ => "rnd"%string).

Definition freshHook : Hook := mkHook resetState 0.

Local Close Scope string_scope.

(** ** Vocabulary of the further properties *)

(** *** Steps along a frame sequence *)

(** The [step_start] ([true]) and [step_complete] ([false]) frames of a
    sequence, with their step numbers, in order. *)
Definition stepMarks (fs : list Frame) : list (bool * Z) :=
  flat_map
    (fun f =>
       match f with
       | Ev.step_start s _ _ _ => [(true, s)]
       | Ev.step_complete s _ _ _ _ => [(false, s)]
       | _ => []
       end) fs.

Definition tagMarks (t : Tag) : list (bool * Z) :=
  match t with
  | TStart s => [(true, s)]
  | TComplete s _ _ => [(false, s)]
  | _ => []
  end.

(** Start and completion of the steps [s], [s + 1], ... ([n] of them). *)
Fixpoint stepsFrom (s : Z) (n : nat) : list (bool * Z) :=
  match n with
  | O => []
  | S n' => (true, s) :: (false, s) :: stepsFrom (s + 1) n'
  end.

(** The statuses carried by the [step_complete] frames of a sequence. *)
Definition completionStatuses (fs : list Frame) : list string :=
  flat_map
    (fun f =>
       match f with
       | Ev.step_complete _ _ _ st _ => [st]
       | _ => []
       end) fs.

Definition tagCompletion (t : Tag) : list string :=
  match t with
  | TComplete _ st _ => [st]
  | _ => []
  end.

(** Marks that open step [k], close it, open step [k + 1], and so on;
    [open] tells whether step [k] is open already. *)
Fixpoint alternates (k : Z) (open : bool) (ms : list (bool * Z)) : bool :=
  match ms with
  | [] => true
  | (true, s) :: rest => negb open && Z.eqb s k && alternates k true rest
  | (false, s) :: rest => open && Z.eqb s k && alternates (k + 1) false rest
  end.

Definition isRunning (u : ResearchUpdate) : bool :=
  String.eqb (ru_status u) "running".

(** The entries of a step list while step [k] is the next to complete:
    earlier steps are completed, and step [k] is running when it is open. *)
Definition settledBefore (k : Z) (u : ResearchUpdate) : Prop :=
  ru_step u < k /\ ru_status u = "completed"%string.

Definition stepsInOrder (k : Z) (open : bool) (us : list ResearchUpdate)
  : Prop :=
  if open
  then exists done r,
         us = done ++ [r]
         /\ Forall (settledBefore k) done
         /\ ru_step r = k
         /\ ru_status r = "running"%string
  else Forall (settledBefore k) us.

(** *** The sources of the report *)

(** The URLs the route offers to its collection of sources, in the order it
    visits them: the results of every search, then the key sources of every
    analysis. *)
Definition offeredUrls (searchResults : list SearchResult)
    (analysisResults : list AnalysisEntry) : list string :=
  flat_map (fun r => map wr_url (sr_results r)) searchResults
  ++ flat_map (fun a => map ks_url (key_sources (ae_result a)))
       analysisResults.

Definition sourceUrls (c : Citations) : list string :=
  map src_url (allSources c).

(** The numbers [first], [first + 1], ... ([n] of them). *)
Definition countFrom (first : Z) (n : nat) : list Z :=
  map (fun k => first + Z.of_nat k) (seq 0 n).

(** The collection is consistent: the map's keys are the URLs of the
    sources, numbered from 1 in the order of the list, and the counter is
    the next number. *)
Definition numbered (c : Citations) : Prop :=
  sourceMap c = combine (sourceUrls c) (countFrom 1 (length (allSources c)))
  /\ citationCounter c = len (allSources c) + 1.

(** The collection holds exactly the non-empty URLs among [offered], each
    once. *)
Definition collects (offered : list string) (c : Citations) : Prop :=
  NoDup (sourceUrls c)
  /\ (forall url,
        In url (sourceUrls c) <-> In url offered /\ truthy url = true).

(** *** Reading the stream *)

(** A string without a newline character. *)
Fixpoint singleLine (s : string) : bool :=
  match s with
  | EmptyString => true
  | String c rest =>
      negb (Ascii.eqb c (Ascii.ascii_of_nat 10)) && singleLine rest
  end.

(** [stringify] and [parseEvent] agree on an update: the text is one line
    and parses back to the event of the update. *)
Definition readsBack (stringify : Update -> string)
    (parseEvent : string -> option Frame) (u : Update) : Prop :=
  singleLine (stringify u) = true
  /\ parseEvent (stringify u) = Some (payload u).

(** The updates enqueued on the stream, in order. *)
Definition sent (e : Env) : list Update :=
  flat_map (fun ev => match ev with Sent u => [u] | Called _ => [] end)
    (trace e).

(** What the reader holds once the text [text] has gone through it. *)
Definition afterText (b : Browser) (parseEvent : string -> option Frame)
    (text : string) (h : Hook) : Reader :=
  mkReader (last (split text) EmptyString)
    (fold_left (handleLine b parseEvent) (removelast (split text)) h).

(** A toy wire format for the two events of a run whose planner throws. *)
Definition toyStringify (u : Update) : string :=
  match payload u with
  | Ev.step_start _ _ _ _ => "start"%string
  | _ => "error"%string
  end.

Definition toyParse (text : string) : option Frame :=
  if String.eqb text "start"
  then Some (Ev.step_start 1 "Research Planning"
               "Creating comprehensive research plan..." "running")
  else if String.eqb text "error"
       then Some (Ev.error "model down" "Unknown")
       else None.

(** *** The history of the message row *)

(** The domains of the links a snapshot records, in order. *)
Definition searchDomains (pl : PlanLinks) : list string :=
  flat_map (fun r => map lk_domain (sl_links r)) (pl_searches pl).

(** The records of a snapshot are those of steps 2, 3, ... and 7, 8, ...,
    all completed, each search with as many links as it counts results. *)
Definition recordsNumbered (pl : PlanLinks) : Prop :=
  map sl_step (pl_searches pl) = countFrom 2 (length (pl_searches pl))
  /\ map al_step (pl_analyses pl) = countFrom 7 (length (pl_analyses pl))
  /\ Forall (fun r => sl_status r = "completed"%string
                      /\ sl_result_count r = len (sl_links r))
       (pl_searches pl)
  /\ Forall (fun a => al_status a = "completed"%string) (pl_analyses pl).

(** [unique_domains] holds the domains of the recorded links, each once. *)
Definition domainsExact (pl : PlanLinks) : Prop :=
  NoDup (unique_domains pl)
  /\ (forall d, In d (unique_domains pl) <-> In d (searchDomains pl)).

(** The four stages of a row: status, progress, completion rate and the
    numbers of records go together. *)
Definition stageOf (status : option string) (progress : option Z)
    (pl : PlanLinks) : Prop :=
  let s := len (pl_searches pl) in
  let a := len (pl_analyses pl) in
  (status = Some "planning"%string /\ progress = Some 10
   /\ s = 0 /\ a = 0 /\ completion_rate pl = 0)
  \/ (status = Some "searching"%string /\ progress = Some (7 * (s + 1))
      /\ 1 <= s <= 5 /\ a = 0 /\ completion_rate pl = 0)
  \/ (status = Some "analyzing"%string /\ progress = Some (70 + 5 * a)
      /\ s = 5 /\ 1 <= a <= 5 /\ completion_rate pl = 20 * a)
  \/ (status = Some "complete"%string /\ progress = Some 100
      /\ s = 5 /\ a = 5 /\ completion_rate pl = 100).

(** A value the row takes in a run. *)
Definition rowOfRun (m : Message) : Prop :=
  research_plan_col m <> None
  /\ exists pl,
       research_plan_links m = Some pl
       /\ recordsNumbered pl
       /\ domainsExact pl
       /\ stageOf (research_status m) (research_progress m) pl.

(** The row value [m] is not final, and the snapshot [pl] continues the
    records it holds. *)
Definition heldBy (pl : PlanLinks) (m : Message) : Prop :=
  research_status m <> Some "complete"%string
  /\ exists pl1,
       research_plan_links m = Some pl1
       /\ prefixOf (pl_searches pl1) (pl_searches pl)
       /\ prefixOf (pl_analyses pl1) (pl_analyses pl).

(** A later value of the row continues an earlier one. *)
Definition continues (m1 m2 : Message) : Prop :=
  exists pl2, research_plan_links m2 = Some pl2 /\ heldBy pl2 m1.

Definition rowHistory (rs : list Message) : Prop :=
  Forall rowOfRun rs /\ StronglySorted continues rs.

(** A history without a final value. *)
Definition unfinished (rs : list Message) : Prop :=
  rowHistory rs
  /\ Forall (fun m => research_status m <> Some "complete"%string) rs.

(** What holds between two steps of the loops: [s] searches and [a]
    analyses are recorded in the snapshot the locals hold, which continues
    every value of the row. *)
Definition walking (s a : nat) (status : string) (e : Env) (st : Locals)
  : Prop :=
  currentStatus st = status
  /\ length (pl_searches (planLinksData st)) = s
  /\ length (pl_analyses (planLinksData st)) = a
  /\ completion_rate (planLinksData st) = 20 * Z.of_nat a
  /\ recordsNumbered (planLinksData st)
  /\ domainsExact (planLinksData st)
  /\ rowHistory (rows e)
  /\ Forall (heldBy (planLinksData st)) (rows e).

Definition progressOf (m : Message) : Z :=
  match research_progress m with
  | Some p => p
  | None => 0
  end.

Definition completionOf (m : Message) : Z :=
  match research_plan_links m with
  | Some pl => completion_rate pl
  | None => 0
  end.

(** *** A report whose sources cannot be cited *)

(** A [report_complete] frame one of whose sources has a URL that
    [new URL] rejects. *)
Definition reportsUnparseable (w : World) (f : Frame) : bool :=
  match f with
  | Ev.report_complete _ _ sources =>
      negb (forallb (parses w) (map src_url sources))
  | _ => false
  end.

Local Open Scope string_scope.

Definition strayAnalysis : AnalysisResult :=
  mkAnalysisResult [mkFinding "ins" [] (1 # 2) []] [] []
    [mkKeySource "K" "see the appendix" (9 # 10)].

(** A world in which every adapter answers, and the analyses name a key
    source whose URL is not one. *)
Definition straySourceWorld : World :=
  mkWorld (fun _ => "t") (fun _ => "r")
    (fun url => if String.eqb url "see the appendix" then None
                else Some "example.com")
    (fun s => s) (fun _ _ => Returns plan5) (ErrorObj "schema")
    (fun _ q _ _ => Returns (oneResult q))
    (fun _ _ _ _ => Returns strayAnalysis)
    (fun _ => Returns (mkReportStream ["a"; "b"] None))
    (Some "m1") (fun _ => true).

Local Close Scope string_scope.

(** *** Failures that abort a run *)

(** From [e], the computation returns, or throws [x], after recording
    exactly the events tagged [L]. *)
Definition returnsAfter {A : Type} (m : M A) (e : Env) (L : list Tag) : Prop :=
  exists e' a new,
    m e = (e', Ok a) /\ trace e' = trace e ++ new /\ map tagOf new = L.

Definition throwsAfter {A : Type} (m : M A) (e : Env) (L : list Tag)
    (x : Exn) : Prop :=
  exists e' new,
    m e = (e', Threw x) /\ trace e' = trace e ++ new /\ map tagOf new = L.

(** [new URL] accepts the URL of every result of search [i]. *)
Definition resultsParse (w : World) (depth : string) (i : nat)
    (search : SearchSpec) : bool :=
  allParse w
    (sr_results (searchOutcome w i (query search) depth (priority search))).

(** The same of the searches [todo], numbered from [i]. *)
Fixpoint searchesParse (w : World) (depth : string) (i : nat)
    (todo : list SearchSpec) : bool :=
  match todo with
  | [] => true
  | search :: rest =>
      resultsParse w depth i search && searchesParse w depth (S i) rest
  end.

(** Analysis [i] answers within its schema, whatever the searches found. *)
Definition answers (w : World) (i : nat) (analysis : AnalysisSpec) : Prop :=
  forall searchResults,
    analysisAnswer w i searchResults analysis <> None.

Fixpoint analysesAnswer (w : World) (i : nat) (todo : list AnalysisSpec)
  : Prop :=
  match todo with
  | [] => True
  | analysis :: rest => answers w i analysis /\ analysesAnswer w (S i) rest
  end.

(** Analysis [i] throws or answers off its schema, whatever the searches
    found. *)
Definition failsToAnswer (w : World) (i : nat) (analysis : AnalysisSpec)
  : Prop :=
  forall searchResults, analysisAnswer w i searchResults analysis = None.

Local Open Scope string_scope.

(** A world whose second search returns a result with a URL that is not
    one. *)
Definition strayResultWorld : World :=
  mkWorld (fun _ => "t") (fun _ => "r")
    (fun url => if String.eqb url "http://example.com/q2" then None
                else Some "example.com")
    (fun s => s) (fun _ _ => Returns plan5) (ErrorObj "schema")
    (fun _ q _ _ => Returns (oneResult q))
    (fun _ _ _ _ => Returns oneAnalysis)
    (fun _ => Returns (mkReportStream ["a"; "b"] None))
    (Some "m1") (fun _ => true).

(** A world whose third analysis throws. *)
Definition thirdAnalysisThrows : World :=
  mkWorld (fun _ => "t") (fun _ => "r")
    (fun _ => Some "example.com")
    (fun s => s) (fun _ _ => Returns plan5) (ErrorObj "schema")
    (fun _ q _ _ => Returns (oneResult q))
    (fun i _ _ _ =>
       if Nat.eqb i 2 then Throws (ErrorObj "overloaded")
       else Returns oneAnalysis)
    (fun _ => Returns (mkReportStream ["a"; "b"] None))
    (Some "m1") (fun _ => true).

Local Close Scope string_scope.

(** *** The report, in fragments and whole *)

(** The texts of the [report_chunk] frames of a sequence, in order. *)
Definition reportChunks (fs : list Frame) : list string :=
  flat_map (fun f => match f with Ev.report_chunk c => [c] | _ => [] end) fs.

(** *** The stream does not depend on the store accepting updates *)

(** The world [w], with a store that accepts updates as [ok] says. *)
Definition withUpdateOk (ok : nat -> bool) (w : World) : World :=
  mkWorld (clock w) (random w) (hostname w) (toLowerCase w) (generatePlan w)
    (schemaMismatch w) (tavilySearch w) (generateAnalysis w) (streamText w)
    (insertMessage w) ok.

(** Two environments that differ at most in the rows of the store and in
    the number of updates attempted. *)
Definition agree (e e' : Env) : Prop :=
  trace e = trace e' /\ ticks e = ticks e' /\ closed e = closed e'.

(** Two computations that, from such environments, end in such
    environments with the same result. *)
Definition alike {A : Type} (m m' : M A) : Prop :=
  forall e e',
    agree e e' ->
    agree (fst (m e)) (fst (m' e')) /\ snd (m e) = snd (m' e').

(** *** What recovery shows of a search is what the stream showed *)

(** The stream holds the [step_complete] frame of the step of a search
    record, with the data recovery builds from the record. *)
Definition shownLive (fs : list Frame) (r : SearchLinkRecord) : Prop :=
  exists title description,
    In (Ev.step_complete (sl_step r) title description "completed"
          (ru_data (recoveredSearch EmptyString r)))
       fs.

Definition rowShown (fs : list Frame) (m : Message) : Prop :=
  forall pl,
    research_plan_links m = Some pl -> Forall (shownLive fs) (pl_searches pl).

Definition showing (e : Env) (st : Locals) : Prop :=
  Forall (shownLive (frames e)) (pl_searches (planLinksData st))
  /\ Forall (rowShown (frames e)) (rows e).

(** *** A store that does not create the row *)

(** No update has been attempted and the store holds no row. *)
Definition untouched (e : Env) : Prop := writes e = 0%nat /\ rows e = [].

Local Open Scope string_scope.

(** A world in which every adapter answers, and the store fails to create
    the row. *)
Definition noRowWorld : World :=
  mkWorld (fun _ => "t") (fun _ => "r")
    (fun _ => Some "example.com")
    (fun s => s) (fun _ _ => Returns plan5) (ErrorObj "schema")
    (fun _ q _ _ => Returns (oneResult q))
    (fun _ _ _ _ => Returns oneAnalysis)
    (fun _ => Returns (mkReportStream ["a"; "b"] None))
    None (fun _ => true).

Local Close Scope string_scope.

(** *** A row whose id does not pass the guard *)

(** The row as the insertion left it. *)
Definition stillPlanning (m : Message) : Prop :=
  research_status m = Some "planning"%string
  /\ research_progress m = Some 10
  /\ content m = EmptyString
  /\ citation_sources m = None.

Local Open Scope string_scope.

(** A world in which every adapter answers, the analyses name a key source
    whose URL is not one, and the store creates the row with the empty
    string as its id. *)
Definition emptyIdWorld : World :=
  mkWorld (fun _ => "t") (fun _ => "r")
    (fun url => if String.eqb url "see the appendix" then None
                else Some "example.com")
    (fun s => s) (fun _ _ => Returns plan5) (ErrorObj "schema")
    (fun _ q _ _ => Returns (oneResult q))
    (fun _ _ _ _ => Returns strayAnalysis)
    (fun _ => Returns (mkReportStream ["a"; "b"] None))
    (Some "") (fun _ => true).

Local Close Scope string_scope.

(** ** Results *)

(** *** The result count asked of the search provider *)

Lemma maxResults_antitone (p q : Q) :
  (p <= q)%Q -> (maxResults q <= maxResults p)%Q.
Proof.
  intros H. unfold maxResults.
  apply Q.max_le_compat_l. apply Q.min_le_compat_r.
  unfold Qminus. apply Qplus_le_r. apply Qopp_le_compat. exact H.
Qed.

Lemma maxResults_bounds (p : Q) :
  (4 <= maxResults p)%Q /\ (maxResults p <= 12)%Q.
Proof.
  unfold maxResults. split.
  - apply Q.le_max_l.
  - apply Q.max_lub; [ discriminate | apply Q.le_min_r ].
Qed.

Lemma maxResults_int (p : Z) :
  1 <= p <= 5 ->
  (maxResults (inject_Z p) == inject_Z (Z.max 4 (Z.min (8 - p) 12)))%Q.
Proof.
  intros H.
  assert (C : p = 1 \/ p = 2 \/ p = 3 \/ p = 4 \/ p = 5) by lia.
  destruct C as [-> | [-> | [-> | [-> | ->]]]]; reflexivity.
Qed.

(** The count as the very number handed to the provider. *)
Lemma maxResults_value (p : Z) :
  1 <= p <= 5 ->
  maxResults (inject_Z p) = inject_Z (Z.max 4 (Z.min (8 - p) 12)).
Proof.
  intros H.
  assert (C : p = 1 \/ p = 2 \/ p = 3 \/ p = 4 \/ p = 5) by lia.
  destruct C as [-> | [-> | [-> | [-> | ->]]]]; reflexivity.
Qed.

(** What a search returns, by the answer of the provider to the one
    request made of it. *)
Lemma executeWebSearch_result (w : World) (i : nat) (q d : string) (p : Q)
    (e : Env) :
  snd (executeWebSearch w i q d p e)
  = Ok (match tavilySearch w i q (providerDepth d) (maxResults p) with
        | Returns rs =>
            mkSearchResult "web" (q, p) (map normalise rs) None
        | Throws x =>
            mkSearchResult "web" (q, p) []
              (Some (messageOr x "Search failed"))
        end).
Proof.
  unfold executeWebSearch, tvly_search, tryCatch, bind, logCall, record, await,
    providerDepth.
  cbn.
  destruct (tavilySearch w i q _ (maxResults p)); reflexivity.
Qed.

Lemma executeWebSearch_calls (w : World) (i : nat) (q d : string) (p : Q)
    (e : Env) :
  calls (fst (executeWebSearch w i q d p e))
  = calls e ++ [CallSearch i q (providerDepth d) (maxResults p)].
Proof.
  unfold executeWebSearch, tvly_search, tryCatch, bind, logCall, record, await,
    providerDepth.
  cbn.
  destruct (tavilySearch w i q _ (maxResults p)); cbn;
    unfold calls; cbn; rewrite flat_map_app; reflexivity.
Qed.

(** C9: for a search of integer priority [p] between 1 and 5, the search
    provider is called once, with the result count
    [max(4, min(8 - p, 12))]: what [executeWebSearch] returns is built from
    the answer of the provider to the request for exactly that count (its
    results when it answers, none and its message when it throws), and the
    one call it makes carries that count; the count lies between 4 and 12
    and does not increase when the priority value increases. *)
Theorem requested_result_count (w : World) (i : nat) (q d : string) (p : Z)
    (e : Env) :
  1 <= p <= 5 ->
  calls (fst (executeWebSearch w i q d (inject_Z p) e))
  = calls e ++ [CallSearch i q (providerDepth d) (maxResults (inject_Z p))]
  /\ (maxResults (inject_Z p) == inject_Z (Z.max 4 (Z.min (8 - p) 12)))%Q
  /\ (4 <= maxResults (inject_Z p))%Q
  /\ (maxResults (inject_Z p) <= 12)%Q
  /\ (forall p' : Q, (inject_Z p <= p')%Q ->
        (maxResults p' <= maxResults (inject_Z p))%Q)
  /\ snd (executeWebSearch w i q d (inject_Z p) e)
     = Ok (match
             tavilySearch w i q (providerDepth d)
               (inject_Z (Z.max 4 (Z.min (8 - p) 12)))
           with
           | Returns rs =>
               mkSearchResult "web" (q, inject_Z p) (map normalise rs) None
           | Throws x =>
               mkSearchResult "web" (q, inject_Z p) []
                 (Some (messageOr x "Search failed"))
           end)
  /\ calls (fst (executeWebSearch w i q d (inject_Z p) e))
     = calls e
       ++ [CallSearch i q (providerDepth d)
             (inject_Z (Z.max 4 (Z.min (8 - p) 12)))].
Proof.
  intros H. split; [ apply executeWebSearch_calls | ].
  split; [ apply maxResults_int; exact H | ].
  split; [ apply maxResults_bounds | ].
  split; [ apply maxResults_bounds | ].
  split; [ intros p' Hp; apply maxResults_antitone; exact Hp | ].
  rewrite <- (maxResults_value p H).
  split; [ apply executeWebSearch_result | apply executeWebSearch_calls ].
Qed.

Lemma requested_result_count_witness :
  let w := obligingWorld in
  let found := executeWebSearch w 0 "q1" "basic" (inject_Z 2) startEnv in
  1 <= 2 <= 5
  /\ match snd found with
     | Ok result => length (sr_results result) = 6%nat
     | Threw _ => False
     end
  /\ calls (fst found)
     = calls startEnv
       ++ [CallSearch 0 "q1" (providerDepth "basic") (maxResults (inject_Z 2))]
  /\ (maxResults (inject_Z 2) == inject_Z (Z.max 4 (Z.min (8 - 2) 12)))%Q
  /\ (4 <= maxResults (inject_Z 2))%Q
  /\ (maxResults (inject_Z 2) <= 12)%Q
  /\ (forall p' : Q, (inject_Z 2 <= p')%Q ->
        (maxResults p' <= maxResults (inject_Z 2))%Q)
  /\ snd found
     = Ok (match
             tavilySearch w 0 "q1" (providerDepth "basic")
               (inject_Z (Z.max 4 (Z.min (8 - 2) 12)))
           with
           | Returns rs =>
               mkSearchResult "web" ("q1"%string, inject_Z 2)
                 (map normalise rs) None
           | Throws x =>
               mkSearchResult "web" ("q1"%string, inject_Z 2) []
                 (Some (messageOr x "Search failed"))
           end)
  /\ calls (fst found)
     = calls startEnv
       ++ [CallSearch 0 "q1" (providerDepth "basic")
             (inject_Z (Z.max 4 (Z.min (8 - 2) 12)))].
Proof.
  cbv zeta. split; [ lia | ]. split; [ vm_compute; reflexivity | ].
  apply (requested_result_count obligingWorld 0 "q1" "basic" 2 startEnv). lia.
Defined.

(** *** Planning failure *)

(** C4: when the planning call fails (the model throws, or its answer does
    not match the plan schema), the stream carries the [step_start] of step
    1 followed by one [error] frame and nothing else: exactly one error
    frame, no [step_start] for step 2 or later, no adapter call besides the
    planner's, no row written, and the stream is closed. *)
Theorem planning_failure_aborts (w : World) (topic sessionId : string)
    (depth : option string) :
  truthy topic = true ->
  truthy sessionId = true ->
  planningFails w topic ->
  let r := POST w (validRequest topic sessionId depth) in
  (exists message,
     framesOf r
     = [Ev.step_start 1 "Research Planning"
          "Creating comprehensive research plan..." "running";
        Ev.error message "Unknown"])
  /\ length (filter isErrorFrame (framesOf r)) = 1%nat
  /\ existsb (startsStepFrom 2) (framesOf r) = false
  /\ callsOf r = [CallPlan topic]
  /\ rowsOf r = []
  /\ streamClosed r = true.
Proof.
  intros Ht Hs Hp. unfold POST, validRequest, falsy. cbn.
  rewrite Ht, Hs. cbn.
  unfold planningFails in Hp.
  unfold start, tryFinally, tryCatch, research, investigate, createResearchPlan,
    generateObject, sendUpdate, enqueue, logCall, record, bind, tick, await.
  cbn.
  destruct (generatePlan w topic (clock w 0)) as [p | x]; cbn.
  - rewrite Hp. cbn. repeat split; eauto.
  - repeat split; eauto.
Qed.

Lemma planning_failure_aborts_witness :
  let r := POST plannerThrows (validRequest "topic" "session" None) in
  planningFails plannerThrows "topic"
  /\ (exists message,
     framesOf r
     = [Ev.step_start 1 "Research Planning"
          "Creating comprehensive research plan..." "running";
        Ev.error message "Unknown"])
  /\ length (filter isErrorFrame (framesOf r)) = 1%nat
  /\ existsb (startsStepFrom 2) (framesOf r) = false
  /\ callsOf r = [CallPlan "topic"]
  /\ rowsOf r = []
  /\ streamClosed r = true.
Proof.
  cbv zeta. split; [ exact I | ].
  apply (planning_failure_aborts plannerThrows "topic" "session" None).
  - reflexivity.
  - reflexivity.
  - exact I.
Defined.

(** *** The client reducer under replay *)

Section Replay.

Variable b : Browser.

Lemma foldFrames_snoc (h : Hook) (fs : list Frame) (f : Frame) :
  foldFrames b h (fs ++ [f]) = handleServerEvent b (foldFrames b h fs) f.
Proof. unfold foldFrames. rewrite fold_left_app. reflexivity. Qed.

Lemma lastSet_snoc {F X : Type} (setter : F -> option X) (fs : list F)
    (f : F) :
  lastSet setter (fs ++ [f])
  = match setter f with Some v => Some v | None => lastSet setter fs end.
Proof. unfold lastSet. rewrite fold_left_app. reflexivity. Qed.

(** A field that every frame either overwrites or leaves alone holds, after
    a fold, the last value written. *)
Lemma fold_overwrites {X : Type} (field : DeepSearchState -> X)
    (setter : Frame -> option X) :
  (forall h f,
     field (state (handleServerEvent b h f))
     = orKeep (setter f) (field (state h))) ->
  forall h fs,
    field (state (foldFrames b h fs))
    = orKeep (lastSet setter fs) (field (state h)).
Proof.
  intros Hstep h fs. induction fs as [| f fs IH] using rev_ind.
  - reflexivity.
  - rewrite foldFrames_snoc, lastSet_snoc, Hstep, IH.
    destruct (setter f); reflexivity.
Qed.

Lemma replay_overwrites {X : Type} (field : DeepSearchState -> X)
    (setter : Frame -> option X) :
  (forall h f,
     field (state (handleServerEvent b h f))
     = orKeep (setter f) (field (state h))) ->
  forall h fs,
    field (state (foldFrames b (foldFrames b h fs) fs))
    = field (state (foldFrames b h fs)).
Proof.
  intros Hstep h fs.
  rewrite (fold_overwrites field setter Hstep (foldFrames b h fs) fs).
  rewrite (fold_overwrites field setter Hstep h fs).
  destruct (lastSet setter fs); reflexivity.
Qed.

Ltac by_frame :=
  let h := fresh "h" in
  let f := fresh "f" in
  intros h f; destruct f; cbn; try reflexivity;
  repeat match goal with
         | |- context [if ?c then _ else _] => destruct c; cbn
         end; reflexivity.

Lemma progress_overwritten h f :
  progress (state (handleServerEvent b h f))
  = orKeep (setsProgress f) (progress (state h)).
Proof. revert h f. by_frame. Qed.

Lemma status_overwritten h f :
  status (state (handleServerEvent b h f))
  = orKeep (setsStatus f) (status (state h)).
Proof. revert h f. by_frame. Qed.

Lemma isActive_overwritten h f :
  isActive (state (handleServerEvent b h f))
  = orKeep (setsActive f) (isActive (state h)).
Proof. revert h f. by_frame. Qed.

Lemma error_overwritten h f :
  error (state (handleServerEvent b h f))
  = orKeep (setsError f) (error (state h)).
Proof. revert h f. by_frame. Qed.

Lemma researchPlan_overwritten h f :
  researchPlan (state (handleServerEvent b h f))
  = orKeep (setsPlan f) (researchPlan (state h)).
Proof. revert h f. by_frame. Qed.

Lemma finalSources_overwritten h f :
  finalSources (state (handleServerEvent b h f))
  = orKeep (setsSources f) (finalSources (state h)).
Proof. revert h f. by_frame. Qed.

Lemma planLinks_kept h f :
  planLinks (state (handleServerEvent b h f))
  = orKeep (@None (option PlanLinks)) (planLinks (state h)).
Proof. revert h f. by_frame. Qed.

(** The step list grows by one entry per [step_start] frame. *)
Lemma updates_length_step h f :
  length (updates (state (handleServerEvent b h f)))
  = (length (updates (state h)) + (if isStepStart f then 1 else 0))%nat.
Proof.
  destruct f; cbn; rewrite ?length_map, ?Nat.add_0_r; try reflexivity.
  destruct (step =? 1); [ | destruct (step <=? 6) ]; cbn;
    rewrite length_app; reflexivity.
Qed.

Lemma updates_length_fold h fs :
  length (updates (state (foldFrames b h fs)))
  = (length (updates (state h)) + length (filter isStepStart fs))%nat.
Proof.
  induction fs as [| f fs IH] using rev_ind.
  - cbn. lia.
  - rewrite foldFrames_snoc, updates_length_step, IH, filter_app, length_app.
    cbn. destruct (isStepStart f); cbn; lia.
Qed.

(** Without [step_start] frames the fold maps [completeBy] over the list. *)
Lemma updates_fold_map h fs :
  existsb isStepStart fs = false ->
  updates (state (foldFrames b h fs))
  = map (fun u => fold_left completeBy fs u) (updates (state h)).
Proof.
  induction fs as [| f fs IH] using rev_ind; intros Hno.
  - cbn. rewrite map_id. reflexivity.
  - rewrite existsb_app in Hno. apply orb_false_iff in Hno.
    destruct Hno as [Hfs Hf]. cbn in Hf. rewrite orb_false_r in Hf.
    rewrite foldFrames_snoc.
    transitivity (map (fun u => completeBy u f)
                    (updates (state (foldFrames b h fs)))).
    + destruct f; cbn in *; try discriminate;
        try (rewrite map_id; reflexivity); reflexivity.
    + rewrite (IH Hfs), map_map. apply map_ext. intros u.
      rewrite fold_left_app. reflexivity.
Qed.

Lemma completeBy_fold u fs :
  fold_left completeBy fs u
  = match lastSet (completionFor (ru_step u)) fs with
    | Some c => completed u c
    | None => u
    end.
Proof.
  induction fs as [| f fs IH] using rev_ind.
  - reflexivity.
  - rewrite fold_left_app, lastSet_snoc, IH. cbn.
    destruct f; cbn; try reflexivity.
    unfold completeUpdate.
    destruct (lastSet (completionFor (ru_step u)) fs) as [c |]; cbn;
      destruct (ru_step u =? step); reflexivity.
Qed.

Lemma completeBy_fold_idem u fs :
  fold_left completeBy fs (fold_left completeBy fs u)
  = fold_left completeBy fs u.
Proof.
  rewrite (completeBy_fold (fold_left completeBy fs u)).
  rewrite (completeBy_fold u).
  destruct (lastSet (completionFor (ru_step u)) fs) as [c |] eqn:E; cbn.
  - rewrite E. reflexivity.
  - rewrite E. reflexivity.
Qed.

Lemma replay_updates h fs :
  existsb isStepStart fs = false ->
  updates (state (foldFrames b (foldFrames b h fs) fs))
  = updates (state (foldFrames b h fs)).
Proof.
  intros Hno.
  rewrite (updates_fold_map (foldFrames b h fs) fs Hno).
  rewrite (updates_fold_map h fs Hno), map_map.
  apply map_ext. intros u. apply completeBy_fold_idem.
Qed.

(** When no chunk is pending, the report text is the last full report, or
    the text held before the fold when the sequence has no report frame. *)
Lemma result_fold h fs :
  chunksPending fs = false ->
  result (state (foldFrames b h fs))
  = match lastSet setsReport fs with
    | Some full => Some full
    | None => result (state h)
    end.
Proof.
  induction fs as [| f fs IH] using rev_ind; intros Hp.
  - reflexivity.
  - unfold chunksPending in Hp. rewrite fold_left_app in Hp. cbn in Hp.
    rewrite foldFrames_snoc, lastSet_snoc.
    destruct f; cbn in *; try discriminate; try (apply IH; exact Hp);
      try reflexivity.
    destruct (step =? 1); [ | destruct (step <=? 6) ]; cbn; apply IH; exact Hp.
Qed.

Lemma replay_result h fs :
  chunksPending fs = false ->
  result (state (foldFrames b (foldFrames b h fs) fs))
  = result (state (foldFrames b h fs)).
Proof.
  intros Hp.
  rewrite (result_fold (foldFrames b h fs) fs Hp), (result_fold h fs Hp).
  destruct (lastSet setsReport fs); reflexivity.
Qed.

End Replay.

(** Folding is deterministic up to the ids and timestamps of the entries. *)
Lemma handleServerEvent_sameView (b1 b2 : Browser) (h1 h2 : Hook) (f : Frame) :
  sameView (state h1) (state h2) ->
  sameView (state (handleServerEvent b1 h1 f))
    (state (handleServerEvent b2 h2 f)).
Proof.
  intros (Ha & Hp & Hs & Hu & Hr & He & Hpl & Hf & Hl).
  destruct f; unfold sameView; cbn;
    repeat match goal with
           | |- context [if ?c then _ else _] => destruct c; cbn
           end;
    rewrite ?map_app, ?Ha, ?Hp, ?Hs, ?Hu, ?Hr, ?He, ?Hpl, ?Hf, ?Hl;
    repeat split; try reflexivity.
  all: rewrite !map_map; revert Hu;
    generalize (updates (state h1)), (updates (state h2));
    induction l as [| u l IH]; intros [| u' l'] Hu; try discriminate;
    [ reflexivity | ].
  all: cbn in Hu; injection Hu as Hstep Htitle Hdesc Hstat Hdata Hrest; cbn;
    rewrite (IH l' Hrest); unfold completeUpdate; rewrite Hstep;
    destruct (ru_step u' =? step); unfold unstamped; cbn; congruence.
Qed.

Lemma foldFrames_sameView (b1 b2 : Browser) (fs : list Frame) :
  forall h1 h2,
    sameView (state h1) (state h2) ->
    sameView (state (foldFrames b1 h1 fs)) (state (foldFrames b2 h2 fs)).
Proof.
  induction fs as [| f fs IH]; intros h1 h2 Hs; [ exact Hs | ].
  cbn. apply IH. apply handleServerEvent_sameView. exact Hs.
Qed.

(** C3 (as the code has it): replaying a complete frame sequence on the
    state it produced leaves the progress, the phase, the activity flag, the
    error, the plan, the final sources and the plan links as they were; the
    step list is not stable: it gains one entry per [step_start] frame of
    the sequence, and is unchanged when there is none to add; the report
    text is unchanged when the sequence does not end its report frames with
    a [report_chunk]; and folding the sequence again from the same starting
    state gives the same state up to the ids and timestamps of the step
    entries. *)
Theorem replay_keeps_fields (b : Browser) (h : Hook) (fs : list Frame) :
  let once := state (foldFrames b h fs) in
  let twice := state (foldFrames b (foldFrames b h fs) fs) in
  progress twice = progress once
  /\ status twice = status once
  /\ isActive twice = isActive once
  /\ error twice = error once
  /\ researchPlan twice = researchPlan once
  /\ finalSources twice = finalSources once
  /\ planLinks twice = planLinks once
  /\ length (updates twice)
     = (length (updates once) + length (filter isStepStart fs))%nat
  /\ (existsb isStepStart fs = false -> updates twice = updates once)
  /\ (chunksPending fs = false -> result twice = result once)
  /\ (forall b', sameView once (state (foldFrames b' h fs))).
Proof.
  cbv zeta.
  split; [ apply (replay_overwrites b progress setsProgress),
             progress_overwritten | ].
  split; [ apply (replay_overwrites b status setsStatus),
             status_overwritten | ].
  split; [ apply (replay_overwrites b isActive setsActive),
             isActive_overwritten | ].
  split; [ apply (replay_overwrites b error setsError),
             error_overwritten | ].
  split; [ apply (replay_overwrites b researchPlan setsPlan),
             researchPlan_overwritten | ].
  split; [ apply (replay_overwrites b finalSources setsSources),
             finalSources_overwritten | ].
  split; [ apply (replay_overwrites b planLinks (fun _ => None)),
             planLinks_kept | ].
  split; [ apply updates_length_fold | ].
  split; [ apply replay_updates | ].
  split; [ apply replay_result | ].
  intros b'. apply foldFrames_sameView. unfold sameView. repeat split.
Qed.

(** C3, as stated, fails on the frames of a complete run: the second replay
    doubles the step list. *)
Lemma replay_doubles_steps :
  let fs := framesOf (POST calmWorld someRequest) in
  let once := state (foldFrames someBrowser freshHook fs) in
  let twice :=
    state (foldFrames someBrowser (foldFrames someBrowser freshHook fs) fs) in
  length (updates once) = 12%nat /\ length (updates twice) = 24%nat.
Proof. vm_compute. split; reflexivity. Qed.

(** *** Recovery without a snapshot *)



(** *** Traces of the orchestrator *)

Arguments showZ : simpl never.
Arguments Math_round : simpl never.
Arguments searchProgress : simpl never.
Arguments analysisProgress : simpl never.
Arguments analysisCompletion : simpl never.
Arguments maxResults : simpl never.
Arguments String.append : simpl never.
Arguments len : simpl never.
Arguments uniqueSpread : simpl never.
Arguments collectSources : simpl never.
Arguments inject_Z : simpl never.

Lemma prefixOf_nil {A : Type} (l : list A) : prefixOf [] l.
Proof. exists l. reflexivity. Qed.

Lemma prefixOf_refl {A : Type} (l : list A) : prefixOf l l.
Proof. exists []. rewrite app_nil_r. reflexivity. Qed.

Lemma prefixOf_app_r {A : Type} (p l k : list A) :
  prefixOf p l -> prefixOf p (l ++ k).
Proof. intros [r ->]. exists (r ++ k). rewrite app_assoc. reflexivity. Qed.

Lemma prefixOf_app_l {A : Type} (p q l : list A) :
  prefixOf q l -> prefixOf (p ++ q) (p ++ l).
Proof. intros [r ->]. exists r. rewrite app_assoc. reflexivity. Qed.

Section Emits.

Variable w : World.
Variable H : Prop.

Lemma emitsAt_ret {A : Type} (a : A) (e : Env) : emitsAt H (ret a) e [].
Proof. exists []. cbn. rewrite app_nil_r. auto. Qed.

Lemma emitsAt_throw {A : Type} (x : Exn) (e : Env) (L : list Tag) :
  ~ H -> emitsAt H (@throw A x) e L.
Proof.
  intros Hn. exists []. cbn. rewrite app_nil_r.
  split; [ reflexivity | split; [ apply prefixOf_nil | exact Hn ] ].
Qed.

Lemma emitsAt_bind {A B : Type} (m : M A) (f : A -> M B) (e : Env)
    (L1 L2 : list Tag) :
  emitsAt H m e L1 ->
  (forall a e1, m e = (e1, Ok a) -> emitsAt H (f a) e1 L2) ->
  emitsAt H (bind m f) e (L1 ++ L2).
Proof.
  intros [new1 [Ht Hr]] Hf. unfold emitsAt, bind.
  destruct (m e) as [e1 [a | x]] eqn:E; cbn in *.
  - destruct (Hf a e1 eq_refl) as [new2 [Ht2 Hr2]].
    exists (new1 ++ new2). rewrite Ht2, Ht, app_assoc.
    split; [ reflexivity | ].
    rewrite map_app, Hr.
    destruct (snd (f a e1)).
    + rewrite Hr2. reflexivity.
    + destruct Hr2 as [Hp Hn]. split; [ | exact Hn ].
      apply prefixOf_app_l. exact Hp.
  - exists new1. split; [ exact Ht | ].
    destruct Hr as [Hp Hn]. split; [ | exact Hn ].
    apply prefixOf_app_r. exact Hp.
Qed.

Lemma quiet_emitsAt {A : Type} (m : M A) (e : Env) :
  quiet m -> emitsAt H m e [].
Proof.
  intros Hq. destruct (Hq e) as [Ht [a Ha]].
  exists []. rewrite Ht, app_nil_r, Ha. auto.
Qed.

Lemma quiet_tick : quiet (tick w).
Proof. intros e. cbn. eauto. Qed.

Lemma quiet_update (id : string) (u : Updates) :
  quiet (updateMessageInDatabase w id u).
Proof. intros e. cbn. eauto. Qed.

Lemma quiet_insert (row : Message) : quiet (insertAssistantMessage w row).
Proof.
  intros e. unfold insertAssistantMessage.
  destruct (insertMessage w); cbn; eauto.
Qed.

Lemma emitsAt_sendUpdate (f : Frame) (e : Env) :
  emitsAt H (sendUpdate w f) e [frameTag f].
Proof.
  eexists. cbn. split; reflexivity.
Qed.

Lemma emitsAt_logCall (c : Call) (e : Env) :
  emitsAt H (logCall c) e [TCall c].
Proof. eexists. cbn. split; reflexivity. Qed.

Lemma emitsAt_await {A : Type} (o : Outcome A) (e : Env) :
  (H -> exists a, o = Returns a) -> emitsAt H (await o) e [].
Proof.
  intros Ho. exists []. rewrite app_nil_r.
  destruct o as [a | x]; cbn.
  - auto.
  - split; [ reflexivity | split; [ apply prefixOf_nil | ] ].
    intros Hh. destruct (Ho Hh) as [a Ha]. discriminate.
Qed.

End Emits.

(** *** One search iteration *)

Section SearchIteration.

Variable w : World.

Lemma executeWebSearch_runs (i : nat) (q d : string) (p : Q) (e : Env) :
  executeWebSearch w i q d p e
  = (mkEnv (trace e ++ [Called (CallSearch i q (providerDepth d) (maxResults p))])
       (rows e) (ticks e) (writes e) (closed e),
     Ok (searchOutcome w i q d p)).
Proof.
  unfold executeWebSearch, tvly_search, searchOutcome, providerDepth, tryCatch,
    bind, logCall, record, await.
  cbn.
  destruct (tavilySearch w i q _ (maxResults p)); reflexivity.
Qed.

Lemma mapM_toLink_ok (rs : list WebResult) :
  allParse w rs = true ->
  forall e, exists links t,
    mapM (toLink w) rs e
    = (mkEnv (trace e) (rows e) t (writes e) (closed e), Ok links)
    /\ length links = length rs.
Proof.
  induction rs as [| r rs IH]; intros Hp e.
  - exists [], (ticks e). destruct e; auto.
  - cbn in Hp. apply andb_true_iff in Hp. destruct Hp as [Hr Hrs].
    unfold parses in Hr.
    cbn [mapM]. unfold bind at 1. unfold toLink at 1, newURLhostname, bind.
    destruct (hostname w (wr_url r)) as [h |]; [ | discriminate ].
    cbn.
    destruct (IH Hrs (mkEnv (trace e) (rows e) (S (ticks e)) (writes e) (closed e)))
      as (links & t & E & Hl).
    unfold bind. rewrite E. cbn.
    eexists _, t. split; [ reflexivity | ]. cbn. rewrite Hl. reflexivity.
Qed.

Lemma mapM_toLink_bad (rs : list WebResult) :
  allParse w rs = false ->
  forall e, exists t,
    mapM (toLink w) rs e
    = (mkEnv (trace e) (rows e) t (writes e) (closed e),
       Threw (ErrorObj "Invalid URL")).
Proof.
  induction rs as [| r rs IH]; intros Hp e.
  - discriminate.
  - cbn in Hp. unfold parses in Hp.
    cbn [mapM]. unfold bind at 1. unfold toLink at 1, newURLhostname, bind.
    destruct (hostname w (wr_url r)) as [h |]; cbn in *.
    + destruct (IH Hp (mkEnv (trace e) (rows e) (S (ticks e)) (writes e) (closed e)))
        as (t & E).
      unfold bind. rewrite E. cbn. exists t. reflexivity.
    + exists (ticks e). destruct e; reflexivity.
Qed.

Lemma mapM_hostname_ok (rs : list WebResult) :
  allParse w rs = true ->
  forall e, exists domains,
    mapM (fun r => newURLhostname w (wr_url r)) rs e = (e, Ok domains).
Proof.
  induction rs as [| r rs IH]; intros Hp e.
  - exists []. reflexivity.
  - cbn in Hp. apply andb_true_iff in Hp. destruct Hp as [Hr Hrs].
    unfold parses in Hr.
    cbn [mapM]. unfold bind at 1. unfold newURLhostname at 1.
    destruct (hostname w (wr_url r)) as [h |]; [ | discriminate ].
    cbn. destruct (IH Hrs e) as (ds & E).
    unfold bind. rewrite E. cbn. eexists. reflexivity.
Qed.

Variable plan : ResearchPlan.
Variable depth : string.

(** An iteration whose results all have URLs that parse: four events, one
    guarded update of the store, and the record appended to the snapshot. *)
Lemma searchIteration_ok (i : nat) (search : SearchSpec) (st : Locals)
    (e : Env) :
  let result := searchOutcome w i (query search) depth (priority search) in
  allParse w (sr_results result) = true ->
  exists t1 t2 t3 tk links domains,
    length links = length (sr_results result)
    /\ searchIteration w plan depth i search st e
       = (mkEnv
            (trace e
               ++ [Sent (mkUpdate (searchStartFrame i search) t1);
                   Called (searchCall depth i search);
                   Sent (mkUpdate (searchCompleteFrame i search result) t2);
                   Sent (mkUpdate
                           (Ev.progress (searchProgress (Z.of_nat i + 2) plan))
                           t3)])
            (persisted w (assistantMessageId st) (writes e) (rows e)
               (searchUpdates plan i st result
                  (pushSearch (planLinksData st) i search result links domains)))
            tk
            (writesAfter (assistantMessageId st) (writes e))
            (closed e),
          Ok (mkLocals (assistantMessageId st)
                (searchProgress (Z.of_nat i + 2) plan) (currentStatus st)
                (pushSearch (planLinksData st) i search result links domains)
                (searchResults st ++ [result]) (analysisResults st))).
Proof.
  intros result Hp.
  unfold searchIteration.
  unfold bind at 1. unfold sendUpdate at 1. unfold bind at 1. cbn [tick enqueue record].
  cbn [fst snd trace rows ticks writes closed].
  unfold bind at 1. rewrite executeWebSearch_runs.
  fold result.
  cbn [fst snd trace rows ticks writes closed].
  unfold bind at 1.
  match goal with
  | |- context [mapM (toLink w) (sr_results result) ?e0] =>
      destruct (mapM_toLink_ok (sr_results result) Hp e0)
        as (links & t & E & Hl)
  end.
  rewrite E. cbn [fst snd trace rows ticks writes closed].
  unfold bind at 1.
  match goal with
  | |- context [mapM (fun r => newURLhostname w (wr_url r)) _ ?e0] =>
      destruct (mapM_hostname_ok (sr_results result) Hp e0) as (domains & E2)
  end.
  rewrite E2.
  unfold bind, sendUpdate, enqueue, record, tick, bind, ret.
  cbn [fst snd trace rows ticks writes closed].
  unfold persisted, writesAfter, updatable.
  destruct (assistantMessageId st) as [id |]; [ destruct (truthy id) | ];
    cbn [updateMessageInDatabase fst snd trace rows ticks writes closed];
    do 4 eexists; exists links, domains; (split; [ exact Hl | ]);
    rewrite <- !app_assoc; cbn [app]; reflexivity.
Qed.

(** An iteration one of whose results has a URL that does not parse: the
    exception leaves the step started and nothing else. *)
Lemma searchIteration_bad (i : nat) (search : SearchSpec) (st : Locals)
    (e : Env) :
  let result := searchOutcome w i (query search) depth (priority search) in
  allParse w (sr_results result) = false ->
  exists t1 tk,
    searchIteration w plan depth i search st e
    = (mkEnv
         (trace e
            ++ [Sent (mkUpdate (searchStartFrame i search) t1);
                Called (searchCall depth i search)])
         (rows e) tk (writes e) (closed e),
       Threw (ErrorObj "Invalid URL")).
Proof.
  intros result Hp.
  unfold searchIteration.
  unfold bind at 1. unfold sendUpdate at 1. unfold bind at 1. cbn [tick enqueue record].
  cbn [fst snd trace rows ticks writes closed].
  unfold bind at 1. rewrite executeWebSearch_runs.
  fold result.
  cbn [fst snd trace rows ticks writes closed].
  unfold bind at 1.
  match goal with
  | |- context [mapM (toLink w) (sr_results result) ?e0] =>
      destruct (mapM_toLink_bad (sr_results result) Hp e0) as (t & E)
  end.
  rewrite E. cbn [fst snd trace rows ticks writes closed].
  do 2 eexists. rewrite <- !app_assoc. cbn [app]. reflexivity.
Qed.

End SearchIteration.

(** *** One analysis iteration *)

Section AnalysisIteration.

Variable w : World.
Variable plan : ResearchPlan.

Lemma analysisIteration_ok (i : nat) (analysis : AnalysisSpec) (st : Locals)
    (e : Env) (result : AnalysisResult) :
  analysisAnswer w i (searchResults st) analysis = Some result ->
  exists t1 t2 t3 tk,
    analysisIteration w plan i analysis st e
    = (mkEnv
         (trace e
            ++ [Sent (mkUpdate (analysisStartFrame i analysis) t1);
                Called (analysisCall i analysis);
                Sent (mkUpdate (analysisCompleteFrame i analysis result) t2);
                Sent (mkUpdate (Ev.progress (analysisProgress i plan)) t3)])
         (persisted w (assistantMessageId st) (writes e) (rows e)
            (analysisUpdates plan i st analysis result))
         tk
         (writesAfter (assistantMessageId st) (writes e))
         (closed e),
       Ok (mkLocals (assistantMessageId st) (analysisProgress i plan)
             (currentStatus st)
             (pushAnalysis plan (planLinksData st) i analysis result)
             (searchResults st) (analysisEntries st analysis result))).
Proof.
  unfold analysisAnswer. intros Ha.
  unfold analysisIteration, analyzeResults, generateObject.
  unfold bind, sendUpdate, enqueue, logCall, record, tick, bind, ret, await.
  cbn [fst snd trace rows ticks writes closed].
  destruct (generateAnalysis w i (searchResults st) (analysis_type analysis)
              (analysis_description analysis)) as [r | x]; [ | discriminate ].
  unfold ret.
  destruct (AnalysisResultSchema r); [ | discriminate ].
  inversion Ha; subst r.
  cbn [fst snd trace rows ticks writes closed].
  unfold persisted, writesAfter, updatable.
  destruct (assistantMessageId st) as [id |]; [ destruct (truthy id) | ];
    cbn [updateMessageInDatabase fst snd trace rows ticks writes closed];
    do 4 eexists; rewrite <- !app_assoc; cbn [app]; reflexivity.
Qed.

Lemma analysisIteration_bad (i : nat) (analysis : AnalysisSpec) (st : Locals)
    (e : Env) :
  analysisAnswer w i (searchResults st) analysis = None ->
  exists t1 tk x,
    analysisIteration w plan i analysis st e
    = (mkEnv
         (trace e
            ++ [Sent (mkUpdate (analysisStartFrame i analysis) t1);
                Called (analysisCall i analysis)])
         (rows e) tk (writes e) (closed e),
       Threw x).
Proof.
  unfold analysisAnswer. intros Ha.
  unfold analysisIteration, analyzeResults, generateObject.
  unfold bind, sendUpdate, enqueue, logCall, record, tick, bind, ret, await.
  cbn [fst snd trace rows ticks writes closed].
  destruct (generateAnalysis w i (searchResults st) (analysis_type analysis)
              (analysis_description analysis)) as [r | x].
  - unfold ret. destruct (AnalysisResultSchema r); [ discriminate | ].
    unfold throw. cbn [fst snd trace rows ticks writes closed].
    do 3 eexists. rewrite <- !app_assoc. cbn [app]. reflexivity.
  - unfold throw. cbn [fst snd trace rows ticks writes closed].
    do 3 eexists. rewrite <- !app_assoc. cbn [app]. reflexivity.
Qed.

End AnalysisIteration.

(** *** The loops and the report, as traces *)

Section RunTrace.

Variable w : World.
Variable topic : string.

Let H : Prop := Healthy w topic.

Lemma allParse_normalise (rs : list TavilyResult) :
  allParse w (map normalise rs) = forallb (fun r => parses w (tv_url r)) rs.
Proof.
  unfold allParse. induction rs as [| r rs IH]; cbn; [ | rewrite IH ]; reflexivity.
Qed.

Lemma healthy_results_parse (i : nat) (q d : string) (p : Q) :
  H -> allParse w (sr_results (searchOutcome w i q d p)) = true.
Proof.
  intros Hh. unfold searchOutcome.
  destruct (tavilySearch w i q (providerDepth d) (maxResults p)) as [rs | x] eqn:E.
  - cbn [sr_results]. rewrite allParse_normalise.
    exact (urls_ok w topic Hh _ _ _ _ _ E).
  - reflexivity.
Qed.

Lemma searchOutcome_count (depth : string) (i : nat) (search : SearchSpec) :
  len (sr_results (searchOutcome w i (query search) depth (priority search)))
  = searchCount w depth i search.
Proof.
  unfold searchOutcome, searchCount.
  destruct (tavilySearch w i (query search) (providerDepth depth)
              (maxResults (priority search))); cbn.
  - unfold len. rewrite length_map. reflexivity.
  - reflexivity.
Qed.

Variable plan : ResearchPlan.
Variable depth : string.

Lemma searchIteration_emits (i : nat) (search : SearchSpec) (st : Locals)
    (e : Env) :
  emitsAt H (searchIteration w plan depth i search st) e
    (searchTags w plan depth i [search]).
Proof.
  destruct (allParse w
              (sr_results
                 (searchOutcome w i (query search) depth (priority search))))
    eqn:Hp.
  - destruct (searchIteration_ok w plan depth i search st e Hp)
      as (t1 & t2 & t3 & tk & links & domains & _ & E).
    unfold emitsAt. rewrite E. cbn [fst snd trace].
    eexists. split; [ reflexivity | ].
    cbn. rewrite searchOutcome_count. reflexivity.
  - destruct (searchIteration_bad w plan depth i search st e Hp)
      as (t1 & tk & E).
    unfold emitsAt. rewrite E. cbn [fst snd trace].
    eexists. split; [ reflexivity | ].
    split.
    + cbn. eexists. cbn. reflexivity.
    + intros Hh.
      rewrite (healthy_results_parse i (query search) depth (priority search) Hh)
        in Hp.
      discriminate.
Qed.

Lemma searchLoop_emits (todo : list SearchSpec) :
  forall i st e,
    emitsAt H (searchLoop w plan depth i todo st) e
      (searchTags w plan depth i todo).
Proof.
  induction todo as [| search rest IH]; intros i st e.
  - apply emitsAt_ret.
  - cbn [searchLoop searchTags].
    change ([TStart (Z.of_nat i + 2);
             TCall (CallSearch i (query search) (providerDepth depth)
                      (maxResults (priority search)));
             TComplete (Z.of_nat i + 2) "completed"
               (Some (searchCount w depth i search));
             TProgress (searchProgress (Z.of_nat i + 2) plan)])
      with (searchTags w plan depth i [search]).
    apply emitsAt_bind.
    + apply searchIteration_emits.
    + intros st' e1 _. apply IH.
Qed.

Lemma healthy_analysis_answers (i : nat) (sr : list SearchResult)
    (analysis : AnalysisSpec) :
  H -> analysisAnswer w i sr analysis <> None.
Proof.
  intros Hh. unfold analysisAnswer.
  destruct (analysis_ok w topic Hh i sr (analysis_type analysis)
              (analysis_description analysis)) as (r & E & Hs).
  rewrite E, Hs. discriminate.
Qed.

Lemma analysisIteration_emits (i : nat) (analysis : AnalysisSpec)
    (st : Locals) (e : Env) :
  emitsAt H (analysisIteration w plan i analysis st) e
    (analysisTags plan i [analysis]).
Proof.
  destruct (analysisAnswer w i (searchResults st) analysis) as [r |] eqn:Ha.
  - destruct (analysisIteration_ok w plan i analysis st e r Ha)
      as (t1 & t2 & t3 & tk & E).
    unfold emitsAt. rewrite E. cbn [fst snd trace].
    eexists. split; reflexivity.
  - destruct (analysisIteration_bad w plan i analysis st e Ha)
      as (t1 & tk & x & E).
    unfold emitsAt. rewrite E. cbn [fst snd trace].
    eexists. split; [ reflexivity | ].
    split.
    + cbn. eexists. cbn. reflexivity.
    + intros Hh. exact (healthy_analysis_answers i _ analysis Hh Ha).
Qed.

Lemma analysisLoop_emits (todo : list AnalysisSpec) :
  forall i st e,
    emitsAt H (analysisLoop w plan i todo st) e (analysisTags plan i todo).
Proof.
  induction todo as [| analysis rest IH]; intros i st e.
  - apply emitsAt_ret.
  - cbn [analysisLoop analysisTags].
    change ([TStart (7 + Z.of_nat i);
             TCall (CallAnalysis i (analysis_type analysis)
                      (analysis_description analysis));
             TComplete (7 + Z.of_nat i) "completed" None;
             TProgress (analysisProgress i plan)])
      with (analysisTags plan i [analysis]).
    apply emitsAt_bind.
    + apply analysisIteration_emits.
    + intros st' e1 _. apply IH.
Qed.

End RunTrace.

Section ReportTrace.

Variable w : World.

Lemma streamChunks_runs (todo : list string) (fail : option Exn) :
  forall acc e, exists evs tk,
    fst (streamChunks w todo fail acc e)
    = mkEnv (trace e ++ evs) (rows e) tk (writes e) (closed e)
    /\ map tagOf evs = repeat TChunk (length todo)
    /\ match fail with
       | Some x => snd (streamChunks w todo fail acc e) = Threw x
       | None => exists content, snd (streamChunks w todo fail acc e) = Ok content
       end.
Proof.
  induction todo as [| chunk rest IH]; intros acc e.
  - exists [], (ticks e). rewrite app_nil_r. cbn [streamChunks].
    destruct fail as [x |]; cbn; destruct e; eauto.
  - cbn [streamChunks].
    unfold bind at 1, sendUpdate, enqueue, record, tick, bind.
    cbn [fst snd trace rows ticks writes closed].
    match goal with
    | |- context [streamChunks w rest fail ?a ?e0] =>
        destruct (IH a e0) as (evs & tk & E1 & E2 & E3)
    end.
    cbn [fst snd trace rows ticks writes closed] in E1.
    eexists (_ :: evs), tk. rewrite E1.
    split; [ rewrite <- app_assoc; reflexivity | ].
    split; [ cbn; rewrite E2; reflexivity | exact E3 ].
Qed.

Lemma reportPhase_runs (topic : string) (st : Locals) (e : Env) :
  let cites := collectSources (searchResults st) (analysisResults st) in
  exists new tk n r,
    reportPhase w topic st e
    = (mkEnv (trace e ++ new) (rows e) tk (writes e) (closed e), r)
    /\ match r with
       | Ok report =>
           snd report = cites
           /\ map tagOf new = reportTags n
           /\ exists pre t1 t2 t3,
                new
                = pre
                  ++ [Sent (mkUpdate
                              (Ev.report_complete (fst report)
                                 (len (allSources cites)) (allSources cites))
                              t1);
                      Sent (mkUpdate (Ev.progress 100) t2);
                      Sent (mkUpdate (Ev.status_change "complete") t3)]
       | Threw _ =>
           prefixOf (map tagOf new) (reportTags n)
           /\ ~ (forall rq, exists s,
                   streamText w rq = Returns s /\ failure s = None)
       end.
Proof.
  intros cites. unfold reportPhase. fold cites.
  unfold bind at 1, sendUpdate at 1, enqueue, record, tick, bind.
  cbn [fst snd trace rows ticks writes closed].
  unfold logCall, record.
  cbn [fst snd trace rows ticks writes closed].
  match goal with
  | |- context [streamText w ?rq] =>
      destruct (streamText w rq) as [s | x] eqn:Es
  end.
  - cbn [await ret fst snd].
    unfold sendUpdate at 1, sendUpdate at 1, bind, enqueue, record, tick.
    cbn [fst snd trace rows ticks writes closed].
    match goal with
    | |- context [streamChunks w (chunks s) (failure s) ?a ?e0] =>
        destruct (streamChunks_runs (chunks s) (failure s) a e0)
          as (evs & tk & E1 & E2 & E3);
        destruct (streamChunks w (chunks s) (failure s) a e0) as [e1 r]
    end.
    cbn [fst snd trace rows ticks writes closed] in E1, E3. subst e1.
    destruct (failure s) as [x |] eqn:Ef.
    + subst r.
      eexists _, tk, (length (chunks s)), _.
      split; [ rewrite <- !app_assoc; cbn [app]; reflexivity | ].
      cbn beta iota.
      split.
      * cbn. rewrite ?map_app, E2.
        exists [TDone; TProgress 100; TStatus "complete"].
        unfold reportTags. cbn. reflexivity.
      * intros Hall.
        match type of Es with
        | streamText w ?rq = _ => destruct (Hall rq) as (s' & Hs' & Hf')
        end.
        rewrite Es in Hs'. inversion Hs'; subst s'. rewrite Ef in Hf'.
        discriminate.
    + destruct E3 as (content & ->).
      unfold sendUpdate, bind, enqueue, record, tick, ret.
      cbn [fst snd trace rows ticks writes closed].
      eexists _, _, (length (chunks s)), _.
      split; [ rewrite <- !app_assoc; cbn [app]; reflexivity | ].
      cbn beta iota.
      split; [ reflexivity | ].
      split.
      * cbn. rewrite ?map_app, E2. cbn. unfold reportTags. cbn.
        reflexivity.
      * eexists (_ :: _ :: _ :: _ :: evs), _, _, _. cbn.
        rewrite <- ?app_assoc. reflexivity.
  - cbn [await throw fst snd].
    eexists _, _, 0%nat, _.
    split; [ rewrite <- !app_assoc; cbn [app]; reflexivity | ].
    cbn beta iota.
    split.
    + cbn. eexists. unfold reportTags. cbn. reflexivity.
    + intros Hall.
      match type of Es with
      | streamText w ?rq = _ => destruct (Hall rq) as (s' & Hs' & _)
      end.
      rewrite Es in Hs'. discriminate.
Qed.

End ReportTrace.

(** *** The whole run, as a trace *)

Section WholeRun.

Variable w : World.
Variable topic sessionId depth : string.

Let H : Prop := Healthy w topic.

Lemma investigate_unplanned :
  plannedBy w topic = None ->
  exists t1 tk x,
    investigate w topic sessionId depth startEnv
    = (mkEnv
         [Sent (mkUpdate
                  (Ev.step_start 1 "Research Planning"
                     "Creating comprehensive research plan..." "running") t1);
          Called (CallPlan topic)]
         [] tk 0 false,
       Threw x).
Proof.
  unfold plannedBy. intros Hp.
  unfold investigate, createResearchPlan, generateObject.
  unfold bind, sendUpdate, enqueue, logCall, record, tick, bind, await.
  cbn [fst snd trace rows ticks writes closed startEnv app].
  destruct (generatePlan w topic (clock w 0)) as [p | x].
  - unfold ret. destruct (ResearchPlanSchema p); [ discriminate | ].
    unfold throw. do 3 eexists. reflexivity.
  - unfold throw. do 3 eexists. reflexivity.
Qed.

Lemma investigate_planned (plan : ResearchPlan) :
  plannedBy w topic = Some plan ->
  exists n, emitsAt H (investigate w topic sessionId depth) startEnv
              (fullTags w topic depth plan n).
Proof.
  unfold plannedBy. intros Hp.
  unfold emitsAt, investigate, createResearchPlan, generateObject.
  unfold bind, sendUpdate, enqueue, logCall, record, tick, bind, await.
  cbn [fst snd trace rows ticks writes closed startEnv app].
  destruct (generatePlan w topic (clock w 0)) as [p | x]; [ | discriminate ].
  unfold ret. destruct (ResearchPlanSchema p); [ | discriminate ].
  inversion Hp; subst p. clear Hp.
  cbn [fst snd trace rows ticks writes closed startEnv app].
  match goal with
  | |- context [insertAssistantMessage w ?row ?e0] =>
      destruct (quiet_insert w row e0) as (Ti & id & Ri);
      destruct (insertAssistantMessage w row e0) as [ei ri]
  end.
  cbn [fst snd trace] in Ti, Ri. subst ri.
  match goal with
  | |- context [searchLoop w plan depth 0 (searches plan) ?st0 ei] =>
      destruct (searchLoop_emits w topic plan depth (searches plan) 0 st0 ei)
        as (new1 & T1 & R1);
      destruct (searchLoop w plan depth 0 (searches plan) st0 ei)
        as [e1 [st1 | x1]]
  end; cbn [fst snd] in T1, R1; rewrite Ti in T1.
  2: {
    exists 0%nat. cbn [fst snd]. eexists. split; [ rewrite T1; cbn [app]; reflexivity | ].
    destruct R1 as [P1 Hn]. split; [ | exact Hn ].
    unfold fullTags, planTags. cbn [map tagOf payload frameTag app].
    do 4 apply (prefixOf_app_l [_]). apply prefixOf_app_r. exact P1. }
  match goal with
  | |- context [analysisLoop w plan 0 (analyses plan) ?st e1] =>
      destruct (analysisLoop_emits w topic plan (analyses plan) 0 st e1)
        as (new2 & T2 & R2);
      destruct (analysisLoop w plan 0 (analyses plan) st e1)
        as [e2 [st2 | x2]]
  end; cbn [fst snd] in T2, R2; rewrite T1 in T2.
  2: {
    exists 0%nat. cbn [fst snd]. eexists.
    split; [ rewrite T2, <- app_assoc; cbn [app]; reflexivity | ].
    destruct R2 as [P2 Hn]. split; [ | exact Hn ].
    unfold fullTags, planTags. cbn [map tagOf payload frameTag app].
    do 4 apply (prefixOf_app_l [_]). rewrite map_app, R1.
    apply prefixOf_app_l. apply prefixOf_app_r. exact P2. }
  destruct (reportPhase_runs w topic st2 e2) as (new3 & tk & n & r & E3 & R3).
  rewrite E3. exists n.
  destruct r as [report | x3]; cbn [fst snd trace].
  - eexists. split; [ rewrite T2, <- !app_assoc; cbn [app]; reflexivity | ].
    destruct R3 as (_ & R3 & _).
    unfold fullTags, planTags. cbn [map tagOf payload frameTag app].
    rewrite !map_app, R1, R2, R3. reflexivity.
  - eexists. split; [ rewrite T2, <- !app_assoc; cbn [app]; reflexivity | ].
    destruct R3 as (P3 & Hn). split.
    + unfold fullTags, planTags. cbn [map tagOf payload frameTag app].
      do 4 apply (prefixOf_app_l [_]). rewrite !map_app, R1, R2.
      do 2 apply prefixOf_app_l. exact P3.
    + intros Hh. apply Hn. exact (report_ok w topic Hh).
Qed.

End WholeRun.

Section RunShape.

Variable w : World.

Lemma toCitations_env (l : list Source) :
  forall index e, fst (toCitations w index l e) = e.
Proof.
  induction l as [| source rest IH]; intros index e.
  - reflexivity.
  - cbn [toCitations]. unfold bind at 1. unfold newURLhostname at 1.
    destruct (hostname w (src_url source)) as [h |]; [ | reflexivity ].
    cbn [ret]. unfold bind at 1. unfold categorizeSource, newURLhostname, bind.
    destruct (hostname w (src_url source)) as [h' |]; [ | reflexivity ].
    cbn [ret]. unfold bind.
    specialize (IH (index + 1) e).
    destruct (toCitations w (index + 1) rest e) as [e1 [cs | x]];
      cbn in *; congruence.
Qed.

Lemma finalUpdate_env (content : string) (cites : Citations) (st : Locals)
    (e : Env) :
  exists rs n,
    fst (finalUpdate w content cites st e)
    = mkEnv (trace e) rs (ticks e) n (closed e).
Proof.
  unfold finalUpdate.
  destruct (assistantMessageId st) as [id |]; [ destruct (truthy id) | ].
  - unfold bind at 1.
    pose proof (toCitations_env (allSources cites) 0 e) as Hc.
    destruct (toCitations w 0 (allSources cites) e) as [e1 [cs | x]];
      cbn in Hc; subst e1; cbn; destruct e; eauto.
  - cbn. destruct e; eauto.
  - cbn. destruct e; eauto.
Qed.

Lemma finalUpdate_trace (content : string) (cites : Citations) (st : Locals)
    (e : Env) :
  trace (fst (finalUpdate w content cites st e)) = trace e
  /\ closed (fst (finalUpdate w content cites st e)) = closed e.
Proof.
  destruct (finalUpdate_env content cites st e) as (rs & n & E).
  rewrite E. auto.
Qed.

Variable topic sessionId depth : string.

Lemma start_closes : closed (runOf w topic sessionId depth) = true.
Proof.
  unfold runOf, start, tryFinally.
  destruct (tryCatch _ _ startEnv). reflexivity.
Qed.

Theorem start_shape :
  runShape w topic depth (map tagOf (trace (runOf w topic sessionId depth))).
Proof.
  unfold runShape, runOf, start, tryFinally, tryCatch, research.
  unfold sendUpdate, bind, tick, enqueue, record.
  destruct (plannedBy w topic) as [plan |] eqn:Hp.
  - destruct (investigate_planned w topic sessionId depth plan Hp)
      as (n & new & T & R).
    destruct (investigate w topic sessionId depth startEnv)
      as [e1 [found | x]]; cbn [fst snd trace startEnv app] in T, R.
    + destruct (finalUpdate_trace (fst (snd found)) (snd (snd found))
                  (fst found) e1) as [Tf Cf].
      destruct (finalUpdate w (fst (snd found)) (snd (snd found)) (fst found) e1)
        as [e2 [st | x]]; cbn [fst snd] in Tf, Cf.
      * cbn [fst snd trace close ret]. exists n. left.
        rewrite Tf, T. exact R.
      * cbn [fst snd trace close]. exists n. right. left.
        rewrite Tf, T, map_app, R. reflexivity.
    + cbn [fst snd trace close]. exists n. right. right.
      destruct R as [P Hn]. exists (map tagOf new).
      rewrite T, map_app. auto.
  - destruct (investigate_unplanned w topic sessionId depth Hp)
      as (t1 & tk & x & E).
    rewrite E. cbn. auto.
Qed.

End RunShape.

Lemma POST_cases (w : World) (req : Request) :
  (exists s b, POST w req = BadRequest s b)
  \/ (exists topic sessionId,
        POST w req = EventStream (runOf w topic sessionId (depthOf req))).
Proof.
  unfold POST, runOf, depthOf.
  destruct (falsy (topic req) || falsy (sessionId req)); [ left; eauto | ].
  destruct (topic req) as [t |]; [ | left; eauto ].
  destruct (sessionId req) as [s |]; [ | left; eauto ].
  right. eauto.
Qed.

Lemma POST_valid (w : World) (topic sessionId : string) (depth : option string) :
  truthy topic = true ->
  truthy sessionId = true ->
  POST w (validRequest topic sessionId depth)
  = EventStream
      (runOf w topic sessionId (depthOf (validRequest topic sessionId depth))).
Proof.
  intros Ht Hs. unfold POST, validRequest, falsy. cbn.
  rewrite Ht, Hs. reflexivity.
Qed.

(** *** From traces to frames *)

Lemma frames_tags (P : Tag -> list Z) (Q : Frame -> list Z) (e : Env) :
  (forall f, Q f = P (frameTag f)) ->
  (forall c, P (TCall c) = []) ->
  flat_map Q (frames e) = flat_map P (map tagOf (trace e)).
Proof.
  intros HQ HP. unfold frames.
  induction (trace e) as [| ev evs IH]; [ reflexivity | ].
  destruct ev as [u | c]; cbn.
  - rewrite IH, HQ. reflexivity.
  - rewrite IH, HP. reflexivity.
Qed.

Lemma progressWrites_trace (e : Env) :
  progressWrites (frames e) = flat_map tagWrites (map tagOf (trace e)).
Proof.
  apply frames_tags.
  - intros f. destruct f; try reflexivity.
    destruct data as [[] |]; reflexivity.
  - reflexivity.
Qed.

Lemma emittedProgress_trace (e : Env) :
  emittedProgress (frames e) = flat_map tagEmits (map tagOf (trace e)).
Proof.
  apply frames_tags.
  - intros f. destruct f; try reflexivity.
    destruct data as [[] |]; reflexivity.
  - reflexivity.
Qed.

(** *** Plans that passed the schema *)

Lemma schema_fiveAndFive (plan : ResearchPlan) :
  ResearchPlanSchema plan = true -> fiveAndFive plan.
Proof.
  unfold ResearchPlanSchema, fiveAndFive. intros Hs.
  repeat (apply andb_true_iff in Hs; destruct Hs as [Hs ?]).
  split; apply Nat.eqb_eq; assumption.
Qed.

Lemma plannedBy_fiveAndFive (w : World) (topic : string) (plan : ResearchPlan) :
  plannedBy w topic = Some plan -> fiveAndFive plan.
Proof.
  unfold plannedBy.
  destruct (generatePlan w topic (clock w 0)) as [p | x]; [ | discriminate ].
  destruct (ResearchPlanSchema p) eqn:Hs; [ | discriminate ].
  intros Hp. inversion Hp; subst p. apply schema_fiveAndFive. exact Hs.
Qed.

(** *** Rounded percentages *)

Lemma Math_round_int (q : Q) (z : Z) :
  (q == inject_Z z)%Q -> Math_round q = z.
Proof.
  intros Hq. unfold Math_round.
  assert (E : (q + (1 # 2) == (2 * z + 1) # 2)%Q).
  { rewrite Hq. unfold Qeq, inject_Z, Qplus. cbn [Qnum Qden Pos.mul]. lia. }
  rewrite (Qfloor_comp _ _ E). unfold Qfloor.
  change (Z.pos 2) with 2. symmetry. apply Z.div_unique with (r := 1); lia.
Qed.

Lemma searchProgress_five (s : Z) (plan : ResearchPlan) :
  fiveAndFive plan -> searchProgress s plan = 7 * s.
Proof.
  intros [_ Ha]. unfold searchProgress, len. rewrite Ha.
  change (5 + Z.of_nat 5) with 10.
  apply Math_round_int.
  unfold Qeq, inject_Z, Qdiv, Qmult, Qinv. cbn [Qnum Qden Pos.mul]. lia.
Qed.

Lemma analysisProgress_five (i : nat) (plan : ResearchPlan) :
  fiveAndFive plan -> analysisProgress i plan = 75 + 5 * Z.of_nat i.
Proof.
  intros [_ Ha]. unfold analysisProgress, len. rewrite Ha.
  change (Z.of_nat 5) with 5.
  apply Math_round_int.
  unfold Qeq, inject_Z, Qdiv, Qmult, Qinv, Qplus. cbn [Qnum Qden Pos.mul]. lia.
Qed.

(** *** Lists: prefixes and the scans used by the properties *)

Lemma prefixOf_flat_map {A B : Type} (f : A -> list B) (p l : list A) :
  prefixOf p l -> prefixOf (flat_map f p) (flat_map f l).
Proof. intros [r ->]. exists (flat_map f r). apply flat_map_app. Qed.

Lemma prefixOf_trans {A : Type} (p q l : list A) :
  prefixOf p q -> prefixOf q l -> prefixOf p l.
Proof.
  intros [r ->] [r' ->]. exists (r ++ r'). rewrite app_assoc. reflexivity.
Qed.

Lemma prefixOf_firstn {A : Type} (k : nat) (l : list A) :
  prefixOf (firstn k l) l.
Proof. exists (skipn k l). symmetry. apply firstn_skipn. Qed.

Lemma prefixOf_firstn_le {A : Type} (j k : nat) (l : list A) :
  (j <= k)%nat -> prefixOf (firstn j l) (firstn k l).
Proof.
  intros Hjk. replace (firstn j l) with (firstn j (firstn k l)).
  - apply prefixOf_firstn.
  - rewrite firstn_firstn. f_equal. lia.
Qed.

Lemma prefix_through {A : Type} (x : A) (pre post : list A) :
  forall p,
    prefixOf p (pre ++ x :: post) -> In x p -> ~ In x pre ->
    exists p', p = pre ++ x :: p' /\ prefixOf p' post.
Proof.
  induction pre as [| a pre IH]; intros p [r Hr] Hin Hnot.
  - destruct p as [| y p]; [ destruct Hin | ].
    cbn in Hr. injection Hr as Hy Hpost. subst y.
    exists p. split; [ reflexivity | ]. exists r. exact Hpost.
  - destruct p as [| y p]; [ destruct Hin | ].
    cbn in Hr. injection Hr as Hy Hpost. subst y.
    destruct Hin as [Hx | Hin].
    + exfalso. apply Hnot. left. exact Hx.
    + destruct (IH p) as (p' & -> & Hp').
      * exists r. exact Hpost.
      * exact Hin.
      * intros Hc. apply Hnot. right. exact Hc.
      * exists p'. split; [ reflexivity | exact Hp' ].
Qed.

Lemma frameTags_trace (e : Env) :
  map frameTag (frames e) = filter isFrameTag (map tagOf (trace e)).
Proof.
  unfold frames. induction (trace e) as [| ev evs IH]; [ reflexivity | ].
  destruct ev as [u | c]; cbn.
  - rewrite IH. destruct (payload u); try reflexivity.
    destruct data as [[] |]; reflexivity.
  - exact IH.
Qed.

Lemma progressAfterStep_tags (s : Z) (fs : list Frame) :
  progressAfterStep s fs = tagProgressAfter s (map frameTag fs).
Proof.
  induction fs as [| f rest IH]; [ reflexivity | ].
  cbn [progressAfterStep tagProgressAfter map]. rewrite IH.
  assert (E : completesStep s f
              = match frameTag f with
                | TComplete n _ _ => Z.eqb n s
                | _ => false
                end).
  { destruct f; try reflexivity. destruct data as [[] |]; reflexivity. }
  rewrite E. destruct (match frameTag f with
                       | TComplete n _ _ => Z.eqb n s
                       | _ => false
                       end); [ | reflexivity ].
  destruct rest as [| g rest']; [ reflexivity | ].
  destruct g; try reflexivity. destruct data as [[] |]; reflexivity.
Qed.

Lemma stepOutcome_tags (s : Z) (fs : list Frame) :
  stepOutcome s fs = tagOutcome s (map frameTag fs).
Proof.
  induction fs as [| f rest IH]; [ reflexivity | ].
  destruct f; cbn; try exact IH.
  destruct data as [[] |]; cbn; rewrite IH; reflexivity.
Qed.

Lemma chunksGuarded_tags (fs : list Frame) :
  forall seen, chunksGuarded seen fs = tagsGuarded seen (map frameTag fs).
Proof.
  induction fs as [| f rest IH]; intros seen; [ reflexivity | ].
  destruct f; cbn; try apply IH.
  - destruct data as [[] |]; cbn; apply IH.
  - rewrite IH. reflexivity.
Qed.

Lemma tagsGuarded_filter (ts : list Tag) :
  forall seen,
    tagsGuarded seen (filter isFrameTag ts) = tagsGuarded seen ts.
Proof.
  induction ts as [| t rest IH]; intros seen; [ reflexivity | ].
  destruct t; cbn; try apply IH. rewrite IH. reflexivity.
Qed.

Lemma tagsGuarded_prefix (p : list Tag) :
  forall seen r, tagsGuarded seen (p ++ r) = true -> tagsGuarded seen p = true.
Proof.
  induction p as [| t p IH]; intros seen r Hg; [ reflexivity | ].
  destruct t; cbn in *; try (eapply IH; exact Hg).
  apply andb_true_iff in Hg. destruct Hg as [-> Hg]. cbn. eapply IH. exact Hg.
Qed.

Lemma tagsGuarded_error (p : list Tag) :
  forall seen, tagsGuarded seen (p ++ [TError]) = tagsGuarded seen p.
Proof.
  induction p as [| t p IH]; intros seen; [ reflexivity | ].
  destruct t; cbn; try apply IH. rewrite IH. reflexivity.
Qed.

Lemma tagsGuarded_seen_chunks (n : nat) (rest : list Tag) :
  tagsGuarded true (repeat TChunk n ++ rest) = tagsGuarded true rest.
Proof. induction n as [| n IH]; [ reflexivity | exact IH ]. Qed.

(** Every chunk of a guarded sequence has the completion of the report
    step before it. *)
Lemma chunksGuarded_nth (fs : list Frame) :
  forall seen i chunk,
    chunksGuarded seen fs = true ->
    nth_error fs i = Some (Ev.report_chunk chunk) ->
    seen = true
    \/ exists j f,
         (j < i)%nat /\ nth_error fs j = Some f /\ completesReportStep f = true.
Proof.
  induction fs as [| f rest IH]; intros seen i chunk Hg Hn.
  - destruct i; discriminate.
  - destruct i as [| i].
    + cbn in Hn. inversion Hn; subst f. cbn in Hg.
      apply andb_true_iff in Hg. left. apply Hg.
    + cbn in Hn.
      assert (Hstep :
        forall seen',
          chunksGuarded seen' rest = true ->
          (seen' = true -> seen = true \/ completesReportStep f = true) ->
          seen = true
          \/ exists j g,
               (j < S i)%nat /\ nth_error (f :: rest) j = Some g
               /\ completesReportStep g = true).
      { intros seen' Hg' Hs.
        destruct (IH seen' i chunk Hg' Hn) as [Hseen | (j & g & Hj & Hg2 & Hc)].
        - destruct (Hs Hseen) as [? | Hc]; [ left; assumption | ].
          right. exists 0%nat, f. split; [ lia | ]. split; [ reflexivity | exact Hc ].
        - right. exists (S j), g. split; [ lia | ]. split; assumption. }
      destruct f; cbn in Hg;
        try (apply (Hstep seen Hg); intros Hs; left; exact Hs).
      * apply (Hstep _ Hg). intros Hs. cbn.
        apply orb_true_iff in Hs. destruct Hs as [Hs | Hs]; auto.
      * apply andb_true_iff in Hg. destruct Hg as [Hs Hg].
        apply (Hstep seen Hg). intros _. left. exact Hs.
Qed.

(** *** The full trace of a plan with five searches and five analyses *)

Lemma fullTags_five (w : World) (topic depth : string) (plan : ResearchPlan)
    (n : nat) :
  fiveAndFive plan ->
  exists s0 s1 s2 s3 s4 a0 a1 a2 a3 a4,
    searches plan = [s0; s1; s2; s3; s4]
    /\ analyses plan = [a0; a1; a2; a3; a4]
    /\ fullTags w topic depth plan n
       = beforeReport w topic depth plan s0 s1 s2 s3 s4 a0 a1 a2 a3 a4
         ++ reportTags n.
Proof.
  intros Hfive. pose proof Hfive as [Hs Ha].
  destruct (searches plan) as [| s0 [| s1 [| s2 [| s3 [| s4 [| s5 ss]]]]]] eqn:Es;
    try discriminate.
  destruct (analyses plan) as [| a0 [| a1 [| a2 [| a3 [| a4 [| a5 aa]]]]]] eqn:Ea;
    try discriminate.
  exists s0, s1, s2, s3, s4, a0, a1, a2, a3, a4.
  split; [ reflexivity | ]. split; [ reflexivity | ].
  unfold fullTags, beforeReport. rewrite Es, Ea.
  cbn [searchTags analysisTags].
  rewrite !(searchProgress_five _ plan Hfive).
  rewrite !(analysisProgress_five _ plan Hfive).
  unfold stepTags, searchCall, analysisCall.
  rewrite <- !app_assoc. reflexivity.
Qed.

Lemma flat_map_repeat_nil {A B : Type} (f : A -> list B) (x : A) (n : nat) :
  f x = [] -> flat_map f (repeat x n) = [].
Proof.
  intros Hx. induction n as [| n IH]; [ reflexivity | ].
  cbn. rewrite Hx, IH. reflexivity.
Qed.

(** *** Progress never decreases *)

Lemma fullTags_writes (w : World) (topic depth : string) (plan : ResearchPlan)
    (n : nat) :
  fiveAndFive plan ->
  flat_map tagWrites (fullTags w topic depth plan n) = fullWrites
  /\ flat_map tagEmits (fullTags w topic depth plan n) = fullProgress.
Proof.
  intros Hfive.
  destruct (fullTags_five w topic depth plan n Hfive)
    as (s0 & s1 & s2 & s3 & s4 & a0 & a1 & a2 & a3 & a4 & _ & _ & ->).
  unfold reportTags. rewrite !flat_map_app.
  rewrite !(flat_map_repeat_nil _ TChunk n) by reflexivity.
  split; reflexivity.
Qed.

Lemma runShape_writes (w : World) (topic depth : string) (t : list Tag) :
  runShape w topic depth t ->
  prefixOf (flat_map tagWrites t) fullWrites
  /\ prefixOf (flat_map tagEmits t) fullProgress.
Proof.
  unfold runShape. destruct (plannedBy w topic) as [plan |] eqn:Hp.
  - pose proof (plannedBy_fiveAndFive w topic plan Hp) as Hfive.
    intros (n & Ht).
    destruct (fullTags_writes w topic depth plan n Hfive) as [Ww We].
    destruct Ht as [-> | [-> | (p & Hpre & -> & _)]].
    + rewrite Ww, We. split; apply prefixOf_refl.
    + rewrite !flat_map_app, Ww, We. cbn. split; apply prefixOf_refl.
    + rewrite !flat_map_app. cbn [flat_map tagWrites tagEmits app].
      rewrite !app_nil_r.
      rewrite <- Ww, <- We. split; apply prefixOf_flat_map; exact Hpre.
  - intros ->. cbn. split; apply prefixOf_nil.
Qed.

Lemma StronglySorted_app_le {A : Type} (R : A -> A -> Prop) (l1 l2 : list A) :
  StronglySorted R (l1 ++ l2) ->
  forall x y, In x l1 -> In y l2 -> R x y.
Proof.
  induction l1 as [| a l1 IH]; intros Hs x y Hx Hy; [ destruct Hx | ].
  cbn in Hs. apply StronglySorted_inv in Hs. destruct Hs as [Hs Hall].
  destruct Hx as [-> | Hx].
  - rewrite Forall_forall in Hall. apply Hall. apply in_or_app. right. exact Hy.
  - exact (IH Hs x y Hx Hy).
Qed.

Lemma StronglySorted_prefix {A : Type} (R : A -> A -> Prop) (p l : list A) :
  StronglySorted R l -> prefixOf p l -> StronglySorted R p.
Proof.
  intros Hs [r ->]. induction p as [| a p IH]; [ constructor | ].
  cbn in Hs. apply StronglySorted_inv in Hs. destruct Hs as [Hs Hall].
  constructor; [ exact (IH Hs) | ].
  apply Forall_app in Hall. apply Hall.
Qed.

Lemma last_in_cons {A : Type} (l : list A) (d : A) : In (last l d) (d :: l).
Proof.
  destruct l as [| a l]; [ left; reflexivity | ].
  right. revert a. induction l as [| b l IH]; intros a.
  - left. reflexivity.
  - cbn [last]. right. apply IH.
Qed.

Lemma last_app_in {A : Type} (l r : list A) (d : A) :
  r <> [] -> last (l ++ r) d = last r d /\ In (last r d) r.
Proof.
  intros Hr. split.
  - induction l as [| a l IH]; [ reflexivity | ].
    cbn [app last]. destruct (l ++ r) eqn:E; [ | exact IH ].
    apply app_eq_nil in E. destruct E as [_ E]. contradiction.
  - destruct r as [| b r]; [ contradiction | ].
    clear Hr. revert b. induction r as [| c r IH]; intros b.
    + left. reflexivity.
    + cbn [last]. right. apply IH.
Qed.

Lemma sorted_last_le (d : Z) (p1 p2 l : list Z) :
  StronglySorted Z.le (d :: l) ->
  prefixOf p1 p2 -> prefixOf p2 l ->
  last p1 d <= last p2 d.
Proof.
  intros Hs [r ->] [r' ->].
  destruct r as [| y r]; [ rewrite app_nil_r; lia | ].
  destruct (last_app_in p1 (y :: r) d) as [-> Hin]; [ discriminate | ].
  apply (StronglySorted_app_le Z.le (d :: p1) ((y :: r) ++ r')).
  - cbn. rewrite <- app_assoc in Hs. exact Hs.
  - apply last_in_cons.
  - apply in_or_app. left. exact Hin.
Qed.

Lemma progress_is_last_write (b : Browser) (fs : list Frame) :
  progress (liveView b fs) = last (progressWrites fs) 0.
Proof.
  unfold liveView.
  rewrite (fold_overwrites b progress setsProgress (progress_overwritten b)).
  cbn [state resetState progress].
  induction fs as [| f fs IH] using rev_ind; [ reflexivity | ].
  rewrite lastSet_snoc. unfold progressWrites in *. rewrite flat_map_app.
  cbn [flat_map]. destruct (setsProgress f) as [v |]; cbn [orKeep app].
  - rewrite last_last. reflexivity.
  - rewrite !app_nil_r. exact IH.
Qed.

Lemma fullWrites_sorted : StronglySorted Z.le (0 :: fullWrites).
Proof.
  unfold fullWrites.
  repeat (constructor; [ | repeat (constructor; try lia) ]). constructor.
Qed.

Lemma fullProgress_sorted : StronglySorted Z.le fullProgress.
Proof.
  unfold fullProgress.
  repeat (constructor; [ | repeat (constructor; try lia) ]). constructor.
Qed.

Lemma run_progress_prefix (w : World) (req : Request) :
  prefixOf (progressWrites (framesOf (POST w req))) fullWrites
  /\ prefixOf (emittedProgress (framesOf (POST w req))) fullProgress.
Proof.
  destruct (POST_cases w req) as [(s & body & ->) | (topic & sid & ->)].
  - cbn. split; apply prefixOf_nil.
  - cbn [framesOf]. rewrite progressWrites_trace, emittedProgress_trace.
    apply (runShape_writes w topic (depthOf req)). apply start_shape.
Qed.

(** C5: in every run the values carried by the [progress] frames are in
    non-decreasing order, and so is the client's [progress] field along the
    prefixes of the frame sequence: folding a longer prefix never gives a
    smaller value. *)
Theorem progress_never_decreases (w : World) (req : Request) (b : Browser) :
  StronglySorted Z.le (emittedProgress (framesOf (POST w req)))
  /\ (forall j k,
        (j <= k)%nat ->
        progress (liveView b (firstn j (framesOf (POST w req))))
        <= progress (liveView b (firstn k (framesOf (POST w req))))).
Proof.
  destruct (run_progress_prefix w req) as [Hw He].
  split.
  - exact (StronglySorted_prefix Z.le _ _ fullProgress_sorted He).
  - intros j k Hjk. rewrite !progress_is_last_write.
    apply (sorted_last_le 0 _ _ fullWrites fullWrites_sorted).
    + apply prefixOf_flat_map. apply prefixOf_firstn_le. exact Hjk.
    + apply (prefixOf_trans _ (progressWrites (framesOf (POST w req)))).
      * apply prefixOf_flat_map. apply prefixOf_firstn.
      * exact Hw.
Qed.

(** *** The report step completes before the first chunk *)

Lemma fullTags_guarded (w : World) (topic depth : string) (plan : ResearchPlan)
    (n : nat) :
  fiveAndFive plan ->
  tagsGuarded false (fullTags w topic depth plan n) = true.
Proof.
  intros Hfive.
  destruct (fullTags_five w topic depth plan n Hfive)
    as (s0 & s1 & s2 & s3 & s4 & a0 & a1 & a2 & a3 & a4 & _ & _ & ->).
  unfold beforeReport, planTags, stepTags, reportTags.
  cbn [app tagsGuarded Z.eqb String.eqb Ascii.eqb Bool.eqb orb andb].
  apply tagsGuarded_seen_chunks.
Qed.

Lemma runShape_guarded (w : World) (topic depth : string) (t : list Tag) :
  runShape w topic depth t -> tagsGuarded false t = true.
Proof.
  unfold runShape. destruct (plannedBy w topic) as [plan |] eqn:Hp.
  - pose proof (plannedBy_fiveAndFive w topic plan Hp) as Hfive.
    intros (n & Ht).
    pose proof (fullTags_guarded w topic depth plan n Hfive) as Hg.
    destruct Ht as [-> | [-> | (p & [r Hpre] & -> & _)]].
    + exact Hg.
    + rewrite tagsGuarded_error. exact Hg.
    + rewrite tagsGuarded_error. rewrite Hpre in Hg.
      exact (tagsGuarded_prefix p false r Hg).
  - intros ->. reflexivity.
Qed.

Lemma run_guarded (w : World) (req : Request) :
  chunksGuarded false (framesOf (POST w req)) = true.
Proof.
  destruct (POST_cases w req) as [(s & body & ->) | (topic & sid & ->)].
  - reflexivity.
  - cbn [framesOf].
    rewrite chunksGuarded_tags, frameTags_trace, tagsGuarded_filter.
    apply (runShape_guarded w topic (depthOf req)). apply start_shape.
Qed.

(** C10: in the frame sequence of every run, each [report_chunk] frame has
    before it a [step_complete] frame of step 12 with status "completed":
    the report step is marked completed before the first fragment of the
    report is streamed. *)
Theorem report_step_completes_before_chunks (w : World) (req : Request)
    (i : nat) (chunk : string) :
  nth_error (framesOf (POST w req)) i = Some (Ev.report_chunk chunk) ->
  exists j f,
    (j < i)%nat
    /\ nth_error (framesOf (POST w req)) j = Some f
    /\ completesReportStep f = true.
Proof.
  intros Hn.
  destruct (chunksGuarded_nth _ false i chunk (run_guarded w req) Hn)
    as [Hf | Hex]; [ discriminate | exact Hex ].
Qed.

Lemma report_step_completes_before_chunks_witness :
  nth_error (framesOf (POST calmWorld someRequest)) 36
  = Some (Ev.report_chunk "a")
  /\ exists j f,
       (j < 36)%nat
       /\ nth_error (framesOf (POST calmWorld someRequest)) j = Some f
       /\ completesReportStep f = true.
Proof.
  split; [ vm_compute; reflexivity | ].
  apply (report_step_completes_before_chunks calmWorld someRequest 36 "a").
  vm_compute. reflexivity.
Defined.

(** *** The progress value after each step *)

Lemma startsStep_tag (s : Z) (fs : list Frame) :
  existsb (startsStep s) fs = true -> In (TStart s) (map frameTag fs).
Proof.
  intros Hex. apply existsb_exists in Hex. destruct Hex as (f & Hin & Hf).
  apply in_map_iff. exists f. split; [ | exact Hin ].
  destruct f; try discriminate. cbn in Hf. apply Z.eqb_eq in Hf. subst.
  reflexivity.
Qed.

Lemma beforeReport_no_report (w : World) (topic depth : string)
    (plan : ResearchPlan) (s0 s1 s2 s3 s4 : SearchSpec)
    (a0 a1 a2 a3 a4 : AnalysisSpec) :
  ~ In (TStart 12)
      (beforeReport w topic depth plan s0 s1 s2 s3 s4 a0 a1 a2 a3 a4).
Proof.
  unfold beforeReport, planTags, stepTags. cbn [app]. intros Hin.
  repeat (destruct Hin as [Hin | Hin]; [ discriminate | ]).
  exact Hin.
Qed.

(** A run that started the report step went through every earlier step. *)
Lemma runShape_reached (w : World) (topic depth : string) (t : list Tag) :
  runShape w topic depth t ->
  In (TStart 12) t ->
  exists plan s0 s1 s2 s3 s4 a0 a1 a2 a3 a4 rest,
    plannedBy w topic = Some plan
    /\ searches plan = [s0; s1; s2; s3; s4]
    /\ analyses plan = [a0; a1; a2; a3; a4]
    /\ t = beforeReport w topic depth plan s0 s1 s2 s3 s4 a0 a1 a2 a3 a4
           ++ TStart 12 :: rest.
Proof.
  unfold runShape. destruct (plannedBy w topic) as [plan |] eqn:Hp.
  - pose proof (plannedBy_fiveAndFive w topic plan Hp) as Hfive.
    intros (n & Ht) Hin.
    destruct (fullTags_five w topic depth plan n Hfive)
      as (s0 & s1 & s2 & s3 & s4 & a0 & a1 & a2 & a3 & a4 & Es & Ea & Ef).
    rewrite Ef in Ht. exists plan, s0, s1, s2, s3, s4, a0, a1, a2, a3, a4.
    destruct Ht as [-> | [-> | (p & Hpre & -> & _)]].
    + eexists. do 3 (split; [ first [ assumption | reflexivity ] | ]). unfold reportTags. cbn [app].
      reflexivity.
    + eexists. do 3 (split; [ first [ assumption | reflexivity ] | ]). unfold reportTags. cbn [app].
      rewrite <- app_assoc. cbn [app]. reflexivity.
    + apply in_app_or in Hin.
      destruct Hin as [Hin | [Hin | []]]; [ | discriminate ].
      unfold reportTags in Hpre. cbn [app] in Hpre.
      destruct (prefix_through _ _ _ p Hpre Hin
                  (beforeReport_no_report w topic depth plan
                     s0 s1 s2 s3 s4 a0 a1 a2 a3 a4))
        as (p' & -> & _).
      eexists. do 3 (split; [ first [ assumption | reflexivity ] | ]).
      rewrite <- app_assoc. cbn [app]. reflexivity.
  - intros -> Hin. cbn in Hin.
    repeat (destruct Hin as [Hin | Hin]; [ discriminate | ]). destruct Hin.
Qed.

(** C7: in every run that started its report step (five searches and five
    analyses were made), the [progress] frame that follows the
    [step_complete] of search step [s] (2 to 6) carries
    [round(s / 10 * 70)], and the one that follows the [step_complete] of
    the [j]-th analysis (step [6 + j], [j] from 1 to 5) carries
    [round(70 + (j / 5) * 25)]. *)
Theorem progress_after_each_step (w : World) (req : Request) :
  existsb (startsStep 12) (framesOf (POST w req)) = true ->
  (forall s,
     2 <= s <= 6 ->
     progressAfterStep s (framesOf (POST w req))
     = Some (Math_round ((inject_Z s / inject_Z 10) * 70)%Q))
  /\ (forall j,
        1 <= j <= 5 ->
        progressAfterStep (6 + j) (framesOf (POST w req))
        = Some (Math_round (70 + (inject_Z j / inject_Z 5) * 25)%Q)).
Proof.
  intros Hstart.
  destruct (POST_cases w req) as [(s & body & E) | (topic & sid & E)];
    rewrite E in *; [ discriminate | ].
  cbn [framesOf] in *.
  apply startsStep_tag in Hstart.
  rewrite frameTags_trace in Hstart. apply filter_In in Hstart.
  destruct Hstart as [Hstart _].
  destruct (runShape_reached w topic (depthOf req) _
              (start_shape w topic sid (depthOf req)) Hstart)
    as (plan & s0 & s1 & s2 & s3 & s4 & a0 & a1 & a2 & a3 & a4 & rest
        & _ & _ & _ & Et).
  split.
  - intros s Hs. rewrite progressAfterStep_tags, frameTags_trace, Et.
    rewrite filter_app.
    assert (C : s = 2 \/ s = 3 \/ s = 4 \/ s = 5 \/ s = 6) by lia.
    destruct C as [-> | [-> | [-> | [-> | ->]]]]; reflexivity.
  - intros j Hj. rewrite progressAfterStep_tags, frameTags_trace, Et.
    rewrite filter_app.
    assert (C : j = 1 \/ j = 2 \/ j = 3 \/ j = 4 \/ j = 5) by lia.
    destruct C as [-> | [-> | [-> | [-> | ->]]]]; reflexivity.
Qed.

Lemma progress_after_each_step_witness :
  existsb (startsStep 12) (framesOf (POST calmWorld someRequest)) = true
  /\ (forall s,
        2 <= s <= 6 ->
        progressAfterStep s (framesOf (POST calmWorld someRequest))
        = Some (Math_round ((inject_Z s / inject_Z 10) * 70)%Q))
  /\ (forall j,
        1 <= j <= 5 ->
        progressAfterStep (6 + j) (framesOf (POST calmWorld someRequest))
        = Some (Math_round (70 + (inject_Z j / inject_Z 5) * 25)%Q)).
Proof.
  split; [ vm_compute; reflexivity | ].
  apply (progress_after_each_step calmWorld someRequest).
  vm_compute. reflexivity.
Defined.

(** *** A failing search does not stop the run *)

Lemma calls_trace (e : Env) :
  calls e = flat_map tagCall (map tagOf (trace e)).
Proof.
  unfold calls. induction (trace e) as [| ev evs IH]; [ reflexivity | ].
  destruct ev as [u | c]; cbn.
  - rewrite IH. destruct (payload u); try reflexivity.
    destruct data as [[] |]; reflexivity.
  - rewrite IH. reflexivity.
Qed.

Lemma lastSet_app {F X : Type} (setter : F -> option X) (l1 l2 : list F) :
  lastSet setter (l1 ++ l2)
  = match lastSet setter l2 with
    | Some v => Some v
    | None => lastSet setter l1
    end.
Proof.
  induction l2 as [| f l2 IH] using rev_ind.
  - rewrite app_nil_r. reflexivity.
  - rewrite app_assoc, !lastSet_snoc.
    destruct (setter f); [ reflexivity | exact IH ].
Qed.

Lemma lastSet_status_trace (e : Env) :
  lastSet setsStatus (frames e) = lastSet tagStatus (map tagOf (trace e)).
Proof.
  unfold frames. induction (trace e) as [| ev evs IH] using rev_ind.
  - reflexivity.
  - rewrite flat_map_app, map_app, !lastSet_app, IH. cbn [map flat_map].
    destruct ev as [u | c]; cbn.
    + destruct (payload u); try reflexivity.
      destruct data as [[] |]; reflexivity.
    + reflexivity.
Qed.

Lemma status_tag_frame (st : string) (fs : list Frame) :
  In (TStatus st) (map frameTag fs) -> In (Ev.status_change st) fs.
Proof.
  intros Hin. apply in_map_iff in Hin. destruct Hin as (f & Hf & Hin).
  destruct f; try discriminate.
  - destruct data as [[] |]; discriminate.
  - cbn in Hf. inversion Hf; subst. exact Hin.
Qed.

(** The client marks a step "running" or "completed", never anything else. *)
Lemma client_statuses (b : Browser) (fs : list Frame) :
  forall h,
    Forall runningOrCompleted (updates (state h)) ->
    Forall runningOrCompleted (updates (state (foldFrames b h fs))).
Proof.
  induction fs as [| f fs IH] using rev_ind; intros h Hh; [ exact Hh | ].
  rewrite foldFrames_snoc. specialize (IH h Hh).
  set (h' := foldFrames b h fs) in *. clearbody h'.
  destruct f; cbn; try exact IH.
  - assert (Ha : Forall runningOrCompleted
                   (updates (state (addUpdate b step title description
                                      "running" h')))).
    { cbn. apply Forall_app. split; [ exact IH | ].
      constructor; [ left; reflexivity | constructor ]. }
    destruct (step =? 1); [ exact Ha | ]. destruct (step <=? 6); exact Ha.
  - apply Forall_map. apply (Forall_impl _ (P := runningOrCompleted));
      [ | exact IH ].
    intros u Hu. unfold completeUpdate.
    destruct (ru_step u =? step); [ right; reflexivity | exact Hu ].
Qed.

Lemma healthy_run (w : World) (topic sessionId depth : string)
    (plan : ResearchPlan) :
  Healthy w topic ->
  plannedBy w topic = Some plan ->
  exists n s0 s1 s2 s3 s4 a0 a1 a2 a3 a4 tail,
    searches plan = [s0; s1; s2; s3; s4]
    /\ analyses plan = [a0; a1; a2; a3; a4]
    /\ (tail = [] \/ tail = [TError])
    /\ map tagOf (trace (runOf w topic sessionId depth))
       = beforeReport w topic depth plan s0 s1 s2 s3 s4 a0 a1 a2 a3 a4
         ++ reportTags n ++ tail.
Proof.
  intros Hh Hp. pose proof (start_shape w topic sessionId depth) as Hs.
  unfold runShape in Hs. rewrite Hp in Hs. destruct Hs as (n & Hs).
  pose proof (plannedBy_fiveAndFive w topic plan Hp) as Hfive.
  destruct (fullTags_five w topic depth plan n Hfive)
    as (s0 & s1 & s2 & s3 & s4 & a0 & a1 & a2 & a3 & a4 & Es & Ea & Ef).
  rewrite Ef in Hs.
  exists n, s0, s1, s2, s3, s4, a0, a1, a2, a3, a4.
  destruct Hs as [Hs | [Hs | (p & _ & _ & Hn)]].
  - exists []. rewrite app_nil_r. auto.
  - exists [TError]. rewrite app_assoc. auto.
  - contradiction.
Qed.

Lemma findsNothing_count (w : World) (depth : string) (k : nat)
    (search : SearchSpec) :
  findsNothing w depth k search -> searchCount w depth k search = 0.
Proof.
  unfold findsNothing, searchCount.
  destruct (tavilySearch w k (query search) (providerDepth depth)
              (maxResults (priority search))) as [rs | x].
  - intros ->. reflexivity.
  - reflexivity.
Qed.

(** C1 (as the code has it): when the planner, the analyses and the report
    stream behave and the search provider returns URLs that parse, a search
    that throws (just as one that returns nothing) is recorded by a
    [step_complete] with status "completed" and result count 0; every step
    from 1 to 12 is completed with status "completed", every search and
    analysis call is made, the run emits [status_change] "complete" and
    the client ends in phase "complete", with each of its steps marked
    "running" or "completed". *)
Theorem search_failure_is_absorbed (w : World) (topic sessionId : string)
    (depth : option string) (plan : ResearchPlan) (k : nat)
    (search : SearchSpec) :
  truthy topic = true ->
  truthy sessionId = true ->
  Healthy w topic ->
  plannedBy w topic = Some plan ->
  nth_error (searches plan) k = Some search ->
  findsNothing w (depthOf (validRequest topic sessionId depth)) k search ->
  let r := POST w (validRequest topic sessionId depth) in
  stepOutcome (Z.of_nat k + 2) (framesOf r) = Some ("completed"%string, Some 0)
  /\ (forall s, 1 <= s <= 12 ->
        exists c, stepOutcome s (framesOf r) = Some ("completed"%string, c))
  /\ callsOf r
     = allCalls topic (depthOf (validRequest topic sessionId depth)) plan
  /\ In (Ev.status_change "complete") (framesOf r)
  /\ (forall b, status (liveView b (framesOf r)) = "complete"%string)
  /\ (forall b, Forall runningOrCompleted (updates (liveView b (framesOf r)))).
Proof.
  intros Ht Hs Hh Hp Hk Hnone. cbv zeta.
  rewrite (POST_valid w topic sessionId depth Ht Hs).
  set (d := depthOf (validRequest topic sessionId depth)) in *.
  cbn [framesOf callsOf].
  destruct (healthy_run w topic sessionId d plan Hh Hp)
    as (n & s0 & s1 & s2 & s3 & s4 & a0 & a1 & a2 & a3 & a4 & tail
        & Es & Ea & Htail & Et).
  pose proof (findsNothing_count w d k search Hnone) as Hcount.
  split; [ | split; [ | split; [ | split; [ | split ] ] ] ].
  - rewrite stepOutcome_tags, frameTags_trace, Et, filter_app.
    rewrite Es in Hk.
    destruct k as [| [| [| [| [| k]]]]]; cbn in Hk;
      try (inversion Hk; subst search; cbn; rewrite Hcount; reflexivity).
    destruct k; discriminate.
  - intros s Hrange. rewrite stepOutcome_tags, frameTags_trace, Et, filter_app.
    assert (C : s = 1 \/ s = 2 \/ s = 3 \/ s = 4 \/ s = 5 \/ s = 6 \/ s = 7
                \/ s = 8 \/ s = 9 \/ s = 10 \/ s = 11 \/ s = 12) by lia.
    repeat (destruct C as [-> | C]; [ eexists; reflexivity | ]).
    subst s. eexists. reflexivity.
  - rewrite calls_trace, Et. unfold allCalls, reportTags. rewrite Es, Ea.
    rewrite !flat_map_app.
    rewrite (flat_map_repeat_nil tagCall TChunk n) by reflexivity.
    destruct Htail as [-> | ->]; reflexivity.
  - apply status_tag_frame. rewrite frameTags_trace, Et.
    apply filter_In. split; [ | reflexivity ].
    apply in_or_app. right. apply in_or_app. left. unfold reportTags.
    apply in_or_app. right. apply in_or_app. right.
    right. right. left. reflexivity.
  - intros b. unfold liveView.
    rewrite (fold_overwrites b status setsStatus (status_overwritten b)).
    rewrite lastSet_status_trace, Et.
    rewrite app_assoc, lastSet_app.
    destruct Htail as [-> | ->]; [ | reflexivity ].
    cbn [lastSet fold_left]. unfold reportTags.
    rewrite !lastSet_app. reflexivity.
  - intros b. unfold liveView. apply client_statuses. constructor.
Qed.

(** *** The snapshot's link total *)

Lemma linkTotal_app (l1 l2 : list SearchLinkRecord) :
  linkTotal (l1 ++ l2) = linkTotal l1 + linkTotal l2.
Proof.
  unfold linkTotal. induction l1 as [| r l1 IH]; cbn [app fold_right].
  - lia.
  - rewrite IH. lia.
Qed.

Lemma pushSearch_consistent (pl : PlanLinks) (i : nat) (search : SearchSpec)
    (result : SearchResult) (links : list Link) (domains : list string) :
  length links = length (sr_results result) ->
  linksConsistent pl ->
  linksConsistent (pushSearch pl i search result links domains).
Proof.
  unfold linksConsistent, pushSearch. cbn [total_links pl_searches].
  intros Hl ->. rewrite linkTotal_app. unfold linkTotal at 3.
  cbn [fold_right sl_links]. unfold len. rewrite Hl. lia.
Qed.

Lemma pushAnalysis_consistent (plan : ResearchPlan) (pl : PlanLinks) (i : nat)
    (analysis : AnalysisSpec) (result : AnalysisResult) :
  linksConsistent pl ->
  linksConsistent (pushAnalysis plan pl i analysis result).
Proof. unfold linksConsistent, pushAnalysis. cbn. auto. Qed.

Lemma persisted_consistent (w : World) (id : option string) (n : nat)
    (rs : list Message) (u : Updates) (pl : PlanLinks) :
  up_research_plan_links u = Some pl ->
  linksConsistent pl ->
  Forall rowConsistent rs ->
  Forall rowConsistent (persisted w id n rs u).
Proof.
  intros Hu Hpl Hrs. unfold persisted.
  destruct (updatable id); [ | exact Hrs ].
  destruct (rev rs) as [| current older]; [ exact Hrs | ].
  destruct (updateOk w n); [ | exact Hrs ].
  apply Forall_app. split; [ exact Hrs | ].
  constructor; [ | constructor ].
  unfold rowConsistent, applyUpdates. cbn. rewrite Hu. cbn. exact Hpl.
Qed.

Lemma persisted_nonempty (w : World) (id : option string) (n : nat)
    (rs : list Message) (u : Updates) :
  rs <> [] -> persisted w id n rs u <> [].
Proof.
  intros Hrs. unfold persisted.
  destruct (updatable id); [ | exact Hrs ].
  destruct (rev rs) as [| current older]; [ exact Hrs | ].
  destruct (updateOk w n); [ | exact Hrs ].
  intros Hc. apply app_eq_nil in Hc. destruct Hc as [_ Hc]. discriminate.
Qed.

Section Snapshot.

Variable w : World.
Variable plan : ResearchPlan.
Variable depth : string.

Lemma searchIteration_between (i : nat) (search : SearchSpec) (st : Locals)
    (e : Env) :
  betweenSteps w e st ->
  match searchIteration w plan depth i search st e with
  | (e', Ok st') =>
      betweenSteps w e' st'
      /\ length (pl_searches (planLinksData st'))
         = S (length (pl_searches (planLinksData st)))
  | (e', Threw _) => Forall rowConsistent (rows e')
  end.
Proof.
  intros (Hid & Hne & Hrows & Hpl).
  destruct (allParse w
              (sr_results
                 (searchOutcome w i (query search) depth (priority search))))
    eqn:Hp.
  - destruct (searchIteration_ok w plan depth i search st e Hp)
      as (t1 & t2 & t3 & tk & links & domains & Hl & E).
    rewrite E. unfold betweenSteps. cbn [assistantMessageId planLinksData rows].
    pose proof (pushSearch_consistent (planLinksData st) i search _ links
                  domains Hl Hpl) as Hpush.
    split; [ | unfold pushSearch; cbn [pl_searches]; rewrite length_app; cbn; lia ].
    split; [ exact Hid | ].
    split; [ intros Hsome; apply persisted_nonempty; exact (Hne Hsome) | ].
    split; [ | exact Hpush ].
    eapply persisted_consistent; [ reflexivity | exact Hpush | exact Hrows ].
  - destruct (searchIteration_bad w plan depth i search st e Hp)
      as (t1 & tk & E).
    rewrite E. exact Hrows.
Qed.

Lemma searchLoop_between (todo : list SearchSpec) :
  forall i st e,
    betweenSteps w e st ->
    match searchLoop w plan depth i todo st e with
    | (e', Ok st') =>
        betweenSteps w e' st'
        /\ length (pl_searches (planLinksData st'))
           = (length (pl_searches (planLinksData st)) + length todo)%nat
    | (e', Threw _) => Forall rowConsistent (rows e')
    end.
Proof.
  induction todo as [| search rest IH]; intros i st e Hb.
  - cbn. split; [ exact Hb | lia ].
  - cbn [searchLoop]. unfold bind.
    pose proof (searchIteration_between i search st e Hb) as Hstep.
    destruct (searchIteration w plan depth i search st e) as [e1 [st1 | x]].
    + destruct Hstep as [Hb1 Hlen].
      specialize (IH (S i) st1 e1 Hb1).
      destruct (searchLoop w plan depth (S i) rest st1 e1) as [e2 [st2 | x]].
      * destruct IH as [Hb2 Hlen2]. split; [ exact Hb2 | ].
        rewrite Hlen2, Hlen. cbn. lia.
      * exact IH.
    + exact Hstep.
Qed.

Lemma analysisIteration_between (i : nat) (analysis : AnalysisSpec)
    (st : Locals) (e : Env) :
  betweenSteps w e st ->
  match analysisIteration w plan i analysis st e with
  | (e', Ok st') => betweenSteps w e' st'
  | (e', Threw _) => Forall rowConsistent (rows e')
  end.
Proof.
  intros (Hid & Hne & Hrows & Hpl).
  destruct (analysisAnswer w i (searchResults st) analysis) as [r |] eqn:Ha.
  - destruct (analysisIteration_ok w plan i analysis st e r Ha)
      as (t1 & t2 & t3 & tk & E).
    rewrite E. unfold betweenSteps. cbn [assistantMessageId planLinksData rows].
    pose proof (pushAnalysis_consistent plan (planLinksData st) i analysis r
                  Hpl) as Hpush.
    split; [ exact Hid | ].
    split; [ intros Hsome; apply persisted_nonempty; exact (Hne Hsome) | ].
    split; [ | exact Hpush ].
    eapply persisted_consistent; [ reflexivity | exact Hpush | exact Hrows ].
  - destruct (analysisIteration_bad w plan i analysis st e Ha)
      as (t1 & tk & x & E).
    rewrite E. exact Hrows.
Qed.

Lemma analysisLoop_between (todo : list AnalysisSpec) :
  forall i st e,
    betweenSteps w e st ->
    match analysisLoop w plan i todo st e with
    | (e', Ok st') => betweenSteps w e' st'
    | (e', Threw _) => Forall rowConsistent (rows e')
    end.
Proof.
  induction todo as [| analysis rest IH]; intros i st e Hb.
  - exact Hb.
  - cbn [analysisLoop]. unfold bind.
    pose proof (analysisIteration_between i analysis st e Hb) as Hstep.
    destruct (analysisIteration w plan i analysis st e) as [e1 [st1 | x]].
    + exact (IH (S i) st1 e1 Hstep).
    + exact Hstep.
Qed.

End Snapshot.

Section SnapshotRun.

Variable w : World.
Variable topic sessionId depth : string.

Lemma investigate_between :
  match investigate w topic sessionId depth startEnv with
  | (e', Ok found) =>
      betweenSteps w e' (fst found)
      /\ snd (snd found)
         = collectSources (searchResults (fst found))
             (analysisResults (fst found))
      /\ exists pre t1 t2 t3,
           trace e'
           = pre
             ++ [Sent (mkUpdate
                         (Ev.report_complete (fst (snd found))
                            (len (allSources (snd (snd found))))
                            (allSources (snd (snd found))))
                         t1);
                 Sent (mkUpdate (Ev.progress 100) t2);
                 Sent (mkUpdate (Ev.status_change "complete") t3)]
  | (e', Threw _) => Forall rowConsistent (rows e')
  end.
Proof.
  unfold investigate, createResearchPlan, generateObject.
  unfold bind, sendUpdate, enqueue, logCall, record, tick, bind, await.
  cbn [fst snd trace rows ticks writes closed startEnv app].
  destruct (generatePlan w topic (clock w 0)) as [plan | x];
    [ | cbn; constructor ].
  unfold ret. destruct (ResearchPlanSchema plan); [ | cbn; constructor ].
  cbn [fst snd trace rows ticks writes closed startEnv app].
  match goal with
  | |- context [searchLoop w plan depth 0 (searches plan) ?st0
                  (fst (insertAssistantMessage w ?row ?e0))] => idtac
  | |- context [insertAssistantMessage w ?row ?e0] =>
      assert (Hins :
        exists e1,
          insertAssistantMessage w row e0 = (e1, Ok (insertMessage w))
          /\ (insertMessage w <> None -> rows e1 <> [])
          /\ Forall rowConsistent (rows e1));
      [ unfold insertAssistantMessage;
        destruct (insertMessage w) as [id |]; eexists;
        (split; [ reflexivity | ]);
        cbn [rows app];
        (split;
           [ intros Hn; first [ discriminate | exfalso; apply Hn; reflexivity ]
           | ]);
        repeat constructor
      | destruct Hins as (e1 & -> & Hne & Hrows) ]
  end.
  match goal with
  | |- context [searchLoop w plan depth 0 (searches plan) ?st0 e1] =>
      assert (Hb0 : betweenSteps w e1 st0)
        by (unfold betweenSteps; cbn; repeat split; auto);
      pose proof (searchLoop_between w plan depth (searches plan) 0 st0 e1 Hb0)
        as Hs;
      destruct (searchLoop w plan depth 0 (searches plan) st0 e1)
        as [e2 [st1 | x1]]; [ | exact Hs ]
  end.
  destruct Hs as [(Hid1 & Hne1 & Hrows1 & Hpl1) _].
  match goal with
  | |- context [analysisLoop w plan 0 (analyses plan) ?st1' e2] =>
      assert (Hb1 : betweenSteps w e2 st1')
        by (unfold betweenSteps; cbn; repeat split; auto);
      pose proof (analysisLoop_between w plan (analyses plan) 0 st1' e2 Hb1)
        as Ha;
      destruct (analysisLoop w plan 0 (analyses plan) st1' e2)
        as [e3 [st2 | x2]]; [ | exact Ha ]
  end.
  destruct (reportPhase_runs w topic st2 e3) as (new & tk & n & r & E & R).
  rewrite E. destruct r as [report | x3].
  - cbn [fst snd]. destruct R as (Hc & _ & pre & t1 & t2 & t3 & Hnew).
    destruct Ha as (Hid2 & Hne2 & Hrows2 & Hpl2).
    split; [ unfold betweenSteps; cbn [rows]; auto | ].
    split; [ exact Hc | ].
    exists (trace e3 ++ pre), t1, t2, t3.
    cbn [trace]. rewrite Hnew, Hc, app_assoc. reflexivity.
  - cbn [rows]. apply Ha.
Qed.

End SnapshotRun.

Section FinalUpdate.

Variable w : World.

Lemma finalUpdate_between (content : string) (cites : Citations) (st : Locals)
    (e : Env) :
  betweenSteps w e st ->
  match finalUpdate w content cites st e with
  | (e', Ok st') =>
      trace e' = trace e
      /\ Forall rowConsistent (rows e')
      /\ linksConsistent (planLinksData st')
      /\ (updatable (insertMessage w) = true ->
          writes e' = S (writes e)
          /\ exists citations,
               toCitations w 0 (allSources cites) e = (e, Ok citations)
               /\ rows e'
                  = persisted w (insertMessage w) (writes e) (rows e)
                      (finalUpdates content st citations))
  | (e', Threw _) => trace e' = trace e /\ rows e' = rows e
  end.
Proof.
  intros (Hid & Hne & Hrows & Hpl). unfold finalUpdate.
  rewrite <- Hid.
  destruct (assistantMessageId st) as [id |] eqn:Eid;
    [ cbn [updatable]; destruct (truthy id) eqn:Et | ].
  - unfold bind at 1.
    pose proof (toCitations_env w (allSources cites) 0 e) as Hc.
    destruct (toCitations w 0 (allSources cites) e) as [e1 [cs | x]];
      cbn [fst] in Hc; subst e1; [ | auto ].
    unfold bind, ret.
    cbn [updateMessageInDatabase fst snd trace rows ticks writes closed
         planLinksData].
    split; [ reflexivity | ].
    assert (Hfinal : linksConsistent
              (mkPlanLinks (plan_id (planLinksData st))
                 (created_at (planLinksData st))
                 (pl_searches (planLinksData st))
                 (pl_analyses (planLinksData st))
                 (total_links (planLinksData st))
                 (unique_domains (planLinksData st)) 100))
      by exact Hpl.
    split.
    + assert (Hp : Forall rowConsistent
                     (persisted w (Some id) (writes e) (rows e)
                        (finalUpdates content st cs)))
        by exact (persisted_consistent w (Some id) (writes e) (rows e)
                    (finalUpdates content st cs) _ eq_refl Hfinal Hrows).
      unfold persisted in Hp. cbn [updatable] in Hp. rewrite Et in Hp.
      exact Hp.
    + split; [ exact Hfinal | ].
      intros _. split; [ reflexivity | ]. exists cs.
      split; [ reflexivity | ].
      unfold persisted. cbn [updatable]. rewrite Et. reflexivity.
  - cbn. split; [ reflexivity | ]. split; [ exact Hrows | ].
    split; [ exact Hpl | ]. intros Hsome. discriminate.
  - cbn. split; [ reflexivity | ]. split; [ exact Hrows | ].
    split; [ exact Hpl | ]. intros Hsome. discriminate.
Qed.

Variable topic sessionId depth : string.

Lemma run_rows_consistent :
  Forall rowConsistent (rows (runOf w topic sessionId depth)).
Proof.
  unfold runOf, start, tryFinally, tryCatch, research.
  unfold sendUpdate, bind, tick, enqueue, record.
  pose proof (investigate_between w topic sessionId depth) as Hi.
  destruct (investigate w topic sessionId depth startEnv)
    as [e1 [found | x]].
  - destruct Hi as (Hb & _ & _).
    pose proof (finalUpdate_between (fst (snd found)) (snd (snd found))
                  (fst found) e1 Hb) as Hf.
    destruct (finalUpdate w (fst (snd found)) (snd (snd found)) (fst found) e1)
      as [e2 [st | x]].
    + cbn. apply Hf.
    + cbn. destruct Hf as [_ ->]. apply Hb.
  - cbn. exact Hi.
Qed.

End FinalUpdate.

Lemma searchLoop_consistent (w : World) (plan : ResearchPlan) (depth : string)
    (todo : list SearchSpec) :
  forall i st e,
    linksConsistent (planLinksData st) ->
    match searchLoop w plan depth i todo st e with
    | (_, Ok st') =>
        linksConsistent (planLinksData st')
        /\ length (pl_searches (planLinksData st'))
           = (length (pl_searches (planLinksData st)) + length todo)%nat
    | (_, Threw _) => True
    end.
Proof.
  induction todo as [| search rest IH]; intros i st e Hpl.
  - cbn. split; [ exact Hpl | lia ].
  - cbn [searchLoop]. unfold bind.
    destruct (allParse w
                (sr_results
                   (searchOutcome w i (query search) depth (priority search))))
      eqn:Hp.
    + destruct (searchIteration_ok w plan depth i search st e Hp)
        as (t1 & t2 & t3 & tk & links & domains & Hl & E).
      rewrite E.
      match goal with
      | |- context [searchLoop w plan depth (S i) rest ?st1 ?e1] =>
          specialize (IH (S i) st1 e1
                        (pushSearch_consistent (planLinksData st) i search _
                           links domains Hl Hpl));
          destruct (searchLoop w plan depth (S i) rest st1 e1)
            as [e2 [st2 | x]]; [ | exact I ]
      end.
      destruct IH as [Hc Hlen]. split; [ exact Hc | ].
      rewrite Hlen. unfold pushSearch. cbn [planLinksData pl_searches].
      rewrite length_app. cbn. lia.
    + destruct (searchIteration_bad w plan depth i search st e Hp)
        as (t1 & tk & E).
      rewrite E. exact I.
Qed.

(** C6: every value of the snapshot that a run writes to the store has
    [total_links] equal to the sum of [links.length] over its search
    records; and in memory, after the search loop has appended the records
    of any list of searches to a snapshot for which this holds, it holds
    again, with one record more per search. *)
Theorem total_links_is_sum (w : World) (req : Request) :
  Forall rowConsistent (rowsOf (POST w req))
  /\ (forall plan depth i todo st e,
        linksConsistent (planLinksData st) ->
        match searchLoop w plan depth i todo st e with
        | (_, Ok st') =>
            linksConsistent (planLinksData st')
            /\ length (pl_searches (planLinksData st'))
               = (length (pl_searches (planLinksData st)) + length todo)%nat
        | (_, Threw _) => True
        end).
Proof.
  split.
  - destruct (POST_cases w req) as [(s & body & ->) | (topic & sid & ->)].
    + constructor.
    + apply run_rows_consistent.
  - intros plan depth i todo st e. apply searchLoop_consistent.
Qed.

(** *** Report sources and their citations *)









(** *** Recovery of a completed run *)


Lemma error_is_seen (fs : list Frame) (message step : string) :
  existsb isErrorFrame (fs ++ [Ev.error message step]) = true.
Proof. rewrite existsb_app. cbn. apply orb_true_r. Qed.


(** *** Concrete runs *)

Lemma thirdSearchThrows_healthy : Healthy thirdSearchThrows "topic".
Proof.
  constructor.
  - exists plan5. reflexivity.
  - intros i q d n rs. cbn. destruct (Nat.eqb i 2); [ discriminate | ].
    intros Hr. inversion Hr. reflexivity.
  - intros i sr t d. exists oneAnalysis. split; reflexivity.
  - intros rq. eexists. split; reflexivity.
Qed.

Lemma search_failure_is_absorbed_witness :
  let w := thirdSearchThrows in
  let r := POST w (validRequest "topic" "session" None) in
  findsNothing w "basic" 2 (mkSearchSpec 3 "q3" "web")
  /\ stepOutcome 4 (framesOf r) = Some ("completed"%string, Some 0)
  /\ (forall s, 1 <= s <= 12 ->
        exists c, stepOutcome s (framesOf r) = Some ("completed"%string, c))
  /\ callsOf r = allCalls "topic" "basic" plan5
  /\ In (Ev.status_change "complete") (framesOf r)
  /\ (forall b, status (liveView b (framesOf r)) = "complete"%string)
  /\ (forall b, Forall runningOrCompleted (updates (liveView b (framesOf r)))).
Proof.
  cbv zeta. split; [ exact I | ].
  apply (search_failure_is_absorbed thirdSearchThrows "topic" "session" None
           plan5 2 (mkSearchSpec 3 "q3" "web")).
  - reflexivity.
  - reflexivity.
  - exact thirdSearchThrows_healthy.
  - reflexivity.
  - reflexivity.
  - exact I.
Defined.

(** C1, as stated, fails on a run whose third search throws: the step is
    recorded "completed" with result count 0, by the server's frame and by
    the client, and no step is ever recorded with status "error". *)
Lemma thrown_search_is_recorded_completed :
  let r := POST thirdSearchThrows someRequest in
  tavilySearch thirdSearchThrows 2 "q3" "basic" (maxResults 3)
  = Throws (ErrorObj "boom")
  /\ stepOutcome 4 (framesOf r) = Some ("completed"%string, Some 0)
  /\ existsb completesWithError (framesOf r) = false
  /\ map ru_status
       (filter (fun u => Z.eqb (ru_step u) 4)
          (updates (liveView someBrowser (framesOf r))))
     = ["completed"%string].
Proof. vm_compute. repeat split; reflexivity. Qed.

Lemma calm_run_completed :
  completedLive (framesOf (POST calmWorld (validRequest "topic" "session" None))).
Proof.
  split; [ vm_compute; reflexivity | ].
  apply (nth_error_In _ 40). vm_compute. reflexivity.
Qed.




(** ** Further properties of the orchestrator *)

(** *** How a run ends *)

Lemma beforeReport_no_error (w : World) (topic depth : string)
    (plan : ResearchPlan) (s0 s1 s2 s3 s4 : SearchSpec)
    (a0 a1 a2 a3 a4 : AnalysisSpec) :
  ~ In TError (beforeReport w topic depth plan s0 s1 s2 s3 s4 a0 a1 a2 a3 a4).
Proof.
  unfold beforeReport, planTags, stepTags. cbn [app]. intros Hin.
  repeat (destruct Hin as [Hin | Hin]; [ discriminate | ]).
  exact Hin.
Qed.

Lemma repeat_chunk_no_error (n : nat) : ~ In TError (repeat TChunk n).
Proof.
  intros Hin. apply repeat_spec in Hin. discriminate.
Qed.

Lemma fullTags_no_error (w : World) (topic depth : string)
    (plan : ResearchPlan) (n : nat) :
  fiveAndFive plan -> ~ In TError (fullTags w topic depth plan n).
Proof.
  intros Hfive.
  destruct (fullTags_five w topic depth plan n Hfive)
    as (s0 & s1 & s2 & s3 & s4 & a0 & a1 & a2 & a3 & a4 & _ & _ & ->).
  intros Hin. apply in_app_or in Hin. destruct Hin as [Hin | Hin].
  - exact (beforeReport_no_error _ _ _ _ _ _ _ _ _ _ _ _ _ _ Hin).
  - unfold reportTags in Hin. apply in_app_or in Hin.
    destruct Hin as [Hin | Hin].
    + cbn in Hin. repeat (destruct Hin as [Hin | Hin]; [ discriminate | ]).
      exact Hin.
    + apply in_app_or in Hin. destruct Hin as [Hin | Hin].
      * exact (repeat_chunk_no_error n Hin).
      * cbn in Hin. repeat (destruct Hin as [Hin | Hin]; [ discriminate | ]).
        exact Hin.
Qed.

Lemma prefixOf_in {A : Type} (p l : list A) (x : A) :
  prefixOf p l -> In x p -> In x l.
Proof. intros [r ->] Hin. apply in_or_app. left. exact Hin. Qed.

Lemma fullTags_last (w : World) (topic depth : string) (plan : ResearchPlan)
    (n : nat) :
  exists p, fullTags w topic depth plan n = p ++ [TStatus "complete"].
Proof.
  exists (planTags topic plan
          ++ searchTags w plan depth 0 (searches plan)
          ++ analysisTags plan 0 (analyses plan)
          ++ [TStart 12; TCall CallReport; TComplete 12 "completed" None;
              TProgress 95]
          ++ repeat TChunk n ++ [TDone; TProgress 100]).
  unfold fullTags, reportTags. rewrite <- !app_assoc. reflexivity.
Qed.

(** The trace of a run ends with the error, or with the change of status to
    "complete", and has no error before its last event. *)
Lemma runShape_ending (w : World) (topic depth : string) (t : list Tag) :
  runShape w topic depth t ->
  exists p final,
    t = p ++ [final]
    /\ ~ In TError p
    /\ (final = TError \/ final = TStatus "complete").
Proof.
  unfold runShape. destruct (plannedBy w topic) as [plan |] eqn:Hp.
  - pose proof (plannedBy_fiveAndFive w topic plan Hp) as Hfive.
    intros (n & Ht).
    pose proof (fullTags_no_error w topic depth plan n Hfive) as Hno.
    destruct Ht as [-> | [-> | (p & Hpre & -> & _)]].
    + destruct (fullTags_last w topic depth plan n) as (p & Hfull).
      exists p, (TStatus "complete"). split; [ exact Hfull | ].
      split; [ | right; reflexivity ].
      intros Hin. apply Hno. rewrite Hfull. apply in_or_app. left. exact Hin.
    + do 2 eexists. split; [ reflexivity | ]. split; [ exact Hno | left; reflexivity ].
    + exists p, TError. split; [ reflexivity | ].
      split; [ | left; reflexivity ].
      intros Hin. exact (Hno (prefixOf_in _ _ _ Hpre Hin)).
  - intros ->. exists [TStart 1; TCall (CallPlan topic)], TError.
    split; [ reflexivity | ]. split; [ | left; reflexivity ].
    intros Hin. cbn in Hin.
    repeat (destruct Hin as [Hin | Hin]; [ discriminate | ]). exact Hin.
Qed.

Lemma no_error_tag_frames (fs : list Frame) :
  ~ In TError (map frameTag fs) -> existsb isErrorFrame fs = false.
Proof.
  induction fs as [| f fs IH]; intros Hno; [ reflexivity | ].
  cbn. rewrite IH.
  - destruct f; try reflexivity. exfalso. apply Hno. left. reflexivity.
  - intros Hin. apply Hno. right. exact Hin.
Qed.

Lemma frames_ending (e : Env) (p : list Tag) (final : Tag) :
  map tagOf (trace e) = p ++ [final] ->
  isFrameTag final = true ->
  exists pre f,
    frames e = pre ++ [f]
    /\ map frameTag pre = filter isFrameTag p
    /\ frameTag f = final.
Proof.
  intros Ht Hf. pose proof (frameTags_trace e) as Hm.
  rewrite Ht, filter_app in Hm. cbn [filter] in Hm. rewrite Hf in Hm.
  apply map_eq_app in Hm. destruct Hm as (pre & last & Hfs & Hpre & Hlast).
  destruct last as [| f [| g rest]]; try discriminate.
  cbn in Hlast. inversion Hlast. exists pre, f. auto.
Qed.

(** X1: whatever the adapters do, the stream of a served request is closed,
    and its last frame is either the only [error] frame of the run or the
    change of status to "complete": no frame follows an error and no run
    ends silently. *)
Theorem run_ends_with_error_or_complete (w : World) (req : Request) :
  match POST w req with
  | BadRequest s _ => s = 400
  | EventStream e =>
      closed e = true
      /\ exists pre f,
           frames e = pre ++ [f]
           /\ existsb isErrorFrame pre = false
           /\ (isErrorFrame f = true \/ f = Ev.status_change "complete")
  end.
Proof.
  destruct (POST_cases w req) as [(s & body & E) | (topic & sid & E)].
  - rewrite E. unfold POST in E.
    destruct (falsy (topic req) || falsy (sessionId req));
      [ inversion E; reflexivity | ].
    destruct (topic req), (sessionId req); inversion E; reflexivity.
  - rewrite E. split; [ apply start_closes | ].
    destruct (runShape_ending w topic (depthOf req) _
                (start_shape w topic sid (depthOf req)))
      as (p & final & Ht & Hno & Hfinal).
    destruct (frames_ending _ p final Ht) as (pre & f & Hfs & Hpre & Hf).
    { destruct Hfinal as [-> | ->]; reflexivity. }
    exists pre, f. split; [ exact Hfs | ]. split.
    + apply no_error_tag_frames. rewrite Hpre. intros Hin.
      apply filter_In in Hin. exact (Hno (proj1 Hin)).
    + destruct Hfinal as [-> | ->].
      * left. destruct f; try discriminate; try reflexivity.
        cbn in Hf. destruct data as [[] |]; discriminate.
      * right. destruct f; try discriminate.
        -- cbn in Hf. destruct data as [[] |]; discriminate.
        -- cbn in Hf. inversion Hf. reflexivity.
Qed.

(** *** Projections of the trace of a run *)

Lemma POST_stream (w : World) (req : Request) (e : Env) :
  POST w req = EventStream e ->
  exists topic0 sid,
    topic req = Some topic0
    /\ sessionId req = Some sid
    /\ truthy topic0 = true
    /\ truthy sid = true
    /\ e = runOf w topic0 sid (depthOf req).
Proof.
  unfold POST, falsy, runOf, depthOf.
  destruct (topic req) as [t |]; [ | discriminate ].
  destruct (sessionId req) as [s |];
    [ | rewrite Bool.orb_true_r; discriminate ].
  destruct (truthy t) eqn:Et; [ | discriminate ].
  destruct (truthy s) eqn:Es; [ | discriminate ].
  cbn. intros E. inversion E. exists t, s. repeat split; assumption.
Qed.

(** What a projection of the tags that ignores the error sees of a run. *)
Lemma runShape_project {X : Type} (P : Tag -> list X) (w : World)
    (topic depth : string) (t : list Tag) :
  P TError = [] ->
  runShape w topic depth t ->
  match plannedBy w topic with
  | Some plan =>
      exists n,
        prefixOf (flat_map P t) (flat_map P (fullTags w topic depth plan n))
  | None => flat_map P t = P (TStart 1) ++ P (TCall (CallPlan topic))
  end.
Proof.
  intros Herr. unfold runShape. destruct (plannedBy w topic) as [plan |].
  - intros (n & Ht). exists n.
    destruct Ht as [-> | [-> | (p & Hpre & -> & _)]].
    + apply prefixOf_refl.
    + rewrite flat_map_app. cbn [flat_map]. rewrite Herr, !app_nil_r.
      apply prefixOf_refl.
    + rewrite flat_map_app. cbn [flat_map]. rewrite Herr, !app_nil_r.
      apply prefixOf_flat_map. exact Hpre.
  - intros ->. cbn. rewrite Herr, !app_nil_r. reflexivity.
Qed.

Lemma frames_project {X : Type} (P : Tag -> list X) (Q : Frame -> list X)
    (e : Env) :
  (forall f, Q f = P (frameTag f)) ->
  (forall c, P (TCall c) = []) ->
  flat_map Q (frames e) = flat_map P (map tagOf (trace e)).
Proof.
  intros HQ HP. unfold frames.
  induction (trace e) as [| ev evs IH]; [ reflexivity | ].
  destruct ev as [u | c]; cbn [flat_map map tagOf].
  - rewrite <- IH. cbn. rewrite HQ. reflexivity.
  - rewrite HP. cbn. exact IH.
Qed.

Lemma searchCalls_tags (w : World) (plan : ResearchPlan) (depth : string)
    (todo : list SearchSpec) :
  forall i,
    flat_map tagCall (searchTags w plan depth i todo)
    = searchCalls depth i todo.
Proof.
  induction todo as [| s todo IH]; intros i; [ reflexivity | ].
  cbn [searchTags flat_map tagCall app searchCalls]. rewrite IH. reflexivity.
Qed.

Lemma analysisCalls_tags (plan : ResearchPlan) (todo : list AnalysisSpec) :
  forall i,
    flat_map tagCall (analysisTags plan i todo) = analysisCalls i todo.
Proof.
  induction todo as [| a todo IH]; intros i; [ reflexivity | ].
  cbn [analysisTags flat_map tagCall app analysisCalls]. rewrite IH.
  reflexivity.
Qed.

Lemma fullTags_calls (w : World) (topic depth : string) (plan : ResearchPlan)
    (n : nat) :
  flat_map tagCall (fullTags w topic depth plan n)
  = allCalls topic depth plan.
Proof.
  unfold fullTags, allCalls, reportTags, planTags.
  rewrite !flat_map_app, searchCalls_tags, analysisCalls_tags.
  rewrite (flat_map_repeat_nil _ TChunk n) by reflexivity.
  reflexivity.
Qed.

Lemma NoDup_prefix {A : Type} (p l : list A) :
  NoDup l -> prefixOf p l -> NoDup p.
Proof. intros Hl [r ->]. exact (NoDup_app_remove_r _ _ Hl). Qed.

Lemma prefixOf_length {A : Type} (p l : list A) :
  prefixOf p l -> (length p <= length l)%nat.
Proof. intros [r ->]. rewrite length_app. lia. Qed.

Lemma allCalls_distinct (topic depth : string) (plan : ResearchPlan) :
  fiveAndFive plan ->
  NoDup (allCalls topic depth plan)
  /\ length (allCalls topic depth plan) = 12%nat.
Proof.
  intros [Hs Ha]. unfold allCalls.
  destruct (searches plan) as [| s0 [| s1 [| s2 [| s3 [| s4 [| ? ?]]]]]];
    try discriminate.
  destruct (analyses plan) as [| a0 [| a1 [| a2 [| a3 [| a4 [| ? ?]]]]]];
    try discriminate.
  cbn [searchCalls analysisCalls app]. unfold searchCall, analysisCall.
  split; [ | reflexivity ].
  repeat (constructor;
          [ cbn [In]; intros Hin;
            repeat (destruct Hin as [Hin | Hin]; [ discriminate | ]);
            exact Hin | ]).
  constructor.
Qed.

(** X2: the adapters are called in the order of the plan and never twice:
    the calls of a run are an initial part of the sequence "plan, search 0
    to 4, analysis 0 to 4, report" (each search with the depth handed to the
    provider and the result count of its priority), so a run makes at most
    twelve calls; when planning fails the planner's call is the only one,
    and a rejected request makes none. *)
Theorem adapter_calls_follow_plan (w : World) (req : Request) :
  callsOf (POST w req) = []
  \/ exists topic0,
       topic req = Some topic0
       /\ match plannedBy w topic0 with
          | Some plan =>
              prefixOf (callsOf (POST w req))
                (allCalls topic0 (depthOf req) plan)
              /\ NoDup (callsOf (POST w req))
              /\ (length (callsOf (POST w req)) <= 12)%nat
          | None => callsOf (POST w req) = [CallPlan topic0]
          end.
Proof.
  destruct (POST w req) as [s body | e] eqn:E; [ left; reflexivity | ].
  right. destruct (POST_stream w req e E) as (t & sid & Ht & _ & _ & _ & ->).
  exists t. split; [ exact Ht | ]. cbn [callsOf]. rewrite calls_trace.
  pose proof (runShape_project tagCall w t (depthOf req) _ eq_refl
                (start_shape w t sid (depthOf req))) as Hp.
  destruct (plannedBy w t) as [plan |] eqn:Hplan.
  - destruct Hp as (n & Hp). rewrite fullTags_calls in Hp.
    destruct (allCalls_distinct t (depthOf req) plan
                (plannedBy_fiveAndFive w t plan Hplan)) as [Hnd Hlen].
    split; [ exact Hp | ]. split.
    + exact (NoDup_prefix _ _ Hnd Hp).
    + rewrite <- Hlen. exact (prefixOf_length _ _ Hp).
  - exact Hp.
Qed.

(** *** Steps start and complete in turn *)

Lemma stepMarks_trace (e : Env) :
  stepMarks (frames e) = flat_map tagMarks (map tagOf (trace e)).
Proof.
  unfold stepMarks. apply frames_project; [ | reflexivity ].
  intros f. destruct f; try reflexivity.
  cbn. destruct data as [[] |]; reflexivity.
Qed.

Lemma completionStatuses_trace (e : Env) :
  completionStatuses (frames e)
  = flat_map tagCompletion (map tagOf (trace e)).
Proof.
  unfold completionStatuses. apply frames_project; [ | reflexivity ].
  intros f. destruct f; try reflexivity.
  cbn. destruct data as [[] |]; reflexivity.
Qed.

Lemma fullTags_marks (w : World) (topic depth : string) (plan : ResearchPlan)
    (n : nat) :
  fiveAndFive plan ->
  flat_map tagMarks (fullTags w topic depth plan n) = stepsFrom 1 12
  /\ flat_map tagCompletion (fullTags w topic depth plan n)
     = repeat "completed"%string 12.
Proof.
  intros Hfive.
  destruct (fullTags_five w topic depth plan n Hfive)
    as (s0 & s1 & s2 & s3 & s4 & a0 & a1 & a2 & a3 & a4 & _ & _ & ->).
  unfold reportTags. rewrite !flat_map_app.
  rewrite !(flat_map_repeat_nil _ TChunk n) by reflexivity.
  split; reflexivity.
Qed.

Lemma Forall_prefix {A : Type} (P : A -> Prop) (p l : list A) :
  Forall P l -> prefixOf p l -> Forall P p.
Proof. intros Hl [r ->]. apply Forall_app in Hl. apply Hl. Qed.

Lemma runOf_marks (w : World) (topic sessionId depth : string) :
  prefixOf (stepMarks (frames (runOf w topic sessionId depth)))
    (stepsFrom 1 12)
  /\ Forall (fun st => st = "completed"%string)
       (completionStatuses (frames (runOf w topic sessionId depth))).
Proof.
  rewrite stepMarks_trace, completionStatuses_trace.
  pose proof (start_shape w topic sessionId depth) as Hshape.
  pose proof (runShape_project tagMarks w topic depth _ eq_refl Hshape) as Hm.
  pose proof (runShape_project tagCompletion w topic depth _ eq_refl Hshape)
    as Hc.
  destruct (plannedBy w topic) as [plan |] eqn:Hplan.
  - destruct Hm as (n & Hm). destruct Hc as (n' & Hc).
    pose proof (plannedBy_fiveAndFive w topic plan Hplan) as Hfive.
    rewrite (proj1 (fullTags_marks w topic depth plan n Hfive)) in Hm.
    rewrite (proj2 (fullTags_marks w topic depth plan n' Hfive)) in Hc.
    split; [ exact Hm | ].
    apply (Forall_prefix _ _ (repeat "completed"%string 12)); [ | exact Hc ].
    apply Forall_forall. intros x Hx. exact (repeat_spec _ _ _ Hx).
  - rewrite Hm, Hc. split; [ | constructor ].
    exists (tl (stepsFrom 1 12)). reflexivity.
Qed.

(** X3: the steps of a run are bracketed and consecutive: its [step_start]
    and [step_complete] frames are an initial part of "start 1, complete 1,
    start 2, complete 2, ..., start 12, complete 12".  No step starts before
    the one before it has completed, none is skipped or repeated, and every
    [step_complete] frame carries the status "completed". *)
Theorem steps_start_and_complete_in_turn (w : World) (req : Request) :
  prefixOf (stepMarks (framesOf (POST w req))) (stepsFrom 1 12)
  /\ Forall (fun st => st = "completed"%string)
       (completionStatuses (framesOf (POST w req))).
Proof.
  destruct (POST w req) as [s body | e] eqn:E.
  - split; [ apply prefixOf_nil | constructor ].
  - destruct (POST_stream w req e E) as (t & sid & _ & _ & _ & _ & ->).
    apply runOf_marks.
Qed.

(** *** The client shows at most one running step *)

Lemma alternates_prefix (p l : list (bool * Z)) :
  prefixOf p l ->
  forall k open, alternates k open l = true -> alternates k open p = true.
Proof.
  intros [r ->]. induction p as [| [[] s] p IH]; intros k open Hl;
    [ reflexivity | | ]; cbn in *.
  - apply Bool.andb_true_iff in Hl. destruct Hl as [Hl Hrest].
    rewrite Hl. exact (IH _ _ Hrest).
  - apply Bool.andb_true_iff in Hl. destruct Hl as [Hl Hrest].
    rewrite Hl. exact (IH _ _ Hrest).
Qed.

Lemma stepMarks_firstn (fs : list Frame) (j : nat) :
  prefixOf (stepMarks (firstn j fs)) (stepMarks fs).
Proof.
  unfold stepMarks. apply prefixOf_flat_map.
  exists (skipn j fs). symmetry. apply firstn_skipn.
Qed.

Lemma settledBefore_le (k k' : Z) (u : ResearchUpdate) :
  k <= k' -> settledBefore k u -> settledBefore k' u.
Proof. unfold settledBefore. intros Hk [Hs Hst]. split; [ lia | exact Hst ]. Qed.

Lemma completeUpdate_settled (k : Z) (description : string)
    (data : option StepData) (us : list ResearchUpdate) :
  Forall (settledBefore k) us ->
  map (completeUpdate k description data) us = us.
Proof.
  induction 1 as [| u us [Hu _] _ IH]; [ reflexivity | ].
  cbn. rewrite IH. unfold completeUpdate.
  destruct (Z.eqb_spec (ru_step u) k); [ lia | reflexivity ].
Qed.

Section OneRunningStep.

Variable b : Browser.

Lemma handleServerEvent_inOrder (h : Hook) (f : Frame) (k : Z) (open : bool) :
  stepsInOrder k open (updates (state h)) ->
  match f with
  | Ev.step_start s _ _ _ =>
      open = false -> s = k ->
      stepsInOrder k true (updates (state (handleServerEvent b h f)))
  | Ev.step_complete s _ _ _ _ =>
      open = true -> s = k ->
      stepsInOrder (k + 1) false (updates (state (handleServerEvent b h f)))
  | _ => stepsInOrder k open (updates (state (handleServerEvent b h f)))
  end.
Proof.
  intros Hin. destruct f; cbn [handleServerEvent]; try exact Hin.
  - intros -> ->. unfold stepsInOrder in *.
    eexists (updates (state h)), _. split.
    + destruct (Z.eqb k 1); [ reflexivity | ].
      destruct (Z.leb k 6); reflexivity.
    + split; [ exact Hin | ]. split; reflexivity.
  - intros -> ->. unfold stepsInOrder in *.
    destruct Hin as (done & r & Hus & Hdone & Hr & _).
    cbn [state updates setUpdates]. rewrite Hus, map_app.
    rewrite (completeUpdate_settled _ _ _ _ Hdone).
    apply Forall_app. split.
    + eapply Forall_impl; [ | exact Hdone ].
      intros u. apply settledBefore_le. lia.
    + constructor; [ | constructor ].
      cbn. unfold completeUpdate. rewrite Hr, Z.eqb_refl.
      split; cbn; [ lia | reflexivity ].
Qed.

Lemma foldFrames_inOrder (fs : list Frame) :
  forall (h : Hook) (k : Z) (open : bool),
    stepsInOrder k open (updates (state h)) ->
    alternates k open (stepMarks fs) = true ->
    exists k' open',
      stepsInOrder k' open' (updates (state (foldFrames b h fs))).
Proof.
  induction fs as [| f fs IH]; intros h k open Hin Halt.
  - exists k, open. exact Hin.
  - unfold foldFrames in *. cbn [fold_left].
    pose proof (handleServerEvent_inOrder h f k open Hin) as Hstep.
    destruct f; cbn [stepMarks flat_map app] in Halt;
      try exact (IH _ _ _ Hstep Halt).
    + cbn [alternates] in Halt.
      apply Bool.andb_true_iff in Halt. destruct Halt as [Hhead Halt].
      apply Bool.andb_true_iff in Hhead. destruct Hhead as [Hopen Hk].
      apply Z.eqb_eq in Hk. apply Bool.negb_true_iff in Hopen.
      exact (IH _ _ _ (Hstep Hopen Hk) Halt).
    + cbn [alternates] in Halt.
      apply Bool.andb_true_iff in Halt. destruct Halt as [Hhead Halt].
      apply Bool.andb_true_iff in Hhead. destruct Hhead as [Hopen Hk].
      apply Z.eqb_eq in Hk.
      exact (IH _ _ _ (Hstep Hopen Hk) Halt).
Qed.

Lemma inOrder_one_running (k : Z) (open : bool) (us : list ResearchUpdate) :
  stepsInOrder k open us -> (length (filter isRunning us) <= 1)%nat.
Proof.
  assert (Hnone : forall l, Forall (settledBefore k) l ->
                            filter isRunning l = []).
  { induction 1 as [| u l [_ Hu] _ IH]; [ reflexivity | ].
    cbn. rewrite IH. unfold isRunning. rewrite Hu. reflexivity. }
  unfold stepsInOrder. destruct open.
  - intros (done & r & -> & Hdone & _ & _).
    rewrite filter_app, (Hnone _ Hdone). cbn.
    destruct (isRunning r); cbn; lia.
  - intros Hall. rewrite (Hnone _ Hall). cbn. lia.
Qed.

End OneRunningStep.

(** X4: at every moment of a run the client shows at most one running
    step: after any number of frames of the stream of a served request have
    been handled by [handleServerEvent], starting from the state
    [startDeepSearch] sets, at most one entry of the update list has the
    status "running". *)
Theorem client_shows_one_running_step (b : Browser) (w : World)
    (req : Request) (j : nat) :
  (length
     (filter isRunning
        (updates (liveView b (firstn j (framesOf (POST w req))))))
   <= 1)%nat.
Proof.
  assert (Halt : alternates 1 false
                   (stepMarks (firstn j (framesOf (POST w req)))) = true).
  { apply (alternates_prefix _ (stepsFrom 1 12)); [ | reflexivity ].
    apply (prefixOf_trans _ (stepMarks (framesOf (POST w req))));
      [ apply stepMarks_firstn | ].
    destruct (POST w req) as [s body | e] eqn:E; [ apply prefixOf_nil | ].
    destruct (POST_stream w req e E) as (t & sid & _ & _ & _ & _ & ->).
    apply runOf_marks. }
  destruct (foldFrames_inOrder b (firstn j (framesOf (POST w req)))
              (mkHook resetState 0) 1 false (Forall_nil _) Halt)
    as (k & open & Hin).
  exact (inOrder_one_running k open _ Hin).
Qed.

(** ** The sources of the report *)

Lemma countFrom_snoc (first : Z) (n : nat) :
  countFrom first (S n) = countFrom first n ++ [first + Z.of_nat n].
Proof. unfold countFrom. rewrite seq_S, map_app. reflexivity. Qed.

Lemma countFrom_cons (first : Z) (n : nat) :
  countFrom first (S n) = first :: countFrom (first + 1) n.
Proof.
  unfold countFrom. cbn [seq map]. rewrite <- seq_shift, map_map.
  f_equal; [ lia | ]. apply map_ext. intros k. lia.
Qed.

Lemma countFrom_length (first : Z) (n : nat) : length (countFrom first n) = n.
Proof. unfold countFrom. rewrite length_map, length_seq. reflexivity. Qed.

Lemma keys_of_combine {A B : Type} (l : list A) :
  forall l' : list B, length l = length l' -> map fst (combine l l') = l.
Proof.
  induction l as [| a l IH]; intros [| b l'] Hlen; try discriminate;
    [ reflexivity | ].
  cbn. rewrite IH; [ reflexivity | ]. cbn in Hlen. lia.
Qed.

Lemma combine_snoc {A B : Type} (l : list A) :
  forall (l' : list B) (a : A) (b : B),
    length l = length l' ->
    combine (l ++ [a]) (l' ++ [b]) = combine l l' ++ [(a, b)].
Proof.
  induction l as [| x l IH]; intros [| y l'] a b Hlen; try discriminate;
    [ reflexivity | ].
  cbn. rewrite IH; [ reflexivity | ]. cbn in Hlen. lia.
Qed.

Lemma sourceMapHas_keys (m : list (string * Z)) (url : string) :
  sourceMapHas m url = true <-> In url (map fst m).
Proof.
  unfold sourceMapHas. rewrite existsb_exists. split.
  - intros (kv & Hin & Heq). apply String.eqb_eq in Heq. subst url.
    apply in_map. exact Hin.
  - intros Hin. apply in_map_iff in Hin. destruct Hin as (kv & Heq & Hin).
    exists kv. split; [ exact Hin | ]. apply String.eqb_eq. exact Heq.
Qed.

Lemma numbered_keys (c : Citations) :
  numbered c -> map fst (sourceMap c) = sourceUrls c.
Proof.
  intros [Hm _]. rewrite Hm. apply keys_of_combine.
  unfold sourceUrls. rewrite length_map, countFrom_length. reflexivity.
Qed.

Lemma addSource_collects (title url : string) (relevance : Q)
    (offered : list string) (c : Citations) :
  numbered c -> collects offered c ->
  numbered (addSource title url relevance c)
  /\ collects (offered ++ [url]) (addSource title url relevance c).
Proof.
  intros Hn [Hnd Hiff]. pose proof (numbered_keys c Hn) as Hkeys.
  unfold addSource.
  destruct (truthy url) eqn:Ht; cbn [andb].
  - destruct (sourceMapHas (sourceMap c) url) eqn:Hhas; cbn [negb].
    + split; [ exact Hn | ]. split; [ exact Hnd | ].
      intros u. rewrite Hiff, in_app_iff. cbn [In].
      apply sourceMapHas_keys in Hhas. rewrite Hkeys in Hhas.
      apply Hiff in Hhas. split.
      * intros [Hu Htu]. auto.
      * intros [[Hu | [<- | []]] Htu]; [ auto | exact Hhas ].
    + assert (Hnew : ~ In url (sourceUrls c)).
      { intros Hin. rewrite <- Hkeys in Hin.
        apply sourceMapHas_keys in Hin. congruence. }
      destruct Hn as [Hm Hc]. split; [ split | split ].
      * cbn [sourceMap allSources]. unfold sourceUrls in *.
        cbn [allSources]. rewrite map_app, length_app. cbn [map length].
        rewrite Nat.add_1_r, countFrom_snoc, combine_snoc.
        -- rewrite <- Hm. cbn [src_url]. rewrite Hc. unfold len.
           rewrite (Z.add_comm 1). reflexivity.
        -- rewrite length_map, countFrom_length. reflexivity.
      * cbn [citationCounter allSources]. rewrite Hc. unfold len.
        rewrite length_app. cbn [length]. lia.
      * unfold sourceUrls in *. cbn [allSources]. rewrite map_app.
        cbn [map src_url]. apply NoDup_app; [ exact Hnd | | ].
        -- constructor; [ intros [] | constructor ].
        -- intros u Hu [<- | []]. exact (Hnew Hu).
      * intros u. unfold sourceUrls in *. cbn [allSources].
        rewrite map_app, !in_app_iff. cbn [map src_url In]. rewrite Hiff.
        split.
        -- intros [[Hu Htu] | [<- | []]]; auto.
        -- intros [[Hu | [<- | []]] Htu]; auto.
  - split; [ exact Hn | ]. split; [ exact Hnd | ].
    intros u. rewrite Hiff, in_app_iff. cbn [In]. split.
    + intros [Hu Htu]. auto.
    + intros [[Hu | [<- | []]] Htu]; [ auto | congruence ].
Qed.

Lemma fold_addSource_collects {X : Type} (title url : X -> string)
    (relevance : X -> Q) (xs : list X) :
  forall offered c,
    numbered c -> collects offered c ->
    let c' :=
      fold_left (fun c x => addSource (title x) (url x) (relevance x) c) xs c in
    numbered c' /\ collects (offered ++ map url xs) c'.
Proof.
  induction xs as [| x xs IH]; intros offered c Hn Hc; cbn.
  - rewrite app_nil_r. auto.
  - destruct (addSource_collects (title x) (url x) (relevance x) offered c
                Hn Hc) as [Hn' Hc'].
    specialize (IH _ _ Hn' Hc'). cbn in IH. rewrite <- app_assoc in IH.
    exact IH.
Qed.

Lemma collectSources_collects (sr : list SearchResult)
    (ar : list AnalysisEntry) :
  numbered (collectSources sr ar)
  /\ collects (offeredUrls sr ar) (collectSources sr ar).
Proof.
  unfold collectSources, offeredUrls.
  assert (Hsearch :
    forall l offered c,
      numbered c -> collects offered c ->
      numbered (fold_left addSearchSources l c)
      /\ collects (offered ++ flat_map (fun r => map wr_url (sr_results r)) l)
           (fold_left addSearchSources l c)).
  { induction l as [| r l IH]; intros offered c Hn Hc; cbn [fold_left flat_map].
    - rewrite app_nil_r. auto.
    - destruct (fold_addSource_collects wr_title wr_url (fun _ => 8 # 10)
                  (sr_results r) offered c Hn Hc) as [Hn' Hc'].
      rewrite app_assoc. apply IH; assumption. }
  assert (Hanalysis :
    forall l offered c,
      numbered c -> collects offered c ->
      numbered (fold_left addAnalysisSources l c)
      /\ collects
           (offered
            ++ flat_map (fun a => map ks_url (key_sources (ae_result a))) l)
           (fold_left addAnalysisSources l c)).
  { induction l as [| a l IH]; intros offered c Hn Hc; cbn [fold_left flat_map].
    - rewrite app_nil_r. auto.
    - destruct (fold_addSource_collects ks_title ks_url
                  (fun s => orNum (ks_relevance s) (7 # 10))
                  (key_sources (ae_result a)) offered c Hn Hc) as [Hn' Hc'].
      rewrite app_assoc. apply IH; assumption. }
  assert (H0 : numbered (mkCitations [] 1 [])) by (split; reflexivity).
  assert (C0 : collects [] (mkCitations [] 1 [])).
  { split; [ constructor | ]. intros u. cbn. tauto. }
  destruct (Hsearch sr [] _ H0 C0) as [Hn Hc]. cbn [app] in Hc.
  exact (Hanalysis ar _ _ Hn Hc).
Qed.

(** X5: the list of sources handed to the report is free of duplicates: it
    holds exactly the non-empty URLs found among the results of the searches
    and the key sources of the analyses, each of them once; the map from
    URL to citation number numbers the list from 1 in order, and the counter
    is one more than the length of the list. *)
Theorem sources_are_collected_once (searchResults0 : list SearchResult)
    (analysisResults0 : list AnalysisEntry) :
  let c := collectSources searchResults0 analysisResults0 in
  NoDup (sourceUrls c)
  /\ (forall url,
        In url (sourceUrls c)
        <-> In url (offeredUrls searchResults0 analysisResults0)
            /\ truthy url = true)
  /\ sourceMap c = combine (sourceUrls c) (countFrom 1 (length (allSources c)))
  /\ citationCounter c = len (allSources c) + 1.
Proof.
  destruct (collectSources_collects searchResults0 analysisResults0)
    as [[Hm Hc] [Hnd Hiff]].
  cbv zeta. auto.
Qed.

(** *** The citations of the final update *)

Lemma toCitations_outcome (w : World) (l : list Source) (index : Z)
    (e : Env) :
  fst (toCitations w index l e) = e
  /\ match snd (toCitations w index l e) with
     | Ok _ => forallb (parses w) (map src_url l) = true
     | Threw x =>
         forallb (parses w) (map src_url l) = false
         /\ x = ErrorObj "Invalid URL"
     end.
Proof.
  split; [ apply toCitations_env | ].
  revert index e. induction l as [| source rest IH]; intros index e.
  - reflexivity.
  - cbn [toCitations map forallb].
    unfold bind at 1. unfold newURLhostname at 1.
    destruct (hostname w (src_url source)) as [h |] eqn:Eh.
    2: { cbn. unfold parses. rewrite Eh. auto. }
    replace (parses w (src_url source)) with true
      by (unfold parses; rewrite Eh; reflexivity).
    cbn [ret]. unfold bind at 1. unfold categorizeSource, newURLhostname, bind.
    rewrite Eh. cbn [ret]. specialize (IH (index + 1) e).
    destruct (toCitations w (index + 1) rest e) as [e1 [cs | x]];
      cbn [snd andb] in *; exact IH.
Qed.

(** X6: the citations written with the final update are numbered from 1 in
    the order of the sources and keep their titles and URLs, each with the
    host name of its URL as domain; and they are all or nothing: when the
    URL of one source is not accepted by [new URL], no citation list is
    built and "Invalid URL" is thrown instead.  Either way neither the
    stream nor the store is touched. *)
Theorem citations_are_numbered_or_rejected (w : World) (l : list Source)
    (index : Z) (e : Env) :
  fst (toCitations w index l e) = e
  /\ match snd (toCitations w index l e) with
     | Ok citations =>
         forallb (parses w) (map src_url l) = true
         /\ map cs_id citations = countFrom (index + 1) (length l)
         /\ map cs_title citations = map src_title l
         /\ map cs_url citations = map src_url l
         /\ map (fun c => Some (cs_domain c)) citations
            = map (fun s => hostname w (src_url s)) l
     | Threw x =>
         forallb (parses w) (map src_url l) = false
         /\ x = ErrorObj "Invalid URL"
     end.
Proof.
  split; [ apply toCitations_env | ].
  revert index e. induction l as [| source rest IH]; intros index e.
  - cbn. auto.
  - cbn [toCitations map forallb length].
    unfold bind at 1. unfold newURLhostname at 1.
    destruct (hostname w (src_url source)) as [h |] eqn:Eh.
    2: { cbn. unfold parses. rewrite Eh. auto. }
    replace (parses w (src_url source)) with true
      by (unfold parses; rewrite Eh; reflexivity).
    cbn [ret]. unfold bind at 1. unfold categorizeSource, newURLhostname, bind.
    rewrite Eh. cbn [ret]. specialize (IH (index + 1) e).
    destruct (toCitations w (index + 1) rest e) as [e1 [cs | x]];
      cbn [snd andb] in *; [ | exact IH ].
    destruct IH as (Hp & Hid & Htitle & Hurl & Hdom).
    split; [ exact Hp | ].
    cbn [map cs_id cs_title cs_url cs_domain].
    rewrite Htitle, Hurl, Hdom, Hid.
    rewrite countFrom_cons. repeat split.
Qed.

(** ** The hook reads the stream *)

Lemma append_cons (ch : Ascii.ascii) (a c : string) :
  (String ch a ++ c)%string = String ch (a ++ c)%string.
Proof. reflexivity. Qed.

Lemma append_assoc (a c d : string) :
  ((a ++ c) ++ d)%string = (a ++ c ++ d)%string.
Proof.
  induction a as [| ch a IH]; [ reflexivity | ].
  rewrite !append_cons, IH. reflexivity.
Qed.

Lemma append_empty_r (a : string) : (a ++ EmptyString)%string = a.
Proof.
  induction a as [| ch a IH]; [ reflexivity | ].
  rewrite append_cons, IH. reflexivity.
Qed.

Lemma last_app_nonempty {A : Type} (l l' : list A) (d : A) :
  l' <> [] -> last (l ++ l') d = last l' d.
Proof.
  intros Hne. induction l as [| a l IH]; [ reflexivity | ].
  cbn [app last]. destruct (l ++ l') eqn:E; [ | exact IH ].
  apply app_eq_nil in E. destruct E as [_ E]. contradiction.
Qed.

Lemma split_nonempty (s : string) : split s <> [].
Proof.
  destruct s as [| c s]; cbn; [ discriminate | ].
  destruct (Ascii.eqb c _); [ discriminate | ].
  destruct (split s); discriminate.
Qed.

(** Splitting a text that continues: the complete lines stay, the last piece
    is continued. *)
Lemma split_app (a c : string) :
  split (a ++ c)
  = removelast (split a) ++ split (last (split a) EmptyString ++ c).
Proof.
  induction a as [| ch a IH]; [ reflexivity | ].
  rewrite append_cons. cbn [split].
  destruct (Ascii.eqb ch (Ascii.ascii_of_nat 10)) eqn:Ech.
  - rewrite IH. pose proof (split_nonempty a) as Hne.
    destruct (split a) as [| p ps]; [ contradiction | reflexivity ].
  - rewrite IH. pose proof (split_nonempty a) as Hne.
    destruct (split a) as [| p [| p2 ps]]; [ contradiction | | ].
    + cbn [removelast last app]. rewrite append_cons. cbn [split].
      rewrite Ech. reflexivity.
    + reflexivity.
Qed.

Lemma orStr_empty (s : string) : orStr s EmptyString = s.
Proof.
  unfold orStr. destruct (String.eqb_spec s EmptyString) as [-> |];
    reflexivity.
Qed.

Section ReadingWhole.

Variable b : Browser.
Variable parseEvent : string -> option Frame.

Lemma readChunk_afterText (text value : string) (h : Hook) :
  readChunk b parseEvent (afterText b parseEvent text h) value
  = afterText b parseEvent (text ++ value) h.
Proof.
  unfold readChunk, afterText. cbn [buffer hook].
  rewrite (split_app text value), orStr_empty.
  rewrite last_app_nonempty by apply split_nonempty.
  rewrite removelast_app by apply split_nonempty.
  rewrite fold_left_app. reflexivity.
Qed.

Lemma readChunks_afterText (chunks : list string) :
  forall text h,
    fold_left (readChunk b parseEvent) chunks (afterText b parseEvent text h)
    = afterText b parseEvent (text ++ joined chunks) h.
Proof.
  induction chunks as [| value chunks IH]; intros text h; cbn [fold_left joined fold_right].
  - rewrite append_empty_r. reflexivity.
  - rewrite readChunk_afterText, IH, append_assoc. reflexivity.
Qed.

End ReadingWhole.

(** X7: the way the transport cuts the body into chunks does not matter:
    after any sequence of chunks the hook has handled, in order, exactly the
    complete lines of the text the chunks make up, and its buffer holds the
    text after the last newline.  The loop ends without looking at the
    buffer, so an event that is not followed by a newline is never
    handled. *)
Theorem chunking_does_not_matter (b : Browser)
    (parseEvent : string -> option Frame) (chunks : list string) (h : Hook) :
  readStream b parseEvent chunks h
  = mkReader (last (split (joined chunks)) EmptyString)
      (fold_left (handleLine b parseEvent)
         (removelast (split (joined chunks))) h).
Proof.
  unfold readStream.
  exact (readChunks_afterText b parseEvent chunks EmptyString h).
Qed.

(** *** What the server wrote is what the hook reads *)

Lemma split_line (line rest : string) :
  singleLine line = true ->
  split (line ++ newline ++ rest) = line :: split rest.
Proof.
  induction line as [| c line IH]; intros Hs.
  - reflexivity.
  - cbn [singleLine] in Hs. apply Bool.andb_true_iff in Hs.
    destruct Hs as [Hc Hs]. apply Bool.negb_true_iff in Hc.
    rewrite append_cons. cbn [split]. rewrite Hc, (IH Hs). reflexivity.
Qed.

Lemma split_event (text rest : string) :
  singleLine text = true ->
  split (("data: " ++ text ++ newline ++ newline) ++ rest)
  = ("data: " ++ text)%string :: EmptyString :: split rest.
Proof.
  intros Hs.
  assert (Hd : singleLine ("data: " ++ text) = true) by exact Hs.
  rewrite !append_assoc, <- (append_assoc "data: " text).
  rewrite (split_line _ _ Hd). reflexivity.
Qed.

Lemma frames_sent (e : Env) : frames e = map payload (sent e).
Proof.
  unfold frames, sent. induction (trace e) as [| ev evs IH]; [ reflexivity | ].
  destruct ev as [u | c]; cbn; rewrite IH; reflexivity.
Qed.

Section RoundTrip.

Variable b : Browser.
Variable parseEvent : string -> option Frame.
Variable stringify : Update -> string.

Lemma handleLine_event (u : Update) (h : Hook) :
  readsBack stringify parseEvent u ->
  handleLine b parseEvent h ("data: " ++ stringify u)
  = handleServerEvent b h (payload u).
Proof.
  intros [_ Hp]. unfold handleLine.
  replace (String.prefix "data: " ("data: " ++ stringify u)) with true
    by (destruct (stringify u); reflexivity).
  change (sliceFrom 6 ("data: " ++ stringify u)) with (stringify u).
  rewrite Hp. reflexivity.
Qed.

Lemma afterText_wire (us : list Update) :
  Forall (readsBack stringify parseEvent) us ->
  forall h,
    afterText b parseEvent (wire stringify us) h
    = mkReader EmptyString (foldFrames b h (map payload us)).
Proof.
  unfold afterText, wire.
  induction 1 as [| u us Hu _ IH]; intros h; [ reflexivity | ].
  cbn [map joined fold_right].
  rewrite (split_event (stringify u) _ (proj1 Hu)).
  pose proof (split_nonempty
                (joined
                   (map (fun u0 =>
                           ("data: " ++ stringify u0 ++ newline ++ newline)%string)
                      us))) as Hne.
  specialize (IH (handleServerEvent b h (payload u))).
  destruct (split _) as [| p ps] eqn:E; [ contradiction | ].
  cbn [removelast last fold_left] in *.
  rewrite (handleLine_event u h Hu).
  unfold handleLine at 2. cbn [String.prefix].
  exact IH.
Qed.

End RoundTrip.

(** X8: what the route wrote is what the hook reads.  When the text of every
    event of a run (as [JSON.stringify] gives it) is a single line that
    parses back to the event, then however the body is cut into chunks,
    [startDeepSearch] leaves the hook in the state of having handled the
    frames of the run, one by one and in order, from the state it resets
    to. *)
Theorem stream_is_read_back (b : Browser)
    (parseEvent : string -> option Frame) (stringify : Update -> string)
    (w : World) (topic sessionId depth : string) (chunks : list string)
    (s : DeepSearchState) :
  let e := runOf w topic sessionId depth in
  Forall (readsBack stringify parseEvent) (sent e) ->
  joined chunks = wire stringify (sent e) ->
  state (startDeepSearch b parseEvent (Body chunks None) (mkHook s 0))
  = liveView b (frames e).
Proof.
  cbv zeta. intros Hback Hchunks.
  unfold startDeepSearch, liveView, readStream. cbn [reads].
  pose proof (readChunks_afterText b parseEvent chunks EmptyString
                (mkHook resetState 0)) as Hread.
  change (afterText b parseEvent EmptyString (mkHook resetState 0))
    with (mkReader EmptyString (mkHook resetState 0)) in Hread.
  rewrite Hread. change (EmptyString ++ joined chunks)%string with (joined chunks).
  rewrite Hchunks, (afterText_wire b parseEvent stringify _ Hback).
  cbn [hook]. rewrite frames_sent. reflexivity.
Qed.

Lemma stream_is_read_back_witness :
  let e := runOf plannerThrows "topic" "session" "basic" in
  let chunks := ["data: st"; "art"; newline; newline ++ "data: error" ++ newline;
                 newline]%string in
  Forall (readsBack toyStringify toyParse) (sent e)
  /\ joined chunks = wire toyStringify (sent e)
  /\ state (startDeepSearch someBrowser toyParse (Body chunks None)
              (mkHook initialState 0))
     = liveView someBrowser (frames e).
Proof.
  cbv zeta.
  assert (Hback : Forall (readsBack toyStringify toyParse)
                    (sent (runOf plannerThrows "topic" "session" "basic"))).
  { vm_compute. repeat constructor. }
  assert (Hchunks :
    joined ["data: st"; "art"; newline;
            newline ++ "data: error" ++ newline; newline]%string
    = wire toyStringify (sent (runOf plannerThrows "topic" "session" "basic"))).
  { vm_compute. reflexivity. }
  split; [ exact Hback | ]. split; [ exact Hchunks | ].
  exact (stream_is_read_back someBrowser toyParse toyStringify plannerThrows
           "topic" "session" "basic" _ initialState Hback Hchunks).
Defined.

(** ** The history of the message row *)

Lemma setInsertAll_spec (l : list string) :
  forall seen,
    NoDup seen ->
    NoDup (setInsertAll seen l)
    /\ (forall d, In d (setInsertAll seen l) <-> In d seen \/ In d l).
Proof.
  induction l as [| x l IH]; intros seen Hnd; cbn [setInsertAll].
  - split; [ exact Hnd | ]. intros d. cbn. tauto.
  - destruct (existsb (String.eqb x) seen) eqn:Ex.
    + destruct (IH seen Hnd) as [Hn Hiff]. split; [ exact Hn | ].
      intros d. rewrite Hiff. cbn [In].
      apply existsb_exists in Ex. destruct Ex as (y & Hy & Exy).
      apply String.eqb_eq in Exy. subst y.
      split; [ tauto | ]. intros [Hd | [<- | Hd]]; auto.
    + assert (Hx : ~ In x seen).
      { intros Hin. apply Bool.not_true_iff_false in Ex. apply Ex.
        apply existsb_exists. exists x. split; [ exact Hin | ].
        apply String.eqb_refl. }
      assert (Hnd' : NoDup (seen ++ [x])).
      { apply NoDup_app; [ exact Hnd | | ].
        - constructor; [ intros [] | constructor ].
        - intros y Hy [<- | []]. exact (Hx Hy). }
      destruct (IH _ Hnd') as [Hn Hiff]. split; [ exact Hn | ].
      intros d. rewrite Hiff, in_app_iff. cbn [In]. tauto.
Qed.

Lemma uniqueSpread_spec (l : list string) :
  NoDup (uniqueSpread l) /\ (forall d, In d (uniqueSpread l) <-> In d l).
Proof.
  unfold uniqueSpread. destruct (setInsertAll_spec l [] (NoDup_nil _))
    as [Hn Hiff].
  split; [ exact Hn | ]. intros d. rewrite Hiff. cbn. tauto.
Qed.

Lemma analysisCompletion_five (i : nat) (plan : ResearchPlan) :
  fiveAndFive plan -> analysisCompletion i plan = 20 * (Z.of_nat i + 1).
Proof.
  intros [_ Ha]. unfold analysisCompletion, len. rewrite Ha.
  change (Z.of_nat 5) with 5.
  apply Math_round_int.
  unfold Qeq, inject_Z, Qdiv, Qmult, Qinv. cbn [Qnum Qden Pos.mul]. lia.
Qed.

Section LinkValues.

Variable w : World.

Lemma mapM_toLink_values (rs : list WebResult) :
  allParse w rs = true ->
  forall e, exists links t,
    mapM (toLink w) rs e
    = (mkEnv (trace e) (rows e) t (writes e) (closed e), Ok links)
    /\ length links = length rs
    /\ map (fun l => Some (lk_domain l)) links
       = map (fun r => hostname w (wr_url r)) rs
    /\ map (fun l => mkTitledUrl (lk_title l) (lk_url l)) links
       = map (fun r => mkTitledUrl (wr_title r) (wr_url r)) rs.
Proof.
  induction rs as [| r rs IH]; intros Hp e.
  - exists [], (ticks e). destruct e; auto.
  - cbn in Hp. apply andb_true_iff in Hp. destruct Hp as [Hr Hrs].
    unfold parses in Hr.
    cbn [mapM]. unfold bind at 1. unfold toLink at 1, newURLhostname, bind.
    destruct (hostname w (wr_url r)) as [h |] eqn:Eh; [ | discriminate ].
    cbn.
    destruct (IH Hrs (mkEnv (trace e) (rows e) (S (ticks e)) (writes e) (closed e)))
      as (links & t & E & Hl & Hd & Ht).
    unfold bind. rewrite E. cbn.
    eexists _, t. split; [ reflexivity | ]. cbn.
    rewrite Hl, Hd, Ht, Eh. auto.
Qed.

Lemma mapM_hostname_values (rs : list WebResult) :
  allParse w rs = true ->
  forall e, exists domains,
    mapM (fun r => newURLhostname w (wr_url r)) rs e = (e, Ok domains)
    /\ map Some domains = map (fun r => hostname w (wr_url r)) rs.
Proof.
  induction rs as [| r rs IH]; intros Hp e.
  - exists []. split; reflexivity.
  - cbn in Hp. apply andb_true_iff in Hp. destruct Hp as [Hr Hrs].
    unfold parses in Hr.
    cbn [mapM]. unfold bind at 1. unfold newURLhostname at 1.
    destruct (hostname w (wr_url r)) as [h |] eqn:Eh; [ | discriminate ].
    cbn. destruct (IH Hrs e) as (ds & E & Hd).
    unfold bind. rewrite E. cbn. eexists. split; [ reflexivity | ].
    cbn. rewrite Hd, Eh. reflexivity.
Qed.

Lemma map_Some_inj {A : Type} (l : list A) :
  forall l', map Some l = map Some l' -> l = l'.
Proof.
  induction l as [| a l IH]; intros [| a' l'] H; try discriminate;
    [ reflexivity | ].
  cbn in H. inversion H. f_equal. apply IH. assumption.
Qed.

Variable plan : ResearchPlan.
Variable depth : string.

(** The iteration of [searchIteration_ok], with what the links and the new
    domains are: the results, in order, under the host names of their
    URLs. *)
Lemma searchIteration_links (i : nat) (search : SearchSpec) (st : Locals)
    (e : Env) :
  let result := searchOutcome w i (query search) depth (priority search) in
  allParse w (sr_results result) = true ->
  exists t1 t2 t3 tk links,
    length links = length (sr_results result)
    /\ map (fun l => mkTitledUrl (lk_title l) (lk_url l)) links
       = map (fun r => mkTitledUrl (wr_title r) (wr_url r))
           (sr_results result)
    /\ searchIteration w plan depth i search st e
       = (mkEnv
            (trace e
               ++ [Sent (mkUpdate (searchStartFrame i search) t1);
                   Called (searchCall depth i search);
                   Sent (mkUpdate (searchCompleteFrame i search result) t2);
                   Sent (mkUpdate
                           (Ev.progress (searchProgress (Z.of_nat i + 2) plan))
                           t3)])
            (persisted w (assistantMessageId st) (writes e) (rows e)
               (searchUpdates plan i st result
                  (pushSearch (planLinksData st) i search result links
                     (map lk_domain links))))
            tk
            (writesAfter (assistantMessageId st) (writes e))
            (closed e),
          Ok (mkLocals (assistantMessageId st)
                (searchProgress (Z.of_nat i + 2) plan) (currentStatus st)
                (pushSearch (planLinksData st) i search result links
                   (map lk_domain links))
                (searchResults st ++ [result]) (analysisResults st))).
Proof.
  intros result Hp.
  unfold searchIteration.
  unfold bind at 1. unfold sendUpdate at 1. unfold bind at 1. cbn [tick enqueue record].
  cbn [fst snd trace rows ticks writes closed].
  unfold bind at 1. rewrite executeWebSearch_runs.
  fold result.
  cbn [fst snd trace rows ticks writes closed].
  unfold bind at 1.
  match goal with
  | |- context [mapM (toLink w) (sr_results result) ?e0] =>
      destruct (mapM_toLink_values (sr_results result) Hp e0)
        as (links & t & E & Hl & Hd & Ht)
  end.
  rewrite E. cbn [fst snd trace rows ticks writes closed].
  unfold bind at 1.
  match goal with
  | |- context [mapM (fun r => newURLhostname w (wr_url r)) _ ?e0] =>
      destruct (mapM_hostname_values (sr_results result) Hp e0)
        as (domains & E2 & Hd2)
  end.
  rewrite E2.
  assert (Hdom : domains = map lk_domain links).
  { apply map_Some_inj. rewrite Hd2, <- Hd, map_map. reflexivity. }
  subst domains.
  unfold bind, sendUpdate, enqueue, record, tick, bind, ret.
  cbn [fst snd trace rows ticks writes closed].
  unfold persisted, writesAfter, updatable.
  destruct (assistantMessageId st) as [id |]; [ destruct (truthy id) | ];
    cbn [updateMessageInDatabase fst snd trace rows ticks writes closed];
    do 4 eexists; exists links; (split; [ exact Hl | ]);
    (split; [ exact Ht | ]);
    rewrite <- !app_assoc; cbn [app]; reflexivity.
Qed.

End LinkValues.

Lemma heldBy_longer (pl pl' : PlanLinks) (m : Message) :
  prefixOf (pl_searches pl) (pl_searches pl') ->
  prefixOf (pl_analyses pl) (pl_analyses pl') ->
  heldBy pl m -> heldBy pl' m.
Proof.
  intros Hs Ha (Hn & pl1 & Hl & Hs1 & Ha1). split; [ exact Hn | ].
  exists pl1. split; [ exact Hl | ].
  split; eapply prefixOf_trans; eassumption.
Qed.

Lemma StronglySorted_snoc {A : Type} (R : A -> A -> Prop) (l : list A)
    (x : A) :
  StronglySorted R l -> Forall (fun y => R y x) l ->
  StronglySorted R (l ++ [x]).
Proof.
  induction 1 as [| a l Hs IH Ha]; intros Hx; cbn.
  - repeat constructor.
  - apply Forall_cons_iff in Hx. destruct Hx as [Hax Hx].
    constructor; [ exact (IH Hx) | ].
    apply Forall_app. split; [ exact Ha | ]. repeat constructor. exact Hax.
Qed.

Lemma rev_head_in {A : Type} (l : list A) (x : A) (rest : list A) :
  rev l = x :: rest -> In x l.
Proof.
  intros Hr. apply in_rev. rewrite Hr. left. reflexivity.
Qed.

(** A guarded update that writes a further snapshot keeps the history of
    the row in order. *)
Lemma persisted_history (w : World) (id : option string) (n : nat)
    (rs : list Message) (u : Updates) (pl pl' : PlanLinks)
    (st : string) (pr : Z) :
  up_research_plan_links u = Some pl' ->
  up_research_status u = Some st ->
  up_research_progress u = Some pr ->
  prefixOf (pl_searches pl) (pl_searches pl') ->
  prefixOf (pl_analyses pl) (pl_analyses pl') ->
  recordsNumbered pl' ->
  domainsExact pl' ->
  stageOf (Some st) (Some pr) pl' ->
  rowHistory rs ->
  Forall (heldBy pl) rs ->
  rowHistory (persisted w id n rs u)
  /\ (st <> "complete"%string -> Forall (heldBy pl') (persisted w id n rs u)).
Proof.
  intros Hul Hus Hup Hps Hpa Hrec Hdom Hstage [Hrows Hsorted] Hheld.
  assert (Hheld' : Forall (heldBy pl') rs).
  { eapply Forall_impl; [ | exact Hheld ].
    intros m. apply heldBy_longer; assumption. }
  unfold persisted.
  destruct (updatable id); [ | split; [ split | ]; auto ].
  destruct (rev rs) as [| current older] eqn:Hrev;
    [ split; [ split | ]; auto | ].
  destruct (updateOk w n); [ | split; [ split | ]; auto ].
  pose proof (rev_head_in _ _ _ Hrev) as Hin.
  assert (Hcur : rowOfRun current)
    by (rewrite Forall_forall in Hrows; exact (Hrows _ Hin)).
  assert (Hlinks : research_plan_links (applyUpdates u current) = Some pl')
    by (cbn; rewrite Hul; reflexivity).
  assert (Hstatus : research_status (applyUpdates u current) = Some st)
    by (cbn; rewrite Hus; reflexivity).
  assert (Hprogress : research_progress (applyUpdates u current) = Some pr)
    by (cbn; rewrite Hup; reflexivity).
  split; [ split | ].
  - apply Forall_app. split; [ exact Hrows | ].
    constructor; [ | constructor ]. split; [ exact (proj1 Hcur) | ].
    exists pl'. rewrite Hstatus, Hprogress. auto.
  - apply StronglySorted_snoc; [ exact Hsorted | ].
    eapply Forall_impl; [ | exact Hheld' ].
    intros m Hm. exists pl'. auto.
  - intros Hne. apply Forall_app. split; [ exact Hheld' | ].
    constructor; [ | constructor ]. split.
    + rewrite Hstatus. congruence.
    + exists pl'. split; [ exact Hlinks | ]. split; apply prefixOf_refl.
Qed.

Lemma held_unfinished (pl : PlanLinks) (rs : list Message) :
  Forall (heldBy pl) rs ->
  Forall (fun m => research_status m <> Some "complete"%string) rs.
Proof.
  apply Forall_impl. intros m [Hn _]. exact Hn.
Qed.

Section Walking.

Variable w : World.
Variable plan : ResearchPlan.
Variable depth : string.
Hypothesis Hfive : fiveAndFive plan.

Lemma searchIteration_walking (i : nat) (search : SearchSpec) (st : Locals)
    (e : Env) :
  (i < 5)%nat ->
  walking i 0 "searching" e st ->
  match searchIteration w plan depth i search st e with
  | (e', Ok st') => walking (S i) 0 "searching" e' st'
  | (e', Threw _) => unfinished (rows e')
  end.
Proof.
  intros Hi (Hst & Hs & Ha & Hrate & Hrec & Hdom & Hhist & Hheld).
  destruct (allParse w
              (sr_results
                 (searchOutcome w i (query search) depth (priority search))))
    eqn:Hp.
  - destruct (searchIteration_links w plan depth i search st e Hp)
      as (t1 & t2 & t3 & tk & links & Hl & _ & E).
    rewrite E. clear E.
    set (result := searchOutcome w i (query search) depth (priority search))
      in *.
    set (pl' := pushSearch (planLinksData st) i search result links
                  (map lk_domain links)).
    assert (Hps : prefixOf (pl_searches (planLinksData st)) (pl_searches pl'))
      by (eexists; reflexivity).
    assert (Hpa : prefixOf (pl_analyses (planLinksData st)) (pl_analyses pl'))
      by apply prefixOf_refl.
    assert (Hlen : length (pl_searches pl') = S i).
    { unfold pl', pushSearch. cbn [pl_searches]. rewrite length_app, Hs.
      cbn. lia. }
    assert (Hrec' : recordsNumbered pl').
    { destruct Hrec as (Hsteps & Hasteps & Hfs & Hfa).
      split; [ | split; [ exact Hasteps | split; [ | exact Hfa ] ] ].
      - rewrite Hlen. unfold pl', pushSearch. cbn [pl_searches].
        rewrite map_app, Hsteps, Hs, countFrom_snoc. cbn [map sl_step].
        rewrite (Z.add_comm 2). reflexivity.
      - unfold pl', pushSearch. cbn [pl_searches].
        apply Forall_app. split; [ exact Hfs | ].
        constructor; [ | constructor ]. cbn [sl_status sl_result_count sl_links].
        split; [ reflexivity | ]. unfold len. rewrite Hl. reflexivity. }
    assert (Hdom' : domainsExact pl').
    { destruct Hdom as [Hnd Hiff]. unfold domainsExact, pl', pushSearch.
      cbn [unique_domains]. unfold searchDomains. cbn [pl_searches].
      destruct (uniqueSpread_spec
                  (unique_domains (planLinksData st) ++ map lk_domain links))
        as [Hn Hu].
      split; [ exact Hn | ].
      intros d. rewrite Hu, flat_map_app, !in_app_iff. cbn [flat_map sl_links].
      rewrite app_nil_r. fold (searchDomains (planLinksData st)).
      rewrite Hiff. tauto. }
    assert (Hstage : stageOf (Some (currentStatus st))
                       (Some (searchProgress (Z.of_nat i + 2) plan)) pl').
    { right. left. rewrite Hst, (searchProgress_five _ plan Hfive).
      unfold len. rewrite Hlen.
      assert (Ha' : length (pl_analyses pl') = 0%nat) by exact Ha.
      rewrite Ha'.
      assert (Hr' : completion_rate pl' = 0)
        by (unfold pl', pushSearch; cbn [completion_rate]; rewrite Hrate;
            reflexivity).
      rewrite Hr'. repeat split; try lia; try reflexivity.
      f_equal. lia. }
    destruct (persisted_history w (assistantMessageId st) (writes e) (rows e)
                (searchUpdates plan i st result pl') (planLinksData st) pl'
                (currentStatus st) (searchProgress (Z.of_nat i + 2) plan)
                eq_refl eq_refl eq_refl Hps Hpa Hrec' Hdom' Hstage Hhist Hheld)
      as [Hhist' Hheld'].
    unfold walking.
    cbn [currentStatus planLinksData rows].
    fold pl'.
    split; [ exact Hst | ]. split; [ exact Hlen | ]. split; [ exact Ha | ].
    split; [ exact Hrate | ]. split; [ exact Hrec' | ].
    split; [ exact Hdom' | ]. split; [ exact Hhist' | ].
    apply Hheld'. rewrite Hst. discriminate.
  - destruct (searchIteration_bad w plan depth i search st e Hp)
      as (t1 & tk & E).
    rewrite E. exact (conj Hhist (held_unfinished _ _ Hheld)).
Qed.

Lemma searchLoop_walking (todo : list SearchSpec) :
  forall i st e,
    (i + length todo = 5)%nat ->
    walking i 0 "searching" e st ->
    match searchLoop w plan depth i todo st e with
    | (e', Ok st') => walking 5 0 "searching" e' st'
    | (e', Threw _) => unfinished (rows e')
    end.
Proof.
  induction todo as [| search rest IH]; intros i st e Hlen Hw.
  - cbn in *. replace i with 5%nat in Hw by lia. exact Hw.
  - cbn [searchLoop]. unfold bind. cbn [length] in Hlen.
    pose proof (searchIteration_walking i search st e ltac:(lia) Hw) as Hstep.
    destruct (searchIteration w plan depth i search st e) as [e1 [st1 | x]].
    + exact (IH (S i) st1 e1 ltac:(lia) Hstep).
    + exact Hstep.
Qed.

Lemma analysisIteration_walking (i : nat) (analysis : AnalysisSpec)
    (st : Locals) (e : Env) :
  (i < 5)%nat ->
  walking 5 i "analyzing" e st ->
  match analysisIteration w plan i analysis st e with
  | (e', Ok st') => walking 5 (S i) "analyzing" e' st'
  | (e', Threw _) => unfinished (rows e')
  end.
Proof.
  intros Hi (Hst & Hs & Ha & Hrate & Hrec & Hdom & Hhist & Hheld).
  destruct (analysisAnswer w i (searchResults st) analysis) as [r |] eqn:Hr.
  - destruct (analysisIteration_ok w plan i analysis st e r Hr)
      as (t1 & t2 & t3 & tk & E).
    rewrite E. clear E.
    set (pl' := pushAnalysis plan (planLinksData st) i analysis r).
    assert (Hps : prefixOf (pl_searches (planLinksData st)) (pl_searches pl'))
      by apply prefixOf_refl.
    assert (Hpa : prefixOf (pl_analyses (planLinksData st)) (pl_analyses pl'))
      by (eexists; reflexivity).
    assert (Hlen : length (pl_analyses pl') = S i).
    { unfold pl', pushAnalysis. cbn [pl_analyses]. rewrite length_app, Ha.
      cbn. lia. }
    assert (Hslen : length (pl_searches pl') = 5%nat) by exact Hs.
    assert (Hr' : completion_rate pl' = 20 * Z.of_nat (S i)).
    { unfold pl', pushAnalysis. cbn [completion_rate].
      rewrite (analysisCompletion_five i plan Hfive). lia. }
    assert (Hrec' : recordsNumbered pl').
    { destruct Hrec as (Hsteps & Hasteps & Hfs & Hfa).
      split; [ exact Hsteps | split; [ | split; [ exact Hfs | ] ] ].
      - rewrite Hlen. unfold pl', pushAnalysis. cbn [pl_analyses].
        rewrite map_app, Hasteps, Ha, countFrom_snoc. reflexivity.
      - unfold pl', pushAnalysis. cbn [pl_analyses].
        apply Forall_app. split; [ exact Hfa | ].
        constructor; [ reflexivity | constructor ]. }
    assert (Hdom' : domainsExact pl') by exact Hdom.
    assert (Hstage : stageOf (Some (currentStatus st))
                       (Some (analysisProgress i plan)) pl').
    { right. right. left. rewrite Hst, (analysisProgress_five i plan Hfive).
      unfold len. rewrite Hlen, Hslen, Hr'.
      repeat split; try lia; try reflexivity. f_equal. lia. }
    destruct (persisted_history w (assistantMessageId st) (writes e) (rows e)
                (analysisUpdates plan i st analysis r) (planLinksData st) pl'
                (currentStatus st) (analysisProgress i plan)
                eq_refl eq_refl eq_refl Hps Hpa Hrec' Hdom' Hstage Hhist Hheld)
      as [Hhist' Hheld'].
    unfold walking.
    cbn [currentStatus planLinksData rows].
    fold pl'.
    split; [ exact Hst | ]. split; [ exact Hslen | ]. split; [ exact Hlen | ].
    split; [ exact Hr' | ]. split; [ exact Hrec' | ].
    split; [ exact Hdom' | ]. split; [ exact Hhist' | ].
    apply Hheld'. rewrite Hst. discriminate.
  - destruct (analysisIteration_bad w plan i analysis st e Hr)
      as (t1 & tk & x & E).
    rewrite E. exact (conj Hhist (held_unfinished _ _ Hheld)).
Qed.

Lemma analysisLoop_walking (todo : list AnalysisSpec) :
  forall i st e,
    (i + length todo = 5)%nat ->
    walking 5 i "analyzing" e st ->
    match analysisLoop w plan i todo st e with
    | (e', Ok st') => walking 5 5 "analyzing" e' st'
    | (e', Threw _) => unfinished (rows e')
    end.
Proof.
  induction todo as [| analysis rest IH]; intros i st e Hlen Hw.
  - cbn in *. replace i with 5%nat in Hw by lia. exact Hw.
  - cbn [analysisLoop]. unfold bind. cbn [length] in Hlen.
    pose proof (analysisIteration_walking i analysis st e ltac:(lia) Hw)
      as Hstep.
    destruct (analysisIteration w plan i analysis st e) as [e1 [st1 | x]].
    + exact (IH (S i) st1 e1 ltac:(lia) Hstep).
    + exact Hstep.
Qed.

End Walking.

Section WalkingRun.

Variable w : World.
Variable topic sessionId depth : string.

Lemma investigate_walking :
  match investigate w topic sessionId depth startEnv with
  | (e', Ok found) => walking 5 5 "analyzing" e' (fst found)
  | (e', Threw _) => unfinished (rows e')
  end.
Proof.
  pose proof (plannedBy_fiveAndFive w topic) as Hplanned.
  unfold plannedBy in Hplanned.
  unfold investigate, createResearchPlan, generateObject.
  unfold bind, sendUpdate, enqueue, logCall, record, tick, bind, await.
  cbn [fst snd trace rows ticks writes closed startEnv app].
  destruct (generatePlan w topic (clock w 0)) as [plan | x];
    [ | cbn; split; [ split | ]; constructor ].
  unfold ret.
  destruct (ResearchPlanSchema plan); [ | cbn; split; [ split | ]; constructor ].
  specialize (Hplanned plan eq_refl).
  cbn [fst snd trace rows ticks writes closed startEnv app].
  match goal with
  | |- context [insertAssistantMessage w ?row ?e0] =>
      match row with
      | context [Some ?links0] =>
          match type of links0 with
          | PlanLinks =>
              assert (Hins :
                exists e1,
                  insertAssistantMessage w row e0 = (e1, Ok (insertMessage w))
                  /\ rowHistory (rows e1)
                  /\ Forall (heldBy links0) (rows e1));
              [ unfold insertAssistantMessage;
                destruct (insertMessage w) as [id |]; eexists;
                (split; [ reflexivity | ]); cbn [rows app]
              | destruct Hins as (e1 & -> & Hhist & Hheld) ]
          end
      end
  end.
  { split; [ split | ].
    - constructor; [ | constructor ]. split; [ discriminate | ].
      eexists. split; [ reflexivity | ].
      split; [ repeat split; constructor | ].
      split; [ split; [ constructor | intros d; cbn; tauto ] | ].
      left. repeat split.
    - repeat constructor.
    - constructor; [ | constructor ]. split; [ discriminate | ].
      eexists. split; [ reflexivity | ]. split; apply prefixOf_refl. }
  { split; [ split | ]; constructor. }
  match goal with
  | |- context [searchLoop w plan depth 0 (searches plan) ?st0 e1] =>
      assert (Hw0 : walking 0 0 "searching" e1 st0);
      [ unfold walking; cbn;
        repeat (split; [ first [ reflexivity | assumption ] | ])
      | pose proof (searchLoop_walking w plan depth Hplanned (searches plan)
                      0 st0 e1 (proj1 Hplanned) Hw0) as Hs;
        destruct (searchLoop w plan depth 0 (searches plan) st0 e1)
          as [e2 [st1 | x1]]; [ | exact Hs ] ]
  end.
  { split; [ repeat split; constructor | ].
    split; [ split; [ constructor | intros d; cbn; tauto ] | ].
    split; [ exact Hhist | exact Hheld ]. }
  match goal with
  | |- context [analysisLoop w plan 0 (analyses plan) ?st1' e2] =>
      assert (Hw1 : walking 5 0 "analyzing" e2 st1')
        by (destruct Hs as (_ & Hrest); split; [ reflexivity | exact Hrest ]);
      pose proof (analysisLoop_walking w plan Hplanned (analyses plan)
                    0 st1' e2 (proj2 Hplanned) Hw1) as Ha;
      destruct (analysisLoop w plan 0 (analyses plan) st1' e2)
        as [e3 [st2 | x2]]; [ | exact Ha ]
  end.
  destruct (reportPhase_runs w topic st2 e3) as (new & tk & n & r & E & R).
  rewrite E. destruct r as [report | x3].
  - cbn [fst snd]. exact Ha.
  - cbn [rows]. destruct Ha as (_ & _ & _ & _ & _ & _ & Hh & Hd).
    exact (conj Hh (held_unfinished _ _ Hd)).
Qed.

Lemma finalUpdate_walking (content : string) (cites : Citations)
    (st : Locals) (e : Env) :
  walking 5 5 "analyzing" e st ->
  rowHistory (rows (fst (finalUpdate w content cites st e))).
Proof.
  intros (Hst & Hs & Ha & Hrate & Hrec & Hdom & Hhist & Hheld).
  unfold finalUpdate.
  destruct (assistantMessageId st) as [id |] eqn:Eid; [ | exact Hhist ].
  destruct (truthy id) eqn:Et; [ | exact Hhist ].
  unfold bind at 1.
  pose proof (toCitations_env w (allSources cites) 0 e) as Hc.
  destruct (toCitations w 0 (allSources cites) e) as [e1 [cs | x]];
    cbn [fst] in Hc; subst e1; [ | exact Hhist ].
  unfold bind, ret.
  cbn [updateMessageInDatabase fst snd trace rows ticks writes closed
       planLinksData].
  set (pl' := mkPlanLinks (plan_id (planLinksData st))
                (created_at (planLinksData st))
                (pl_searches (planLinksData st))
                (pl_analyses (planLinksData st))
                (total_links (planLinksData st))
                (unique_domains (planLinksData st)) 100).
  assert (Hstage : stageOf (Some "complete"%string) (Some 100) pl').
  { right. right. right. unfold len. cbn [pl' pl_searches pl_analyses].
    rewrite Hs, Ha. repeat split. }
  pose proof (proj1 (persisted_history w (Some id) (writes e) (rows e)
                       (finalUpdates content st cs) (planLinksData st) pl'
                       "complete" 100 eq_refl eq_refl eq_refl
                       (prefixOf_refl _) (prefixOf_refl _) Hrec Hdom Hstage
                       Hhist Hheld)) as Hp.
  unfold persisted in Hp. cbn [updatable] in Hp. rewrite Et in Hp.
  exact Hp.
Qed.

(** The values the row takes in a run, in order. *)
Lemma run_history : rowHistory (rows (runOf w topic sessionId depth)).
Proof.
  unfold runOf, start, tryFinally, tryCatch, research.
  unfold sendUpdate, bind, tick, enqueue, record.
  pose proof investigate_walking as Hi.
  destruct (investigate w topic sessionId depth startEnv)
    as [e1 [found | x]].
  - pose proof (finalUpdate_walking (fst (snd found)) (snd (snd found))
                  (fst found) e1 Hi) as Hf.
    destruct (finalUpdate w (fst (snd found)) (snd (snd found)) (fst found) e1)
      as [e2 [st | x]]; cbn in *; exact Hf.
  - cbn. exact (proj1 Hi).
Qed.

End WalkingRun.

Lemma POST_history (w : World) (req : Request) :
  rowHistory (rowsOf (POST w req)).
Proof.
  destruct (POST w req) as [s body | e] eqn:E.
  - split; constructor.
  - destruct (POST_stream w req e E) as (t & sid & _ & _ & _ & _ & ->).
    apply run_history.
Qed.

(** X9: every value the message row takes during a run carries well-formed
    records: the search records are those of steps 2, 3, ... and the
    analysis records those of steps 7, 8, ..., in order and without gaps;
    every record has the status "completed"; and the result count of a
    search record is the number of its links. *)
Theorem persisted_records_are_numbered (w : World) (req : Request) :
  Forall
    (fun m =>
       exists pl,
         research_plan_links m = Some pl
         /\ map sl_step (pl_searches pl)
            = countFrom 2 (length (pl_searches pl))
         /\ map al_step (pl_analyses pl)
            = countFrom 7 (length (pl_analyses pl))
         /\ Forall (fun r => sl_status r = "completed"%string
                             /\ sl_result_count r = len (sl_links r))
              (pl_searches pl)
         /\ Forall (fun a => al_status a = "completed"%string)
              (pl_analyses pl))
    (rowsOf (POST w req)).
Proof.
  destruct (POST_history w req) as [Hrows _].
  eapply Forall_impl; [ | exact Hrows ].
  intros m (_ & pl & Hl & Hrec & _). exists pl. split; [ exact Hl | exact Hrec ].
Qed.

(** X10: in every value of the row, [unique_domains] is exactly the set of
    the domains of the links recorded so far: it has no duplicate, every
    domain of a recorded link is in it, and nothing else is. *)
Theorem unique_domains_are_those_of_the_links (w : World) (req : Request) :
  Forall
    (fun m =>
       exists pl,
         research_plan_links m = Some pl
         /\ NoDup (unique_domains pl)
         /\ (forall d, In d (unique_domains pl) <-> In d (searchDomains pl)))
    (rowsOf (POST w req)).
Proof.
  destruct (POST_history w req) as [Hrows _].
  eapply Forall_impl; [ | exact Hrows ].
  intros m (_ & pl & Hl & _ & Hdom & _). exists pl.
  split; [ exact Hl | exact Hdom ].
Qed.

(** X11: status, progress, completion rate and the numbers of records go
    together in every value of the row.  It is "planning" at 10 with no
    record; or "searching" at 7 (s + 1) with s = 1..5 search records and no
    analysis; or "analyzing" at 70 + 5 a with the five searches and
    a = 1..5 analysis records, the completion rate being 20 a; or "complete"
    at 100 with all ten records and a completion rate of 100. *)
Theorem persisted_stage_matches_records (w : World) (req : Request) :
  Forall
    (fun m =>
       exists pl,
         research_plan_links m = Some pl
         /\ stageOf (research_status m) (research_progress m) pl)
    (rowsOf (POST w req)).
Proof.
  destruct (POST_history w req) as [Hrows _].
  eapply Forall_impl; [ | exact Hrows ].
  intros m (_ & pl & Hl & _ & _ & Hstage). exists pl.
  split; [ exact Hl | exact Hstage ].
Qed.

(** X12: the row never loses a record: of any two values it takes during a
    run, the later one holds the search and analysis records of the earlier
    one as an initial part of its own, and the earlier one is not
    "complete".  So "complete" is written at most once, as the last
    value. *)
Theorem persisted_records_only_grow (w : World) (req : Request) :
  StronglySorted
    (fun m1 m2 =>
       research_status m1 <> Some "complete"%string
       /\ exists pl1 pl2,
            research_plan_links m1 = Some pl1
            /\ research_plan_links m2 = Some pl2
            /\ prefixOf (pl_searches pl1) (pl_searches pl2)
            /\ prefixOf (pl_analyses pl1) (pl_analyses pl2))
    (rowsOf (POST w req)).
Proof.
  destruct (POST_history w req) as [_ Hsorted].
  induction Hsorted as [| m rs _ IH Hall]; constructor; [ exact IH | ].
  eapply Forall_impl; [ | exact Hall ].
  intros m2 (pl2 & Hl2 & Hn & pl1 & Hl1 & Hs & Ha).
  split; [ exact Hn | ]. exists pl1, pl2. auto.
Qed.

Lemma continues_progress (m1 m2 : Message) :
  rowOfRun m1 -> rowOfRun m2 -> continues m1 m2 ->
  progressOf m1 <= progressOf m2 /\ completionOf m1 <= completionOf m2.
Proof.
  intros (_ & pl1 & Hl1 & _ & _ & Hst1) (_ & pl2 & Hl2 & _ & _ & Hst2)
         (pl2' & Hl2' & Hn & pl1' & Hl1' & Hs & Ha).
  rewrite Hl2 in Hl2'. inversion Hl2'; subst pl2'.
  rewrite Hl1 in Hl1'. inversion Hl1'; subst pl1'.
  apply prefixOf_length in Hs. apply prefixOf_length in Ha.
  unfold progressOf, completionOf. rewrite Hl1, Hl2.
  unfold stageOf, len in *.
  destruct Hst1 as [(S1 & P1 & ?) | [(S1 & P1 & ?) | [(S1 & P1 & ?) | (S1 & _)]]];
    [ | | | congruence ];
    destruct Hst2 as [(S2 & P2 & ?) | [(S2 & P2 & ?) | [(S2 & P2 & ?) | (S2 & P2 & ?)]]];
    rewrite P1, P2; lia.
Qed.

Lemma StronglySorted_map_in {A B : Type} (R : A -> A -> Prop)
    (R' : B -> B -> Prop) (f : A -> B) (l : list A) :
  StronglySorted R l ->
  (forall x y, In x l -> In y l -> R x y -> R' (f x) (f y)) ->
  StronglySorted R' (map f l).
Proof.
  induction 1 as [| a l Hs IH Ha]; intros Himp; cbn; constructor.
  - apply IH. intros x y Hx Hy. apply Himp; right; assumption.
  - apply Forall_map. rewrite Forall_forall in *. intros y Hy.
    apply Himp; [ left; reflexivity | right; exact Hy | exact (Ha y Hy) ].
Qed.

(** X13: what is persisted never goes back: along the values the row takes
    during a run, neither [research_progress] nor the completion rate of
    the snapshot decreases. *)
Theorem persisted_progress_never_decreases (w : World) (req : Request) :
  StronglySorted Z.le (map progressOf (rowsOf (POST w req)))
  /\ StronglySorted Z.le (map completionOf (rowsOf (POST w req))).
Proof.
  destruct (POST_history w req) as [Hrows Hsorted].
  rewrite Forall_forall in Hrows.
  split; apply (StronglySorted_map_in continues Z.le _ _ Hsorted);
    intros x y Hx Hy Hc;
    apply (continues_progress x y (Hrows x Hx) (Hrows y Hy) Hc).
Qed.

(** *** Recovery from any value of the row *)

(** X14: recovery from any value the row takes during a run succeeds and
    shows the steps that were recorded, and only those: step 1, then one
    step per search record and one per analysis record under the numbers
    they had live (2, 3, ... and 7, 8, ...), then step 12 when the row is
    "complete" and its content is not empty.  All of them are shown as
    "completed"; a step that was running when the row was written is not
    shown at all. *)
Theorem recovery_lists_the_recorded_steps (b : Browser) (w : World)
    (req : Request) (h : Hook) :
  Forall
    (fun m =>
       let r := recoverFromDatabase b (Some m) h in
       exists pl,
         research_plan_links m = Some pl
         /\ fst r = true
         /\ map ru_step (updates (state (snd r)))
            = 1 :: countFrom 2 (length (pl_searches pl))
                ++ countFrom 7 (length (pl_analyses pl))
                ++ (if String.eqb (optStr (research_status m)) "complete"
                       && truthy (content m)
                    then [12] else [])
         /\ Forall (fun u => ru_status u = "completed"%string)
              (updates (state (snd r)))
         /\ planLinks (state (snd r)) = Some pl)
    (rowsOf (POST w req)).
Proof.
  destruct (POST_history w req) as [Hrows _].
  eapply Forall_impl; [ | exact Hrows ].
  intros m (Hplan & pl & Hl & (Hsteps & Hasteps & Hfs & Hfa) & _ & _).
  cbv zeta. exists pl. split; [ exact Hl | ].
  unfold recoverFromDatabase. rewrite Hl.
  destruct (research_plan_col m) as [p |]; [ | contradiction ].
  cbn [fst snd state updates planLinks].
  split; [ reflexivity | ]. split; [ | split; [ | reflexivity ] ].
  - cbn [app map ru_step]. f_equal.
    rewrite !map_app, !map_map. cbn [recoveredSearch recoveredAnalysis ru_step].
    rewrite <- Hsteps, <- Hasteps. f_equal. f_equal.
    destruct (String.eqb (optStr (research_status m)) "complete"
              && truthy (content m)); reflexivity.
  - cbn [app]. constructor; [ reflexivity | ].
    apply Forall_app. split.
    { apply Forall_map. eapply Forall_impl; [ | exact Hfs ].
      intros r [Hr _]. exact Hr. }
    apply Forall_app. split.
    { apply Forall_map. eapply Forall_impl; [ | exact Hfa ].
      intros a Ha. exact Ha. }
    destruct (String.eqb (optStr (research_status m)) "complete"
              && truthy (content m)); repeat constructor.
Qed.

(** *** The final value and the error *)

Lemma finalUpdate_threw (w : World) (content : string) (cites : Citations)
    (st : Locals) (e e' : Env) (x : Exn) :
  finalUpdate w content cites st e = (e', Threw x) ->
  e' = e
  /\ x = ErrorObj "Invalid URL"
  /\ forallb (parses w) (map src_url (allSources cites)) = false.
Proof.
  unfold finalUpdate. destruct (assistantMessageId st) as [id |];
    [ | discriminate ].
  destruct (truthy id); [ | discriminate ].
  unfold bind.
  destruct (toCitations_outcome w (allSources cites) 0 e) as [Hc Hv].
  destruct (toCitations w 0 (allSources cites) e) as [e1 [cs | y]];
    cbn [fst snd] in *; subst e1.
  - discriminate.
  - intros Hx. inversion Hx; subst. destruct Hv as [Hp ->]. auto.
Qed.

Section FinalValue.

Variable w : World.
Variable topic sessionId depth : string.

Lemma run_complete_or_error :
  existsb isErrorFrame (frames (runOf w topic sessionId depth)) = false
  \/ Forall (fun m => research_status m <> Some "complete"%string)
       (rows (runOf w topic sessionId depth)).
Proof.
  unfold runOf, start, tryFinally, tryCatch, research.
  unfold sendUpdate, bind, tick, enqueue, record.
  pose proof (investigate_walking w topic sessionId depth) as Hi.
  destruct (plannedBy w topic) as [plan |] eqn:Hp.
  2: { destruct (investigate_unplanned w topic sessionId depth Hp)
         as (t1 & tk & x & E).
       rewrite E. right. cbn. constructor. }
  destruct (investigate_planned w topic sessionId depth plan Hp)
    as (n & new & T & R).
  destruct (investigate w topic sessionId depth startEnv)
    as [e1 [found | x]]; cbn [fst snd trace startEnv app] in T, R.
  - destruct (finalUpdate_trace w (fst (snd found)) (snd (snd found))
                (fst found) e1) as [Tf _].
    destruct (finalUpdate w (fst (snd found)) (snd (snd found)) (fst found) e1)
      as [e2 [st | x]] eqn:Ef; cbn [fst snd] in Tf.
    + left. cbn [fst snd close ret].
      apply no_error_tag_frames.
      match goal with
      | |- ~ In TError (map frameTag (frames ?e0)) =>
          rewrite (frameTags_trace e0)
      end.
      unfold close. cbn [trace]. rewrite Tf, T, R. intros Hin.
      apply filter_In in Hin.
      exact (fullTags_no_error w topic depth plan n
               (plannedBy_fiveAndFive w topic plan Hp) (proj1 Hin)).
    + right. cbn [fst snd close rows].
      destruct (finalUpdate_threw _ _ _ _ _ _ _ Ef) as [-> _].
      destruct Hi as (_ & _ & _ & _ & _ & _ & _ & Hheld).
      exact (held_unfinished _ _ Hheld).
  - right. cbn [fst snd close rows]. exact (proj2 Hi).
Qed.

End FinalValue.

(** X15: the row is marked "complete" only by a run that sent no error:
    either the frames of the run hold no [error] frame, or no value the row
    took has the status "complete".  A run that fails, even after the whole
    report was streamed, leaves the row at the stage of its last recorded
    step. *)
Theorem complete_is_persisted_only_without_error (w : World) (req : Request) :
  existsb isErrorFrame (framesOf (POST w req)) = false
  \/ Forall (fun m => research_status m <> Some "complete"%string)
       (rowsOf (POST w req)).
Proof.
  destruct (POST w req) as [s body | e] eqn:E; [ left; reflexivity | ].
  destruct (POST_stream w req e E) as (t & sid & _ & _ & _ & _ & ->).
  apply run_complete_or_error.
Qed.

(** *** A source that cannot be cited *)

Lemma finalUpdate_rejects (w : World) (content : string) (cites : Citations)
    (st : Locals) (e : Env) (id : string) :
  assistantMessageId st = Some id ->
  truthy id = true ->
  forallb (parses w) (map src_url (allSources cites)) = false ->
  finalUpdate w content cites st e = (e, Threw (ErrorObj "Invalid URL")).
Proof.
  intros Hid Ht Hbad. unfold finalUpdate. rewrite Hid, Ht. unfold bind.
  destruct (toCitations_outcome w (allSources cites) 0 e) as [Hc Hv].
  destruct (toCitations w 0 (allSources cites) e) as [e1 [cs | y]];
    cbn [fst snd] in *; subst e1.
  - congruence.
  - destruct Hv as [_ ->]. reflexivity.
Qed.

Lemma fullTags_one_report (w : World) (topic depth : string)
    (plan : ResearchPlan) (n : nat) :
  fiveAndFive plan ->
  exists p,
    fullTags w topic depth plan n
    = p ++ [TDone; TProgress 100; TStatus "complete"]
    /\ ~ In TDone p.
Proof.
  intros Hfive.
  destruct (fullTags_five w topic depth plan n Hfive)
    as (s0 & s1 & s2 & s3 & s4 & a0 & a1 & a2 & a3 & a4 & _ & _ & ->).
  exists (beforeReport w topic depth plan s0 s1 s2 s3 s4 a0 a1 a2 a3 a4
          ++ [TStart 12; TCall CallReport; TComplete 12 "completed" None;
              TProgress 95]
          ++ repeat TChunk n).
  split; [ unfold reportTags; rewrite <- !app_assoc; reflexivity | ].
  intros Hin. apply in_app_or in Hin. destruct Hin as [Hin | Hin].
  - unfold beforeReport, planTags, stepTags in Hin. cbn [app] in Hin.
    repeat (destruct Hin as [Hin | Hin]; [ discriminate | ]). exact Hin.
  - apply in_app_or in Hin. destruct Hin as [Hin | Hin].
    + cbn in Hin. repeat (destruct Hin as [Hin | Hin]; [ discriminate | ]).
      exact Hin.
    + apply repeat_spec in Hin. discriminate.
Qed.

Lemma reportsUnparseable_tag (w : World) (f : Frame) :
  reportsUnparseable w f = true -> frameTag f = TDone.
Proof. destruct f; try discriminate. reflexivity. Qed.

Section StraySource.

Variable w : World.
Variable topic sessionId depth : string.

Lemma run_with_stray_source :
  Healthy w topic ->
  updatable (insertMessage w) = true ->
  existsb (reportsUnparseable w) (frames (runOf w topic sessionId depth))
  = true ->
  (exists fs fullReport n sources,
     frames (runOf w topic sessionId depth)
     = fs ++ [Ev.report_complete fullReport n sources; Ev.progress 100;
              Ev.status_change "complete";
              Ev.error "Invalid URL" "Unknown"])
  /\ Forall (fun m => research_status m <> Some "complete"%string)
       (rows (runOf w topic sessionId depth)).
Proof.
  intros Hh Hins. destruct (plan_ok w topic Hh) as (plan & Hp).
  unfold runOf, start, tryFinally, tryCatch, research.
  unfold sendUpdate, bind, tick, enqueue, record.
  pose proof (investigate_walking w topic sessionId depth) as Hwalk.
  pose proof (investigate_between w topic sessionId depth) as Hbetween.
  destruct (investigate_planned w topic sessionId depth plan Hp)
    as (n & new & T & R).
  destruct (investigate w topic sessionId depth startEnv)
    as [e1 [found | x]]; cbn [fst snd trace startEnv app] in T, R.
  2: { destruct R as [_ Hn]. contradiction. }
  destruct Hbetween as ((Hid & _) & _ & pre & t1 & t2 & t3 & Htrace).
  destruct (fullTags_one_report w topic depth plan n
              (plannedBy_fiveAndFive w topic plan Hp)) as (p & Hfull & Hnone).
  assert (Hpre : map tagOf pre = p).
  { rewrite T in Htrace. rewrite Htrace, map_app in R. cbn [map tagOf] in R.
    rewrite Hfull in R.
    change (frameTag (payload (mkUpdate ?f ?t))) with (frameTag f) in R.
    cbn [payload frameTag] in R. exact (app_inv_tail _ _ _ R). }
  assert (Hframes :
    frames e1
    = flat_map sentFrame pre
      ++ [Ev.report_complete (fst (snd found))
            (len (allSources (snd (snd found))))
            (allSources (snd (snd found)));
          Ev.progress 100; Ev.status_change "complete"]).
  { unfold frames. rewrite Htrace, flat_map_app. reflexivity. }
  assert (Hquiet : existsb (reportsUnparseable w) (flat_map sentFrame pre)
                   = false).
  { apply Bool.not_true_iff_false. intros Hex.
    apply existsb_exists in Hex. destruct Hex as (f & Hin & Hf).
    apply Hnone. rewrite <- Hpre.
    apply reportsUnparseable_tag in Hf.
    apply in_flat_map in Hin. destruct Hin as (ev & Hev & Hfe).
    destruct ev as [u | c]; [ | destruct Hfe ].
    destruct Hfe as [<- | []].
    apply in_map_iff. exists (Sent u). split; [ exact Hf | exact Hev ]. }
  destruct (finalUpdate w (fst (snd found)) (snd (snd found)) (fst found) e1)
    as [e2 r] eqn:Ef.
  intros Hbad.
  assert (Hsources :
    forallb (parses w) (map src_url (allSources (snd (snd found)))) = false).
  { destruct (forallb (parses w) (map src_url (allSources (snd (snd found)))))
      eqn:Hall; [ exfalso | reflexivity ].
    assert (Hrest : forall tail,
               existsb (reportsUnparseable w) tail = false ->
               existsb (reportsUnparseable w) (frames e1 ++ tail) = false).
    { intros tail Htail. rewrite Hframes, !existsb_app, Hquiet, Htail.
      cbn. rewrite Hall. reflexivity. }
    destruct (finalUpdate_trace w (fst (snd found)) (snd (snd found))
                (fst found) e1) as [Tf _].
    rewrite Ef in Tf. cbn [fst] in Tf.
    destruct r as [st | y]; unfold frames, close in Hbad;
      cbn [fst snd trace ret] in Hbad.
    - rewrite Tf in Hbad. fold (frames e1) in Hbad.
      rewrite <- (app_nil_r (frames e1)), (Hrest [] eq_refl) in Hbad.
      discriminate.
    - rewrite ?Tf, ?flat_map_app in Hbad. fold (frames e1) in Hbad.
      cbn [flat_map sentFrame payload app] in Hbad.
      rewrite (Hrest [Ev.error (messageOr y "Unknown error occurred")
                        "Unknown"] eq_refl) in Hbad.
      discriminate. }
  destruct (insertMessage w) as [id |] eqn:Eid; [ | discriminate ].
  rewrite (finalUpdate_rejects w _ _ _ e1 id Hid Hins Hsources) in Ef.
  inversion Ef; subst e2 r. cbn [fst snd messageOr]. unfold close.
  cbn [trace rows].
  split.
  - unfold frames. cbn [trace]. rewrite flat_map_app. fold (frames e1).
    rewrite Hframes. cbn [flat_map sentFrame payload app].
    rewrite <- ?app_assoc. cbn [app]. eauto.
  - destruct Hwalk as (_ & _ & _ & _ & _ & _ & _ & Hheld).
    exact (held_unfinished _ _ Hheld).
Qed.

End StraySource.

(** X16: a source that cannot be cited fails the run after the report.  In
    a world whose adapters behave and whose store created the row with an
    id that passes the guard [if (assistantMessageId)] (a non-empty
    string), when the [report_complete] frame of a run lists a source whose
    URL [new URL] rejects (an analysis may name any string as the URL of a
    key source), the run still streams the whole report and the change of
    status to "complete", then ends with the error "Invalid URL": the final
    update is never made, and no value of the row is "complete". *)
Theorem unparseable_source_fails_after_the_report (w : World)
    (topic sessionId : string) (depth : option string) :
  truthy topic = true ->
  truthy sessionId = true ->
  Healthy w topic ->
  updatable (insertMessage w) = true ->
  let r := POST w (validRequest topic sessionId depth) in
  existsb (reportsUnparseable w) (framesOf r) = true ->
  (exists fs fullReport n sources,
     framesOf r
     = fs ++ [Ev.report_complete fullReport n sources; Ev.progress 100;
              Ev.status_change "complete";
              Ev.error "Invalid URL" "Unknown"])
  /\ Forall (fun m => research_status m <> Some "complete"%string) (rowsOf r).
Proof.
  intros Ht Hs Hh Hins. cbv zeta.
  rewrite (POST_valid w topic sessionId depth Ht Hs).
  cbn [framesOf rowsOf]. apply run_with_stray_source; assumption.
Qed.

Lemma straySourceWorld_healthy : Healthy straySourceWorld "topic".
Proof.
  constructor.
  - exists plan5. reflexivity.
  - intros i q d n rs. cbn. intros Hr. inversion Hr. reflexivity.
  - intros i sr t d. exists strayAnalysis. split; reflexivity.
  - intros rq. eexists. split; reflexivity.
Qed.

Lemma unparseable_source_fails_after_the_report_witness :
  let r := POST straySourceWorld (validRequest "topic" "session" None) in
  existsb (reportsUnparseable straySourceWorld) (framesOf r) = true
  /\ (exists fs fullReport n sources,
        framesOf r
        = fs ++ [Ev.report_complete fullReport n sources; Ev.progress 100;
                 Ev.status_change "complete";
                 Ev.error "Invalid URL" "Unknown"])
  /\ Forall (fun m => research_status m <> Some "complete"%string) (rowsOf r).
Proof.
  cbv zeta.
  assert (Hbad :
    existsb (reportsUnparseable straySourceWorld)
      (framesOf (POST straySourceWorld (validRequest "topic" "session" None)))
    = true) by (vm_compute; reflexivity).
  split; [ exact Hbad | ].
  apply (unparseable_source_fails_after_the_report straySourceWorld
           "topic" "session" None).
  - reflexivity.
  - reflexivity.
  - exact straySourceWorld_healthy.
  - reflexivity.
  - exact Hbad.
Defined.

(** ** Failures that abort a run *)

Ltac destroy_todo todo Hk :=
  destruct todo as [| s0 todo]; [ discriminate Hk | ].

Section LoopsAbort.

Variable w : World.
Variable plan : ResearchPlan.
Variable depth : string.

Lemma searchLoop_returns (todo : list SearchSpec) :
  forall i st e,
    searchesParse w depth i todo = true ->
    returnsAfter (searchLoop w plan depth i todo st) e
      (searchTags w plan depth i todo).
Proof.
  induction todo as [| search rest IH]; intros i st e Hp.
  - exists e, st, []. cbn. rewrite app_nil_r. auto.
  - cbn [searchesParse] in Hp. apply andb_true_iff in Hp.
    destruct Hp as [Hs Hrest].
    destruct (searchIteration_ok w plan depth i search st e Hs)
      as (t1 & t2 & t3 & tk & links & domains & _ & E).
    unfold returnsAfter. cbn [searchLoop]. unfold bind. rewrite E.
    match goal with
    | |- context [searchLoop w plan depth (S i) rest ?st1 ?e1] =>
        destruct (IH (S i) st1 e1 Hrest) as (e' & a & new & E' & T & R);
        rewrite E'
    end.
    exists e', a. eexists. split; [ reflexivity | ].
    split; [ rewrite T; cbn [trace]; rewrite <- app_assoc; reflexivity | ].
    rewrite map_app, R. cbn [searchTags map tagOf payload app].
    unfold searchStartFrame, searchCompleteFrame, searchCall.
    cbn [frameTag]. rewrite searchOutcome_count. reflexivity.
Qed.

Lemma searchLoop_throws (k : nat) :
  forall todo i st e search,
    searchesParse w depth i (firstn k todo) = true ->
    nth_error todo k = Some search ->
    resultsParse w depth (k + i) search = false ->
    throwsAfter (searchLoop w plan depth i todo st) e
      (searchTags w plan depth i (firstn k todo)
       ++ [TStart (Z.of_nat (k + i) + 2);
           TCall (searchCall depth (k + i) search)])
      (ErrorObj "Invalid URL").
Proof.
  induction k as [| k IH]; intros todo i st e search Hp Hk Hbad;
    destroy_todo todo Hk.
  - cbn in Hk. inversion Hk; subst s0. cbn [Nat.add] in *.
    destruct (searchIteration_bad w plan depth i search st e Hbad)
      as (t1 & tk & E).
    unfold throwsAfter. cbn [searchLoop firstn searchTags app].
    unfold bind. rewrite E.
    do 2 eexists. split; [ reflexivity | ].
    split; [ reflexivity | reflexivity ].
  - cbn [nth_error] in Hk. cbn [firstn searchesParse] in Hp.
    apply andb_true_iff in Hp. destruct Hp as [Hs Hrest].
    destruct (searchIteration_ok w plan depth i s0 st e Hs)
      as (t1 & t2 & t3 & tk & links & domains & _ & E).
    unfold throwsAfter. cbn [searchLoop]. unfold bind. rewrite E.
    replace (S k + i)%nat with (k + S i)%nat in * by lia.
    match goal with
    | |- context [searchLoop w plan depth (S i) todo ?st1 ?e1] =>
        destruct (IH todo (S i) st1 e1 search Hrest Hk Hbad)
          as (e' & new & E' & T & R);
        rewrite E'
    end.
    exists e'. eexists. split; [ reflexivity | ].
    split; [ rewrite T; cbn [trace]; rewrite <- app_assoc; reflexivity | ].
    rewrite map_app, R. cbn [firstn searchTags map tagOf payload app].
    unfold searchStartFrame, searchCompleteFrame, searchCall.
    cbn [frameTag]. rewrite searchOutcome_count. reflexivity.
Qed.

Lemma analysisLoop_throws (k : nat) :
  forall todo i st e analysis,
    analysesAnswer w i (firstn k todo) ->
    nth_error todo k = Some analysis ->
    failsToAnswer w (k + i) analysis ->
    exists x,
      throwsAfter (analysisLoop w plan i todo st) e
        (analysisTags plan i (firstn k todo)
         ++ [TStart (7 + Z.of_nat (k + i));
             TCall (analysisCall (k + i) analysis)])
        x.
Proof.
  induction k as [| k IH]; intros todo i st e analysis Hp Hk Hbad;
    destroy_todo todo Hk.
  - cbn in Hk. inversion Hk; subst s0. cbn [Nat.add] in *.
    destruct (analysisIteration_bad w plan i analysis st e
                (Hbad (searchResults st))) as (t1 & tk & x & E).
    exists x. unfold throwsAfter.
    cbn [analysisLoop firstn analysisTags app]. unfold bind.
    rewrite E. do 2 eexists. split; [ reflexivity | ].
    split; [ reflexivity | reflexivity ].
  - cbn [nth_error] in Hk. cbn [firstn analysesAnswer] in Hp.
    destruct Hp as [Hs Hrest].
    destruct (analysisAnswer w i (searchResults st) s0) as [r |] eqn:Hr;
      [ | exfalso; exact (Hs _ Hr) ].
    destruct (analysisIteration_ok w plan i s0 st e r Hr)
      as (t1 & t2 & t3 & tk & E).
    replace (S k + i)%nat with (k + S i)%nat in * by lia.
    destruct (IH todo (S i)
                (mkLocals (assistantMessageId st) (analysisProgress i plan)
                   (currentStatus st)
                   (pushAnalysis plan (planLinksData st) i s0 r)
                   (searchResults st) (analysisEntries st s0 r))
                (fst (analysisIteration w plan i s0 st e))
                analysis Hrest Hk Hbad)
      as (x & e' & new & E' & T & R).
    exists x. unfold throwsAfter. cbn [analysisLoop]. unfold bind.
    rewrite E in *. cbn [fst] in *. rewrite E'.
    exists e'. eexists. split; [ reflexivity | ].
    split; [ rewrite T; cbn [trace]; rewrite <- app_assoc; reflexivity | ].
    rewrite map_app, R. reflexivity.
Qed.

End LoopsAbort.

Lemma stepsFrom_app (n m : nat) :
  forall s,
    stepsFrom s (n + m) = stepsFrom s n ++ stepsFrom (s + Z.of_nat n) m.
Proof.
  induction n as [| n IH]; intros s.
  - cbn [Nat.add stepsFrom app]. rewrite Z.add_0_r. reflexivity.
  - cbn [Nat.add stepsFrom app]. rewrite IH.
    replace (s + Z.of_nat (S n)) with (s + 1 + Z.of_nat n) by lia.
    reflexivity.
Qed.

Lemma searchTags_marks (w : World) (plan : ResearchPlan) (depth : string)
    (todo : list SearchSpec) :
  forall i,
    flat_map tagMarks (searchTags w plan depth i todo)
    = stepsFrom (Z.of_nat i + 2) (length todo).
Proof.
  induction todo as [| s todo IH]; intros i; [ reflexivity | ].
  cbn [searchTags flat_map tagMarks app length stepsFrom]. rewrite IH.
  replace (Z.of_nat (S i) + 2) with (Z.of_nat i + 2 + 1) by lia.
  reflexivity.
Qed.

Lemma analysisTags_marks (plan : ResearchPlan) (todo : list AnalysisSpec) :
  forall i,
    flat_map tagMarks (analysisTags plan i todo)
    = stepsFrom (7 + Z.of_nat i) (length todo).
Proof.
  induction todo as [| a todo IH]; intros i; [ reflexivity | ].
  cbn [analysisTags flat_map tagMarks app length stepsFrom]. rewrite IH.
  replace (7 + Z.of_nat (S i)) with (7 + Z.of_nat i + 1) by lia.
  reflexivity.
Qed.

Lemma firstn_reaches {A : Type} (l : list A) (k : nat) (x : A) :
  nth_error l k = Some x -> length (firstn k l) = k.
Proof.
  intros Hk. apply firstn_length_le. apply Nat.lt_le_incl.
  apply nth_error_Some. congruence.
Qed.

Section RunAborts.

Variable w : World.
Variable topic sessionId depth : string.

Lemma investigate_search_abort (plan : ResearchPlan) (k : nat)
    (search : SearchSpec) :
  plannedBy w topic = Some plan ->
  searchesParse w depth 0 (firstn k (searches plan)) = true ->
  nth_error (searches plan) k = Some search ->
  resultsParse w depth k search = false ->
  throwsAfter (investigate w topic sessionId depth) startEnv
    (planTags topic plan
     ++ searchTags w plan depth 0 (firstn k (searches plan))
     ++ [TStart (Z.of_nat k + 2); TCall (searchCall depth k search)])
    (ErrorObj "Invalid URL").
Proof.
  unfold plannedBy. intros Hp Hparse Hk Hbad.
  unfold throwsAfter, investigate, createResearchPlan, generateObject.
  unfold bind, sendUpdate, enqueue, logCall, record, tick, bind, await.
  cbn [fst snd trace rows ticks writes closed startEnv app].
  destruct (generatePlan w topic (clock w 0)) as [p | x]; [ | discriminate ].
  unfold ret. destruct (ResearchPlanSchema p); [ | discriminate ].
  inversion Hp; subst p. clear Hp.
  cbn [fst snd trace rows ticks writes closed startEnv app].
  match goal with
  | |- context [insertAssistantMessage w ?row ?e0] =>
      destruct (quiet_insert w row e0) as (Ti & id & Ri);
      destruct (insertAssistantMessage w row e0) as [ei ri]
  end.
  cbn [fst snd trace] in Ti, Ri. subst ri.
  rewrite <- (Nat.add_0_r k) in Hbad.
  match goal with
  | |- context [searchLoop w plan depth 0 (searches plan) ?st0 ei] =>
      destruct (searchLoop_throws w plan depth k (searches plan) 0 st0 ei
                  search Hparse Hk Hbad) as (e' & new & E & T & R);
      rewrite E
  end.
  rewrite Nat.add_0_r in R.
  exists e'. eexists. split; [ reflexivity | ].
  split; [ rewrite T, Ti; cbn [app]; reflexivity | ].
  unfold planTags. cbn [map tagOf payload frameTag app]. rewrite R.
  reflexivity.
Qed.

Lemma investigate_analysis_abort (plan : ResearchPlan) (k : nat)
    (analysis : AnalysisSpec) :
  plannedBy w topic = Some plan ->
  searchesParse w depth 0 (searches plan) = true ->
  analysesAnswer w 0 (firstn k (analyses plan)) ->
  nth_error (analyses plan) k = Some analysis ->
  failsToAnswer w k analysis ->
  exists x,
    throwsAfter (investigate w topic sessionId depth) startEnv
      (planTags topic plan
       ++ searchTags w plan depth 0 (searches plan)
       ++ analysisTags plan 0 (firstn k (analyses plan))
       ++ [TStart (7 + Z.of_nat k); TCall (analysisCall k analysis)])
      x.
Proof.
  unfold plannedBy. intros Hp Hparse Hans Hk Hbad.
  unfold throwsAfter, investigate, createResearchPlan, generateObject.
  unfold bind, sendUpdate, enqueue, logCall, record, tick, bind, await.
  cbn [fst snd trace rows ticks writes closed startEnv app].
  destruct (generatePlan w topic (clock w 0)) as [p | x]; [ | discriminate ].
  unfold ret. destruct (ResearchPlanSchema p); [ | discriminate ].
  inversion Hp; subst p. clear Hp.
  cbn [fst snd trace rows ticks writes closed startEnv app].
  match goal with
  | |- context [insertAssistantMessage w ?row ?e0] =>
      destruct (quiet_insert w row e0) as (Ti & id & Ri);
      destruct (insertAssistantMessage w row e0) as [ei ri]
  end.
  cbn [fst snd trace] in Ti, Ri. subst ri.
  match goal with
  | |- context [searchLoop w plan depth 0 (searches plan) ?st0 ei] =>
      destruct (searchLoop_returns w plan depth (searches plan) 0 st0 ei
                  Hparse) as (e1 & st1 & new1 & E1 & T1 & R1);
      rewrite E1
  end.
  rewrite <- (Nat.add_0_r k) in Hbad.
  match goal with
  | |- context [analysisLoop w plan 0 (analyses plan) ?st e1] =>
      destruct (analysisLoop_throws w plan k (analyses plan) 0 st e1
                  analysis Hans Hk Hbad) as (x & e' & new & E & T & R);
      rewrite E
  end.
  rewrite Nat.add_0_r in R.
  exists x, e'. eexists. split; [ reflexivity | ].
  split; [ rewrite T, T1, Ti, <- app_assoc; cbn [app]; reflexivity | ].
  unfold planTags. cbn [map tagOf payload frameTag app].
  rewrite !map_app, R1, R. reflexivity.
Qed.

(** What a run leaves when the investigation throws. *)
Lemma run_after_throw (L : list Tag) (x : Exn) :
  throwsAfter (investigate w topic sessionId depth) startEnv L x ->
  let e := runOf w topic sessionId depth in
  let message := messageOr x "Unknown error occurred" in
  stepMarks (frames e) = flat_map tagMarks L
  /\ (exists pre, frames e = pre ++ [Ev.error message "Unknown"])
  /\ calls e = flat_map tagCall L
  /\ Forall (fun m => research_status m <> Some "complete"%string) (rows e).
Proof.
  intros (e1 & new & E & T & R). cbv zeta.
  assert (Htrace :
    exists ts,
      trace (runOf w topic sessionId depth)
      = new ++ [Sent (mkUpdate
                        (Ev.error (messageOr x "Unknown error occurred")
                           "Unknown") ts)]).
  { unfold runOf, start, tryFinally, tryCatch, research.
    unfold sendUpdate, bind, tick, enqueue, record. rewrite E.
    cbn [fst snd]. unfold close. cbn [trace]. rewrite T. cbn [startEnv trace app].
    eexists. reflexivity. }
  destruct Htrace as (ts & Htrace).
  assert (Hframes :
    frames (runOf w topic sessionId depth)
    = flat_map sentFrame new
      ++ [Ev.error (messageOr x "Unknown error occurred") "Unknown"]).
  { unfold frames. rewrite Htrace, flat_map_app. reflexivity. }
  split; [ | split; [ | split ] ].
  - rewrite stepMarks_trace, Htrace, map_app, flat_map_app, R. cbn.
    apply app_nil_r.
  - eexists. exact Hframes.
  - rewrite calls_trace, Htrace, map_app, flat_map_app, R. cbn.
    apply app_nil_r.
  - destruct (run_complete_or_error w topic sessionId depth) as [Hno | Hrows];
      [ | exact Hrows ].
    rewrite Hframes, error_is_seen in Hno. discriminate.
Qed.

End RunAborts.

(** X17: a search result that cannot be linked aborts the run.  When the
    plan is valid, the searches before search [k] return results whose URLs
    [new URL] accepts, and search [k] returns a result whose URL it rejects,
    the run completes steps 1 to [k + 1], starts step [k + 2] and never
    completes it: its last frame is the error "Invalid URL", no later step
    starts, no adapter is called after search [k], and the row is never
    marked "complete".  (A search that throws does not abort the run; a
    result it returns can.) *)
Theorem unparseable_result_aborts_the_run (w : World)
    (topic sessionId depth : string) (plan : ResearchPlan) (k : nat)
    (search : SearchSpec) :
  truthy topic = true ->
  truthy sessionId = true ->
  plannedBy w topic = Some plan ->
  searchesParse w depth 0 (firstn k (searches plan)) = true ->
  nth_error (searches plan) k = Some search ->
  resultsParse w depth k search = false ->
  let r := POST w (validRequest topic sessionId (Some depth)) in
  stepMarks (framesOf r) = stepsFrom 1 (S k) ++ [(true, Z.of_nat k + 2)]
  /\ (exists pre, framesOf r = pre ++ [Ev.error "Invalid URL" "Unknown"])
  /\ callsOf r
     = CallPlan topic
       :: searchCalls depth 0 (firstn k (searches plan))
       ++ [searchCall depth k search]
  /\ Forall (fun m => research_status m <> Some "complete"%string) (rowsOf r).
Proof.
  intros Ht Hs Hp Hparse Hk Hbad. cbv zeta.
  rewrite (POST_valid w topic sessionId (Some depth) Ht Hs).
  cbn [framesOf callsOf rowsOf].
  change (depthOf (validRequest topic sessionId (Some depth))) with depth.
  destruct (run_after_throw w topic sessionId depth _ _
              (investigate_search_abort w topic sessionId depth plan k search
                 Hp Hparse Hk Hbad)) as (Hm & Hf & Hc & Hr).
  split; [ | split; [ exact Hf | split; [ | exact Hr ] ] ].
  - rewrite Hm. unfold planTags. rewrite !flat_map_app, searchTags_marks.
    rewrite (firstn_reaches _ _ _ Hk). cbn. rewrite ?app_nil_r. reflexivity.
  - rewrite Hc. unfold planTags. rewrite !flat_map_app, searchCalls_tags.
    reflexivity.
Qed.

Lemma unparseable_result_aborts_the_run_witness :
  let w := strayResultWorld in
  let search := mkSearchSpec 2 "q2" "web" in
  let r := POST w (validRequest "topic" "session" (Some "basic"%string)) in
  resultsParse w "basic" 1 search = false
  /\ stepMarks (framesOf r) = stepsFrom 1 2 ++ [(true, 3)]
  /\ (exists pre, framesOf r = pre ++ [Ev.error "Invalid URL" "Unknown"])
  /\ callsOf r
     = CallPlan "topic"
       :: searchCalls "basic" 0 (firstn 1 (searches plan5))
       ++ [searchCall "basic" 1 search]
  /\ Forall (fun m => research_status m <> Some "complete"%string) (rowsOf r).
Proof.
  cbv zeta. split; [ reflexivity | ].
  apply (unparseable_result_aborts_the_run strayResultWorld "topic" "session"
           "basic" plan5 1 (mkSearchSpec 2 "q2" "web")); reflexivity.
Defined.

(** X18: an analysis that fails aborts the run.  When the plan is valid,
    every search returns results that can be linked, the analyses before
    analysis [k] answer within their schema, and analysis [k] throws or
    answers off its schema, the run completes steps 1 to [6 + k], starts
    step [7 + k] and never completes it: its last frame is an error, no
    later step starts, no adapter is called after analysis [k], no report
    is generated and the row is never marked "complete". *)
Theorem failed_analysis_aborts_the_run (w : World)
    (topic sessionId depth : string) (plan : ResearchPlan) (k : nat)
    (analysis : AnalysisSpec) :
  truthy topic = true ->
  truthy sessionId = true ->
  plannedBy w topic = Some plan ->
  searchesParse w depth 0 (searches plan) = true ->
  analysesAnswer w 0 (firstn k (analyses plan)) ->
  nth_error (analyses plan) k = Some analysis ->
  failsToAnswer w k analysis ->
  let r := POST w (validRequest topic sessionId (Some depth)) in
  stepMarks (framesOf r) = stepsFrom 1 (6 + k) ++ [(true, 7 + Z.of_nat k)]
  /\ (exists pre message, framesOf r = pre ++ [Ev.error message "Unknown"])
  /\ callsOf r
     = CallPlan topic
       :: searchCalls depth 0 (searches plan)
       ++ analysisCalls 0 (firstn k (analyses plan))
       ++ [analysisCall k analysis]
  /\ Forall (fun m => research_status m <> Some "complete"%string) (rowsOf r).
Proof.
  intros Ht Hs Hp Hparse Hans Hk Hbad. cbv zeta.
  rewrite (POST_valid w topic sessionId (Some depth) Ht Hs).
  cbn [framesOf callsOf rowsOf].
  change (depthOf (validRequest topic sessionId (Some depth))) with depth.
  destruct (investigate_analysis_abort w topic sessionId depth plan k analysis
              Hp Hparse Hans Hk Hbad) as (x & Hthrows).
  destruct (run_after_throw w topic sessionId depth _ _ Hthrows)
    as (Hm & (pre & Hf) & Hc & Hr).
  destruct (plannedBy_fiveAndFive w topic plan Hp) as [Hfive _].
  split; [ | split; [ eauto | split; [ | exact Hr ] ] ].
  - rewrite Hm. unfold planTags.
    rewrite !flat_map_app, searchTags_marks, analysisTags_marks, Hfive.
    rewrite (firstn_reaches _ _ _ Hk), (stepsFrom_app 6 k 1).
    cbn. rewrite <- ?app_assoc. reflexivity.
  - rewrite Hc. unfold planTags.
    rewrite !flat_map_app, searchCalls_tags, analysisCalls_tags. reflexivity.
Qed.

Lemma failed_analysis_aborts_the_run_witness :
  let w := thirdAnalysisThrows in
  let analysis := mkAnalysisSpec "comparative" "d3" 3 in
  let r := POST w (validRequest "topic" "session" (Some "basic"%string)) in
  failsToAnswer w 2 analysis
  /\ stepMarks (framesOf r) = stepsFrom 1 8 ++ [(true, 9)]
  /\ (exists pre message, framesOf r = pre ++ [Ev.error message "Unknown"])
  /\ callsOf r
     = CallPlan "topic"
       :: searchCalls "basic" 0 (searches plan5)
       ++ analysisCalls 0 (firstn 2 (analyses plan5))
       ++ [analysisCall 2 analysis]
  /\ Forall (fun m => research_status m <> Some "complete"%string) (rowsOf r).
Proof.
  cbv zeta.
  assert (Hbad : failsToAnswer thirdAnalysisThrows 2
                   (mkAnalysisSpec "comparative" "d3" 3))
    by (intros sr; reflexivity).
  split; [ exact Hbad | ].
  apply (failed_analysis_aborts_the_run thirdAnalysisThrows "topic" "session"
           "basic" plan5 2 (mkAnalysisSpec "comparative" "d3" 3));
    try reflexivity; [ | exact Hbad ].
  cbn. repeat split; intros sr; discriminate.
Defined.

(** ** The client after a run *)

Lemma runShape_settles (w : World) (topic depth : string) (t : list Tag) :
  runShape w topic depth t -> In TError t \/ In TDone t.
Proof.
  unfold runShape. destruct (plannedBy w topic) as [plan |].
  - intros (n & [-> | [-> | (p & _ & -> & _)]]).
    + right. unfold fullTags, reportTags. rewrite !in_app_iff. cbn. tauto.
    + left. apply in_or_app. right. left. reflexivity.
    + left. apply in_or_app. right. left. reflexivity.
  - intros ->. left. cbn. tauto.
Qed.

Lemma lastSet_active (fs : list Frame) :
  (exists f, In f fs /\ setsActive f <> None) ->
  lastSet setsActive fs = Some false.
Proof.
  induction fs as [| f fs IH] using rev_ind; intros (g & Hin & Hg).
  - destruct Hin.
  - rewrite lastSet_snoc. apply in_app_or in Hin.
    destruct (setsActive f) as [[] |] eqn:Ef.
    + destruct f; discriminate.
    + reflexivity.
    + apply IH. destruct Hin as [Hin | [<- | []]]; [ eauto | contradiction ].
Qed.

Lemma settling_frame (e : Env) :
  In TError (map tagOf (trace e)) \/ In TDone (map tagOf (trace e)) ->
  exists f, In f (frames e) /\ setsActive f <> None.
Proof.
  intros Hin.
  assert (Htag : exists t, In t (map frameTag (frames e))
                           /\ (t = TError \/ t = TDone)).
  { rewrite frameTags_trace.
    destruct Hin as [Hin | Hin]; eexists; (split; [ apply filter_In; split;
      [ exact Hin | reflexivity ] | auto ]). }
  destruct Htag as (t & Ht & Hcase). apply in_map_iff in Ht.
  destruct Ht as (f & Hf & Hin'). exists f. split; [ exact Hin' | ].
  destruct Hcase as [-> | ->]; destruct f; try discriminate;
    cbn in Hf; destruct data as [[] |]; discriminate.
Qed.

(** X19: the client settles after every run: once the frames of the stream
    of a served request have been handled, the hook is no longer active and
    its status is "complete", whether the run succeeded or failed at any
    point. *)
Theorem client_settles_after_every_run (b : Browser) (w : World)
    (req : Request) :
  match POST w req with
  | BadRequest s _ => s = 400
  | EventStream e =>
      isActive (liveView b (frames e)) = false
      /\ status (liveView b (frames e)) = "complete"%string
  end.
Proof.
  destruct (POST w req) as [s body | e] eqn:E.
  - unfold POST in E.
    destruct (falsy (topic req) || falsy (sessionId req));
      [ inversion E; reflexivity | ].
    destruct (topic req), (sessionId req); inversion E; reflexivity.
  - destruct (POST_stream w req e E) as (t & sid & _ & _ & _ & _ & ->).
    pose proof (start_shape w t sid (depthOf req)) as Hshape.
    unfold liveView. split.
    + rewrite (fold_overwrites b isActive setsActive (isActive_overwritten b)).
      rewrite lastSet_active; [ reflexivity | ].
      apply settling_frame.
      exact (runShape_settles w t (depthOf req) _ Hshape).
    + rewrite (fold_overwrites b status setsStatus (status_overwritten b)).
      destruct (runShape_ending w t (depthOf req) _ Hshape)
        as (p & final & Ht & _ & Hfinal).
      destruct (frames_ending _ p final Ht) as (pre & f & Hfs & _ & Hf).
      { destruct Hfinal as [-> | ->]; reflexivity. }
      rewrite Hfs, lastSet_snoc.
      destruct Hfinal as [-> | ->]; destruct f; try discriminate;
        try (cbn in Hf; destruct data as [[] |]; discriminate).
      * reflexivity.
      * cbn in Hf. inversion Hf. reflexivity.
Qed.

(** X20: the client's progress stays within 0 and 100 whatever frames it is
    sent: [updateProgress] clamps the value of every [progress] frame, and
    nothing else writes the field but [report_complete], which sets 100. *)
Theorem client_progress_stays_in_range (b : Browser) (fs : list Frame) :
  0 <= progress (liveView b fs) <= 100.
Proof.
  unfold liveView.
  rewrite (fold_overwrites b progress setsProgress (progress_overwritten b)).
  cbn [state progress resetState].
  induction fs as [| f fs IH] using rev_ind; [ cbn; lia | ].
  rewrite lastSet_snoc. destruct f; cbn [setsProgress]; try exact IH.
  - cbn [orKeep]. lia.
  - cbn [orKeep]. lia.
Qed.

(** ** The chat page *)

(** X21: the chat page recovers finished searches only.  Whatever the
    messages of the session are, [checkDeepSearchRecovery] either leaves
    the hook as it is, or the last message is an assistant message with the
    status "complete" and the hook it leaves is the one
    [recoverFromDatabase] builds from it, which is not active, has the
    status "complete" and no error.  A search that was interrupted (a row
    that never reached "complete") is never shown again after a reload. *)
Theorem chat_recovers_only_finished_searches (b : Browser)
    (messages : option (list Message)) (h : Hook) :
  let h' := checkDeepSearchRecovery b messages h in
  h' = h
  \/ exists currentMessages lastMessage,
       messages = Some currentMessages
       /\ lastOf currentMessages = Some lastMessage
       /\ role lastMessage = "assistant"%string
       /\ research_status lastMessage = Some "complete"%string
       /\ h' = snd (recoverFromDatabase b (Some lastMessage) h)
       /\ isActive (state h') = false
       /\ status (state h') = "complete"%string
       /\ error (state h') = None.
Proof.
  cbv zeta. unfold checkDeepSearchRecovery.
  destruct messages as [currentMessages |]; [ | left; reflexivity ].
  destruct (lastOf currentMessages) as [m |] eqn:Hlast;
    [ | left; reflexivity ].
  destruct (String.eqb_spec (role m) "assistant") as [Hrole |];
    [ | left; reflexivity ].
  destruct (research_plan_links m) as [pl |] eqn:Hl; [ | left; reflexivity ].
  destruct (research_status m) as [st |] eqn:Hst; [ | left; reflexivity ].
  destruct (String.eqb_spec st "complete") as [-> |]; [ | left; reflexivity ].
  right. exists currentMessages, m. cbn [andb].
  split; [ reflexivity | ]. split; [ exact Hlast | ].
  split; [ exact Hrole | ].
  split; [ exact Hst | ]. split; [ reflexivity | ].
  unfold recoverFromDatabase. rewrite Hl, Hst.
  cbn [snd state isActive status error optStr]. repeat split.
Qed.

(** ** The report, in fragments and whole *)

Lemma reportChunks_none (fs : list Frame) :
  ~ In TChunk (map frameTag fs) -> reportChunks fs = [].
Proof.
  induction fs as [| f fs IH]; intros Hno; [ reflexivity | ].
  unfold reportChunks in *. cbn [flat_map].
  rewrite IH by (intros Hin; apply Hno; right; exact Hin).
  destruct f; try reflexivity. exfalso. apply Hno. left. reflexivity.
Qed.

Lemma reportChunks_chunks (cs : list string) :
  reportChunks (map Ev.report_chunk cs) = cs.
Proof.
  induction cs as [| c cs IH]; [ reflexivity | ].
  unfold reportChunks in *. cbn. rewrite IH. reflexivity.
Qed.

Section ReportText.

Variable w : World.

Lemma streamChunks_content (todo : list string) (fail : option Exn) :
  forall acc e, exists evs tk,
    fst (streamChunks w todo fail acc e)
    = mkEnv (trace e ++ evs) (rows e) tk (writes e) (closed e)
    /\ flat_map sentFrame evs = map Ev.report_chunk todo
    /\ (forall content,
          snd (streamChunks w todo fail acc e) = Ok content ->
          content = (acc ++ joined todo)%string).
Proof.
  induction todo as [| chunk rest IH]; intros acc e.
  - exists [], (ticks e). rewrite app_nil_r. cbn [streamChunks].
    split; [ destruct fail; destruct e; reflexivity | ].
    split; [ reflexivity | ].
    intros content. destruct fail; cbn; [ discriminate | ].
    intros Hc. inversion Hc. symmetry. apply append_empty_r.
  - cbn [streamChunks].
    unfold bind at 1, sendUpdate, enqueue, record, tick, bind.
    cbn [fst snd trace rows ticks writes closed].
    match goal with
    | |- context [streamChunks w rest fail ?a ?e0] =>
        destruct (IH a e0) as (evs & tk & E1 & E2 & E3)
    end.
    cbn [fst snd trace rows ticks writes closed] in E1.
    eexists (_ :: evs), tk. rewrite E1.
    split; [ rewrite <- app_assoc; reflexivity | ].
    split; [ cbn; rewrite E2; reflexivity | ].
    intros content Hc. rewrite (E3 content Hc).
    cbn [joined fold_right]. apply append_assoc.
Qed.

(** The frames of a report phase that returns. *)
Lemma reportPhase_frames (topic : string) (st : Locals) (e e' : Env)
    (report : string * Citations) :
  reportPhase w topic st e = (e', Ok report) ->
  exists cs,
    frames e'
    = frames e
      ++ [Ev.step_start 12 "Final Report Generation"
            "Generating comprehensive report with citations..." "running";
          Ev.step_complete 12 "Final Report Generation"
            "Report generated successfully" "completed" None;
          Ev.progress 95]
      ++ map Ev.report_chunk cs
      ++ [Ev.report_complete (fst report) (len (allSources (snd report)))
            (allSources (snd report));
          Ev.progress 100; Ev.status_change "complete"]
    /\ fst report = joined cs
    /\ snd report
       = collectSources (searchResults st) (analysisResults st).
Proof.
  unfold reportPhase.
  unfold bind at 1, sendUpdate at 1, enqueue, record, tick, bind.
  cbn [fst snd trace rows ticks writes closed].
  unfold logCall, record.
  cbn [fst snd trace rows ticks writes closed].
  match goal with
  | |- context [streamText w ?rq] =>
      destruct (streamText w rq) as [s | x] eqn:Es
  end; [ | cbn [await throw fst snd]; discriminate ].
  cbn [await ret fst snd].
  unfold sendUpdate at 1, sendUpdate at 1, bind, enqueue, record, tick.
  cbn [fst snd trace rows ticks writes closed].
  match goal with
  | |- context [streamChunks w (chunks s) (failure s) ?a ?e0] =>
      destruct (streamChunks_content (chunks s) (failure s) a e0)
        as (evs & tk & E1 & E2 & E3);
      destruct (streamChunks w (chunks s) (failure s) a e0) as [e1 r]
  end.
  cbn [fst snd trace rows ticks writes closed] in E1, E3. subst e1.
  destruct r as [content | x]; [ | discriminate ].
  specialize (E3 content eq_refl).
  unfold sendUpdate, bind, enqueue, record, tick, ret.
  cbn [fst snd trace rows ticks writes closed].
  intros Hr. inversion Hr; subst e' report. clear Hr.
  exists (chunks s). cbn [fst snd]. split; [ | split; [ | reflexivity ] ].
  - unfold frames. cbn [trace].
    rewrite !flat_map_app, E2. cbn [flat_map sentFrame payload app].
    rewrite <- !app_assoc. reflexivity.
  - exact E3.
Qed.

End ReportText.

Lemma joined_app (l1 l2 : list string) :
  joined (l1 ++ l2) = (joined l1 ++ joined l2)%string.
Proof.
  induction l1 as [| s l1 IH]; [ reflexivity | ].
  cbn [app joined fold_right]. fold (joined (l1 ++ l2)). fold (joined l1).
  rewrite IH, append_assoc. reflexivity.
Qed.

(** While no [report_complete] arrives, the client's text is what it had,
    followed by the fragments received. *)
Lemma result_of_chunks (b : Browser) (fs : list Frame) :
  forall h,
    (forall f, In f fs -> setsReport f = None) ->
    result (state (foldFrames b h fs))
    = match reportChunks fs with
      | [] => result (state h)
      | _ :: _ =>
          Some (optStr (result (state h)) ++ joined (reportChunks fs))%string
      end.
Proof.
  induction fs as [| f fs IH] using rev_ind; intros h Hno; [ reflexivity | ].
  rewrite foldFrames_snoc.
  assert (Hfs : forall g, In g fs -> setsReport g = None)
    by (intros g Hg; apply Hno; apply in_or_app; left; exact Hg).
  assert (Hf : setsReport f = None)
    by (apply Hno; apply in_or_app; right; left; reflexivity).
  specialize (IH h Hfs).
  unfold reportChunks in *. rewrite flat_map_app. cbn [flat_map].
  destruct f; try discriminate; cbn [handleServerEvent state result app];
    rewrite ?app_nil_r; try exact IH.
  - destruct (step =? 1); [ | destruct (step <=? 6) ]; cbn; exact IH.
  - rewrite IH. destruct (flat_map _ fs) as [| c cs] eqn:E.
    + cbn [app joined fold_right optStr]. rewrite append_empty_r.
      destruct (result (state h)); reflexivity.
    + cbn [app optStr]. rewrite append_assoc.
      change (c :: cs ++ [chunk]) with ((c :: cs) ++ [chunk]).
      rewrite joined_app. cbn [joined fold_right].
      rewrite append_empty_r. reflexivity.
Qed.

Section ReportOfRun.

Variable w : World.
Variable topic sessionId depth : string.

Lemma investigate_report :
  match investigate w topic sessionId depth startEnv with
  | (e', Ok found) =>
      exists before cs,
        frames e'
        = before
          ++ map Ev.report_chunk cs
          ++ [Ev.report_complete (fst (snd found))
                (len (allSources (snd (snd found))))
                (allSources (snd (snd found)));
              Ev.progress 100; Ev.status_change "complete"]
        /\ (forall f, In f before ->
              setsReport f = None /\ reportChunks [f] = [])
        /\ fst (snd found) = joined cs
        /\ snd (snd found)
           = collectSources (searchResults (fst found))
               (analysisResults (fst found))
  | (e', Threw _) => True
  end.
Proof.
  unfold investigate, createResearchPlan, generateObject.
  unfold bind, sendUpdate, enqueue, logCall, record, tick, bind, await.
  cbn [fst snd trace rows ticks writes closed startEnv app].
  destruct (generatePlan w topic (clock w 0)) as [plan | x]; [ | exact I ].
  unfold ret. destruct (ResearchPlanSchema plan); [ | exact I ].
  cbn [fst snd trace rows ticks writes closed startEnv app].
  match goal with
  | |- context [insertAssistantMessage w ?row ?e0] =>
      destruct (quiet_insert w row e0) as (Ti & id & Ri);
      destruct (insertAssistantMessage w row e0) as [ei ri]
  end.
  cbn [fst snd trace] in Ti, Ri. subst ri.
  match goal with
  | |- context [searchLoop w plan depth 0 (searches plan) ?st0 ei] =>
      destruct (searchLoop_emits w topic plan depth (searches plan) 0 st0 ei)
        as (new1 & T1 & R1);
      destruct (searchLoop w plan depth 0 (searches plan) st0 ei)
        as [e1 [st1 | x1]]
  end; cbn [fst snd] in T1, R1; rewrite Ti in T1; [ | exact I ].
  match goal with
  | |- context [analysisLoop w plan 0 (analyses plan) ?st e1] =>
      destruct (analysisLoop_emits w topic plan (analyses plan) 0 st e1)
        as (new2 & T2 & R2);
      destruct (analysisLoop w plan 0 (analyses plan) st e1)
        as [e2 [st2 | x2]]
  end; cbn [fst snd] in T2, R2; rewrite T1 in T2; [ | exact I ].
  destruct (reportPhase w topic st2 e2) as [e3 [report | x3]] eqn:Er;
    [ | exact I ].
  destruct (reportPhase_frames w topic st2 e2 e3 report Er)
    as (cs & Hframes & Htext & Hcites).
  cbn [fst snd].
  eexists (frames e2 ++ [_; _; _]), cs.
  split; [ rewrite Hframes, <- !app_assoc; reflexivity | ].
  split; [ | split; assumption ].
  intros f Hin. apply in_app_or in Hin. destruct Hin as [Hin | Hin].
  2: { cbn in Hin. destruct Hin as [<- | [<- | [<- | []]]]; split; reflexivity. }
  assert (Htag : In (frameTag f) (map tagOf (trace e2))).
  { apply (in_map frameTag) in Hin. rewrite frameTags_trace in Hin.
    apply filter_In in Hin. apply Hin. }
  rewrite T2 in Htag. cbn [map tagOf payload frameTag app] in Htag.
  rewrite !map_app, R1, R2 in Htag.
  assert (Hstep : frameTag f <> TChunk /\ frameTag f <> TDone).
  { repeat (destruct Htag as [<- | Htag]; [ split; discriminate | ]).
    apply in_app_or in Htag. destruct Htag as [Htag | Htag].
    - clear - Htag. revert Htag. generalize 0%nat.
      induction (searches plan) as [| s l IH]; intros i Htag;
        [ destruct Htag | ].
      cbn [searchTags app In] in Htag.
      repeat (destruct Htag as [<- | Htag]; [ split; discriminate | ]).
      exact (IH _ Htag).
    - clear - Htag. revert Htag. generalize 0%nat.
      induction (analyses plan) as [| a l IH]; intros i Htag;
        [ destruct Htag | ].
      cbn [analysisTags app In] in Htag.
      repeat (destruct Htag as [<- | Htag]; [ split; discriminate | ]).
      exact (IH _ Htag). }
  destruct Hstep as [Hc Hd].
  destruct f; try (split; reflexivity); exfalso;
    [ apply Hc | apply Hd ]; reflexivity.
Qed.

Lemma run_report (b : Browser) :
  let fs := frames (runOf w topic sessionId depth) in
  existsb isErrorFrame fs = true
  \/ exists before cs sources,
       fs = before
            ++ map Ev.report_chunk cs
            ++ [Ev.report_complete (joined cs) (len sources) sources;
                Ev.progress 100; Ev.status_change "complete"]
       /\ reportChunks fs = cs
       /\ NoDup (map src_url sources)
       /\ (cs <> [] ->
           result (liveView b (before ++ map Ev.report_chunk cs))
           = Some (joined cs))
       /\ result (liveView b fs) = Some (joined cs).
Proof.
  cbv zeta.
  unfold runOf, start, tryFinally, tryCatch, research.
  unfold sendUpdate, bind, tick, enqueue, record.
  pose proof investigate_report as Hi.
  destruct (investigate w topic sessionId depth startEnv)
    as [e1 [found | x]].
  2: { left. cbn [fst snd]. unfold frames, close. cbn [trace].
       rewrite flat_map_app. cbn [flat_map sentFrame payload app].
       apply error_is_seen. }
  destruct (finalUpdate_trace w (fst (snd found)) (snd (snd found))
              (fst found) e1) as [Tf _].
  destruct (finalUpdate w (fst (snd found)) (snd (snd found)) (fst found) e1)
    as [e2 [st | x]]; cbn [fst snd] in Tf.
  2: { left. cbn [fst snd]. unfold frames, close. cbn [trace].
       rewrite flat_map_app. cbn [flat_map sentFrame payload app].
       apply error_is_seen. }
  right. cbn [fst snd ret]. unfold frames, close. cbn [trace]. rewrite Tf.
  fold (frames e1).
  destruct Hi as (before & cs & Hframes & Hbefore & Htext & Hcites).
  rewrite Htext in Hframes.
  exists before, cs, (allSources (snd (snd found))).
  assert (Hnone : reportChunks before = []).
  { clear - Hbefore. induction before as [| f fs IH]; [ reflexivity | ].
    unfold reportChunks in *. cbn [flat_map].
    destruct (Hbefore f (or_introl eq_refl)) as [_ Hf]. cbn in Hf.
    rewrite app_nil_r in Hf. rewrite Hf. cbn [app].
    apply IH. intros g Hg. apply Hbefore. right. exact Hg. }
  assert (Hquiet : forall f, In f (before ++ map Ev.report_chunk cs) ->
                             setsReport f = None).
  { intros f Hin. apply in_app_or in Hin. destruct Hin as [Hin | Hin].
    - apply Hbefore. exact Hin.
    - apply in_map_iff in Hin. destruct Hin as (c & <- & _). reflexivity. }
  assert (Hshown :
    reportChunks (before ++ map Ev.report_chunk cs) = cs).
  { unfold reportChunks in *. rewrite flat_map_app, Hnone.
    apply reportChunks_chunks. }
  split; [ exact Hframes | ]. split; [ | split; [ | split ] ].
  - rewrite Hframes, app_assoc. unfold reportChunks in *.
    rewrite flat_map_app, Hshown. cbn. apply app_nil_r.
  - rewrite Hcites.
    exact (proj1 (proj2 (collectSources_collects _ _))).
  - intros Hne. unfold liveView.
    rewrite (result_of_chunks b _ _ Hquiet), Hshown.
    destruct cs; [ contradiction | reflexivity ].
  - rewrite Hframes, app_assoc. unfold liveView, foldFrames.
    rewrite fold_left_app. reflexivity.
Qed.

End ReportOfRun.

(** X22: the report is the text that was streamed.  In every run that
    sends no error, the stream ends with the [report_chunk] frames, the
    [report_complete] frame, the progress 100 and the change of status to
    "complete"; the full report of [report_complete] is the concatenation
    of the fragments of all the [report_chunk] frames of the run, in order
    (so the text the client has built from the fragments is the text
    [report_complete] sets); its citation count is the number of its
    sources, and no two of its sources have the same URL. *)
Theorem report_is_the_streamed_text (b : Browser) (w : World)
    (req : Request) :
  let fs := framesOf (POST w req) in
  existsb isErrorFrame fs = true
  \/ fs = []
  \/ exists before cs sources,
       fs = before
            ++ map Ev.report_chunk cs
            ++ [Ev.report_complete (joined cs) (len sources) sources;
                Ev.progress 100; Ev.status_change "complete"]
       /\ reportChunks fs = cs
       /\ NoDup (map src_url sources)
       /\ (cs <> [] ->
           result (liveView b (before ++ map Ev.report_chunk cs))
           = Some (joined cs))
       /\ result (liveView b fs) = Some (joined cs).
Proof.
  cbv zeta. destruct (POST w req) as [s body | e] eqn:E;
    [ right; left; reflexivity | ].
  destruct (POST_stream w req e E) as (t & sid & _ & _ & _ & _ & ->).
  destruct (run_report w t sid (depthOf req) b) as [Herr | Hrun];
    [ left; exact Herr | right; right; exact Hrun ].
Qed.

(** ** The stream does not depend on the store accepting updates *)

Lemma alike_ret {A : Type} (a : A) : alike (ret a) (ret a).
Proof. intros e e' H. split; [ exact H | reflexivity ]. Qed.

Lemma alike_throw {A : Type} (x : Exn) : alike (@throw A x) (throw x).
Proof. intros e e' H. split; [ exact H | reflexivity ]. Qed.

Lemma alike_bind {A B : Type} (m m' : M A) (f f' : A -> M B) :
  alike m m' -> (forall a, alike (f a) (f' a)) ->
  alike (bind m f) (bind m' f').
Proof.
  intros Hm Hf e e' H. unfold bind. destruct (Hm e e' H) as [Ha Hr].
  destruct (m e) as [e1 [a | x]], (m' e') as [e1' [a' | x']];
    cbn [fst snd] in *; try discriminate.
  - inversion Hr; subst a'. exact (Hf a e1 e1' Ha).
  - inversion Hr; subst x'. split; [ exact Ha | reflexivity ].
Qed.

Lemma alike_tryCatch {A : Type} (m m' : M A) (h h' : Exn -> M A) :
  alike m m' -> (forall x, alike (h x) (h' x)) ->
  alike (tryCatch m h) (tryCatch m' h').
Proof.
  intros Hm Hh e e' H. unfold tryCatch. destruct (Hm e e' H) as [Ha Hr].
  destruct (m e) as [e1 [a | x]], (m' e') as [e1' [a' | x']];
    cbn [fst snd] in *; try discriminate.
  - split; [ exact Ha | exact Hr ].
  - inversion Hr; subst x'. exact (Hh x e1 e1' Ha).
Qed.

Lemma alike_await {A : Type} (o : Outcome A) : alike (await o) (await o).
Proof. destruct o; [ apply alike_ret | apply alike_throw ]. Qed.

Lemma alike_record (ev : Event) : alike (record ev) (record ev).
Proof.
  intros e e' (Ht & Hk & Hc). unfold record, agree. cbn.
  rewrite Ht. auto.
Qed.

Lemma alike_mapM {A B : Type} (f f' : A -> M B) (l : list A) :
  (forall a, alike (f a) (f' a)) -> alike (mapM f l) (mapM f' l).
Proof.
  intros Hf. induction l as [| a l IH]; cbn [mapM].
  - apply alike_ret.
  - apply alike_bind; [ apply Hf | intros b ].
    apply alike_bind; [ exact IH | intros bs ]. apply alike_ret.
Qed.

Section StoreIndifference.

Variable w : World.
Variable ok : nat -> bool.

Let w' : World := withUpdateOk ok w.

Lemma alike_tick : alike (tick w) (tick w').
Proof.
  intros e e' (Ht & Hk & Hc). unfold tick, agree. cbn.
  rewrite Hk. auto.
Qed.

Lemma alike_sendUpdate (f : Frame) : alike (sendUpdate w f) (sendUpdate w' f).
Proof.
  unfold sendUpdate. apply alike_bind; [ apply alike_tick | intros ts ].
  apply alike_record.
Qed.

Lemma alike_update (id : string) (u : Updates) :
  alike (updateMessageInDatabase w id u) (updateMessageInDatabase w' id u).
Proof.
  intros e e' (Ht & Hk & Hc). unfold updateMessageInDatabase, agree. cbn.
  auto.
Qed.

Lemma alike_insert (row : Message) :
  alike (insertAssistantMessage w row) (insertAssistantMessage w' row).
Proof.
  intros e e' (Ht & Hk & Hc). unfold insertAssistantMessage, agree. cbn.
  destruct (insertMessage w); cbn; auto.
Qed.

Lemma alike_hostname (url : string) :
  alike (newURLhostname w url) (newURLhostname w' url).
Proof.
  unfold newURLhostname. cbn [hostname w' withUpdateOk].
  destruct (hostname w url); [ apply alike_ret | apply alike_throw ].
Qed.

Ltac alike_step :=
  lazymatch goal with
  | |- alike (bind _ _) (bind _ _) => apply alike_bind; [ | intro ]
  | |- alike (tryCatch _ _) (tryCatch _ _) =>
      apply alike_tryCatch; [ | intro ]
  | |- alike (mapM _ _) (mapM _ _) => apply alike_mapM; intro
  | |- alike (ret _) _ => apply alike_ret
  | |- alike (throw _) _ => apply alike_throw
  | |- alike (tick _) _ => apply alike_tick
  | |- alike (sendUpdate _ _) _ => apply alike_sendUpdate
  | |- alike (record _) _ => apply alike_record
  | |- alike (logCall _) _ => apply alike_record
  | |- alike (await _) _ => apply alike_await
  | |- alike (updateMessageInDatabase _ _ _) _ => apply alike_update
  | |- alike (insertAssistantMessage _ _) _ => apply alike_insert
  | |- alike (newURLhostname _ _) _ => apply alike_hostname
  | |- alike (match ?x with _ => _ end) _ => destruct x
  end.

Ltac alike_all := cbv zeta; repeat alike_step.

Lemma alike_generateObject {A : Type} (schema : A -> bool)
    (answer : Outcome A) :
  alike (generateObject w schema answer) (generateObject w' schema answer).
Proof.
  unfold generateObject. alike_all.
Qed.

Lemma alike_createResearchPlan (topic currentDate : string) :
  alike (createResearchPlan w topic currentDate)
    (createResearchPlan w' topic currentDate).
Proof.
  unfold createResearchPlan. alike_all.
  apply (alike_generateObject ResearchPlanSchema).
Qed.

Lemma alike_executeWebSearch (i : nat) (query depth : string) (priority : Q) :
  alike (executeWebSearch w i query depth priority)
    (executeWebSearch w' i query depth priority).
Proof. unfold executeWebSearch, tvly_search. alike_all. Qed.

Lemma alike_analyzeResults (i : nat) (sr : list SearchResult)
    (t d : string) :
  alike (analyzeResults w i sr t d) (analyzeResults w' i sr t d).
Proof.
  unfold analyzeResults. alike_all.
  apply (alike_generateObject AnalysisResultSchema).
Qed.

Lemma alike_toLink (r : WebResult) : alike (toLink w r) (toLink w' r).
Proof. unfold toLink. alike_all. Qed.

Lemma alike_categorizeSource (title url : string) :
  alike (categorizeSource w title url) (categorizeSource w' title url).
Proof. unfold categorizeSource. alike_all. Qed.

Lemma alike_searchIteration (plan : ResearchPlan) (depth : string) (i : nat)
    (search : SearchSpec) (st : Locals) :
  alike (searchIteration w plan depth i search st)
    (searchIteration w' plan depth i search st).
Proof.
  unfold searchIteration. alike_all;
    first [ apply alike_toLink | apply alike_executeWebSearch ].
Qed.

Lemma alike_searchLoop (plan : ResearchPlan) (depth : string)
    (todo : list SearchSpec) :
  forall i st,
    alike (searchLoop w plan depth i todo st)
      (searchLoop w' plan depth i todo st).
Proof.
  induction todo as [| search rest IH]; intros i st; cbn [searchLoop].
  - apply alike_ret.
  - apply alike_bind; [ apply alike_searchIteration | intros st' ].
    apply IH.
Qed.

Lemma alike_analysisIteration (plan : ResearchPlan) (i : nat)
    (analysis : AnalysisSpec) (st : Locals) :
  alike (analysisIteration w plan i analysis st)
    (analysisIteration w' plan i analysis st).
Proof.
  unfold analysisIteration. alike_all. apply alike_analyzeResults.
Qed.

Lemma alike_analysisLoop (plan : ResearchPlan) (todo : list AnalysisSpec) :
  forall i st,
    alike (analysisLoop w plan i todo st) (analysisLoop w' plan i todo st).
Proof.
  induction todo as [| analysis rest IH]; intros i st; cbn [analysisLoop].
  - apply alike_ret.
  - apply alike_bind; [ apply alike_analysisIteration | intros st' ].
    apply IH.
Qed.

Lemma alike_streamChunks (todo : list string) (failure : option Exn) :
  forall acc,
    alike (streamChunks w todo failure acc) (streamChunks w' todo failure acc).
Proof.
  induction todo as [| chunk rest IH]; intros acc; cbn [streamChunks].
  - alike_all.
  - apply alike_bind; [ apply alike_sendUpdate | intros _ ]. apply IH.
Qed.

Lemma alike_toCitations (l : list Source) :
  forall index, alike (toCitations w index l) (toCitations w' index l).
Proof.
  induction l as [| source rest IH]; intros index; cbn [toCitations].
  - apply alike_ret.
  - apply alike_bind; [ apply alike_hostname | intros domain ].
    apply alike_bind; [ apply alike_categorizeSource | intros category ].
    apply alike_bind; [ apply IH | intros cs ]. apply alike_ret.
Qed.

Lemma alike_reportPhase (topic : string) (st : Locals) :
  alike (reportPhase w topic st) (reportPhase w' topic st).
Proof.
  unfold reportPhase. alike_all. apply alike_streamChunks.
Qed.

Lemma alike_finalUpdate (content : string) (cites : Citations) (st : Locals) :
  alike (finalUpdate w content cites st) (finalUpdate w' content cites st).
Proof.
  unfold finalUpdate. alike_all. apply alike_toCitations.
Qed.

Lemma alike_investigate (topic sessionId depth : string) :
  alike (investigate w topic sessionId depth)
    (investigate w' topic sessionId depth).
Proof.
  unfold investigate. alike_all;
    first [ apply alike_reportPhase | apply alike_analysisLoop
          | apply alike_searchLoop | apply alike_createResearchPlan ].
Qed.

Lemma alike_start (topic sessionId depth : string) :
  agree (fst (start w topic sessionId depth startEnv))
    (fst (start w' topic sessionId depth startEnv)).
Proof.
  unfold start, tryFinally.
  assert (Hbody :
    alike
      (tryCatch (research w topic sessionId depth ;;; ret tt)
         (fun err =>
            sendUpdate w
              (Ev.error (messageOr err "Unknown error occurred") "Unknown")))
      (tryCatch (research w' topic sessionId depth ;;; ret tt)
         (fun err =>
            sendUpdate w'
              (Ev.error (messageOr err "Unknown error occurred") "Unknown")))).
  { unfold research. alike_all;
      first [ apply alike_finalUpdate | apply alike_investigate ]. }
  destruct (Hbody startEnv startEnv (conj eq_refl (conj eq_refl eq_refl)))
    as [(Ht & Hk & Hc) _].
  destruct (tryCatch _ _ startEnv) as [e1 r1].
  destruct (tryCatch _ _ startEnv) as [e2 r2].
  cbn [fst] in *. unfold close, agree. cbn. auto.
Qed.

End StoreIndifference.

(** X23: the stream does not depend on the store accepting the updates:
    for every request, a run in a world whose store accepts the updates of
    the row as any other world's does, everything else being equal, enqueues
    the same events with the same time stamps, makes the same adapter calls
    and closes the stream alike.  A rejected or failing update is logged
    and never reaches the client. *)
Theorem stream_ignores_rejected_updates (w : World) (ok : nat -> bool)
    (req : Request) :
  let r := POST w req in
  let r' := POST (withUpdateOk ok w) req in
  framesOf r' = framesOf r
  /\ callsOf r' = callsOf r
  /\ streamClosed r' = streamClosed r.
Proof.
  cbv zeta. unfold POST.
  destruct (falsy (topic req) || falsy (sessionId req)); [ auto | ].
  destruct (topic req) as [t |]; [ | auto ].
  destruct (sessionId req) as [sid |]; [ | auto ].
  cbn [framesOf callsOf streamClosed].
  destruct (alike_start w ok t sid
              match depth req with Some d => d | None => "basic"%string end)
    as (Ht & _ & Hc).
  unfold frames, calls. rewrite Ht, Hc. auto.
Qed.

(** ** What recovery shows of a search is what the stream showed *)

Lemma shownLive_more (fs fs' : list Frame) (r : SearchLinkRecord) :
  shownLive fs r -> shownLive (fs ++ fs') r.
Proof.
  intros (t & d & Hin). exists t, d. apply in_or_app. left. exact Hin.
Qed.

Lemma rowShown_more (fs fs' : list Frame) (m : Message) :
  rowShown fs m -> rowShown (fs ++ fs') m.
Proof.
  intros Hm pl Hl. eapply Forall_impl; [ | exact (Hm pl Hl) ].
  intros r. apply shownLive_more.
Qed.

Lemma rowsShown_more (fs fs' : list Frame) (rs : list Message) :
  Forall (rowShown fs) rs -> Forall (rowShown (fs ++ fs')) rs.
Proof. apply Forall_impl. intros m. apply rowShown_more. Qed.

Lemma frames_app (e : Env) (new : list Event) (rs : list Message)
    (tk n : nat) (c : bool) :
  frames (mkEnv (trace e ++ new) rs tk n c)
  = frames e ++ flat_map sentFrame new.
Proof. unfold frames. cbn [trace]. apply flat_map_app. Qed.

Lemma persisted_shown (w : World) (id : option string) (n : nat)
    (rs : list Message) (u : Updates) (pl' : PlanLinks) (fs : list Frame) :
  up_research_plan_links u = Some pl' ->
  Forall (shownLive fs) (pl_searches pl') ->
  Forall (rowShown fs) rs ->
  Forall (rowShown fs) (persisted w id n rs u).
Proof.
  intros Hu Hpl Hrs. unfold persisted.
  destruct (updatable id); [ | exact Hrs ].
  destruct (rev rs) as [| current older]; [ exact Hrs | ].
  destruct (updateOk w n); [ | exact Hrs ].
  apply Forall_app. split; [ exact Hrs | ].
  constructor; [ | constructor ].
  intros pl Hl. cbn in Hl. rewrite Hu in Hl. cbn in Hl.
  inversion Hl; subst pl. exact Hpl.
Qed.

Lemma firstn_map {A B : Type} (f : A -> B) (n : nat) (l : list A) :
  firstn n (map f l) = map f (firstn n l).
Proof.
  revert l. induction n as [| n IH]; intros [| a l]; cbn; try reflexivity.
  rewrite IH. reflexivity.
Qed.

Section Showing.

Variable w : World.
Variable plan : ResearchPlan.
Variable depth : string.

Lemma searchIteration_showing (i : nat) (search : SearchSpec) (st : Locals)
    (e : Env) :
  showing e st ->
  match searchIteration w plan depth i search st e with
  | (e', Ok st') => showing e' st'
  | (e', Threw _) => Forall (rowShown (frames e')) (rows e')
  end.
Proof.
  intros [Hst Hrows].
  destruct (allParse w
              (sr_results
                 (searchOutcome w i (query search) depth (priority search))))
    eqn:Hp.
  - destruct (searchIteration_links w plan depth i search st e Hp)
      as (t1 & t2 & t3 & tk & links & Hl & Ht & E).
    rewrite E. clear E. unfold showing.
    cbn [planLinksData rows]. rewrite frames_app.
    cbn [flat_map sentFrame payload app].
    set (result := searchOutcome w i (query search) depth (priority search))
      in *.
    assert (Hnew :
      Forall
        (shownLive
           (frames e
            ++ [searchStartFrame i search;
                searchCompleteFrame i search result;
                Ev.progress (searchProgress (Z.of_nat i + 2) plan)]))
        (pl_searches
           (pushSearch (planLinksData st) i search result links
              (map lk_domain links)))).
    { unfold pushSearch. cbn [pl_searches]. apply Forall_app. split.
      - eapply Forall_impl; [ | exact Hst ]. intros r. apply shownLive_more.
      - constructor; [ | constructor ].
        unfold shownLive, searchCompleteFrame, recoveredSearch, slice0.
        cbn [sl_step sl_query sl_result_count sl_links ru_data].
        do 2 eexists. apply in_or_app. right. right. left.
        rewrite <- !firstn_map, Ht. reflexivity. }
    split; [ exact Hnew | ].
    eapply persisted_shown; [ reflexivity | exact Hnew | ].
    apply rowsShown_more. exact Hrows.
  - destruct (searchIteration_bad w plan depth i search st e Hp)
      as (t1 & tk & E).
    rewrite E. cbn [rows]. rewrite frames_app.
    apply rowsShown_more. exact Hrows.
Qed.

Lemma searchLoop_showing (todo : list SearchSpec) :
  forall i st e,
    showing e st ->
    match searchLoop w plan depth i todo st e with
    | (e', Ok st') => showing e' st'
    | (e', Threw _) => Forall (rowShown (frames e')) (rows e')
    end.
Proof.
  induction todo as [| search rest IH]; intros i st e Hs.
  - exact Hs.
  - cbn [searchLoop]. unfold bind.
    pose proof (searchIteration_showing i search st e Hs) as Hstep.
    destruct (searchIteration w plan depth i search st e) as [e1 [st1 | x]].
    + exact (IH (S i) st1 e1 Hstep).
    + exact Hstep.
Qed.

Lemma analysisIteration_showing (i : nat) (analysis : AnalysisSpec)
    (st : Locals) (e : Env) :
  showing e st ->
  match analysisIteration w plan i analysis st e with
  | (e', Ok st') => showing e' st'
  | (e', Threw _) => Forall (rowShown (frames e')) (rows e')
  end.
Proof.
  intros [Hst Hrows].
  destruct (analysisAnswer w i (searchResults st) analysis) as [r |] eqn:Hr.
  - destruct (analysisIteration_ok w plan i analysis st e r Hr)
      as (t1 & t2 & t3 & tk & E).
    rewrite E. clear E. unfold showing.
    cbn [planLinksData rows]. rewrite frames_app.
    assert (Hnew :
      Forall (shownLive (frames e ++ flat_map sentFrame
                [Sent (mkUpdate (analysisStartFrame i analysis) t1);
                 Called (analysisCall i analysis);
                 Sent (mkUpdate (analysisCompleteFrame i analysis r) t2);
                 Sent (mkUpdate (Ev.progress (analysisProgress i plan)) t3)]))
        (pl_searches (pushAnalysis plan (planLinksData st) i analysis r))).
    { unfold pushAnalysis. cbn [pl_searches].
      eapply Forall_impl; [ | exact Hst ]. intros s. apply shownLive_more. }
    split; [ exact Hnew | ].
    eapply persisted_shown; [ reflexivity | exact Hnew | ].
    apply rowsShown_more. exact Hrows.
  - destruct (analysisIteration_bad w plan i analysis st e Hr)
      as (t1 & tk & x & E).
    rewrite E. cbn [rows]. rewrite frames_app.
    apply rowsShown_more. exact Hrows.
Qed.

Lemma analysisLoop_showing (todo : list AnalysisSpec) :
  forall i st e,
    showing e st ->
    match analysisLoop w plan i todo st e with
    | (e', Ok st') => showing e' st'
    | (e', Threw _) => Forall (rowShown (frames e')) (rows e')
    end.
Proof.
  induction todo as [| analysis rest IH]; intros i st e Hs.
  - exact Hs.
  - cbn [analysisLoop]. unfold bind.
    pose proof (analysisIteration_showing i analysis st e Hs) as Hstep.
    destruct (analysisIteration w plan i analysis st e) as [e1 [st1 | x]].
    + exact (IH (S i) st1 e1 Hstep).
    + exact Hstep.
Qed.

End Showing.

Section ShowingRun.

Variable w : World.
Variable topic sessionId depth : string.

Lemma investigate_showing :
  match investigate w topic sessionId depth startEnv with
  | (e', Ok found) => showing e' (fst found)
  | (e', Threw _) => Forall (rowShown (frames e')) (rows e')
  end.
Proof.
  unfold investigate, createResearchPlan, generateObject.
  unfold bind, sendUpdate, enqueue, logCall, record, tick, bind, await.
  cbn [fst snd trace rows ticks writes closed startEnv app].
  destruct (generatePlan w topic (clock w 0)) as [plan | x];
    [ | cbn; constructor ].
  unfold ret. destruct (ResearchPlanSchema plan); [ | cbn; constructor ].
  cbn [fst snd trace rows ticks writes closed startEnv app].
  match goal with
  | |- context [insertAssistantMessage w ?row ?e0] =>
      assert (Hins :
        exists e1,
          insertAssistantMessage w row e0 = (e1, Ok (insertMessage w))
          /\ Forall (rowShown (frames e1)) (rows e1));
      [ unfold insertAssistantMessage;
        destruct (insertMessage w) as [id |]; eexists;
        (split; [ reflexivity | ]); cbn [rows app]
      | destruct Hins as (e1 & -> & Hrows1) ]
  end.
  { constructor; [ | constructor ].
    intros pl Hl. cbn in Hl. inversion Hl. constructor. }
  { constructor. }
  match goal with
  | |- context [searchLoop w plan depth 0 (searches plan) ?st0 e1] =>
      assert (Hs0 : showing e1 st0) by (split; [ constructor | exact Hrows1 ]);
      pose proof (searchLoop_showing w plan depth (searches plan) 0 st0 e1 Hs0)
        as Hs;
      destruct (searchLoop w plan depth 0 (searches plan) st0 e1)
        as [e2 [st1 | x1]]; [ | exact Hs ]
  end.
  match goal with
  | |- context [analysisLoop w plan 0 (analyses plan) ?st1' e2] =>
      pose proof (analysisLoop_showing w plan (analyses plan) 0 st1' e2 Hs)
        as Ha;
      destruct (analysisLoop w plan 0 (analyses plan) st1' e2)
        as [e3 [st2 | x2]]; [ | exact Ha ]
  end.
  destruct (reportPhase_runs w topic st2 e3) as (new & tk & n & r & E & R).
  rewrite E. destruct Ha as [Hst Hrows].
  destruct r as [report | x3]; cbn [fst snd].
  - split; cbn [rows]; rewrite frames_app.
    + eapply Forall_impl; [ | exact Hst ]. intros s. apply shownLive_more.
    + apply rowsShown_more. exact Hrows.
  - cbn [rows]. rewrite frames_app. apply rowsShown_more. exact Hrows.
Qed.

Lemma finalUpdate_showing (content : string) (cites : Citations)
    (st : Locals) (e : Env) :
  showing e st ->
  Forall (rowShown (frames e)) (rows (fst (finalUpdate w content cites st e))).
Proof.
  intros [Hst Hrows]. unfold finalUpdate.
  destruct (assistantMessageId st) as [id |]; [ | exact Hrows ].
  destruct (truthy id) eqn:Et; [ | exact Hrows ].
  unfold bind at 1.
  pose proof (toCitations_env w (allSources cites) 0 e) as Hc.
  destruct (toCitations w 0 (allSources cites) e) as [e1 [cs | x]];
    cbn [fst] in Hc; subst e1; [ | exact Hrows ].
  unfold bind, ret.
  cbn [updateMessageInDatabase fst snd trace rows ticks writes closed
       planLinksData].
  pose proof (persisted_shown w (Some id) (writes e) (rows e)
                (finalUpdates content st cs) _ (frames e) eq_refl Hst Hrows)
    as Hp.
  unfold persisted in Hp. cbn [updatable] in Hp. rewrite Et in Hp.
  exact Hp.
Qed.

Lemma run_showing :
  Forall (rowShown (frames (runOf w topic sessionId depth)))
    (rows (runOf w topic sessionId depth)).
Proof.
  unfold runOf, start, tryFinally, tryCatch, research.
  unfold sendUpdate, bind, tick, enqueue, record.
  pose proof investigate_showing as Hi.
  destruct (investigate w topic sessionId depth startEnv)
    as [e1 [found | x]].
  - pose proof (finalUpdate_showing (fst (snd found)) (snd (snd found))
                  (fst found) e1 Hi) as Hf.
    destruct (finalUpdate_env w (fst (snd found)) (snd (snd found))
                (fst found) e1) as (rs & n & Ef).
    destruct (finalUpdate w (fst (snd found)) (snd (snd found)) (fst found) e1)
      as [e2 [st | x]]; cbn [fst snd] in *; subst e2; unfold close;
      cbn [rows trace ticks writes closed ret fst] in *.
    + exact Hf.
    + rewrite frames_app. apply rowsShown_more. exact Hf.
  - cbn [fst snd]. unfold close. cbn [rows trace ticks writes closed].
    rewrite frames_app. apply rowsShown_more. exact Hi.
Qed.

End ShowingRun.

(** X24: what recovery shows of a search step is what the stream showed.
    For every value the row takes during a run and every search record in
    it, the stream of the run holds the [step_complete] frame of the step
    of that record, with the status and the data (query, result count and
    the first four sources) that [recoverFromDatabase] gives to the
    recovered step. *)
Theorem recovered_search_steps_match_the_stream (w : World) (req : Request) :
  Forall
    (fun m =>
       exists pl,
         research_plan_links m = Some pl
         /\ Forall
              (fun r =>
                 let u := recoveredSearch (created_at pl) r in
                 exists title description,
                   In (Ev.step_complete (ru_step u) title description
                         (ru_status u) (ru_data u))
                      (framesOf (POST w req)))
              (pl_searches pl))
    (rowsOf (POST w req)).
Proof.
  pose proof (POST_history w req) as [Hrows _].
  assert (Hshown : Forall (rowShown (framesOf (POST w req)))
                     (rowsOf (POST w req))).
  { destruct (POST w req) as [s body | e] eqn:E; [ constructor | ].
    destruct (POST_stream w req e E) as (t & sid & _ & _ & _ & _ & ->).
    apply run_showing. }
  rewrite Forall_forall in *. intros m Hm.
  destruct (Hrows m Hm) as (_ & pl & Hl & (_ & _ & Hfs & _) & _).
  exists pl. split; [ exact Hl | ].
  pose proof (Hshown m Hm pl Hl) as Hsh.
  rewrite Forall_forall in *. intros r Hr. cbv zeta.
  destruct (Hsh r Hr) as (title & description & Hin).
  destruct (Hfs r Hr) as [Hstatus _].
  exists title, description. cbn [recoveredSearch ru_step ru_status ru_data].
  rewrite Hstatus. exact Hin.
Qed.

(** ** A store that does not create the row *)

Section NoRow.

Variable w : World.
Variable plan : ResearchPlan.
Variable depth : string.

Lemma searchLoop_untouched (todo : list SearchSpec) :
  forall i st e,
    assistantMessageId st = None -> untouched e ->
    untouched (fst (searchLoop w plan depth i todo st e))
    /\ forall st', snd (searchLoop w plan depth i todo st e) = Ok st' ->
                  assistantMessageId st' = None.
Proof.
  induction todo as [| search rest IH]; intros i st e Hid Hu.
  - cbn. split; [ exact Hu | ]. intros st' Hs. inversion Hs; subst. exact Hid.
  - cbn [searchLoop]. unfold bind.
    destruct (allParse w
                (sr_results
                   (searchOutcome w i (query search) depth (priority search))))
      eqn:Hp.
    + destruct (searchIteration_ok w plan depth i search st e Hp)
        as (t1 & t2 & t3 & tk & links & domains & _ & E).
      rewrite E. apply IH; [ exact Hid | ].
      unfold untouched, persisted, writesAfter, updatable. rewrite Hid.
      exact Hu.
    + destruct (searchIteration_bad w plan depth i search st e Hp)
        as (t1 & tk & E).
      rewrite E. cbn. split; [ exact Hu | discriminate ].
Qed.

Lemma analysisLoop_untouched (todo : list AnalysisSpec) :
  forall i st e,
    assistantMessageId st = None -> untouched e ->
    untouched (fst (analysisLoop w plan i todo st e))
    /\ forall st', snd (analysisLoop w plan i todo st e) = Ok st' ->
                  assistantMessageId st' = None.
Proof.
  induction todo as [| analysis rest IH]; intros i st e Hid Hu.
  - cbn. split; [ exact Hu | ]. intros st' Hs. inversion Hs; subst. exact Hid.
  - cbn [analysisLoop]. unfold bind.
    destruct (analysisAnswer w i (searchResults st) analysis) as [r |] eqn:Hr.
    + destruct (analysisIteration_ok w plan i analysis st e r Hr)
        as (t1 & t2 & t3 & tk & E).
      rewrite E. apply IH; [ exact Hid | ].
      unfold untouched, persisted, writesAfter, updatable. rewrite Hid.
      exact Hu.
    + destruct (analysisIteration_bad w plan i analysis st e Hr)
        as (t1 & tk & x & E).
      rewrite E. cbn. split; [ exact Hu | discriminate ].
Qed.

End NoRow.

Section NoRowRun.

Variable w : World.
Variable topic sessionId depth : string.
Hypothesis Hnone : insertMessage w = None.

Lemma investigate_untouched :
  untouched (fst (investigate w topic sessionId depth startEnv))
  /\ forall found,
       snd (investigate w topic sessionId depth startEnv) = Ok found ->
       assistantMessageId (fst found) = None.
Proof.
  unfold investigate, createResearchPlan, generateObject.
  unfold bind, sendUpdate, enqueue, logCall, record, tick, bind, await.
  cbn [fst snd trace rows ticks writes closed startEnv app].
  destruct (generatePlan w topic (clock w 0)) as [plan | x];
    [ | cbn; split; [ split; reflexivity | discriminate ] ].
  unfold ret.
  destruct (ResearchPlanSchema plan);
    [ | cbn; split; [ split; reflexivity | discriminate ] ].
  cbn [fst snd trace rows ticks writes closed startEnv app].
  unfold insertAssistantMessage. rewrite Hnone.
  cbn [fst snd trace rows ticks writes closed].
  match goal with
  | |- context [searchLoop w plan depth 0 (searches plan) ?st0 ?e1] =>
      destruct (searchLoop_untouched w plan depth (searches plan) 0 st0 e1
                  eq_refl (conj eq_refl eq_refl)) as [Hu1 Hid1];
      destruct (searchLoop w plan depth 0 (searches plan) st0 e1)
        as [e2 [st1 | x1]]
  end; cbn [fst snd] in *; [ | split; [ exact Hu1 | discriminate ] ].
  specialize (Hid1 st1 eq_refl).
  match goal with
  | |- context [analysisLoop w plan 0 (analyses plan) ?st1' e2] =>
      destruct (analysisLoop_untouched w plan (analyses plan) 0 st1' e2
                  Hid1 Hu1) as [Hu2 Hid2];
      destruct (analysisLoop w plan 0 (analyses plan) st1' e2)
        as [e3 [st2 | x2]]
  end; cbn [fst snd] in *; [ | split; [ exact Hu2 | discriminate ] ].
  specialize (Hid2 st2 eq_refl).
  destruct (reportPhase_runs w topic st2 e3) as (new & tk & n & r & E & R).
  rewrite E. destruct r as [report | x3]; cbn [fst snd].
  - split; [ exact Hu2 | ]. intros found Hf. inversion Hf; subst found.
    exact Hid2.
  - split; [ exact Hu2 | discriminate ].
Qed.

Lemma run_untouched :
  untouched (runOf w topic sessionId depth)
  /\ (plannedBy w topic <> None ->
      Healthy w topic ->
      existsb isErrorFrame (frames (runOf w topic sessionId depth)) = false).
Proof.
  unfold runOf, start, tryFinally, tryCatch, research.
  unfold sendUpdate, bind, tick, enqueue, record.
  destruct investigate_untouched as [Hu Hid].
  destruct (plannedBy w topic) as [plan |] eqn:Hp.
  2: { destruct (investigate w topic sessionId depth startEnv)
         as [e1 [found | x]]; cbn [fst snd] in *.
       - specialize (Hid found eq_refl). unfold finalUpdate. rewrite Hid.
         cbn. split; [ exact Hu | intros Hc; contradiction ].
       - unfold close. cbn. split; [ exact Hu | intros Hc; contradiction ]. }
  destruct (investigate_planned w topic sessionId depth plan Hp)
    as (n & new & T & R).
  destruct (investigate w topic sessionId depth startEnv)
    as [e1 [found | x]]; cbn [fst snd trace startEnv app] in *.
  - specialize (Hid found eq_refl). unfold finalUpdate. rewrite Hid.
    cbn [ret fst snd]. unfold close. split; [ exact Hu | ].
    intros _ _. apply no_error_tag_frames.
    match goal with
    | |- ~ In TError (map frameTag (frames ?e0)) =>
        rewrite (frameTags_trace e0)
    end.
    cbn [trace]. rewrite T, R. intros Hin. apply filter_In in Hin.
    exact (fullTags_no_error w topic depth plan n
             (plannedBy_fiveAndFive w topic plan Hp) (proj1 Hin)).
  - unfold close. cbn [rows writes]. split; [ exact Hu | ].
    intros _ Hh. destruct R as [_ Hn]. contradiction.
Qed.

End NoRowRun.

(** X25: a store that does not create the row is left alone.  When the
    insertion of the assistant message fails, no update of the row is ever
    attempted and the store stays empty; the run goes on without it, and in
    a world whose adapters behave it ends without an error, since the
    citations of the final update are not even computed. *)
Theorem run_without_row_writes_nothing (w : World)
    (topic sessionId : string) (depth : option string) :
  truthy topic = true ->
  truthy sessionId = true ->
  insertMessage w = None ->
  match POST w (validRequest topic sessionId depth) with
  | BadRequest _ _ => False
  | EventStream e =>
      writes e = 0%nat
      /\ rows e = []
      /\ (Healthy w topic -> existsb isErrorFrame (frames e) = false)
  end.
Proof.
  intros Ht Hs Hnone. rewrite (POST_valid w topic sessionId depth Ht Hs).
  destruct (run_untouched w topic sessionId
              (depthOf (validRequest topic sessionId depth)) Hnone)
    as [[Hw Hr] Hok].
  split; [ exact Hw | ]. split; [ exact Hr | ].
  intros Hh. apply Hok; [ | exact Hh ].
  destruct (plan_ok w topic Hh) as (plan & ->). discriminate.
Qed.

Lemma run_without_row_writes_nothing_witness :
  match POST noRowWorld (validRequest "topic" "session" None) with
  | BadRequest _ _ => False
  | EventStream e =>
      writes e = 0%nat
      /\ rows e = []
      /\ (Healthy noRowWorld "topic" ->
          existsb isErrorFrame (frames e) = false)
  end.
Proof.
  apply (run_without_row_writes_nothing noRowWorld "topic" "session" None);
    reflexivity.
Defined.

(** ** A row whose id does not pass the guard *)

Section Unwritten.

Variable w : World.
Variable plan : ResearchPlan.
Variable depth : string.

Lemma searchLoop_unwritten (todo : list SearchSpec) :
  forall i st e,
    updatable (assistantMessageId st) = false ->
    writes (fst (searchLoop w plan depth i todo st e)) = writes e
    /\ rows (fst (searchLoop w plan depth i todo st e)) = rows e
    /\ forall st', snd (searchLoop w plan depth i todo st e) = Ok st' ->
                  assistantMessageId st' = assistantMessageId st.
Proof.
  induction todo as [| search rest IH]; intros i st e Hid.
  - cbn. split; [ reflexivity | ]. split; [ reflexivity | ].
    intros st' Hs. inversion Hs; subst. reflexivity.
  - cbn [searchLoop]. unfold bind.
    destruct (allParse w
                (sr_results
                   (searchOutcome w i (query search) depth (priority search))))
      eqn:Hp.
    + destruct (searchIteration_ok w plan depth i search st e Hp)
        as (t1 & t2 & t3 & tk & links & domains & _ & E).
      unfold persisted, writesAfter in E. rewrite Hid in E. rewrite E.
      match goal with
      | |- context [searchLoop w plan depth (S i) rest ?st1 ?e1] =>
          destruct (IH (S i) st1 e1 Hid) as (Hw & Hr & Hk)
      end.
      cbn [writes rows] in Hw, Hr.
      split; [ exact Hw | ]. split; [ exact Hr | ].
      intros st' Hs. rewrite (Hk st' Hs). reflexivity.
    + destruct (searchIteration_bad w plan depth i search st e Hp)
        as (t1 & tk & E).
      rewrite E. cbn. split; [ reflexivity | ]. split; [ reflexivity | ].
      discriminate.
Qed.

Lemma analysisLoop_unwritten (todo : list AnalysisSpec) :
  forall i st e,
    updatable (assistantMessageId st) = false ->
    writes (fst (analysisLoop w plan i todo st e)) = writes e
    /\ rows (fst (analysisLoop w plan i todo st e)) = rows e
    /\ forall st', snd (analysisLoop w plan i todo st e) = Ok st' ->
                  assistantMessageId st' = assistantMessageId st.
Proof.
  induction todo as [| analysis rest IH]; intros i st e Hid.
  - cbn. split; [ reflexivity | ]. split; [ reflexivity | ].
    intros st' Hs. inversion Hs; subst. reflexivity.
  - cbn [analysisLoop]. unfold bind.
    destruct (analysisAnswer w i (searchResults st) analysis) as [r |] eqn:Hr0.
    + destruct (analysisIteration_ok w plan i analysis st e r Hr0)
        as (t1 & t2 & t3 & tk & E).
      unfold persisted, writesAfter in E. rewrite Hid in E. rewrite E.
      match goal with
      | |- context [analysisLoop w plan (S i) rest ?st1 ?e1] =>
          destruct (IH (S i) st1 e1 Hid) as (Hw & Hr & Hk)
      end.
      cbn [writes rows] in Hw, Hr.
      split; [ exact Hw | ]. split; [ exact Hr | ].
      intros st' Hs. rewrite (Hk st' Hs). reflexivity.
    + destruct (analysisIteration_bad w plan i analysis st e Hr0)
        as (t1 & tk & x & E).
      rewrite E. cbn. split; [ reflexivity | ]. split; [ reflexivity | ].
      discriminate.
Qed.

End Unwritten.

Section UnwrittenRun.

Variable w : World.
Variable topic sessionId depth : string.
Hypothesis Hfalsy : updatable (insertMessage w) = false.

Lemma investigate_unwritten :
  writes (fst (investigate w topic sessionId depth startEnv)) = 0%nat
  /\ Forall stillPlanning
       (rows (fst (investigate w topic sessionId depth startEnv)))
  /\ forall found,
       snd (investigate w topic sessionId depth startEnv) = Ok found ->
       assistantMessageId (fst found) = insertMessage w
       /\ length (rows (fst (investigate w topic sessionId depth startEnv)))
          = match insertMessage w with Some _ => 1%nat | None => 0%nat end.
Proof.
  unfold investigate, createResearchPlan, generateObject.
  unfold bind, sendUpdate, enqueue, logCall, record, tick, bind, await.
  cbn [fst snd trace rows ticks writes closed startEnv app].
  destruct (generatePlan w topic (clock w 0)) as [plan | x];
    [ | cbn; split; [ reflexivity | split; [ constructor | discriminate ] ] ].
  unfold ret.
  destruct (ResearchPlanSchema plan);
    [ | cbn; split; [ reflexivity | split; [ constructor | discriminate ] ] ].
  cbn [fst snd trace rows ticks writes closed startEnv app].
  match goal with
  | |- context [insertAssistantMessage w ?row ?e0] =>
      assert (Hins :
        writes (fst (insertAssistantMessage w row e0)) = 0%nat
        /\ Forall stillPlanning (rows (fst (insertAssistantMessage w row e0)))
        /\ length (rows (fst (insertAssistantMessage w row e0)))
           = match insertMessage w with Some _ => 1%nat | None => 0%nat end
        /\ snd (insertAssistantMessage w row e0) = Ok (insertMessage w));
      [ unfold insertAssistantMessage;
        destruct (insertMessage w) as [id |]; cbn;
        repeat split; repeat constructor
      | destruct (insertAssistantMessage w row e0) as [ei ri] ]
  end.
  cbn [fst snd] in Hins. destruct Hins as (Hw0 & Hr0 & Hl0 & ->).
  cbn [fst snd].
  match goal with
  | |- context [searchLoop w plan depth 0 (searches plan) ?st0 ei] =>
      destruct (searchLoop_unwritten w plan depth (searches plan) 0 st0 ei
                  Hfalsy) as (Hw1 & Hr1 & Hid1);
      destruct (searchLoop w plan depth 0 (searches plan) st0 ei)
        as [e2 [st1 | x1]]
  end; cbn [fst snd assistantMessageId] in *;
    [ | rewrite Hw1, Hr1; split; [ exact Hw0 | ];
        split; [ exact Hr0 | discriminate ] ].
  specialize (Hid1 st1 eq_refl).
  match goal with
  | |- context [analysisLoop w plan 0 (analyses plan) ?st1' e2] =>
      assert (Hf1 : updatable (assistantMessageId st1') = false)
        by (cbn [assistantMessageId]; rewrite Hid1; exact Hfalsy);
      destruct (analysisLoop_unwritten w plan (analyses plan) 0 st1' e2 Hf1)
        as (Hw2 & Hr2 & Hid2);
      destruct (analysisLoop w plan 0 (analyses plan) st1' e2)
        as [e3 [st2 | x2]]
  end; cbn [fst snd assistantMessageId] in *;
    [ | rewrite Hw2, Hr2, Hw1, Hr1; split; [ exact Hw0 | ];
        split; [ exact Hr0 | discriminate ] ].
  specialize (Hid2 st2 eq_refl).
  destruct (reportPhase_runs w topic st2 e3) as (new & tk & n & r & E & R).
  rewrite E. destruct r as [report | x3]; cbn [fst snd rows writes];
    rewrite Hw2, Hr2, Hw1, Hr1;
    (split; [ exact Hw0 | ]); (split; [ exact Hr0 | ]);
    [ | discriminate ].
  intros found Hf. inversion Hf; subst found. cbn [fst].
  split; [ rewrite Hid2, Hid1; reflexivity | exact Hl0 ].
Qed.

Lemma finalUpdate_skipped (content : string) (cites : Citations)
    (st : Locals) (e : Env) :
  updatable (assistantMessageId st) = false ->
  exists st', finalUpdate w content cites st e = (e, Ok st').
Proof.
  intros Hid. unfold finalUpdate.
  destruct (assistantMessageId st) as [id |];
    [ cbn [updatable] in Hid; rewrite Hid | ]; eexists; reflexivity.
Qed.

Lemma run_unwritten :
  writes (runOf w topic sessionId depth) = 0%nat
  /\ Forall stillPlanning (rows (runOf w topic sessionId depth))
  /\ (Healthy w topic ->
      completedLive (frames (runOf w topic sessionId depth))
      /\ length (rows (runOf w topic sessionId depth))
         = match insertMessage w with Some _ => 1%nat | None => 0%nat end).
Proof.
  unfold runOf, start, tryFinally, tryCatch, research.
  unfold sendUpdate, bind, tick, enqueue, record.
  destruct investigate_unwritten as (Hw & Hr & Hid).
  pose proof (investigate_between w topic sessionId depth) as Hb.
  destruct (plannedBy w topic) as [plan |] eqn:Hp.
  2: { assert (Hno : Healthy w topic -> False).
       { intros Hh. destruct (plan_ok w topic Hh) as (plan & Hpl).
         rewrite Hpl in Hp. discriminate. }
       destruct (investigate w topic sessionId depth startEnv)
         as [e1 [found | x]]; cbn [fst snd] in *.
       - destruct (Hid found eq_refl) as [Hi _].
         destruct (finalUpdate_skipped (fst (snd found)) (snd (snd found))
                     (fst found) e1) as (st' & ->);
           [ rewrite Hi; exact Hfalsy | ].
         cbn. split; [ exact Hw | ]. split; [ exact Hr | ].
         intros Hh. destruct (Hno Hh).
       - unfold close. cbn. split; [ exact Hw | ]. split; [ exact Hr | ].
         intros Hh. destruct (Hno Hh). }
  destruct (investigate_planned w topic sessionId depth plan Hp)
    as (n & new & T & R).
  destruct (investigate w topic sessionId depth startEnv)
    as [e1 [found | x]]; cbn [fst snd trace startEnv app] in *.
  - destruct (Hid found eq_refl) as [Hi Hl].
    destruct (finalUpdate_skipped (fst (snd found)) (snd (snd found))
                (fst found) e1) as (st' & ->);
      [ rewrite Hi; exact Hfalsy | ].
    cbn [ret fst snd]. unfold close. cbn [rows writes].
    split; [ exact Hw | ]. split; [ exact Hr | ].
    intros _. split; [ | exact Hl ]. split.
    + apply no_error_tag_frames.
      match goal with
      | |- ~ In TError (map frameTag (frames ?e0)) =>
          rewrite (frameTags_trace e0)
      end.
      cbn [trace]. rewrite T, R. intros Hin. apply filter_In in Hin.
      exact (fullTags_no_error w topic depth plan n
               (plannedBy_fiveAndFive w topic plan Hp) (proj1 Hin)).
    + destruct Hb as (_ & _ & pre & t1 & t2 & t3 & Htrace).
      unfold frames. cbn [trace]. rewrite Htrace, flat_map_app.
      apply in_or_app. right. cbn. auto.
  - unfold close. cbn [rows writes].
    split; [ exact Hw | ]. split; [ exact Hr | ].
    intros Hh. destruct R as [_ Hn]. contradiction.
Qed.

End UnwrittenRun.

(** X26: a row whose id does not pass the guard is never updated.  The
    three updates of the row are guarded by [if (assistantMessageId)]: when
    the store fails to create the row, and also when it creates it with the
    empty string as id, no update is ever asked of the store, and the row,
    if there is one, stays as the insertion left it: status 'planning',
    progress 10, no content and no citations.  In a world whose adapters
    behave the run nevertheless completes live, without an error frame,
    whatever the URLs of its sources: the citations of the final update
    are not computed. *)
Theorem row_without_usable_id_is_never_updated (w : World)
    (topic sessionId : string) (depth : option string) :
  truthy topic = true ->
  truthy sessionId = true ->
  updatable (insertMessage w) = false ->
  let r := POST w (validRequest topic sessionId depth) in
  updatesAsked r = 0%nat
  /\ Forall stillPlanning (rowsOf r)
  /\ (Healthy w topic ->
      completedLive (framesOf r)
      /\ length (rowsOf r)
         = match insertMessage w with Some _ => 1%nat | None => 0%nat end).
Proof.
  intros Ht Hs Hfalsy. cbv zeta.
  rewrite (POST_valid w topic sessionId depth Ht Hs).
  cbn [updatesAsked rowsOf framesOf].
  exact (run_unwritten w topic sessionId
           (depthOf (validRequest topic sessionId depth)) Hfalsy).
Qed.

Lemma emptyIdWorld_healthy : Healthy emptyIdWorld "topic".
Proof.
  constructor.
  - exists plan5. reflexivity.
  - intros i q d n rs. cbn. intros Hr. inversion Hr. reflexivity.
  - intros i sr t d. exists strayAnalysis. split; reflexivity.
  - intros rq. eexists. split; reflexivity.
Qed.

Lemma row_without_usable_id_is_never_updated_witness :
  let r := POST emptyIdWorld (validRequest "topic" "session" None) in
  existsb (reportsUnparseable emptyIdWorld) (framesOf r) = true
  /\ insertMessage emptyIdWorld = Some EmptyString
  /\ updatesAsked r = 0%nat
  /\ Forall stillPlanning (rowsOf r)
  /\ (Healthy emptyIdWorld "topic" ->
      completedLive (framesOf r)
      /\ length (rowsOf r)
         = match insertMessage emptyIdWorld with
           | Some _ => 1%nat
           | None => 0%nat
           end).
Proof.
  cbv zeta.
  split; [ vm_compute; reflexivity | ].
  split; [ reflexivity | ].
  apply (row_without_usable_id_is_never_updated emptyIdWorld "topic"
           "session" None); reflexivity.
Defined.

(** ** The updates asked of the store *)

Section Asked.

Variable w : World.
Variable plan : ResearchPlan.
Variable depth : string.

Lemma searchLoop_asks (todo : list SearchSpec) :
  forall i st e st',
    updatable (assistantMessageId st) = true ->
    snd (searchLoop w plan depth i todo st e) = Ok st' ->
    writes (fst (searchLoop w plan depth i todo st e))
    = (writes e + length todo)%nat
    /\ assistantMessageId st' = assistantMessageId st.
Proof.
  induction todo as [| search rest IH]; intros i st e st' Hid.
  - cbn. intros Hs. inversion Hs; subst. split; [ lia | reflexivity ].
  - cbn [searchLoop]. unfold bind.
    destruct (allParse w
                (sr_results
                   (searchOutcome w i (query search) depth (priority search))))
      eqn:Hp.
    + destruct (searchIteration_ok w plan depth i search st e Hp)
        as (t1 & t2 & t3 & tk & links & domains & _ & E).
      unfold writesAfter in E. rewrite Hid in E. rewrite E.
      intros Hs.
      match goal with
      | |- context [searchLoop w plan depth (S i) rest ?st1 ?e1] =>
          destruct (IH (S i) st1 e1 st' Hid Hs) as (Hw & Hk)
      end.
      cbn [writes assistantMessageId length] in *.
      split; [ rewrite Hw; lia | exact Hk ].
    + destruct (searchIteration_bad w plan depth i search st e Hp)
        as (t1 & tk & E).
      rewrite E. cbn. discriminate.
Qed.

Lemma analysisLoop_asks (todo : list AnalysisSpec) :
  forall i st e st',
    updatable (assistantMessageId st) = true ->
    snd (analysisLoop w plan i todo st e) = Ok st' ->
    writes (fst (analysisLoop w plan i todo st e))
    = (writes e + length todo)%nat
    /\ assistantMessageId st' = assistantMessageId st.
Proof.
  induction todo as [| analysis rest IH]; intros i st e st' Hid.
  - cbn. intros Hs. inversion Hs; subst. split; [ lia | reflexivity ].
  - cbn [analysisLoop]. unfold bind.
    destruct (analysisAnswer w i (searchResults st) analysis) as [r |] eqn:Hr0.
    + destruct (analysisIteration_ok w plan i analysis st e r Hr0)
        as (t1 & t2 & t3 & tk & E).
      unfold writesAfter in E. rewrite Hid in E. rewrite E.
      intros Hs.
      match goal with
      | |- context [analysisLoop w plan (S i) rest ?st1 ?e1] =>
          destruct (IH (S i) st1 e1 st' Hid Hs) as (Hw & Hk)
      end.
      cbn [writes assistantMessageId length] in *.
      split; [ rewrite Hw; lia | exact Hk ].
    + destruct (analysisIteration_bad w plan i analysis st e Hr0)
        as (t1 & tk & x & E).
      rewrite E. cbn. discriminate.
Qed.

End Asked.

Section AskedRun.

Variable w : World.
Variable topic sessionId depth : string.
Hypothesis Husable : updatable (insertMessage w) = true.

Lemma investigate_asks (found : Locals * (string * Citations)) :
  snd (investigate w topic sessionId depth startEnv) = Ok found ->
  writes (fst (investigate w topic sessionId depth startEnv)) = 10%nat.
Proof.
  unfold investigate, createResearchPlan, generateObject.
  unfold bind, sendUpdate, enqueue, logCall, record, tick, bind, await.
  cbn [fst snd trace rows ticks writes closed startEnv app].
  destruct (generatePlan w topic (clock w 0)) as [plan | x];
    [ | cbn; discriminate ].
  unfold ret.
  destruct (ResearchPlanSchema plan) eqn:Hschema; [ | cbn; discriminate ].
  destruct (schema_fiveAndFive plan Hschema) as [Hfive1 Hfive2].
  cbn [fst snd trace rows ticks writes closed startEnv app].
  match goal with
  | |- context [insertAssistantMessage w ?row ?e0] =>
      assert (Hins :
        writes (fst (insertAssistantMessage w row e0)) = 0%nat
        /\ snd (insertAssistantMessage w row e0) = Ok (insertMessage w));
      [ unfold insertAssistantMessage;
        destruct (insertMessage w) as [id |]; cbn; split; reflexivity
      | destruct (insertAssistantMessage w row e0) as [ei ri] ]
  end.
  cbn [fst snd] in Hins. destruct Hins as (Hw0 & ->).
  cbn [fst snd].
  match goal with
  | |- context [searchLoop w plan depth 0 (searches plan) ?st0 ei] =>
      pose proof (fun st' =>
                    searchLoop_asks w plan depth (searches plan) 0 st0 ei st'
                      Husable) as H1;
      destruct (searchLoop w plan depth 0 (searches plan) st0 ei)
        as [e2 [st1 | x1]]
  end; cbn [fst snd assistantMessageId] in *; [ | discriminate ].
  destruct (H1 st1 eq_refl) as (Hw1 & Hid1).
  match goal with
  | |- context [analysisLoop w plan 0 (analyses plan) ?st1' e2] =>
      assert (Hu1 : updatable (assistantMessageId st1') = true)
        by (cbn [assistantMessageId]; rewrite Hid1; exact Husable);
      pose proof (fun st' =>
                    analysisLoop_asks w plan (analyses plan) 0 st1' e2 st'
                      Hu1) as H2;
      destruct (analysisLoop w plan 0 (analyses plan) st1' e2)
        as [e3 [st2 | x2]]
  end; cbn [fst snd assistantMessageId] in *; [ | discriminate ].
  destruct (H2 st2 eq_refl) as (Hw2 & Hid2).
  destruct (reportPhase_runs w topic st2 e3) as (new & tk & n & r & E & R).
  rewrite E. destruct r as [report | x3]; cbn [fst snd writes];
    [ | discriminate ].
  intros _. rewrite Hw2, Hw1, Hw0, Hfive1, Hfive2. reflexivity.
Qed.

Lemma run_asks :
  completedLive (frames (runOf w topic sessionId depth)) ->
  writes (runOf w topic sessionId depth) = 11%nat.
Proof.
  unfold runOf, start, tryFinally, tryCatch, research.
  unfold sendUpdate, bind, tick, enqueue, record.
  pose proof (investigate_between w topic sessionId depth) as Hi.
  pose proof investigate_asks as Hten.
  destruct (investigate w topic sessionId depth startEnv) as [e1 [found | x]].
  2: {
    intros [Hno _]. exfalso.
    unfold frames, close in Hno. cbn [fst trace] in Hno.
    rewrite flat_map_app in Hno. cbn [flat_map sentFrame payload app] in Hno.
    rewrite error_is_seen in Hno. discriminate. }
  destruct Hi as (Hb & _).
  specialize (Hten found eq_refl). cbn [fst] in Hten.
  pose proof (finalUpdate_between w (fst (snd found)) (snd (snd found))
                (fst found) e1 Hb) as Hf.
  destruct (finalUpdate w (fst (snd found)) (snd (snd found)) (fst found) e1)
    as [e2 [st | x]].
  2: {
    intros [Hno _]. exfalso.
    unfold frames, close in Hno. cbn [fst trace] in Hno.
    rewrite flat_map_app in Hno. cbn [flat_map sentFrame payload app] in Hno.
    rewrite error_is_seen in Hno. discriminate. }
  destruct Hf as (_ & _ & _ & Hrow).
  destruct (Hrow Husable) as (Hwrites & _).
  intros _. unfold close, ret. cbn [fst writes].
  rewrite Hwrites, Hten. reflexivity.
Qed.

End AskedRun.

(** X27: a run that completes with a usable row id asks the store for
    eleven updates.  The plan schema fixes five searches and five analyses;
    each iteration that ends asks for one update of the row, and the final
    update follows the report: a run that completed live, with a row id
    that passes the guard [if (assistantMessageId)], has asked for exactly
    eleven updates, so that the last update asked is the final one, the
    eleventh, and it was accepted exactly when the store accepts that
    one. *)
Theorem completed_run_asks_eleven_updates (w : World)
    (topic sessionId : string) (depth : option string) :
  truthy topic = true ->
  truthy sessionId = true ->
  updatable (insertMessage w) = true ->
  let r := POST w (validRequest topic sessionId depth) in
  completedLive (framesOf r) ->
  updatesAsked r = 11%nat
  /\ (lastUpdateAccepted w r <-> updateOk w 10 = true).
Proof.
  intros Ht Hs Husable. cbv zeta. unfold lastUpdateAccepted.
  rewrite (POST_valid w topic sessionId depth Ht Hs).
  cbn [updatesAsked framesOf]. intros Hlive.
  rewrite (run_asks w topic sessionId
             (depthOf (validRequest topic sessionId depth)) Husable Hlive).
  split; [ reflexivity | ]. split; intros H; exact H.
Qed.

Lemma completed_run_asks_eleven_updates_witness :
  let r := POST calmWorld (validRequest "topic" "session" None) in
  updatesAsked r = 11%nat
  /\ (lastUpdateAccepted calmWorld r <-> updateOk calmWorld 10 = true).
Proof.
  cbv zeta.
  apply (completed_run_asks_eleven_updates calmWorld "topic" "session" None).
  - reflexivity.
  - reflexivity.
  - reflexivity.
  - exact calm_run_completed.
Defined.

(** ** Numbers in titles and descriptions *)

(** The titles and descriptions of the steps render their numbers as a
    template literal does: every digit below [10^21], the shortest digits
    that read back as the same Number above [2^53], and the exponent form
    from [10^21]. *)
Lemma numbers_are_rendered_as_template_literals :
  showZ 0 = "0"%string
  /\ showZ 12 = "12"%string
  /\ showZ (-5) = "-5"%string
  /\ showZ 1200 = "1200"%string
  /\ showZ (2 ^ 53 + 1) = "9007199254740992"%string
  /\ showZ (2 ^ 64) = "18446744073709552000"%string
  /\ showZ 123456789012345678901 = "123456789012345680000"%string
  /\ showZ (10 ^ 21 - 1) = "1e+21"%string
  /\ showZ (10 ^ 21) = "1e+21"%string
  /\ showZ (10 ^ 23) = "1e+23"%string
  /\ showZ 123456789012345678901234 = "1.2345678901234569e+23"%string
  /\ showZ (- 2 ^ 70) = "-1.1805916207174113e+21"%string
  /\ showZ (2 ^ 1024) = "Infinity"%string
  /\ ru_title
       (recoveredSearch "t"
          (mkSearchLinkRecord (2 ^ 70 + 1) "q" 1 [] "completed" 1))
     = "Web Search 1.1805916207174113e+21"%string.
Proof. vm_compute. repeat split; reflexivity. Qed.
